(* ===== verification/_CoqProject ===== *)
-Q . S2P
Prelude.v
JSNum.v
JSRound.v
JSText.v
JSDate.v
Markup.v
ApiTypes.v
AuctionSlice.v
Schedule.v
SocketContext.v
AuctionSocket.v
Engine.v
AuctionPage.v
AuctionCard.v
Tally.v
Marketplace.v
Catalog.v
Shell.v
Accounts.v
Media.v
CreateAuction.v
AdminForm.v
ForwardForm.v
ShipmentForm.v
Listings.v
SellForms.v
ListingViews.v
BiddingConsole.v
LiveViews.v
Report.v
BidPath.v
EngineLife.v
Gateway.v
Recovery.v
Capture.v
SearchIndex.v
Consumers.v
Discussion.v
Scheduler.v
Finalize.v
LiveClock.v
LiveRoom.v
Pages.v
