(* ===== verification/Prelude.v ===== *)
(** * AquaBid: a verification library of the auction client and the servers it talks to

    AquaBid runs reverse and forward auctions.  The web client ([apps/web], Next.js)
    is modelled almost whole; of the servers ([apps/http-server], [apps/ws-server],
    [apps/grpc], [apps/gateway-keeper], [apps/auction-engine], [apps/scheduler],
    [apps/notification-worker], [apps/cdc-worker], [apps/search-server]) the rules a
    request must pass, the price rule, the state they keep and the messages they
    send each other.  Definitions keep the source's names and order.

    ** How the parts interact

    A seller submits a listing ([SellForms], [Listings]); an administrator reviews
    and schedules it ([ListingViews]), or an auction is made by one of three forms
    ([AdminForm], [ForwardForm], [ShipmentForm] over [CreateAuction] and [Media]).
    Bidders find it ([Marketplace], [Catalog], [AuctionCard]), register
    ([AuctionPage], with the rules of [Schedule]) and enter the room ([LiveRoom]).
    The room's hook ([AuctionSocket]) subscribes through the socket provider
    ([SocketContext]), turns the server's messages into actions of the store
    ([AuctionSlice]), and the views ([LiveViews], [BiddingConsole], [LiveClock]) read
    the store.  A bid goes from the console to the socket server, the broker, the
    partition worker and the auction's actor, which decides it, writes the ledger and
    broadcasts ([BidPath], [Engine]); the actor is started from a document, restarted
    after a panic, closed at its end, and its decisions reach the archive through a
    publisher ([EngineLife]); the archive is what the report shows ([Report]).
    An auction's rows, registrations and schedule are in the database; the scheduler
    claims what is due and writes the document and the bits from which the socket
    server and the engine open it ([Scheduler]); after the end the sweeper and the
    sync worker store its bids and winner ([Finalize]).  Two archives keep every bid
    request and every decision, and a worker mails notifications ([Consumers]).
    Changed rows reach the search through the replication stream ([Capture],
    [SearchIndex]).  The discussion of an auction is a table with a list of Redis before
    it ([Discussion]).
    [Shell], [Pages] and [Accounts] are the frame: guards, navigation, identity;
    [Recovery] is what the server's tokens open and how a password is reset.
    Every request passes the gateway ([Gateway]), which limits, authenticates,
    forwards and issues the tickets that the socket provider connects with.

    ** Files

    - [Prelude]: notations of [aqua_scope], result type and its bind, list lemmas,
      tactics ([bool_facts], [by_decide]) and the hint database [aqua].
    - [JSNum], [JSRound], [JSText], [JSDate]: the language.  Numbers are binary64 by
      the Standard Library's [SpecFloat] (both JavaScript's numbers and Rust's
      [f64]), so every rounding and comparison is the program's; [JSRound] proves
      that rounding is monotone.  Strings are Latin-1 code units; dates are integer
      milliseconds with [None] for an invalid date, and the browser's zone is a
      parameter.
    - [Markup]: what a component renders, a tree with the events it offers
      ([offered]), so a view's buttons and form constraints are facts about it.
    - [ApiTypes]: [types/api.ts], [schemas/], [constants/].
    - [AuctionSlice] ([store/slices/auctionSlice.ts]), [SocketContext]
      ([contexts/SocketContext.tsx]), [AuctionSocket] ([hooks/useAuctionSocket.ts]).
    - [Engine] ([auction-engine/src/types.rs], [ledger.rs], [actor/loop_.rs]);
      [BidPath] ([ws-server/src/auth.rs], [main.rs], [grpc/src/main.rs],
      [auction-engine/src/consumer.rs]); [EngineLife] ([actor/runtime.rs],
      [supervisor.rs], [publisher.rs], [ledger.rs]: [close_auction], and
      [ws-server/src/auth.rs]: [validate_auction_state]).
    - [Gateway] ([gateway-keeper/src], [http-server/src/middleware.rs]); [Recovery]
      ([http-server/src/services/auth.rs], [controllers/auth.rs]).
    - [Scheduler] ([scheduler/src/main.rs], [http-server/src/services/auction.rs]:
      insertions, joining, leaving, [ws-server/src/auth.rs]: [validate_participant]);
      [Finalize] ([notification-worker/src/main.rs]: [run_sync_worker],
      [run_sweep_worker], with the engine's close); [Consumers]
      ([request_audit.rs], [run_bid_audit_worker], [run_notification_worker]).
    - [Capture] ([cdc-worker/src/decoder.rs], [processor.rs]), [SearchIndex]
      ([search-server/src/consumer.rs], [es.rs] and the way from row to document);
      [Discussion] (the discussion in [http-server/src/services/auction.rs]).
    - [Schedule], [AuctionPage], [AuctionCard], [Tally], [Marketplace], [Catalog].
    - [Media], [CreateAuction], [AdminForm], [ForwardForm], [ShipmentForm]; [Listings]
      ([http-server/src/services/listing.rs]), [SellForms], [ListingViews].
    - [BiddingConsole], [LiveViews], [LiveClock], [LiveRoom], [Report].
    - [Shell], [Accounts], [Pages] (with [store/store.ts] and [packages/ui]).

    ** What the theorems show

    - The live price.  The slice's list of bids refines a map of bids and stays well
      formed; without a pending bid it does not depend on the order of deliveries
      ([AuctionSlice]); a snapshot restores it ([AuctionSocket]); as long as Redis
      loses no reply and no broadcast, a page that received the engine's decisions
      shows the engine's price, which is the best accepted amount ([Engine]); winner,
      leaderboard and price agree ([LiveViews]).
    - One bid around the circle.  The console's check is the engine's rule bit for
      bit, unless a reverse price is within a step and a cent of zero
      ([BiddingConsole]); an accepted bid settles on the page under its own
      identifier and leaves page and engine in agreement, a bid that is refused on
      the way stays on the page ([BidPath]).
    - From creation to archive.  The auction that is opened is the one that was
      created, page and engine agree on it, and exactly the registered may bid (a
      user joins and leaves in two steps, of the rows and of the bit, which rounds and
      other requests may separate; a round of the scheduler is one step); a schedule
      is retried until Redis serves it, and stranded by a failing query
      ([Scheduler]).  For an engine that is started only while its auction's own key is
      there and read, no accepted bid is lost by the finalization, the stored winner
      is the announced one when the configuration could be read, and a finalization
      left alone finishes; what happens otherwise is shown there too: a late or blind
      start, an unread configuration, a message that was passed over without a dead
      letter and waits for a restart ([Finalize]).  An archive has every message it
      has passed ([Consumers]); the index mirrors the tables as long as no change is
      given up, and the decoder reads what the protocol prints ([SearchIndex],
      [Capture]).
    - Faults.  Redis answers each call in one of four ways ([Engine.RedisOutcome]).
      The three readings of an actor's start and that of its close may fail
      ([EngineLife.StartReads], [EngineLife.close_auction]).  A request is accepted
      once; a lost reply leaves a stale price until a restart, which recovers the best
      price when it can read the bids; while its actor lives and no reply was lost the
      publisher, over any order of bids, failed deletions and panics, comes to rest
      with everything archived, in at most [turns_left] turns; the close announces the
      best bid when it can read the bids, and nothing after it is taken.
    - Connections.  The reference counts are the numbers of subscribers on every run;
      there is one live socket per auction, and it is the current one, while nobody
      leaves during a connection; tickets are used once.
    - The gateway.  A ticket opens one connection; who sent a request is the
      gateway's word; a breaker spares a dead service and lets a living one through
      again, unless a probe is dropped; what the limiter lets through is bounded.
    - Pages and rules.  The views' phases agree except at the end instant; the pages
      offer registration, review, scheduling and bidding exactly when the server
      accepts them; the three forms against the server's rules, uploads included.
    - Listings.  Decisions are final under every interleaving, the record is
      consistent, when an approved listing can be scheduled, and that two overlapping
      schedulings publish it twice.
    - Accounts.  The server keeps to an abstract one of passwords and mailboxes, and
      a token opens what it was issued for ([Recovery]).  The session in the browser
      is of one sign-in unless one is answered while a page waits to be confirmed.
    - The discussion.  The list of Redis cannot be seen as long as posts do not overlap
      and no day passes in silence; what it hides otherwise, and in which order
      overlapping posts are seen (a post is its four calls, [Discussion.post_calls]).
    - Report, catalogue, timers, previews: the theorems of their files.

    Several theorems record where two parts do not agree; the conditions that the
    others carry are the ones the code needs, and each theorem with conditions has a
    witness, a run at which they hold.

    ** Conventions, bounds

    Outside code is a parameter: parsers of dates and identifiers, the locale, d3,
    the map service, hashing, object URLs, Redis' first member of a sorted set (whose
    documented behaviour is the class [EngineLife.FirstMember], implied by that of the
    whole set, [Finalize.SortedSet]), the token library ([Recovery.TokenLibrary]).  A
    table that keeps the first row of a key is the class [Consumers.KeyedInsert].
    Presented tokens are issued ones ([Recovery.run_ok]).  Clock readings, random
    identifiers and answers of the network are arguments or events.  State machines
    are step functions folded over lists of events, so every interleaving is a list.
    Fuel occurs in the printing of numbers ([JSNum]: digits and exponents of a
    double are bounded) and as the proved bound [EngineLife.turns_left].  The expiry of
    the idempotency records after a day is not modelled: what is said of repeated
    requests holds within it.  Where the servers' integers saturate or wrap around, it
    is written out ([BidPath.i64_max], [Gateway.u32_max], [wrap] in
    [Scheduler.next_retry] and [Discussion.wrap64]).  The replication stream is bytes
    ([Capture]: numbers of two and four bytes, texts in UTF-8).

    ** Not modelled

    Styles, animations, the marketing texts between the operative parts of a page,
    package and lint configuration, drawing by d3 and the map library, the data
    library's cache beyond the queries a page makes, the texts of SQL and the ranking
    of the search index (a table is a map of rows, the index a map of documents),
    SMTP, the set-up of the replication slot and of the topics, the relaying of
    messages on an open connection, tracing: I/O whose effect enters the models as an
    event or an argument. *)

From Stdlib Require Export Sorting.Sorted Sorting.Permutation Lia.
From stdpp Require Export base gmap strings numbers.
From stdpp Require Export list.

#[global] Open Scope Z_scope.

Create HintDb aqua.

Declare Scope aqua_scope.
Delimit Scope aqua_scope with aqua.

(** JavaScript's [a || b] on strings: the empty string is falsy. *)
Definition or_str (a b : string) : string :=
  match a with EmptyString => b | _ => a end.

(** [a || b] where [a] is a string or [null]/[undefined]. *)
Definition or_ostr (a : option string) (b : string) : string :=
  match a with Some s => or_str s b | None => b end.

(** Truthiness of an optional string. *)
Definition truthy_str (a : option string) : bool :=
  match a with Some (String _ _) => true | _ => false end.

(** [a || null] on strings. *)
Definition or_null (a : string) : option string :=
  match a with EmptyString => None | _ => Some a end.

Notation "a '|||' b" := (or_str a b) (at level 50, left associativity) : aqua_scope.

(** ** Error results

    A promise that rejects with [new Error(msg)] is [Throw msg]. *)
Inductive result (A : Type) : Type :=
| Ok (a : A)
| Throw (msg : string).
Arguments Ok {A} a.
Arguments Throw {A} msg.

Definition rbind {A B} (m : result A) (k : A -> result B) : result B :=
  match m with Ok a => k a | Throw e => Throw e end.

Notation "'let*' x ':=' m 'in' k" := (rbind m (fun x => k))
  (at level 10, x name, m at level 200, k at level 200) : aqua_scope.

(** ** Tactics *)

(** Case analysis on every boolean test and match of the goal, then the
    arithmetic that the tests give. *)
Ltac case_tests :=
  repeat match goal with
  | |- context [if ?b then _ else _] => destruct b eqn:?
  | H : context [if ?b then _ else _] |- _ => destruct b eqn:?
  end.

Ltac bool_facts :=
  repeat match goal with
  | H : (_ <? _) = true |- _ => apply Z.ltb_lt in H
  | H : (_ <? _) = false |- _ => apply Z.ltb_ge in H
  | H : (_ <=? _) = true |- _ => apply Z.leb_le in H
  | H : (_ <=? _) = false |- _ => apply Z.leb_gt in H
  | H : (_ =? _) = true |- _ => apply Z.eqb_eq in H
  | H : (_ =? _) = false |- _ => apply Z.eqb_neq in H
  | H : (_ && _) = true |- _ => apply andb_true_iff in H as [? ?]
  | H : (_ || _) = false |- _ => apply orb_false_iff in H as [? ?]
  | H : negb _ = true |- _ => apply negb_true_iff in H
  | H : negb _ = false |- _ => apply negb_false_iff in H
  end.

Ltac tests := case_tests; bool_facts; try (first [lia | congruence | done]).

(** Decidable facts on concrete data. *)
Ltac by_decide :=
  match goal with |- ?P => refine (bool_decide_unpack P _); vm_compute; exact I end.

(** Membership in a literal list. *)
Ltac list_in := rewrite ?elem_of_cons, ?elem_of_nil in *; intuition (congruence || eauto).

(** A membership hypothesis that computation refutes. *)
Ltac not_here H := exfalso; revert H; by_decide.

(** ** Array helpers *)
Section Arrays.
Context {A : Type}.

(** [Array.prototype.findIndex], with [None] for [-1]. *)
Fixpoint find_index (p : A -> bool) (l : list A) : option nat :=
  match l with
  | [] => None
  | x :: l' => if p x then Some 0%nat else S <$> find_index p l'
  end.

(** [Array.prototype.find]. *)
Fixpoint js_find (p : A -> bool) (l : list A) : option A :=
  match l with
  | [] => None
  | x :: l' => if p x then Some x else js_find p l'
  end.

(** [Array.prototype.filter] with a boolean predicate. *)
Definition js_filter (p : A -> bool) (l : list A) : list A := List.filter p l.

Lemma find_index_Some p l i :
  find_index p l = Some i ->
  exists x, l !! i = Some x /\ p x = true /\
    forall j y, (j < i)%nat -> l !! j = Some y -> p y = false.
Proof.
  revert i; induction l as [|x l IH]; intros i; simpl; [done|].
  destruct (p x) eqn:Hp.
  - intros [= <-]; exists x; repeat split; auto; intros; lia.
  - destruct (find_index p l) as [k|] eqn:Hk; simpl; [|done].
    intros [= <-]. destruct (IH k eq_refl) as (y & Hy & Hpy & Hmin).
    exists y; repeat split; auto.
    intros [|j] z Hj Hz; simpl in Hz; [congruence|]. eapply Hmin; eauto; lia.
Qed.

Lemma find_index_None p l :
  find_index p l = None <-> Forall (fun x => p x = false) l.
Proof.
  induction l as [|x l IH]; simpl; [split; auto|].
  destruct (p x) eqn:Hp; split; intros H.
  - done.
  - inversion H; congruence.
  - constructor; auto. apply IH. by destruct (find_index p l).
  - inversion H; subst. by rewrite (proj2 IH).
Qed.

Lemma js_find_Some p l x :
  js_find p l = Some x -> x ∈ l /\ p x = true.
Proof.
  induction l as [|y l IH]; simpl; [done|].
  destruct (p y) eqn:Hp.
  - intros [= ->]. split; auto. apply list_elem_of_here.
  - intros H; destruct (IH H). split; auto. by apply list_elem_of_further.
Qed.

Lemma js_find_None p l :
  js_find p l = None <-> Forall (fun x => p x = false) l.
Proof.
  induction l as [|x l IH]; simpl; [split; auto|].
  destruct (p x) eqn:Hp; split; intros H.
  - done.
  - inversion H; congruence.
  - constructor; auto. by apply IH.
  - inversion H; subst. by apply IH.
Qed.
End Arrays.

(** *** Runs

    Many components are machines whose runs fold a step over a list of events: what
    every step keeps, on the events that are allowed, every run keeps. *)
Lemma fold_left_inv {A B} (step : A -> B -> A) (P : A -> Prop) (Q : B -> Prop) l a :
  (forall a b, Q b -> P a -> P (step a b)) -> Forall Q l -> P a -> P (fold_left step l a).
Proof.
  intros Hs Hl. revert a; induction Hl as [|b l Hb _ IH]; intros a Ha; [done|]. by apply IH, Hs.
Qed.

(** *** Integers of a width

    The two's complement of [w] bits that a sum comes to in a release build. *)
Definition wrap (w x : Z) : Z := (x + 2 ^ (w - 1)) mod 2 ^ w - 2 ^ (w - 1).

Lemma wrap_id w x : 0 < w -> - 2 ^ (w - 1) <= x < 2 ^ (w - 1) -> wrap w x = x.
Proof.
  intros Hw Hx. unfold wrap. replace (2 ^ w) with (2 * 2 ^ (w - 1)) by (rewrite <-Z.pow_succ_r by lia; f_equal; lia).
  rewrite Z.mod_small; lia.
Qed.

(** *** Texts put together *)

Lemma str_app_inj a b c d :
  String.length a = String.length c -> a +:+ b = c +:+ d -> a = c /\ b = d.
Proof.
  revert c; induction a as [|x a IH]; intros [|y c] Hl E; simplify_eq/=; [done|].
  destruct (IH c) as [-> ->]; auto.
Qed.

Lemma str_length_app a b : String.length (a +:+ b) = (String.length a + String.length b)%nat.
Proof. induction a as [|x a IH]; simpl; auto. Qed.

Lemma str_app_inj_r t a b : a +:+ t = b +:+ t -> a = b.
Proof.
  intros E. apply (str_app_inj a t b t) in E as [-> _]; [done|].
  apply (f_equal String.length) in E. rewrite !str_length_app in E. lia.
Qed.

(** *** [filter] *)
Lemma js_filter_ext {A} (p q : A -> bool) (l : list A) :
  (forall x, x ∈ l -> p x = q x) -> js_filter p l = js_filter q l.
Proof.
  induction l as [|x l IH]; [done|]. intros H. simpl. rewrite (H x), IH; [done| |by left].
  intros y Hy. apply H. by right.
Qed.

Lemma js_filter_true {A} (p : A -> bool) (l : list A) : (forall x, x ∈ l -> p x = true) -> js_filter p l = l.
Proof.
  induction l as [|x l IH]; [done|]. intros H. simpl. rewrite (H x) by (by left). f_equal. apply IH.
  intros y Hy. apply H. by right.
Qed.

Lemma js_filter_split {A} (p q : A -> bool) (l : list A) :
  (forall x, x ∈ l -> q x = negb (p x)) -> Permutation (js_filter p l ++ js_filter q l) l.
Proof.
  induction l as [|x l IH]; [done|]. intros H. simpl. rewrite (H x) by (by left).
  assert (IH' : Permutation (js_filter p l ++ js_filter q l) l) by (apply IH; intros y Hy; apply H; by right).
  destruct (p x); simpl; [by constructor|]. by rewrite <-Permutation_middle; constructor.
Qed.

(** ** Stable sorting

    [Array.prototype.sort] is stable (ECMAScript 2019); the comparator's answer
    [cmp x y <= 0] is [le x y]. For a comparator that is a total preorder the
    result is determined, and insertion sort computes it. *)
Section Sorting.
Context {A : Type} (le : A -> A -> bool).

Fixpoint js_insert (x : A) (l : list A) : list A :=
  match l with
  | [] => [x]
  | y :: l' => if le x y then x :: l else y :: js_insert x l'
  end.

Fixpoint js_sort (l : list A) : list A :=
  match l with
  | [] => []
  | x :: l' => js_insert x (js_sort l')
  end.

Lemma js_insert_perm x l : Permutation (js_insert x l) (x :: l).
Proof.
  induction l as [|y l IH]; simpl; auto. destruct (le x y); auto.
  rewrite IH. apply perm_swap.
Qed.

Lemma js_sort_perm l : Permutation (js_sort l) l.
Proof. induction l; simpl; auto. rewrite js_insert_perm. by apply perm_skip. Qed.

Lemma js_sort_length l : length (js_sort l) = length l.
Proof. apply Permutation_length, js_sort_perm. Qed.

Lemma js_sort_Forall (P : A -> Prop) l : Forall P l -> Forall P (js_sort l).
Proof. intros H. by rewrite js_sort_perm. Qed.

Lemma js_sort_elem_of x l : x ∈ js_sort l <-> x ∈ l.
Proof. by rewrite js_sort_perm. Qed.

Definition leP (x y : A) : Prop := le x y = true.

Context (P : A -> Prop).
Hypothesis le_total : forall x y, P x -> P y -> le x y = true \/ le y x = true.
Hypothesis le_trans : forall x y z, P x -> P y -> P z ->
  le x y = true -> le y z = true -> le x z = true.

Lemma js_insert_sorted x l :
  P x -> Forall P l -> StronglySorted leP l -> StronglySorted leP (js_insert x l).
Proof.
  intros Hx Hl Hs. induction Hs as [|y l Hs IH Hy]; simpl; [repeat constructor|].
  inversion Hl as [|? ? Py Pl]; subst.
  destruct (le x y) eqn:E.
  - constructor; [by constructor|]. constructor; [done|].
    rewrite Forall_forall in Hy, Pl |- *. intros z Hz. unfold leP in *.
    apply le_trans with y; auto.
  - constructor; [by apply IH|]. rewrite js_insert_perm. constructor; [|done].
    unfold leP. destruct (le_total x y Hx Py); congruence.
Qed.

Lemma js_sort_sorted l : Forall P l -> StronglySorted leP (js_sort l).
Proof.
  induction 1; simpl; [constructor|].
  apply js_insert_sorted; auto. by apply js_sort_Forall.
Qed.

(** A list that is already in order is not changed. *)
Lemma js_sort_id l : StronglySorted leP l -> js_sort l = l.
Proof.
  induction 1 as [|x l Hs IH Hx]; simpl; auto. rewrite IH.
  destruct l as [|y l']; simpl; auto. inversion Hx; subst.
  unfold leP in *. by rewrite H1.
Qed.
End Sorting.

(** A check that a concrete list is in order. *)
Fixpoint in_order {A} (le : A -> A -> bool) (l : list A) : bool :=
  match l with [] => true | x :: l' => forallb (le x) l' && in_order le l' end.

Lemma sorted_check {A} (le : A -> A -> bool) (l : list A) : in_order le l = true -> StronglySorted (leP le) l.
Proof.
  induction l as [|x l IH]; simpl; [constructor|]. intros [H1 H2]%andb_true_iff. constructor; [by apply IH|].
  apply Forall_forall. intros y Hy. rewrite forallb_forall in H1. apply H1. by rewrite <-list_elem_of_In.
Qed.

Lemma sorted_weaken {A} (R S : A -> A -> Prop) (l : list A) :
  (forall x y, R x y -> S x y) -> StronglySorted R l -> StronglySorted S l.
Proof. intros H. induction 1; constructor; [done|]. eapply Forall_impl; eauto. Qed.

#[export] Hint Resolve js_sort_perm js_sort_Forall : aqua.
