(* ===== verification/JSNum.v ===== *)
(** * JavaScript numbers

    The source computes prices with JavaScript numbers, which are IEEE 754
    binary64 values (the engine's [f64] is the same type).  They are modelled by
    the Standard Library's executable specification [spec_float] at precision 53
    and maximal exponent 1024, so every comparison and every rounding below is
    the one the program makes.  The file holds the operators the source uses,
    [Number(string)], [toFixed(2)], [Number.prototype.toString], and the order
    theory that the components' proofs rest on. *)

From S2P Require Import Prelude.
From stdpp Require Import pretty.
From Stdlib Require Import SpecFloat Ascii.
#[local] Open Scope Z_scope.

Abbreviation prec := (53%Z).
Abbreviation emax := (1024%Z).

Abbreviation num := spec_float.

Definition nadd : num -> num -> num := SFadd prec emax.
Definition nsub : num -> num -> num := SFsub prec emax.
Definition nmul : num -> num -> num := SFmul prec emax.
Definition ndiv : num -> num -> num := SFdiv prec emax.

Definition nlt (x y : num) : bool := SFltb x y.
Definition nle (x y : num) : bool := SFleb x y.
Definition neq (x y : num) : bool := SFeqb x y.

Definition is_nan (x : num) : bool :=
  match x with S754_nan => true | _ => false end.

(** [Number.isFinite]. *)
Definition is_finite (x : num) : bool :=
  match x with S754_zero _ | S754_finite _ _ _ => true | _ => false end.

(** Truthiness of a number: neither zero nor [NaN]. *)
Definition truthy_num (x : num) : bool :=
  match x with S754_zero _ | S754_nan => false | _ => true end.

(** [x || y] on numbers. *)
Definition or_num (x y : num) : num := if truthy_num x then x else y.

(** The bit patterns a JavaScript number can have. *)
Definition valid (x : num) : bool := valid_binary prec emax x.

Definition nzero : num := S754_zero false.

(** The number of an integer literal. *)
Definition of_Z (z : Z) : num := binary_normalize prec emax z 0 false.

(** ** [Math.min] and [Math.max]

    [NaN] absorbs, and [-0] is below [+0]. *)
Definition is_neg_zero (x : num) : bool :=
  match x with S754_zero true => true | _ => false end.
Definition is_pos_zero (x : num) : bool :=
  match x with S754_zero false => true | _ => false end.

Definition min_step (lowest x : num) : num :=
  if is_nan lowest || is_nan x then S754_nan
  else if (is_neg_zero x && is_pos_zero lowest) || nlt x lowest then x else lowest.

Definition max_step (highest x : num) : num :=
  if is_nan highest || is_nan x then S754_nan
  else if (is_pos_zero x && is_neg_zero highest) || nlt highest x then x else highest.

Definition js_min (l : list num) : num := fold_left min_step l (S754_infinity false).
Definition js_max (l : list num) : num := fold_left max_step l (S754_infinity true).

(** The answer of [(a, b) => a - b] used as a sort comparator: [a] may stay
    before [b] when the difference is not positive; [NaN] counts as [+0]. *)
Definition sub_le (a b : num) : bool :=
  let d := nsub a b in is_nan d || nle d nzero.

(** ** Decimal text *)

(** The double nearest to [(-1)^s * m * 10^e], ties to even.  Exponents that
    certainly overflow or underflow are answered without computing the power. *)
Definition dec_to_num (s : bool) (m e : Z) : num :=
  match m with
  | Zpos p =>
      if 400 <? e then S754_infinity s
      else if e <? -(400 + Zdigits2 m) then S754_zero s
      else if 0 <=? e then
        match m * 10 ^ e with
        | Zpos q => binary_round prec emax s q 0
        | _ => S754_zero s
        end
      else
        let '(mz, ez, lz) := SFdiv_core_binary prec emax m 0 (10 ^ (- e)) 0 in
        binary_round_aux prec emax s mz ez lz
  | _ => S754_zero s
  end.

Definition digit_val (c : Ascii.ascii) : option Z :=
  let n := Z.of_nat (Ascii.nat_of_ascii c) in
  if (48 <=? n) && (n <=? 57) then Some (n - 48) else None.

(** The leading decimal digits of [s]: their value, their number, the rest. *)
Fixpoint span_digits (acc : Z) (cnt : Z) (s : string) : Z * Z * string :=
  match s with
  | EmptyString => (acc, cnt, s)
  | String c s' =>
      match digit_val c with
      | Some d => span_digits (acc * 10 + d) (cnt + 1) s'
      | None => (acc, cnt, s)
      end
  end.

(** White space and line terminators of the Latin-1 range. *)
Definition is_space (c : Ascii.ascii) : bool :=
  match Ascii.nat_of_ascii c with
  | 9 | 10 | 11 | 12 | 13 | 32 | 160 => true
  | _ => false
  end%nat.

Fixpoint trim_start (s : string) : string :=
  match s with
  | String c s' => if is_space c then trim_start s' else s
  | EmptyString => s
  end.

Fixpoint trim_end (s : string) : string :=
  match s with
  | EmptyString => EmptyString
  | String c s' =>
      match trim_end s' with
      | EmptyString => if is_space c then EmptyString else String c EmptyString
      | t => String c t
      end
  end.

(** [String.prototype.trim]. *)
Definition trim (s : string) : string := trim_end (trim_start s).

(** The exponent part of a decimal literal, which must end the text. *)
Definition parse_exponent (s : string) : option Z :=
  match s with
  | EmptyString => Some 0
  | String "e"%char r | String "E"%char r =>
      let '(neg, r') := match r with
                        | String "-"%char r' => (true, r')
                        | String "+"%char r' => (false, r')
                        | _ => (false, r) end in
      let '(v, n, rest) := span_digits 0 0 r' in
      match rest with
      | EmptyString => if 0 <? n then Some (if neg : bool then - v else v) else None
      | _ => None
      end
  | _ => None
  end.

Definition parse_unsigned (s : bool) (t : string) : num :=
  if decide (t = "Infinity") then S754_infinity s
  else
    let '(ip, n1, r1) := span_digits 0 0 t in
    let '(m, n2, r2) := match r1 with
                        | String "."%char r => span_digits ip 0 r
                        | _ => (ip, 0, r1) end in
    if 0 <? n1 + n2 then
      match parse_exponent r2 with
      | Some e => dec_to_num s m (e - n2)
      | None => S754_nan
      end
    else S754_nan.

(** [Number(text)] for the decimal grammar and the empty text.  (The [0x], [0o]
    and [0b] integer forms cannot come out of a number input and are answered
    [NaN].) *)
Definition Number (text : string) : num :=
  match trim text with
  | EmptyString => nzero
  | String "-"%char r => parse_unsigned true r
  | String "+"%char r => parse_unsigned false r
  | t => parse_unsigned false t
  end.

Fixpoint zeros (n : nat) : string :=
  match n with O => EmptyString | S k => String "0" (zeros k) end.

(** [String.prototype.padStart(n, '0')]. *)
Definition pad_start (n : nat) (s : string) : string :=
  (zeros (n - String.length s) +:+ s).

(** The decimal digits of an integer, as [Number.prototype.toString] writes an
    integer below 10^21. *)
Definition string_of_Z (z : Z) : string := pretty z.

(** ** [Number.prototype.toString]

    The shortest decimal that reads back as the number: for [k] digits at a
    time, the two neighbours of the exact value are tried, the nearer first. *)
Definition ratio (m : positive) (e : Z) : Z * Z :=
  if 0 <=? e then (Z.pos m * 2 ^ e, 1) else (Z.pos m, 2 ^ (- e)).

Fixpoint below_one (fuel : nat) (n d : Z) (j : Z) : Z :=
  match fuel with
  | O => j
  | S f => if d <=? n then j else below_one f (n * 10) d (j + 1)
  end.

(** The [n] with [10^(n-1) <= x < 10^n]. *)
Definition dec_point (n d : Z) : Z :=
  if d <=? n then Z.of_nat (String.length (string_of_Z (n / d)))
  else 1 - below_one 400 n d 0.

Fixpoint shortest (fuel : nat) (k : Z) (x : num) (n d p : Z) : Z * Z :=
  match fuel with
  | O => (0, 0)
  | S f =>
      let q := p - k in
      let (a, b) := if 0 <=? q then (n, d * 10 ^ q) else (n * 10 ^ (- q), d) in
      let lo := a / b in
      let first := if 2 * (a mod b) <=? b then lo else lo + 1 in
      let second := 2 * lo + 1 - first in
      if neq (dec_to_num false first q) x then (first, q)
      else if neq (dec_to_num false second q) x then (second, q)
      else shortest f (k + 1) x n d p
  end.

Fixpoint strip_zeros (fuel : nat) (n q : Z) : Z * Z :=
  match fuel with
  | O => (n, q)
  | S f => if (n mod 10 =? 0) && (0 <? n) then strip_zeros f (n / 10) (q + 1) else (n, q)
  end.

Definition layout (digits : string) (n : Z) : string :=
  let k := Z.of_nat (String.length digits) in
  if (k <=? n) && (n <=? 21) then digits +:+ zeros (Z.to_nat (n - k))
  else if (0 <? n) && (n <=? 21) then
    String.substring 0 (Z.to_nat n) digits +:+ "." +:+
    String.substring (Z.to_nat n) (Z.to_nat (k - n)) digits
  else if (-6 <? n) && (n <=? 0) then "0." +:+ zeros (Z.to_nat (- n)) +:+ digits
  else
    let ex := n - 1 in
    let exs := if 0 <=? ex then "+" +:+ string_of_Z ex else string_of_Z ex in
    if k =? 1 then digits +:+ "e" +:+ exs
    else String.substring 0 1 digits +:+ "." +:+
         String.substring 1 (Z.to_nat (k - 1)) digits +:+ "e" +:+ exs.

Definition positive_to_string (m : positive) (e : Z) : string :=
  let (n, d) := ratio m e in
  let (v, q) := shortest 25 1 (S754_finite false m e) n d (dec_point n d) in
  let (v', q') := strip_zeros 30 v q in
  let digits := string_of_Z v' in
  layout digits (Z.of_nat (String.length digits) + q').

(** [x.toString()], also what template literals write. *)
Definition num_to_string (x : num) : string :=
  match x with
  | S754_nan => "NaN"
  | S754_zero _ => "0"
  | S754_infinity s => if s then "-Infinity" else "Infinity"
  | S754_finite s m e => (if s then "-" else "") +:+ positive_to_string m e
  end.

(** The integer nearest to [k * m * 2^e], the larger of two. *)
Definition nearest (k : Z) (m : positive) (e : Z) : Z :=
  if 0 <=? e then k * (Z.pos m * 2 ^ e)
  else (2 * k * Z.pos m + 2 ^ (- e)) / 2 ^ (- e + 1).

Definition fixed_digits (d : nat) (n : Z) : string :=
  let k := 10 ^ Z.of_nat d in
  string_of_Z (n / k) +:+ (if (d =? 0)%nat then "" else "." +:+ pad_start d (string_of_Z (n mod k))).

(** [x.toFixed(d)]. *)
Definition to_fixed (d : nat) (x : num) : string :=
  let k := 10 ^ Z.of_nat d in
  match x with
  | S754_zero _ => fixed_digits d 0
  | S754_finite s m e =>
      if k * 10 ^ 21 <=? nearest k m e then num_to_string x
      else (if s then "-" else "") +:+ fixed_digits d (nearest k m e)
  | _ => num_to_string x
  end.

Definition to_fixed2 : num -> string := to_fixed 2.

Example number_price : Number "19.99" = S754_finite false 5626684784446013 (-48).
Proof. reflexivity. Qed.
Example number_forms :
  map Number [""; " 12 "; "-3.50"; "1e3"; "abc"; "1."; ".5"; "."; "1e"] =
  [nzero; of_Z 12; nsub nzero (ndiv (of_Z 7) (of_Z 2)); of_Z 1000; S754_nan; of_Z 1;
   ndiv (of_Z 1) (of_Z 2); S754_nan; S754_nan].
Proof. vm_compute. reflexivity. Qed.
Example to_string_forms :
  map (fun t => num_to_string (Number t))
    ["0.1"; "100"; "1e21"; "1e-7"; "123.456"; "5e-324"; "1.7976931348623157e308"; "0.000001"] =
  ["0.1"; "100"; "1e+21"; "1e-7"; "123.456"; "5e-324"; "1.7976931348623157e+308"; "0.000001"].
Proof. vm_compute. reflexivity. Qed.
Example to_string_sum :
  num_to_string (nadd (Number "0.1") (Number "0.2")) = "0.30000000000000004".
Proof. vm_compute. reflexivity. Qed.
Example to_fixed_forms :
  map (fun t => to_fixed2 (Number t)) ["1.005"; "0.5"; "2"; "-1.25"; "1234.567"; "1e22"] =
  ["1.00"; "0.50"; "2.00"; "-1.25"; "1234.57"; "1e+22"].
Proof. vm_compute. reflexivity. Qed.
Example to_fixed_places :
  [to_fixed 1 (Number "12.25"); to_fixed 0 (Number "2.5"); to_fixed 1 nzero] = ["12.3"; "3"; "0.0"].
Proof. vm_compute. reflexivity. Qed.

(** ** Order theory

    Every number that is not [NaN] has a key in a lexicographic order of integer
    triples, and the comparisons of the source compare keys. *)
Definition nkey (x : num) : Z * Z * Z :=
  match x with
  | S754_nan | S754_zero _ => (0, 0, 0)
  | S754_infinity true => (-2, 0, 0)
  | S754_infinity false => (2, 0, 0)
  | S754_finite true m e => (-1, - e, Z.neg m)
  | S754_finite false m e => (1, e, Z.pos m)
  end.

Definition klt (k k' : Z * Z * Z) : Prop :=
  let '(a, b, c) := k in let '(a', b', c') := k' in
  a < a' \/ a = a' /\ (b < b' \/ b = b' /\ c < c').

Definition kle (k k' : Z * Z * Z) : Prop :=
  let '(a, b, c) := k in let '(a', b', c') := k' in
  a < a' \/ a = a' /\ (b < b' \/ b = b' /\ c <= c').

Lemma SFcompare_key x y :
  is_nan x = false -> is_nan y = false ->
  match SFcompare x y with
  | Some Lt => klt (nkey x) (nkey y)
  | Some Eq => nkey x = nkey y
  | Some Gt => klt (nkey y) (nkey x)
  | None => False
  end.
Proof.
  destruct x as [[]|[]| |[] m e], y as [[]|[]| |[] m' e']; simpl; try done; intros _ _;
    unfold klt; try (left; lia); try lia.
  - change (Pos.compare_cont Eq m m') with (m ?= m')%positive.
    destruct (Z.compare_spec e e'); simpl; [|lia|lia]; subst.
    destruct (Pos.compare_spec m m'); simpl; subst; [done|lia|lia].
  - change (Pos.compare_cont Eq m m') with (m ?= m')%positive.
    destruct (Z.compare_spec e e'); simpl; [|lia|lia]; subst.
    destruct (Pos.compare_spec m m'); simpl; subst; [done|lia|lia].
Qed.

Section Compare.
Context (x y : num) (Hx : is_nan x = false) (Hy : is_nan y = false).

Lemma nlt_key : nlt x y = true <-> klt (nkey x) (nkey y).
Proof.
  unfold nlt, SFltb. pose proof (SFcompare_key x y Hx Hy) as H.
  destruct (nkey x) as [[a b] c], (nkey y) as [[a' b'] c'].
  destruct (SFcompare x y) as [[]|]; unfold klt in *; simplify_eq; intuition (try lia; try done).
Qed.

Lemma nle_key : nle x y = true <-> kle (nkey x) (nkey y).
Proof.
  unfold nle, SFleb. pose proof (SFcompare_key x y Hx Hy) as H.
  destruct (nkey x) as [[a b] c], (nkey y) as [[a' b'] c'].
  destruct (SFcompare x y) as [[]|]; unfold klt, kle in *; simplify_eq; intuition (try lia; try done).
Qed.

Lemma neq_key : neq x y = true <-> nkey x = nkey y.
Proof.
  unfold neq, SFeqb. pose proof (SFcompare_key x y Hx Hy) as H.
  destruct (nkey x) as [[a b] c], (nkey y) as [[a' b'] c'].
  destruct (SFcompare x y) as [[]|]; unfold klt in *; simplify_eq; split; intros; simplify_eq; try done; lia.
Qed.
End Compare.

Lemma nlt_nan x y : nlt x y = true -> is_nan x = false /\ is_nan y = false.
Proof. destruct x, y; try (by destruct s); done. Qed.

Lemma nle_nan x y : nle x y = true -> is_nan x = false /\ is_nan y = false.
Proof. destruct x, y; try (by destruct s); done. Qed.

Lemma neq_nan x y : neq x y = true -> is_nan x = false /\ is_nan y = false.
Proof. destruct x, y; try (by destruct s); done. Qed.

Lemma finite_not_nan x : is_finite x = true -> is_nan x = false.
Proof. by destruct x. Qed.

#[export] Hint Resolve finite_not_nan : aqua.

(** Turns every comparison in the context and the goal into its key form and
    decides the resulting integer problem. *)
Ltac num_facts :=
  repeat match goal with
  | H : nlt ?x ?y = true |- _ =>
      let A := fresh in let B := fresh in
      destruct (nlt_nan x y H) as [A B]; apply (nlt_key x y A B) in H
  | H : nle ?x ?y = true |- _ =>
      let A := fresh in let B := fresh in
      destruct (nle_nan x y H) as [A B]; apply (nle_key x y A B) in H
  | H : neq ?x ?y = true |- _ =>
      let A := fresh in let B := fresh in
      destruct (neq_nan x y H) as [A B]; apply (neq_key x y A B) in H
  | H : nlt ?x ?y = false |- _ =>
      apply not_true_iff_false in H; rewrite (nlt_key x y) in H by eauto with aqua
  | H : nle ?x ?y = false |- _ =>
      apply not_true_iff_false in H; rewrite (nle_key x y) in H by eauto with aqua
  | H : neq ?x ?y = false |- _ =>
      apply not_true_iff_false in H; rewrite (neq_key x y) in H by eauto with aqua
  end.

Ltac num_goal :=
  match goal with
  | |- nlt _ _ = true => apply nlt_key; [by eauto with aqua|by eauto with aqua|]
  | |- nle _ _ = true => apply nle_key; [by eauto with aqua|by eauto with aqua|]
  | |- neq _ _ = true => apply neq_key; [by eauto with aqua|by eauto with aqua|]
  | |- nlt _ _ = false => apply not_true_iff_false; rewrite nlt_key by eauto with aqua
  | |- nle _ _ = false => apply not_true_iff_false; rewrite nle_key by eauto with aqua
  | |- neq _ _ = false => apply not_true_iff_false; rewrite neq_key by eauto with aqua
  | _ => idtac
  end.

Ltac keys :=
  unfold klt, kle in *;
  repeat match goal with
  | H : context [nkey ?x] |- _ =>
      let a := fresh in let b := fresh in let c := fresh in
      destruct (nkey x) as [[a b] c] in *
  | |- context [nkey ?x] =>
      let a := fresh in let b := fresh in let c := fresh in
      destruct (nkey x) as [[a b] c] in *
  end; simplify_eq; first [lia | f_equal; [f_equal|]; lia | congruence].

(** Decides goals about the order of numbers. *)
Ltac num_order := num_facts; num_goal; keys.

Lemma nle_refl x : is_nan x = false -> nle x x = true.
Proof. intros. num_order. Qed.

Lemma nle_trans x y z : nle x y = true -> nle y z = true -> nle x z = true.
Proof. intros. num_order. Qed.

Lemma nle_total x y :
  is_nan x = false -> is_nan y = false -> nle x y = true \/ nle y x = true.
Proof.
  intros. destruct (nle x y) eqn:E; [by left|right]. num_order.
Qed.

Lemma nlt_nle x y : nlt x y = true -> nle x y = true.
Proof. intros. num_order. Qed.

Lemma nlt_nle_neg x y :
  is_nan x = false -> is_nan y = false -> nlt x y = negb (nle y x).
Proof.
  intros Hx Hy. destruct (nle y x) eqn:E; simpl; num_order.
Qed.

Lemma nle_lt_trans x y z : nle x y = true -> nlt y z = true -> nlt x z = true.
Proof. intros. num_order. Qed.

Lemma nlt_le_trans x y z : nlt x y = true -> nle y z = true -> nlt x z = true.
Proof. intros. num_order. Qed.

Lemma nlt_irrefl x : nlt x x = false.
Proof.
  destruct (is_nan x) eqn:E; [by destruct x|]. num_order.
Qed.

Lemma nle_antisym x y : nle x y = true -> nle y x = true -> neq x y = true.
Proof. intros. num_order. Qed.

Lemma neq_nle x y : neq x y = true -> nle x y = true.
Proof. intros. num_order. Qed.

Lemma neq_sym x y : neq x y = true -> neq y x = true.
Proof. intros. num_order. Qed.

Lemma neq_refl x : is_nan x = false -> neq x x = true.
Proof. intros. num_order. Qed.

#[export] Hint Resolve nle_refl nlt_nle neq_nle neq_sym neq_refl : aqua.

(** ** [Math.min] of the non-[NaN] numbers is a lower bound that is attained *)
Lemma min_step_spec a x :
  is_nan a = false -> is_nan x = false ->
  is_nan (min_step a x) = false /\ nle (min_step a x) a = true /\
  nle (min_step a x) x = true /\ (min_step a x = a \/ min_step a x = x).
Proof.
  intros Ha Hx. unfold min_step. rewrite Ha, Hx. simpl.
  destruct ((is_neg_zero x && is_pos_zero a) || nlt x a) eqn:E.
  - repeat split; eauto with aqua.
    apply orb_true_iff in E as [E|E]; [|num_order].
    by destruct x as [[]| | |], a as [[]| | |].
  - apply orb_false_iff in E as [_ E]. repeat split; eauto with aqua. num_order.
Qed.

Lemma max_step_spec a x :
  is_nan a = false -> is_nan x = false ->
  is_nan (max_step a x) = false /\ nle a (max_step a x) = true /\
  nle x (max_step a x) = true /\ (max_step a x = a \/ max_step a x = x).
Proof.
  intros Ha Hx. unfold max_step. rewrite Ha, Hx. simpl.
  destruct ((is_pos_zero x && is_neg_zero a) || nlt a x) eqn:E.
  - repeat split; eauto with aqua.
    apply orb_true_iff in E as [E|E]; [|num_order].
    by destruct x as [[]| | |], a as [[]| | |].
  - apply orb_false_iff in E as [_ E]. repeat split; eauto with aqua. num_order.
Qed.

Lemma fold_min_spec l a :
  is_nan a = false -> Forall (fun x => is_nan x = false) l ->
  let r := fold_left min_step l a in
  is_nan r = false /\ nle r a = true /\ Forall (fun x => nle r x = true) l /\ (r = a \/ r ∈ l).
Proof.
  revert a; induction l as [|x l IH]; intros a Ha Hl; simpl.
  - repeat split; eauto with aqua.
  - inversion Hl as [|? ? Hx Hl']; subst.
    destruct (min_step_spec a x Ha Hx) as (N & La & Lx & D).
    destruct (IH _ N Hl') as (N' & L' & F' & D'). repeat split; auto.
    + eapply nle_trans; eauto.
    + constructor; auto. eapply nle_trans; eauto.
    + destruct D' as [->|]; [|right; by apply list_elem_of_further].
      destruct D as [->| ->]; [by left|right; apply list_elem_of_here].
Qed.

Lemma fold_max_spec l a :
  is_nan a = false -> Forall (fun x => is_nan x = false) l ->
  let r := fold_left max_step l a in
  is_nan r = false /\ nle a r = true /\ Forall (fun x => nle x r = true) l /\ (r = a \/ r ∈ l).
Proof.
  revert a; induction l as [|x l IH]; intros a Ha Hl; simpl.
  - repeat split; eauto with aqua.
  - inversion Hl as [|? ? Hx Hl']; subst.
    destruct (max_step_spec a x Ha Hx) as (N & La & Lx & D).
    destruct (IH _ N Hl') as (N' & L' & F' & D'). repeat split; auto.
    + eapply nle_trans; eauto.
    + constructor; auto. eapply nle_trans; eauto.
    + destruct D' as [->|]; [|right; by apply list_elem_of_further].
      destruct D as [->| ->]; [by left|right; apply list_elem_of_here].
Qed.

Lemma js_min_spec l :
  l <> [] -> Forall (fun x => is_finite x = true) l ->
  js_min l ∈ l /\ Forall (fun x => nle (js_min l) x = true) l.
Proof.
  intros Hne Hl.
  assert (Hn : Forall (fun x => is_nan x = false) l)
    by (eapply Forall_impl; eauto with aqua).
  destruct (fold_min_spec l (S754_infinity false) eq_refl Hn) as (N & L & F & D).
  fold (js_min l) in *. split; auto. destruct D as [D|]; auto.
  destruct l as [|x l]; [done|]. inversion F as [|? ? Hx _]; subst. inversion Hl as [|? ? Fx _]; subst.
  rewrite D in Hx. destruct x as [| | |[]]; done.
Qed.

Lemma js_max_spec l :
  l <> [] -> Forall (fun x => is_finite x = true) l ->
  js_max l ∈ l /\ Forall (fun x => nle x (js_max l) = true) l.
Proof.
  intros Hne Hl.
  assert (Hn : Forall (fun x => is_nan x = false) l)
    by (eapply Forall_impl; eauto with aqua).
  destruct (fold_max_spec l (S754_infinity true) eq_refl Hn) as (N & L & F & D).
  fold (js_max l) in *. split; auto. destruct D as [D|]; auto.
  destruct l as [|x l]; [done|]. inversion F as [|? ? Hx _]; subst. inversion Hl as [|? ? Fx _]; subst.
  rewrite D in Hx. destruct x as [| | |[]]; done.
Qed.

(** ** The sign of a rounded difference

    Rounding never turns a difference of two distinct doubles into zero or flips
    its sign (gradual underflow), so a sort by [(a, b) => a - b] is a sort by
    value. *)
Lemma digits_lower p : 2 ^ (Z.pos (digits2_pos p) - 1) <= Z.pos p.
Proof.
  induction p as [p IH|p IH|]; simpl digits2_pos; [| |done];
    rewrite Pos2Z.inj_succ;
    replace (Z.succ (Z.pos (digits2_pos p)) - 1) with (Z.succ (Z.pos (digits2_pos p) - 1)) by lia;
    rewrite Z.pow_succ_r by lia; lia.
Qed.

Lemma digits_upper p : Z.pos p < 2 ^ Z.pos (digits2_pos p).
Proof.
  induction p as [p IH|p IH|]; simpl digits2_pos; [| |done];
    rewrite Pos2Z.inj_succ, Z.pow_succ_r by lia; lia.
Qed.

Lemma shr_1_m r : 0 <= shr_m r -> shr_m (shr_1 r) = shr_m r / 2 /\ 0 <= shr_m (shr_1 r).
Proof.
  destruct r as [m r s]; simpl; intros Hm.
  destruct m as [|[p|p|]|p]; simpl; split; try lia; try done.
  - apply Z.div_unique with 1; lia.
  - apply Z.div_unique with 0; lia.
Qed.

Lemma shr_iter_m p r :
  0 <= shr_m r -> shr_m (iter_pos shr_1 p r) = shr_m r / 2 ^ Z.pos p /\ 0 <= shr_m (iter_pos shr_1 p r).
Proof.
  revert r; induction p as [p IH|p IH|]; intros r Hr; simpl.
  - destruct (shr_1_m r Hr) as [E1 P1].
    destruct (IH _ P1) as [E2 P2]. destruct (IH _ P2) as [E3 P3]. split; auto.
    rewrite E3, E2, E1, !Z.div_div by lia. f_equal.
    replace (Z.pos p~1) with (1 + Z.pos p + Z.pos p) by lia.
    rewrite !Z.pow_add_r by lia. change (2 ^ 1) with 2. ring.
  - destruct (IH _ Hr) as [E2 P2]. destruct (IH _ P2) as [E3 P3]. split; auto.
    rewrite E3, E2, Z.div_div by lia. f_equal.
    replace (Z.pos p~0) with (Z.pos p + Z.pos p) by lia.
    rewrite Z.pow_add_r by lia. ring.
  - by apply shr_1_m.
Qed.

Lemma shr_fexp_pos m e l :
  0 < m -> -1074 <= e ->
  0 < shr_m (shr_fexp prec emax m e l).1 /\ e <= (shr_fexp prec emax m e l).2.
Proof.
  intros Hm He. unfold shr_fexp.
  assert (Hrec : shr_m (shr_record_of_loc m l) = m) by (by destruct l as [|[]]).
  destruct m as [|p|p]; try lia.
  unfold fexp, emin. change (3 - emax - prec) with (-1074).
  pose proof (digits_lower p) as HL. simpl Zdigits2. simpl Z.sub in HL.
  set (n := Z.max (Z.pos (digits2_pos p) + e - 53) (-1074) - e).
  unfold shr. destruct n as [|q|q] eqn:En; simpl; [split; [rewrite Hrec|]; lia| |split; [rewrite Hrec|]; lia].
  destruct (shr_iter_m q (shr_record_of_loc (Z.pos p) l)) as [E _]; [rewrite Hrec; lia|].
  rewrite E, Hrec. split; [|lia].
  assert (Hd : Z.pos q = Z.pos (digits2_pos p) - 53) by lia.
  apply Z.div_str_pos. split; [lia|].
  etrans; [|exact HL]. apply Z.pow_le_mono_r; lia.
Qed.

(** The sign of what rounding gives for a positive mantissa. *)
Definition signed (s : bool) (x : num) : Prop :=
  match x with
  | S754_finite s' _ _ | S754_infinity s' => s' = s
  | _ => False
  end.

Lemma binary_round_aux_signed s m e l :
  0 < m -> -1074 <= e -> signed s (binary_round_aux prec emax s m e l).
Proof.
  intros Hm He. unfold binary_round_aux.
  destruct (shr_fexp_pos m e l Hm He) as [P1 Q1].
  destruct (shr_fexp prec emax m e l) as [r1 e1]; simpl in *.
  set (m2 := round_nearest_even _ _).
  assert (P2 : 0 < m2) by (unfold m2, round_nearest_even;
    destruct (loc_of_shr_record r1) as [|[]]; [lia| destruct (Z.even _); lia|lia|lia]).
  destruct (shr_fexp_pos m2 e1 loc_Exact P2 ltac:(lia)) as [P3 Q3].
  destruct (shr_fexp prec emax m2 e1 loc_Exact) as [r3 e3]; simpl in *.
  destruct (shr_m r3); try lia. by case_tests.
Qed.

Lemma binary_round_signed s p e :
  -1074 <= e -> signed s (binary_round prec emax s p e).
Proof.
  intros He. unfold binary_round, shl_align.
  set (f := fexp _ _ _).
  assert (-1074 <= f) by (unfold f, fexp, emin; lia).
  destruct (f - e); apply binary_round_aux_signed; lia.
Qed.

(** The integer a finite number is, in units of [2^ez]. *)
Definition units (x : num) (ez : Z) : Z :=
  match x with
  | S754_finite s m e => cond_Zopp s (Z.pos m * 2 ^ (e - ez))
  | _ => 0
  end.

Lemma shl_align_units m e ez :
  ez <= e -> Z.pos (shl_align m e ez).1 = Z.pos m * 2 ^ (e - ez).
Proof.
  intros H. unfold shl_align. destruct (ez - e) as [|d|d] eqn:E; simpl.
  - replace (e - ez) with 0 by lia. lia.
  - lia.
  - replace (e - ez) with (Z.pos d) by lia. clear E H.
    induction d as [|d IH] using Pos.peano_ind; simpl; [lia|].
    rewrite Pos.iter_succ, Pos2Z.inj_xO, IH, Pos2Z.inj_succ, Z.pow_succ_r by lia. lia.
Qed.

Lemma valid_finite s m e :
  valid (S754_finite s m e) = true ->
  -1074 <= e /\ Z.pos m < 2 ^ 53 /\ (-1074 < e -> 2 ^ 52 <= Z.pos m).
Proof.
  unfold valid, valid_binary, bounded, canonical_mantissa, fexp, emin.
  change (3 - emax - prec) with (-1074).
  intros [H _]%andb_true_iff. apply Z.eqb_eq in H.
  pose proof (digits_lower m) as L. pose proof (digits_upper m) as U.
  repeat split; [lia| |].
  - eapply Z.lt_le_trans; [exact U|]. apply Z.pow_le_mono_r; lia.
  - intros. etrans; [|exact L]. apply Z.pow_le_mono_r; lia.
Qed.

Lemma lower_exponent_smaller m e m' e' :
  e < e' -> Z.pos m < 2 ^ 53 -> 2 ^ 52 <= Z.pos m' ->
  Z.pos m < Z.pos m' * 2 ^ (e' - e).
Proof.
  intros He Hm Hm'.
  assert (2 ^ 1 <= 2 ^ (e' - e)) by (apply Z.pow_le_mono_r; lia).
  change (2 ^ 53) with (2 ^ 52 * 2) in Hm. nia.
Qed.

(** Comparison of valid finite numbers is comparison of the integers they are in
    a common unit. *)
Lemma nle_units s m e s' m' e' :
  let x := S754_finite s m e in let y := S754_finite s' m' e' in
  valid x = true -> valid y = true ->
  nle x y = true <-> units x (Z.min e e') <= units y (Z.min e e').
Proof.
  intros x y Vx Vy. apply valid_finite in Vx as (Ex & Ux & Lx), Vy as (Ey & Uy & Ly).
  rewrite nle_key by done. subst x y. unfold units.
  assert (H2 : forall k, 0 <= k -> 0 < 2 ^ k) by (intros; lia).
  destruct (Z.lt_trichotomy e e') as [H|[->|H]].
  - pose proof (lower_exponent_smaller m e m' e' H Ux ltac:(lia)).
    rewrite !Z.min_l by lia. rewrite Z.sub_diag. change (2 ^ 0) with 1. pose proof (H2 (e' - e) ltac:(lia)).
    destruct s, s'; simpl; lia.
  - rewrite Z.min_id, Z.sub_diag. change (2 ^ 0) with 1. destruct s, s'; simpl; lia.
  - pose proof (lower_exponent_smaller m' e' m e H Uy ltac:(lia)).
    rewrite !Z.min_r by lia. rewrite Z.sub_diag. change (2 ^ 0) with 1. pose proof (H2 (e - e') ltac:(lia)).
    destruct s, s'; simpl; lia.
Qed.

Lemma nsub_units s m e s' m' e' :
  let x := S754_finite s m e in let y := S754_finite s' m' e' in
  let ez := Z.min e e' in
  nsub x y = binary_normalize prec emax (units x ez - units y ez) ez false.
Proof.
  intros x y ez. unfold nsub, SFsub. subst x y. cbv beta iota zeta.
  rewrite !shl_align_units by lia. done.
Qed.

Lemma sub_le_finite s m e s' m' e' :
  let x := S754_finite s m e in let y := S754_finite s' m' e' in
  valid x = true -> valid y = true -> sub_le x y = nle x y.
Proof.
  intros x y Vx Vy. pose proof (nle_units s m e s' m' e' Vx Vy) as H.
  apply valid_finite in Vx as (Ex & _), Vy as (Ey & _).
  unfold sub_le. subst x y. cbv zeta in H. rewrite nsub_units.
  set (ez := Z.min e e') in *. cbv zeta.
  set (a := units (S754_finite s m e) ez) in *. set (b := units (S754_finite s' m' e') ez) in *.
  unfold binary_normalize. destruct (a - b) as [|d|d] eqn:Ed.
  - destruct (nle (S754_finite s m e) _) eqn:E; [done|].
    apply proj2 in H. specialize (H ltac:(lia)). done.
  - pose proof (binary_round_signed false d ez ltac:(lia)) as S.
    destruct (nle (S754_finite s m e) _) eqn:E; [apply proj1 in H; specialize (H eq_refl); lia|].
    destruct (binary_round _ _ _ _ _); simpl in S; subst; try done.
  - pose proof (binary_round_signed true d ez ltac:(lia)) as S.
    rewrite (proj2 H) by lia.
    destruct (binary_round _ _ _ _ _); simpl in S; subst; try done.
Qed.

(** The comparator [(a, b) => a - b] orders numbers by value. *)
Lemma sub_le_nle x y :
  valid x = true -> valid y = true -> is_nan x = false -> is_nan y = false ->
  sub_le x y = nle x y.
Proof.
  intros Vx Vy Nx Ny.
  destruct x as [s|s| |s m e], y as [s'|s'| |s' m' e']; try done;
    try (by destruct s, s'); try (by destruct s); try (by destruct s').
  by apply sub_le_finite.
Qed.
