(* ===== verification/JSRound.v ===== *)
(** * Rounding is monotone

    The sum or difference of two doubles, rounded, stays on the side of any
    double on which the exact result lies.  This is what makes a price that a
    minimum step was subtracted from (added to) no higher (no lower) than the
    price. *)

From S2P Require Import Prelude.
From Stdlib Require Import Floats.SpecFloat.
From S2P Require Import JSNum.
#[local] Open Scope Z_scope.

(** The value of a mantissa and an exponent in units of [2^-1074]. *)
Definition scaled (m e : Z) : Z := m * 2 ^ (e + 1074).

Lemma pow_pos k : 0 <= k -> 0 < 2 ^ k.
Proof. lia. Qed.

Lemma scaled_shift m e e' : -1074 <= e' -> e' <= e -> scaled m e = m * 2 ^ (e - e') * 2 ^ (e' + 1074).
Proof.
  intros H1 H2. unfold scaled. rewrite <-Z.mul_assoc, <-Z.pow_add_r by lia. do 2 f_equal. lia.
Qed.

(** Order of valid positive numbers is order of scaled values. *)
Lemma nle_scaled m e m' e' :
  valid (S754_finite false m e) = true -> valid (S754_finite false m' e') = true ->
  nle (S754_finite false m e) (S754_finite false m' e') = true <->
  scaled (Z.pos m) e <= scaled (Z.pos m') e'.
Proof.
  intros V V'. rewrite nle_units by done.
  apply valid_finite in V as (E & _), V' as (E' & _). unfold units, cond_Zopp.
  rewrite (scaled_shift (Z.pos m) e (Z.min e e')), (scaled_shift (Z.pos m') e' (Z.min e e')) by lia.
  assert (0 < 2 ^ (Z.min e e' + 1074)) by (apply pow_pos; lia).
  split; intros; nia.
Qed.

(** The sticky bits stay clear when what is shifted out is zero. *)
Definition clear (r : shr_record) : Prop := shr_r r = false /\ shr_s r = false.

Lemma shr_1_clear r : 0 <= shr_m r -> clear r -> shr_m r mod 2 = 0 -> clear (shr_1 r).
Proof.
  destruct r as [m r s]; unfold clear; simpl. intros Hm [-> ->] H.
  destruct m as [|[p|p|]|p]; simpl in *; split; auto; try lia.
  all: exfalso; revert H; try rewrite Pos2Z.inj_xI; try (rewrite Z.add_comm, Z.mul_comm, Z_mod_plus_full; done); done.
Qed.

Lemma shr_iter_clear p r :
  0 <= shr_m r -> clear r -> shr_m r mod 2 ^ Z.pos p = 0 -> clear (iter_pos shr_1 p r).
Proof.
  revert r; induction p as [p IH|p IH|]; intros r Hr Hc Hm; simpl.
  - destruct (shr_1_m r Hr) as [E1 P1].
    assert (Hp : 0 < 2 ^ Z.pos p) by lia.
    assert (Hd : (2 * 2 ^ Z.pos p * 2 ^ Z.pos p | shr_m r)).
    { apply Z.mod_divide; [lia|]. replace (Z.pos p~1) with (1 + Z.pos p + Z.pos p) in Hm by lia.
      by rewrite !Z.pow_add_r in Hm by lia. }
    destruct Hd as [k Hk].
    assert (Hc1 : clear (shr_1 r)).
    { apply shr_1_clear; auto. rewrite Hk. replace (k * (2 * 2 ^ Z.pos p * 2 ^ Z.pos p))
        with (k * 2 ^ Z.pos p * 2 ^ Z.pos p * 2) by ring. apply Z_mod_mult. }
    assert (E1' : shr_m (shr_1 r) = k * 2 ^ Z.pos p * 2 ^ Z.pos p).
    { rewrite E1, Hk. replace (k * (2 * 2 ^ Z.pos p * 2 ^ Z.pos p))
        with (k * 2 ^ Z.pos p * 2 ^ Z.pos p * 2) by ring. apply Z_div_mult. lia. }
    destruct (shr_iter_m p _ P1) as [E2 P2].
    assert (E2' : shr_m (iter_pos shr_1 p (shr_1 r)) = k * 2 ^ Z.pos p).
    { rewrite E2, E1'. apply Z_div_mult. lia. }
    apply IH; [done| |].
    + apply IH; [done|done|]. rewrite E1'. apply Z_mod_mult.
    + rewrite E2'. apply Z_mod_mult.
  - assert (Hp : 0 < 2 ^ Z.pos p) by lia.
    assert (Hd : (2 ^ Z.pos p * 2 ^ Z.pos p | shr_m r)).
    { apply Z.mod_divide; [lia|]. replace (Z.pos p~0) with (Z.pos p + Z.pos p) in Hm by lia.
      by rewrite !Z.pow_add_r in Hm by lia. }
    destruct Hd as [k Hk]. destruct (shr_iter_m p _ Hr) as [E2 P2].
    assert (E2' : shr_m (iter_pos shr_1 p r) = k * 2 ^ Z.pos p).
    { rewrite E2, Hk, Z.mul_assoc. apply Z_div_mult. lia. }
    apply IH; [done| |].
    + apply IH; [done|done|]. rewrite Hk, Z.mul_assoc. apply Z_mod_mult.
    + rewrite E2'. apply Z_mod_mult.
  - by apply shr_1_clear.
Qed.

(** What rounding a positive mantissa gives: a mantissa of at most 53 bits whose
    neighbours lie on the two sides of the exact value. *)
Definition pack (s : bool) (m e : Z) : num :=
  match (if m =? 2 ^ 53 then (2 ^ 52, e + 1) else (m, e)) with
  | (Zpos p, e') => if e' <=? emax - prec then S754_finite s p e' else S754_infinity s
  | _ => S754_nan
  end.

Record rounds_to (v : Z) (m f : Z) : Prop := {
  rt_f : -1074 <= f;
  rt_m : 0 < m <= 2 ^ 53;
  rt_normal : -1074 < f -> 2 ^ 52 <= m /\ 2 ^ 52 * 2 ^ (f + 1074) <= v;
  rt_below : (m - 1) * 2 ^ (f + 1074) < v;
  rt_above : v < (m + 1) * 2 ^ (f + 1074)
}.

(** A representable number above (below) the exact value is above (below) the
    rounded one. *)
Lemma rounds_upper v m f my ey :
  rounds_to v m f -> valid (S754_finite false my ey) = true ->
  v <= scaled (Z.pos my) ey -> scaled m f <= scaled (Z.pos my) ey.
Proof.
  intros [Hf Hm Hn Hb Ha] (Ey & Uy & Ly)%valid_finite Hv. unfold scaled in *.
  destruct (Z.le_gt_cases f ey) as [Hle|Hgt].
  - assert (E : Z.pos my * 2 ^ (ey + 1074) = Z.pos my * 2 ^ (ey - f) * 2 ^ (f + 1074))
      by (apply (scaled_shift (Z.pos my) ey f); lia).
    rewrite E in *. pose proof (pow_pos (f + 1074) ltac:(lia)).
    apply Z.mul_le_mono_nonneg_r; [lia|].
    assert (m - 1 < Z.pos my * 2 ^ (ey - f)) by (apply (Z.mul_lt_mono_pos_r (2 ^ (f + 1074))); lia).
    lia.
  - exfalso. destruct (Hn ltac:(lia)) as [H1 H2].
    assert (E : 2 ^ (f + 1074) = 2 ^ (f - ey) * 2 ^ (ey + 1074))
      by (rewrite <-Z.pow_add_r by lia; f_equal; lia).
    assert (2 ^ 1 <= 2 ^ (f - ey)) by (apply Z.pow_le_mono_r; lia).
    pose proof (pow_pos (ey + 1074) ltac:(lia)).
    change (2 ^ 53) with (2 ^ 52 * 2) in *. nia.
Qed.

Lemma rounds_lower v m f my ey :
  rounds_to v m f -> valid (S754_finite false my ey) = true ->
  scaled (Z.pos my) ey <= v -> scaled (Z.pos my) ey <= scaled m f.
Proof.
  intros [Hf Hm Hn Hb Ha] (Ey & Uy & Ly)%valid_finite Hv. unfold scaled in *.
  destruct (Z.le_gt_cases f ey) as [Hle|Hgt].
  - assert (E : Z.pos my * 2 ^ (ey + 1074) = Z.pos my * 2 ^ (ey - f) * 2 ^ (f + 1074))
      by (apply (scaled_shift (Z.pos my) ey f); lia).
    rewrite E in *. pose proof (pow_pos (f + 1074) ltac:(lia)).
    apply Z.mul_le_mono_nonneg_r; [lia|].
    assert (Z.pos my * 2 ^ (ey - f) < m + 1) by (apply (Z.mul_lt_mono_pos_r (2 ^ (f + 1074))); lia).
    lia.
  - destruct (Hn ltac:(lia)) as [H1 H2].
    assert (E : 2 ^ (f + 1074) = 2 ^ (f - ey) * 2 ^ (ey + 1074))
      by (rewrite <-Z.pow_add_r by lia; f_equal; lia).
    assert (2 ^ 1 <= 2 ^ (f - ey)) by (apply Z.pow_le_mono_r; lia).
    pose proof (pow_pos (ey + 1074) ltac:(lia)).
    change (2 ^ 53) with (2 ^ 52 * 2) in *. rewrite E. nia.
Qed.

Lemma digits_le p k : 0 <= k -> Z.pos p < 2 ^ k -> Z.pos (digits2_pos p) <= k.
Proof.
  intros Hk H. pose proof (digits_lower p) as L.
  apply Z.nlt_ge. intros Hlt. assert (2 ^ k <= 2 ^ (Z.pos (digits2_pos p) - 1)) by (apply Z.pow_le_mono_r; lia).
  lia.
Qed.

Lemma fexp_max d : fexp prec emax d = Z.max (d - 53) (-1074).
Proof. done. Qed.

#[local] Opaque fexp.

(** First truncation: the quotient, and whether anything was dropped. *)
Lemma shr_fexp_first p e :
  let f := fexp prec emax (Z.pos (digits2_pos p) + e) in
  e <= f ->
  exists r, shr_fexp prec emax (Z.pos p) e loc_Exact = (r, f) /\
    shr_m r = Z.pos p / 2 ^ (f - e) /\ (Z.pos p mod 2 ^ (f - e) = 0 -> loc_of_shr_record r = loc_Exact).
Proof.
  intros f Hf. unfold shr_fexp. simpl Zdigits2. fold f. simpl shr_record_of_loc. unfold shr.
  destruct (f - e) as [|q|q] eqn:E; [| |lia].
  - eexists; split; [f_equal; lia|]. simpl. by rewrite Z.div_1_r.
  - eexists; split; [f_equal; lia|]. split; [by apply shr_iter_m|].
    intros H. destruct (shr_iter_clear q (Build_shr_record (Z.pos p) false false)) as [H1 H2]; try done.
    destruct (iter_pos shr_1 q _) as [m r s]; simpl in *; by subst.
Qed.

Lemma round_nearest_even_spec m l :
  m <= round_nearest_even m l <= m + 1 /\ (l = loc_Exact -> round_nearest_even m l = m).
Proof. destruct l as [|[]]; simpl; try (split; [lia|done]). destruct (Z.even m); split; (lia || done). Qed.

(** Second truncation: only a carry into a 54th bit shifts again. *)
Lemma shr_fexp_second s m f :
  -1074 <= f -> 0 < m <= 2 ^ 53 ->
  (let '(r, e) := shr_fexp prec emax m f loc_Exact in
   match shr_m r with
   | Z0 => S754_zero s
   | Zpos p => if e <=? emax - prec then S754_finite s p e else S754_infinity s
   | _ => S754_nan
   end) = pack s m f.
Proof.
  intros Hf Hm. unfold pack. destruct (m =? 2 ^ 53) eqn:E; bool_facts.
  - subst m. unfold shr_fexp, shr. rewrite fexp_max.
    replace (Z.max _ _ - f) with 1 by (simpl; lia). done.
  - destruct m as [|p|]; try lia. unfold shr_fexp, shr. rewrite fexp_max. simpl Zdigits2.
    pose proof (digits_le p 53 ltac:(lia) ltac:(lia)) as D.
    destruct (Z.max _ _ - f) as [|q|q] eqn:En; [done| |done]. lia.
Qed.

Lemma binary_round_aux_pack s p e :
  -1074 <= e -> e <= fexp prec emax (Z.pos (digits2_pos p) + e) ->
  exists m f, binary_round_aux prec emax s (Z.pos p) e loc_Exact = pack s m f /\
    rounds_to (scaled (Z.pos p) e) m f.
Proof.
  intros He Hfe. unfold binary_round_aux.
  destruct (shr_fexp_first p e Hfe) as (r & Er & Em & Ex). rewrite Er.
  set (f := fexp prec emax (Z.pos (digits2_pos p) + e)) in *.
  destruct (round_nearest_even_spec (shr_m r) (loc_of_shr_record r)) as [B1 B2].
  set (m2 := round_nearest_even _ _) in *.
  assert (Hfv : f = Z.max (Z.pos (digits2_pos p) + e - 53) (-1074)) by apply fexp_max.
  pose proof (digits_lower p) as L. pose proof (digits_upper p) as U.
  pose proof (pow_pos (f - e) ltac:(lia)) as Hq.
  assert (Hdiv := Z.div_mod (Z.pos p) (2 ^ (f - e)) ltac:(lia)).
  pose proof (Z.mod_pos_bound (Z.pos p) (2 ^ (f - e)) Hq) as Hmod.
  rewrite <-Em in Hdiv. set (m1 := shr_m r) in *. set (q := 2 ^ (f - e)) in *.
  assert (Hup : Z.pos p < 2 ^ 53 * q).
  { eapply Z.lt_le_trans; [exact U|]. unfold q. rewrite <-Z.pow_add_r by lia.
    apply Z.pow_le_mono_r; lia. }
  assert (Hlow : -1074 < f -> 2 ^ 52 * q <= Z.pos p).
  { intros. etrans; [|exact L]. unfold q. rewrite <-Z.pow_add_r by lia. apply Z.pow_le_mono_r; lia. }
  assert (Hq1 : f = -1074 -> q = 1) by (intros; unfold q; replace (f - e) with 0 by lia; done).
  assert (Hm1 : m1 < 2 ^ 53) by nia.
  assert (Hm1' : -1074 < f -> 2 ^ 52 <= m1) by (intros Hn; specialize (Hlow Hn); nia).
  assert (Hm0 : 0 < m1) by (destruct (Z.eq_dec f (-1074)) as [E|E];
    [specialize (Hq1 E); nia|specialize (Hm1' ltac:(lia)); lia]).
  exists m2, f. split; [apply shr_fexp_second; lia|].
  assert (Hsc : 2 ^ (f + 1074) = q * 2 ^ (e + 1074))
    by (unfold q; rewrite <-Z.pow_add_r by lia; f_equal; lia).
  pose proof (pow_pos (e + 1074) ltac:(lia)) as Hw. unfold scaled.
  assert (Hlt : (m2 - 1) * q < Z.pos p).
  { destruct (Z.eq_dec (Z.pos p mod q) 0) as [Z0|Z0]; [rewrite (B2 (Ex Z0)); nia|nia]. }
  assert (Hgt : Z.pos p < (m2 + 1) * q) by nia.
  split; rewrite ?Hsc; try lia; try (rewrite Z.mul_assoc; apply Z.mul_lt_mono_pos_r; lia).
  intros Hn. split; [specialize (Hm1' Hn); lia|]. specialize (Hlow Hn). nia.
Qed.

Lemma shl_align_digits p e f :
  Z.pos (digits2_pos (shl_align p e f).1) + (shl_align p e f).2 = Z.pos (digits2_pos p) + e.
Proof.
  unfold shl_align. destruct (f - e) as [|d|d] eqn:E; simpl; try lia.
  assert (H : Z.pos (digits2_pos (Pos.iter xO p d)) = Z.pos (digits2_pos p) + Z.pos d).
  { clear E. induction d as [|d IH] using Pos.peano_ind; simpl; [lia|].
    rewrite Pos.iter_succ. simpl. lia. }
  lia.
Qed.

Lemma binary_round_pack s p e :
  -1074 <= e ->
  exists m f, binary_round prec emax s p e = pack s m f /\ rounds_to (scaled (Z.pos p) e) m f.
Proof.
  intros He. unfold binary_round. set (f := fexp prec emax _).
  pose proof (shl_align_digits p e f) as D.
  assert (Hf : f = Z.max (Z.pos (digits2_pos p) + e - 53) (-1074)) by apply fexp_max.
  assert (E : (shl_align p e f).2 = Z.min e f).
  { unfold shl_align. destruct (f - e) eqn:?; simpl; lia. }
  assert (V : scaled (Z.pos (shl_align p e f).1) (Z.min e f) = scaled (Z.pos p) e).
  { destruct (Z.le_gt_cases f e) as [H|H].
    - rewrite shl_align_units by lia. rewrite Z.min_r by lia. symmetry. apply scaled_shift; lia.
    - unfold shl_align. destruct (f - e) eqn:?; simpl; try lia. rewrite Z.min_l by lia. done. }
  destruct (shl_align p e f) as [pz ez]; simpl in *. subst ez. rewrite <-V.
  apply binary_round_aux_pack; [lia|]. rewrite D. fold f. lia.
Qed.

Lemma pack_value m f v :
  rounds_to v m f ->
  (exists p e, pack false m f = S754_finite false p e /\
     valid (S754_finite false p e) = true /\ scaled (Z.pos p) e = scaled m f) \/
  (pack false m f = S754_infinity false /\ scaled (2 ^ 53) 971 <= scaled m f).
Proof.
  intros [Hf Hm Hn _ _]. unfold pack.
  assert (V : forall p e, -1074 <= e -> e <= 971 -> Z.pos p < 2 ^ 53 -> (-1074 < e -> 2 ^ 52 <= Z.pos p) ->
    valid (S754_finite false p e) = true).
  { intros p e H1 H2 H3 H4. unfold valid, valid_binary, bounded, canonical_mantissa.
    rewrite fexp_max. pose proof (digits_le p 53 ltac:(lia) H3).
    apply andb_true_iff. split; [apply Z.eqb_eq|apply Z.leb_le; lia].
    destruct (Z.eq_dec e (-1074)) as [->|]; [lia|]. specialize (H4 ltac:(lia)).
    pose proof (digits_upper p) as U.
    assert (53 <= Z.pos (digits2_pos p)); [|lia].
    apply Z.nlt_ge. intros Hlt.
    assert (2 ^ Z.pos (digits2_pos p) <= 2 ^ 52) by (apply Z.pow_le_mono_r; lia). lia. }
  destruct (m =? 2 ^ 53) eqn:E; bool_facts.
  - subst m. simpl (match 2 ^ 52 with _ => _ end).
    destruct (f + 1 <=? emax - prec) eqn:El; bool_facts.
    + left. do 2 eexists. split; [done|]. split; [apply V; lia|].
      unfold scaled. replace (f + 1 + 1074) with (1 + (f + 1074)) by lia.
      rewrite (Z.pow_add_r 2 1 (f + 1074)) by lia. set (w := 2 ^ (f + 1074)). lia.
    + right. split; [done|]. unfold scaled. apply Z.mul_le_mono_nonneg_l; [lia|].
      apply Z.pow_le_mono_r; lia.
  - destruct m as [|p|]; try lia. destruct (f <=? emax - prec) eqn:El; bool_facts.
    + left. do 2 eexists. split; [done|]. split; [|done]. apply V; lia.
    + right. split; [done|]. unfold scaled. destruct (Hn ltac:(lia)) as [H1 _].
      transitivity (2 ^ 52 * 2 ^ (1 + (971 + 1074))).
      * rewrite (Z.pow_add_r 2 1 (971 + 1074)) by lia. set (w := 2 ^ (971 + 1074)). lia.
      * assert (2 ^ (1 + (971 + 1074)) <= 2 ^ (f + 1074)) by (apply Z.pow_le_mono_r; lia).
        apply Z.mul_le_mono_nonneg; lia.
Qed.

Lemma round_upper p e my ey :
  -1074 <= e -> valid (S754_finite false my ey) = true ->
  scaled (Z.pos p) e <= scaled (Z.pos my) ey ->
  nle (binary_round prec emax false p e) (S754_finite false my ey) = true.
Proof.
  intros He Hy Hv. destruct (binary_round_pack false p e He) as (m & f & -> & R).
  pose proof (rounds_upper _ _ _ _ _ R Hy Hv) as Hu.
  destruct (pack_value m f _ R) as [(p' & e' & -> & V & S)|[_ S]].
  - apply nle_scaled; try done. by rewrite S.
  - exfalso. pose proof Hy as (Ey & Uy & _)%valid_finite.
    unfold valid, valid_binary, bounded in Hy. apply andb_true_iff in Hy as [_ Hy]. bool_facts.
    unfold scaled in *. pose proof (pow_pos (ey + 1074) ltac:(lia)).
    assert (2 ^ (ey + 1074) <= 2 ^ (971 + 1074)) by (apply Z.pow_le_mono_r; lia).
    set (a := 2 ^ (ey + 1074)) in *. set (b := 2 ^ (971 + 1074)) in *. nia.
Qed.

Lemma round_lower p e my ey :
  -1074 <= e -> valid (S754_finite false my ey) = true ->
  scaled (Z.pos my) ey <= scaled (Z.pos p) e ->
  nle (S754_finite false my ey) (binary_round prec emax false p e) = true.
Proof.
  intros He Hy Hv. destruct (binary_round_pack false p e He) as (m & f & -> & R).
  pose proof (rounds_lower _ _ _ _ _ R Hy Hv) as Hu.
  destruct (pack_value m f _ R) as [(p' & e' & -> & V & S)|[-> S]]; [|done].
  apply nle_scaled; try done. by rewrite S.
Qed.

(** Subtracting from a price, or adding to it, a positive step. *)
Lemma nsub_below x y :
  valid x = true -> valid y = true -> is_finite x = true ->
  nle nzero x = true -> nlt nzero y = true -> nle (nsub x y) x = true.
Proof.
  intros Vx Vy Fx Px Py.
  destruct x as [s| | |[] m e]; try done; destruct y as [|[]| |[] m' e']; try done; try by destruct s.
  unfold nzero in *. rewrite nsub_units. pose proof Vx as (Ex & _)%valid_finite.
  pose proof Vy as (Ey & _)%valid_finite. simpl units.
  set (ez := Z.min e e'). assert (0 < Z.pos m' * 2 ^ (e' - ez)) by (pose proof (pow_pos (e' - ez)); lia).
  destruct (Z.pos m * 2 ^ (e - ez) - Z.pos m' * 2 ^ (e' - ez)) as [|d|d] eqn:E; simpl; [done| |].
  - apply round_upper; [lia|done|].
    rewrite (scaled_shift (Z.pos m) e ez) by lia. unfold scaled.
    pose proof (pow_pos (ez + 1074) ltac:(lia)). apply Z.mul_le_mono_nonneg_r; lia.
  - pose proof (binary_round_signed true d ez ltac:(lia)) as S.
    by destruct (binary_round prec emax true d ez) as [|[]| |[]]; simpl in S.
Qed.

Lemma nadd_above x y :
  valid x = true -> valid y = true -> is_finite x = true ->
  nle nzero x = true -> nlt nzero y = true -> nle x (nadd x y) = true.
Proof.
  intros Vx Vy Fx Px Py.
  destruct x as [s| | |[] m e]; try done; destruct y as [|[]| |[] m' e']; try done; try by destruct s.
  pose proof Vx as (Ex & _)%valid_finite. pose proof Vy as (Ey & _)%valid_finite.
  unfold nadd, SFadd. set (ez := Z.min e e'). rewrite !shl_align_units by lia.
  unfold cond_Zopp. assert (0 < Z.pos m' * 2 ^ (e' - ez)) by (pose proof (pow_pos (e' - ez)); lia).
  assert (0 < Z.pos m * 2 ^ (e - ez)) by (pose proof (pow_pos (e - ez)); lia).
  destruct (Z.pos m * 2 ^ (e - ez) + Z.pos m' * 2 ^ (e' - ez)) as [|d|d] eqn:E; try lia; simpl.
  apply round_lower; [lia|done|].
  rewrite (scaled_shift (Z.pos m) e ez) by lia. unfold scaled.
  pose proof (pow_pos (ez + 1074) ltac:(lia)). apply Z.mul_le_mono_nonneg_r; lia.
Qed.
