(* ===== verification/JSText.v ===== *)
(** * JavaScript strings

    The string operations that the client uses, on the Latin-1 code units of a
    Rocq [string]: [split] on one character, [includes], [startsWith],
    [toLowerCase] (ASCII), [trim] (in [JSNum]), and the two regular expressions
    that occur in several components. *)

From S2P Require Import Prelude JSNum.
From Stdlib Require Import Ascii.
#[local] Open Scope Z_scope.

(** [s.split(sep)] for a one-character separator. *)
Fixpoint js_split (sep : ascii) (s : string) : list string :=
  match s with
  | EmptyString => [EmptyString]
  | String c r =>
      if Ascii.eqb c sep then EmptyString :: js_split sep r
      else match js_split sep r with
           | [] => [String c EmptyString]
           | w :: ws => String c w :: ws
           end
  end.

Fixpoint starts_with (p s : string) : bool :=
  match p, s with
  | EmptyString, _ => true
  | String a p', String b s' => Ascii.eqb a b && starts_with p' s'
  | _, _ => false
  end.

(** [s.includes(p)]. *)
Fixpoint includes (p s : string) : bool :=
  starts_with p s || match s with String _ s' => includes p s' | EmptyString => false end.

Definition lower_ascii (c : ascii) : ascii :=
  let n := Ascii.nat_of_ascii c in
  if ((65 <=? n) && (n <=? 90))%nat then Ascii.ascii_of_nat (n + 32) else c.

Fixpoint to_lower (s : string) : string :=
  match s with
  | EmptyString => EmptyString
  | String c r => String (lower_ascii c) (to_lower r)
  end.

(** [to_ascii_uppercase] of Rust. *)
Definition upper_ascii (c : ascii) : ascii :=
  let n := Ascii.nat_of_ascii c in
  if ((97 <=? n) && (n <=? 122))%nat then Ascii.ascii_of_nat (n - 32) else c.

Fixpoint to_upper (s : string) : string :=
  match s with
  | EmptyString => EmptyString
  | String c r => String (upper_ascii c) (to_upper r)
  end.

(** [s.replace(/^0+(?=\d)/, '')]: leading zeros go while a digit follows. *)
Fixpoint strip_leading_zeros (s : string) : string :=
  match s with
  | String "0"%char ((String c _) as r) =>
      match digit_val c with Some _ => strip_leading_zeros r | None => s end
  | _ => s
  end.

(** [/\.(e1|e2|..)(?:\?|$)/i.test(s)] for a list of extensions. *)
Definition ext_here (exts : list string) (s : string) : bool :=
  existsb (fun e =>
    starts_with e s &&
    match String.substring (String.length e) (String.length s - String.length e) s with
    | EmptyString => true
    | String "?"%char _ => true
    | _ => false
    end) exts.

Fixpoint has_extension (exts : list string) (s : string) : bool :=
  match s with
  | EmptyString => false
  | String c r => (Ascii.eqb c "."%char && ext_here exts (to_lower r)) || has_extension exts r
  end.

(** The text has no occurrence of a character. *)
Fixpoint no_char (c : ascii) (s : string) : bool :=
  match s with
  | EmptyString => true
  | String d r => negb (Ascii.eqb d c) && no_char c r
  end.

Lemma no_char_app c a b : no_char c (a +:+ b) = no_char c a && no_char c b.
Proof.
  induction a as [|d a IH]; [done|]. change (String d a +:+ b) with (String d (a +:+ b)).
  simpl. by rewrite IH, andb_assoc.
Qed.

Lemma str_app_assoc (a b c : string) : (a +:+ b) +:+ c = a +:+ (b +:+ c).
Proof.
  induction a as [|d a IH]; [done|]. change (String d (a +:+ b) +:+ c = String d (a +:+ (b +:+ c))).
  by rewrite <-IH.
Qed.

Lemma str_cons c x : String c EmptyString +:+ x = String c x.
Proof. done. Qed.

Lemma js_split_one sep a : no_char sep a = true -> js_split sep a = [a].
Proof.
  induction a as [|c a IH]; simpl; [done|].
  intros [Hc Ha]%andb_true_iff. apply negb_true_iff in Hc. by rewrite Hc, IH.
Qed.

Lemma js_split_app sep a b :
  no_char sep a = true -> js_split sep (a +:+ String sep b) = a :: js_split sep b.
Proof.
  induction a as [|c a IH]; simpl.
  - intros _. unfold String.append. by rewrite Ascii.eqb_refl.
  - intros [Hc Ha]%andb_true_iff. apply negb_true_iff in Hc.
    change (String c a +:+ String sep b) with (String c (a +:+ String sep b)). simpl.
    by rewrite Hc, IH.
Qed.

Lemma js_split_nonempty sep s : js_split sep s <> [].
Proof. destruct s; simpl; [done|]. case_tests; [done|]. by destruct (js_split sep s). Qed.

(** Putting a split text back together with the separator gives the text. *)
Fixpoint join (sep : ascii) (l : list string) : string :=
  match l with
  | [] => EmptyString
  | [w] => w
  | w :: ws => w +:+ String sep (join sep ws)
  end.

Lemma join_split sep s : join sep (js_split sep s) = s.
Proof.
  induction s as [|c s IH]; simpl; [done|].
  destruct (Ascii.eqb_spec c sep) as [->|Hc].
  - pose proof (js_split_nonempty sep s). destruct (js_split sep s) eqn:E; [done|].
    simpl in *. by rewrite <-IH.
  - pose proof (js_split_nonempty sep s). destruct (js_split sep s) as [|w [|w' ws]] eqn:E; [done| |];
      simpl in *; by rewrite <-IH.
Qed.

(** The rewritten number text keeps its value as a run of digits, and a second
    rewriting does nothing. *)
Lemma strip_leading_zeros_idem s :
  strip_leading_zeros (strip_leading_zeros s) = strip_leading_zeros s.
Proof.
  induction s as [|c s IH]; [done|].
  destruct (ascii_dec c "0"%char) as [->|Hc].
  - destruct s as [|d s]; [done|]. cbn [strip_leading_zeros].
    destruct (digit_val d) eqn:E; [exact IH|]. cbn [strip_leading_zeros]. by rewrite E.
  - destruct c as [[] [] [] [] [] [] [] []]; try done.
Qed.
