(* ===== verification/JSDate.v ===== *)
(** * JavaScript dates

    A time value is an integer number of milliseconds since the epoch, or [None]
    for [NaN] (an invalid date).  The calendar is ECMAScript's proleptic
    Gregorian one.  The time zone of the browser is a parameter: [zone] holds
    the two conversions between a local and a universal time value.  Texts that
    are not in an ISO form are read by an implementation-defined parser, the
    parameter [fallback]. *)

From S2P Require Import Prelude JSNum JSText.
From Stdlib Require Import Ascii.
#[local] Open Scope Z_scope.

Definition MS_DAY : Z := 86400000.

Record zone := { to_utc : Z -> Z; of_utc : Z -> Z }.

(** A zone with a constant offset, for the examples. *)
Definition fixed_zone (off : Z) : zone :=
  {| to_utc := fun t => t - off; of_utc := fun t => t + off |}.

(** ** The calendar *)

(** The calendar repeats every 400 years of 146097 days (an era); a computational
    year starts in March.  [doe] is the day of the era. *)
Definition doe_of (yoe m d : Z) : Z :=
  yoe * 365 + yoe / 4 - yoe / 100 + ((153 * ((m + 9) mod 12) + 2) / 5 + d - 1).

Definition civil_of_doe (doe : Z) : Z * Z * Z :=
  let yoe := (doe - doe / 1460 + doe / 36524 - doe / 146096) / 365 in
  let doy := doe - (365 * yoe + yoe / 4 - yoe / 100) in
  let mp := (5 * doy + 2) / 153 in
  (yoe, (if mp <? 10 then mp + 3 else mp - 9), doy - (153 * mp + 2) / 5 + 1).

(** 1 in January and February, which belong to the computational year before. *)
Definition early (m : Z) : Z := if m <=? 2 then 1 else 0.

(** Days from the epoch to a civil date; [m] is 1..12. *)
Definition days_from_civil (y m d : Z) : Z :=
  (y - early m) / 400 * 146097 + doe_of ((y - early m) mod 400) m d - 719468.

(** The civil date of a day number. *)
Definition civil_from_days (z : Z) : Z * Z * Z :=
  let '(yoe, m, d) := civil_of_doe ((z + 719468) mod 146097) in
  (yoe + (z + 719468) / 146097 * 400 + early m, m, d).

(** [MakeDay] for integer arguments; [month] counts from 0 and may overflow. *)
Definition make_day (year month date : Z) : Z :=
  days_from_civil (year + month / 12) (month mod 12 + 1) 1 + date - 1.

(** [TimeClip]. *)
Definition time_clip (t : Z) : option Z :=
  if Z.abs t <=? 8640000000000000 then Some t else None.

(** [ToIntegerOrInfinity], with [None] for [NaN] and the infinities, from which
    every date computation is [NaN]. *)
Definition to_int (x : num) : option Z :=
  match x with
  | SpecFloat.S754_zero _ => Some 0
  | SpecFloat.S754_finite s m e =>
      let a := if 0 <=? e then Z.pos m * 2 ^ e else Z.pos m / 2 ^ (- e) in
      Some (if s then - a else a)
  | _ => None
  end.

(** [new Date(y, m, d, h, mi).getTime()] with each argument a number that may be
    missing ([undefined], hence [NaN]). *)
Definition date_of_parts (z : zone) (y m d h mi : option Z) : option Z :=
  match y, m, d, h, mi with
  | Some y, Some m, Some d, Some h, Some mi =>
      let y' := if (0 <=? y) && (y <=? 99) then 1900 + y else y in
      time_clip (to_utc z (make_day y' m d * MS_DAY + h * 3600000 + mi * 60000))
  | _, _, _, _, _ => None
  end.

(** Local date and time fields: year, month (1..12), day, hours, minutes. *)
Definition fields_of (t : Z) : Z * Z * Z * Z * Z :=
  let '(y, m, d) := civil_from_days (t / MS_DAY) in
  let r := t mod MS_DAY in
  (y, m, d, r / 3600000, r / 60000 mod 60).

(** A part of a split text as an argument of [Date], shifted down by [k]. *)
Definition part (k : Z) (l : list string) (i : nat) : option Z :=
  match l !! i with Some w => to_int (nsub (Number w) (of_Z k)) | None => None end.

(** The local function [parseLocalTime] of the auction forms: reads
    [YYYY-MM-DDTHH:mm] as a local time. *)
Definition parseLocalTime (z : zone) (isoString : string) : option Z :=
  match js_split "T"%char isoString with
  | String a r :: String b q :: _ =>
      let ds := js_split "-"%char (String a r) in
      let ts := js_split ":"%char (String b q) in
      date_of_parts z (part 0 ds 0) (part 1 ds 1) (part 0 ds 2) (part 0 ts 0) (part 0 ts 1)
  | _ => None
  end.

Definition two (n : Z) : string := pad_start 2 (string_of_Z n).

(** The [YYYY-MM-DDTHH:mm] text of a local time, as [setAuctionDuration] builds
    it. *)
Definition local_iso (t : Z) : string :=
  let '(y, m, d, h, mi) := fields_of t in
  string_of_Z y +:+ "-" +:+ two m +:+ "-" +:+ two d +:+ "T" +:+ two h +:+ ":" +:+ two mi.

(** [toISOString]: throws [RangeError] on an invalid date. *)
Definition iso_year (y : Z) : string :=
  if (0 <=? y) && (y <=? 9999) then pad_start 4 (string_of_Z y)
  else (if y <? 0 then "-" else "+") +:+ pad_start 6 (string_of_Z (Z.abs y)).

Definition iso_seconds (t : Z) : string :=
  let '(y, m, d, h, mi) := fields_of t in
  iso_year y +:+ "-" +:+ two m +:+ "-" +:+ two d +:+ "T" +:+ two h +:+ ":" +:+ two mi +:+ ":" +:+
  two (t mod 60000 / 1000).

Definition toISOString (t : option Z) : result string :=
  match t with
  | Some t => Ok (iso_seconds t +:+ "." +:+ pad_start 3 (string_of_Z (t mod 1000)) +:+ "Z")
  | None => Throw "Invalid time value"
  end.

(** [d.toISOString().replace(/\.\d{3}Z$/, 'Z')]: the milliseconds are dropped. *)
Definition toISO_no_ms (t : option Z) : result string :=
  match t with
  | Some t => Ok (iso_seconds t +:+ "Z")
  | None => Throw "Invalid time value"
  end.

(** ** Reading ISO texts *)
Definition is_leap (y : Z) : bool :=
  (y mod 4 =? 0) && (negb (y mod 100 =? 0) || (y mod 400 =? 0)).

Definition days_in_month (y m : Z) : Z :=
  match m with
  | 2 => if is_leap y then 29 else 28
  | 4 | 6 | 9 | 11 => 30
  | _ => 31
  end.

(** Exactly [n] digits. *)
Fixpoint fixed_int (n : nat) (acc : Z) (s : string) : option (Z * string) :=
  match n with
  | O => Some (acc, s)
  | S n' =>
      match s with
      | String c r =>
          match digit_val c with Some d => fixed_int n' (acc * 10 + d) r | None => None end
      | EmptyString => None
      end
  end.

Definition eat (c : ascii) (s : string) : option string :=
  match s with String d r => if Ascii.eqb c d then Some r else None | EmptyString => None end.

Definition iso_date (s : string) : option (Z * string) :=
  '(y, s) ← fixed_int 4 0 s; s ← eat "-"%char s;
  '(m, s) ← fixed_int 2 0 s; s ← eat "-"%char s;
  '(d, s) ← fixed_int 2 0 s;
  if (1 <=? m) && (m <=? 12) && (1 <=? d) && (d <=? days_in_month y m)
  then Some (days_from_civil y m d, s) else None.

(** The milliseconds of a fraction: its first three digits. *)
Definition fraction_ms (s : string) : option (Z * string) :=
  match s with
  | String "."%char r =>
      let '(v, n, rest) := span_digits 0 0 r in
      if 1 <=? n then Some (if n <=? 3 then v * 10 ^ (3 - n) else v / 10 ^ (n - 3), rest) else None
  | _ => Some (0, s)
  end.

Definition iso_time (s : string) : option (Z * string) :=
  '(h, s) ← fixed_int 2 0 s; s ← eat ":"%char s; '(mi, s) ← fixed_int 2 0 s;
  '(sec, ms, s) ← (match s with
    | String ":"%char r =>
        '(sec, r) ← fixed_int 2 0 r; '(ms, r) ← fraction_ms r; Some (sec, ms, r)
    | _ => Some (0, 0, s)
    end);
  if (h <=? 23) && (mi <=? 59) && (sec <=? 59)
  then Some (h * 3600000 + mi * 60000 + sec * 1000 + ms, s) else None.

(** The zone designator: [Some None] for a local time. *)
Definition iso_offset (s : string) : option (option Z) :=
  match s with
  | EmptyString => Some None
  | String "Z"%char EmptyString => Some (Some 0)
  | String c r =>
      sign ← (if Ascii.eqb c "+"%char then Some 1 else if Ascii.eqb c "-"%char then Some (-1) else None);
      '(h, r) ← fixed_int 2 0 r; r ← eat ":"%char r; '(mi, r) ← fixed_int 2 0 r;
      match r with EmptyString => Some (Some (sign * (h * 60 + mi))) | _ => None end
  end.

Definition iso_parse (z : zone) (s : string) : option (option Z) :=
  '(day, s) ← iso_date s;
  match s with
  | EmptyString => Some (time_clip (day * MS_DAY))
  | _ =>
      s ← eat "T"%char s; '(tm, s) ← iso_time s; off ← iso_offset s;
      Some (match off with
            | Some o => time_clip (day * MS_DAY + tm - o * 60000)
            | None => time_clip (to_utc z (day * MS_DAY + tm))
            end)
  end.

(** [new Date(text).getTime()]. *)
Definition date_parse (z : zone) (fallback : string -> option Z) (s : string) : option Z :=
  match iso_parse z s with Some t => t | None => fallback s end.

Definition UTC : zone := fixed_zone 0.
Definition no_fallback (_ : string) : option Z := None.

Example iso_forms :
  map (date_parse UTC no_fallback)
    ["1970-01-02"; "2026-08-25T10:30:15.250Z"; "2026-08-25T10:30:15+02:00"; "2026-02-29"; "x"] =
  [Some 86400000; Some 1787653815250; Some 1787646615000; None; None].
Proof. vm_compute. reflexivity. Qed.
Example iso_print :
  toISOString (Some 1787653815250) = Ok "2026-08-25T10:30:15.250Z".
Proof. vm_compute. reflexivity. Qed.
Example local_forms :
  parseLocalTime (fixed_zone 19800000) "2026-08-25T10:30" =
    Some (1787653800000 - 19800000) /\
  local_iso 1787653815250 = "2026-08-25T10:30".
Proof. vm_compute. done. Qed.

(** ** The calendar is a bijection *)

Lemma is_leap_era y k : is_leap (y + k * 400) = is_leap y.
Proof.
  unfold is_leap.
  replace ((y + k * 400) mod 4) with (y mod 4)
    by (replace (y + k * 400) with (y + (k * 100) * 4) by ring; by rewrite Z.mod_add by lia).
  replace ((y + k * 400) mod 100) with (y mod 100)
    by (replace (y + k * 400) with (y + (k * 4) * 100) by ring; by rewrite Z.mod_add by lia).
  by rewrite Z.mod_add by lia.
Qed.

Lemma days_in_month_era y k m : days_in_month (y + k * 400) m = days_in_month y m.
Proof. unfold days_in_month. by rewrite is_leap_era. Qed.

Definition upto (n : nat) : list Z := map Z.of_nat (seq 0 n).

Lemma forallb_upto n (p : Z -> bool) :
  forallb p (upto n) = true -> forall k, 0 <= k < Z.of_nat n -> p k = true.
Proof.
  intros E k H. rewrite forallb_forall in E. apply E.
  unfold upto. rewrite <-(Z2Nat.id k) by lia. apply in_map, in_seq. lia.
Qed.

(** The year of the era is monotone in the day, so a year is decided by its first
    and its last day. *)
Definition year_num (doe : Z) : Z := doe - doe / 1460 + doe / 36524 - doe / 146096.
Definition yoe_of (doe : Z) : Z := year_num doe / 365.
Definition year_start (yoe : Z) : Z := yoe * 365 + yoe / 4 - yoe / 100.
Definition last_doy (yoe : Z) : Z := if is_leap (yoe + 1) then 365 else 364.

Lemma year_num_step doe : 0 <= doe -> year_num doe <= year_num (doe + 1).
Proof.
  intros H. unfold year_num. Z.div_mod_to_equations. lia.
Qed.

Lemma year_num_mono a b : 0 <= a -> a <= b -> year_num a <= year_num b.
Proof.
  intros Ha Hab. replace b with (a + Z.of_nat (Z.to_nat (b - a))) by lia.
  induction (Z.to_nat (b - a)) as [|n IH]; [rewrite Z.add_0_r; lia|].
  etrans; [exact IH|]. etrans; [apply year_num_step; lia|].
  apply Z.eq_le_incl. f_equal. lia.
Qed.

Definition year_ok (yoe : Z) : bool :=
  (yoe_of (year_start yoe) =? yoe) && (yoe_of (year_start yoe + last_doy yoe) =? yoe) &&
  (0 <=? year_start yoe) && (year_start yoe + last_doy yoe <? 146097).

Lemma era_ok : forallb year_ok (upto 400) = true.
Proof. vm_compute. reflexivity. Qed.

Lemma yoe_of_doy yoe doy :
  0 <= yoe < 400 -> 0 <= doy <= last_doy yoe ->
  yoe_of (year_start yoe + doy) = yoe /\ 0 <= year_start yoe + doy < 146097.
Proof.
  intros Hy Hd. pose proof (forallb_upto _ _ era_ok yoe ltac:(lia)) as E.
  unfold year_ok in E. bool_facts. split; [|lia].
  assert (year_num (year_start yoe) <= year_num (year_start yoe + doy)) as L by (apply year_num_mono; lia).
  assert (year_num (year_start yoe + doy) <= year_num (year_start yoe + last_doy yoe)) as U
    by (apply year_num_mono; lia).
  apply (Z.div_le_mono _ _ 365) in L, U; [|lia|lia]. unfold yoe_of in *. lia.
Qed.

(** The months of a computational year: month and day of a day of the year. *)
Definition month_day (doy : Z) : Z * Z :=
  let mp := (5 * doy + 2) / 153 in
  ((if mp <? 10 then mp + 3 else mp - 9), doy - (153 * mp + 2) / 5 + 1).
Definition doy_of (m d : Z) : Z := (153 * ((m + 9) mod 12) + 2) / 5 + d - 1.

Definition month_len (leap : bool) (m : Z) : Z :=
  match m with 2 => if leap then 29 else 28 | 4 | 6 | 9 | 11 => 30 | _ => 31 end.

Definition month_ok (m' : Z) : bool :=
  forallb (fun d' => forallb (fun leap : bool =>
    let m := m' + 1 in let d := d' + 1 in
    if d <=? month_len leap m then
      bool_decide (month_day (doy_of m d) = (m, d)) && (0 <=? doy_of m d) &&
      (doy_of m d <=? if leap then 365 else 364)
    else true) [true; false]) (upto 31).

Lemma months_ok : forallb month_ok (upto 12) = true.
Proof. vm_compute. reflexivity. Qed.

Lemma month_day_spec (leap : bool) m d :
  1 <= m <= 12 -> 1 <= d <= month_len leap m ->
  month_day (doy_of m d) = (m, d) /\ 0 <= doy_of m d <= if leap then 365 else 364.
Proof.
  intros Hm Hd. assert (month_len leap m <= 31) by (unfold month_len; repeat case_match; lia).
  pose proof (forallb_upto _ _ months_ok (m - 1) ltac:(lia)) as E.
  pose proof (forallb_upto _ _ E (d - 1) ltac:(lia)) as E1.
  rewrite forallb_forall in E1. specialize (E1 leap ltac:(destruct leap; simpl; auto)).
  cbv zeta in E1. rewrite !Z.sub_add in E1.
  destruct (Z.leb_spec d (month_len leap m)); [|lia]. bool_facts.
  match goal with H : bool_decide _ = true |- _ => apply bool_decide_eq_true in H end.
  split; [done|lia].
Qed.

Lemma days_in_month_len y m : days_in_month y m = month_len (is_leap y) m.
Proof. done. Qed.

Lemma doe_spec yoe m d :
  0 <= yoe < 400 -> 1 <= m <= 12 -> 1 <= d <= days_in_month (yoe + early m) m ->
  0 <= doe_of yoe m d < 146097 /\ civil_of_doe (doe_of yoe m d) = (yoe, m, d).
Proof.
  intros Hy Hm Hd.
  assert (Hd' : 1 <= d <= month_len (is_leap (yoe + 1)) m).
  { assert (m = 1 \/ m = 2 \/ m = 3 \/ m = 4 \/ m = 5 \/ m = 6 \/ m = 7 \/ m = 8 \/ m = 9 \/
            m = 10 \/ m = 11 \/ m = 12) by lia.
    destruct_or!; subst m; exact Hd. }
  destruct (month_day_spec _ m d Hm Hd') as [E R].
  destruct (yoe_of_doy yoe (doy_of m d) Hy R) as [Ey Rd].
  change (doe_of yoe m d) with (year_start yoe + doy_of m d). split; [exact Rd|].
  unfold civil_of_doe. change ((_ - _ / 1460 + _ - _) / 365) with (yoe_of (year_start yoe + doy_of m d)).
  rewrite Ey.
  replace (year_start yoe + doy_of m d - (365 * yoe + yoe / 4 - yoe / 100)) with (doy_of m d)
    by (unfold year_start; lia).
  unfold month_day in E. cbv zeta in *. injection E as E1 E2. by rewrite E1, E2.
Qed.

Definition valid_date (y m d : Z) : Prop :=
  1 <= m <= 12 /\ 1 <= d <= days_in_month y m.

(** The fields of the day number of a date are that date. *)
Lemma civil_roundtrip y m d :
  valid_date y m d -> civil_from_days (days_from_civil y m d) = (y, m, d).
Proof.
  intros [Hm Hd]. unfold civil_from_days, days_from_civil.
  set (era := (y - early m) / 400). set (yoe := (y - early m) mod 400).
  assert (Hy : y = yoe + early m + era * 400) by (unfold yoe, era; pose proof (Z.div_mod (y - early m) 400); lia).
  assert (0 <= yoe < 400) by (unfold yoe; apply Z.mod_pos_bound; lia).
  rewrite Hy, days_in_month_era in Hd.
  destruct (doe_spec yoe m d ltac:(lia) Hm Hd) as [Hr Hc].
  replace (era * 146097 + doe_of yoe m d - 719468 + 719468) with (doe_of yoe m d + era * 146097) by ring.
  rewrite Z.mod_add, Z.div_add, Z.mod_small, Z.div_small by lia.
  rewrite Hc. f_equal. f_equal. lia.
Qed.

(** Every day of an era lies in the year that [yoe_of] names. *)
Definition year_chain (yoe : Z) : bool :=
  if 1 <=? yoe then year_start yoe =? year_start (yoe - 1) + last_doy (yoe - 1) + 1 else year_start 0 =? 0.

Lemma years_chain : forallb year_chain (upto 400) = true.
Proof. vm_compute. reflexivity. Qed.

Lemma yoe_mono a b : 0 <= a -> a <= b -> yoe_of a <= yoe_of b.
Proof. intros. apply Z.div_le_mono; [lia|]. by apply year_num_mono. Qed.

Lemma last_doy_range yoe : 0 <= last_doy yoe.
Proof. unfold last_doy. case_match; lia. Qed.

Lemma yoe_of_spec doe :
  0 <= doe < 146097 ->
  0 <= yoe_of doe < 400 /\ year_start (yoe_of doe) <= doe <= year_start (yoe_of doe) + last_doy (yoe_of doe).
Proof.
  intros H. assert (Hr : 0 <= yoe_of doe < 400).
  { assert (yoe_of 0 <= yoe_of doe) as L by (apply yoe_mono; lia).
    assert (yoe_of doe <= yoe_of 146096) as U by (apply yoe_mono; lia).
    change (yoe_of 0) with 0 in L. change (yoe_of 146096) with 399 in U. lia. }
  split; [done|]. set (y := yoe_of doe) in *.
  pose proof (last_doy_range (y - 1)). pose proof (last_doy_range (y + 1)). pose proof (last_doy_range y).
  split.
  - destruct (Z.le_gt_cases (year_start y) doe) as [|G]; [done|]. exfalso.
    pose proof (forallb_upto _ _ years_chain y ltac:(lia)) as C. unfold year_chain in C.
    destruct (Z.leb_spec 1 y); bool_facts; [|assert (y = 0) as E0 by lia; rewrite E0 in G; change (year_start 0) with 0 in G; lia].
    destruct (yoe_of_doy (y - 1) (last_doy (y - 1)) ltac:(lia) ltac:(lia)) as [E _].
    assert (yoe_of doe <= yoe_of (year_start (y - 1) + last_doy (y - 1))) by (apply yoe_mono; lia).
    unfold y in *. lia.
  - destruct (Z.le_gt_cases doe (year_start y + last_doy y)) as [|G]; [done|]. exfalso.
    destruct (Z.eq_dec y 399) as [E9|].
    { rewrite E9 in G. change (year_start 399 + last_doy 399) with 146096 in G. lia. }
    pose proof (forallb_upto _ _ years_chain (y + 1) ltac:(lia)) as C. unfold year_chain in C.
    destruct (Z.leb_spec 1 (y + 1)); bool_facts; [|lia].
    rewrite Z.add_simpl_r in C.
    destruct (yoe_of_doy (y + 1) 0 ltac:(lia) ltac:(lia)) as [E Hpos].
    assert (yoe_of (year_start (y + 1) + 0) <= yoe_of doe) by (apply yoe_mono; lia).
    unfold y in *. lia.
Qed.

Definition doy_ok (doy : Z) : bool :=
  forallb (fun leap : bool =>
    let '(m, d) := month_day doy in
    if doy <=? (if leap then 365 else 364) then
      (1 <=? m) && (m <=? 12) && (1 <=? d) && (d <=? month_len leap m) && (doy_of m d =? doy)
    else true) [true; false].

Lemma doys_ok : forallb doy_ok (upto 366) = true.
Proof. vm_compute. reflexivity. Qed.

Lemma month_len_year y m :
  1 <= m <= 12 -> month_len (is_leap (y + 1)) m = days_in_month (y + early m) m.
Proof.
  intros. assert (m = 1 \/ m = 2 \/ m = 3 \/ m = 4 \/ m = 5 \/ m = 6 \/ m = 7 \/ m = 8 \/ m = 9 \/
            m = 10 \/ m = 11 \/ m = 12) by lia.
  destruct_or!; subst m; done.
Qed.

(** Every day number has valid fields, and they lead back to it. *)
Lemma civil_inverse z :
  let '(y, m, d) := civil_from_days z in
  valid_date y m d /\ days_from_civil y m d = z.
Proof.
  unfold civil_from_days. set (era := (z + 719468) / 146097). set (doe := (z + 719468) mod 146097).
  assert (Hz : z + 719468 = doe + era * 146097) by (unfold doe, era; pose proof (Z.div_mod (z + 719468) 146097); lia).
  assert (Hd : 0 <= doe < 146097) by (unfold doe; apply Z.mod_pos_bound; lia).
  destruct (yoe_of_spec doe Hd) as [Hy Hs]. unfold civil_of_doe.
  change ((doe - _ + _ - _) / 365) with (yoe_of doe). set (yoe := yoe_of doe) in *.
  replace (doe - (365 * yoe + yoe / 4 - yoe / 100)) with (doe - year_start yoe) by (unfold year_start; lia).
  set (doy := doe - year_start yoe). cbv zeta.
  change (if (5 * doy + 2) / 153 <? 10 then _ else _) with (month_day doy).1.
  change (doy - _ + 1) with (month_day doy).2.
  assert (Hdoy : 0 <= doy <= last_doy yoe) by (unfold doy; lia).
  assert (doy < 366) by (unfold last_doy in Hdoy; destruct (is_leap _); lia).
  pose proof (forallb_upto _ _ doys_ok doy ltac:(lia)) as E. unfold doy_ok in E.
  rewrite forallb_forall in E. specialize (E (is_leap (yoe + 1)) ltac:(destruct (is_leap _); simpl; auto)).
  destruct (month_day doy) as [m d]. simpl. unfold last_doy in Hdoy.
  destruct (Z.leb_spec doy (if is_leap (yoe + 1) then 365 else 364)); [|lia]. bool_facts.
  replace (yoe + era * 400 + early m) with (yoe + early m + era * 400) by ring.
  unfold valid_date, days_from_civil. rewrite days_in_month_era, <-month_len_year by lia. split; [lia|].
  replace (yoe + early m + era * 400 - early m) with (yoe + era * 400) by ring.
  rewrite Z.mod_add, Z.div_add, Z.mod_small, Z.div_small by lia.
  change (doe_of yoe m d) with (year_start yoe + doy_of m d). unfold doy in *. lia.
Qed.

(** ** The local text form reads back *)
Definition two_ok (n : Z) : bool :=
  bool_decide (to_int (nsub (Number (two n)) (of_Z 0)) = Some n) &&
  bool_decide (to_int (nsub (Number (two n)) (of_Z 1)) = Some (n - 1)) &&
  no_char "-" (two n) && no_char ":" (two n) && no_char "T" (two n) &&
  bool_decide (two n <> "").

Lemma two_digits : forallb two_ok (upto 60) = true.
Proof. vm_compute. reflexivity. Qed.

Definition year_text_ok (k : Z) : bool :=
  let y := string_of_Z (1970 + k) in
  bool_decide (to_int (nsub (Number y) (of_Z 0)) = Some (1970 + k)) &&
  no_char "-" y && no_char "T" y && bool_decide (y <> "").

Lemma year_texts : forallb year_text_ok (upto 1030) = true.
Proof. vm_compute. reflexivity. Qed.

Lemma part_two k ws i n :
  0 <= n < 60 -> (k = 0 \/ k = 1) -> ws !! i = Some (two n) -> part k ws i = Some (n - k).
Proof.
  intros Hn Hk Hw. pose proof (forallb_upto _ _ two_digits n ltac:(lia)) as E.
  unfold two_ok in E. repeat (apply andb_true_iff in E as [E ?]).
  unfold part. rewrite Hw. destruct Hk as [-> | ->].
  - apply bool_decide_eq_true in E. rewrite E. f_equal. lia.
  - match goal with H : bool_decide (to_int (nsub _ (of_Z 1)) = _) = true |- _ =>
      apply bool_decide_eq_true in H; exact H end.
Qed.

Lemma two_text n : 0 <= n < 60 ->
  no_char "-" (two n) = true /\ no_char ":" (two n) = true /\ no_char "T" (two n) = true /\ two n <> "".
Proof.
  intros Hn. pose proof (forallb_upto _ _ two_digits n ltac:(lia)) as E.
  unfold two_ok in E. repeat (apply andb_true_iff in E as [E ?]).
  match goal with H : bool_decide (two n <> "") = true |- _ => apply bool_decide_eq_true in H end.
  done.
Qed.

Lemma year_text y : 1970 <= y <= 2999 ->
  to_int (nsub (Number (string_of_Z y)) (of_Z 0)) = Some y /\
  no_char "-" (string_of_Z y) = true /\ no_char "T" (string_of_Z y) = true /\ string_of_Z y <> "".
Proof.
  intros Hy. pose proof (forallb_upto _ _ year_texts (y - 1970) ltac:(lia)) as E.
  unfold year_text_ok in E. cbv zeta in E. replace (1970 + (y - 1970)) with y in E by lia.
  repeat (apply andb_true_iff in E as [E ?]).
  apply bool_decide_eq_true in E.
  match goal with H : bool_decide (string_of_Z y <> "") = true |- _ => apply bool_decide_eq_true in H end.
  done.
Qed.

(** The time fields of a day. *)
Lemma fields_range t :
  let r := t mod MS_DAY in 0 <= r / 3600000 < 24 /\ 0 <= r / 60000 mod 60 < 60 /\
  r / 3600000 * 3600000 + r / 60000 mod 60 * 60000 = r - t mod 60000.
Proof.
  intros r. assert (0 <= r < MS_DAY) by (apply Z.mod_pos_bound; unfold MS_DAY; lia).
  assert (t mod 60000 = r mod 60000) as ->.
  { unfold r, MS_DAY. replace 86400000 with (60000 * 1440) by lia.
    rewrite Z.rem_mul_r, Z.mul_comm, Z.mod_add, Z.mod_mod by lia. done. }
  unfold MS_DAY in *. Z.div_mod_to_equations. lia.
Qed.

Lemma date_of_parts_day z y m d h mi :
  100 <= y -> 1 <= m <= 12 ->
  date_of_parts z (Some y) (Some (m - 1)) (Some d) (Some h) (Some mi) =
  time_clip (to_utc z (days_from_civil y m d * MS_DAY + h * 3600000 + mi * 60000)).
Proof.
  intros Hy Hm. unfold date_of_parts.
  replace ((0 <=? y) && (y <=? 99)) with false by (symmetry; apply andb_false_iff; right; apply Z.leb_gt; lia).
  unfold make_day. rewrite Z.div_small, Z.mod_small by lia.
  do 3 f_equal. rewrite Z.add_0_r, Z.sub_add. unfold days_from_civil, doe_of. lia.
Qed.

(** Reading the text of a local date and time gives the instant of its minute. *)
Lemma parse_local_text z y m d h mi :
  1970 <= y <= 2999 -> 1 <= m <= 12 -> 1 <= d <= 31 -> 0 <= h < 24 -> 0 <= mi < 60 ->
  parseLocalTime z (string_of_Z y +:+ "-" +:+ two m +:+ "-" +:+ two d +:+ "T" +:+ two h +:+ ":" +:+ two mi) =
  time_clip (to_utc z (days_from_civil y m d * MS_DAY + h * 3600000 + mi * 60000)).
Proof.
  intros Hy Hm Hd Hh Hmi.
  destruct (year_text y Hy) as (Ey & Yd & YT & Yne).
  destruct (two_text m ltac:(lia)) as (Md & Mc & MT & Mne), (two_text d ltac:(lia)) as (Dd & Dc & DT & Dne),
    (two_text h ltac:(lia)) as (Hd' & Hc & HT & Hne), (two_text mi ltac:(lia)) as (Nd & Nc & NT & Nne).
  set (ymd := string_of_Z y +:+ "-" +:+ two m +:+ "-" +:+ two d).
  assert (Hs : string_of_Z y +:+ "-" +:+ two m +:+ "-" +:+ two d +:+ "T" +:+ two h +:+ ":" +:+ two mi
             = ymd +:+ String "T" (two h +:+ String ":" (two mi))) by (unfold ymd; by rewrite !str_app_assoc).
  rewrite Hs. unfold parseLocalTime.
  rewrite js_split_app; [|unfold ymd; rewrite !no_char_app; simpl; by rewrite YT, MT, DT].
  rewrite js_split_one; [|rewrite no_char_app; simpl; by rewrite HT, NT].
  assert (Hds : js_split "-" ymd = [string_of_Z y; two m; two d]).
  { unfold ymd. rewrite !(str_cons "-").
    rewrite js_split_app by done. rewrite js_split_app by done. by rewrite js_split_one. }
  assert (Hts : js_split ":" (two h +:+ String ":" (two mi)) = [two h; two mi])
    by (rewrite js_split_app by done; by rewrite js_split_one).
  destruct ymd as [|a r] eqn:Eymd; [by (unfold ymd in Eymd; destruct (string_of_Z y))|].
  destruct (two h +:+ String ":" (two mi)) as [|b q] eqn:Ehm; [by destruct (two h)|].
  rewrite Hds, Hts.
  rewrite (part_two 1 _ 1 m), (part_two 0 _ 2 d), (part_two 0 [two h; two mi] 0 h), (part_two 0 [two h; two mi] 1 mi) by (done || lia || auto).
  unfold part at 1. simpl (_ !! _). cbv beta iota. rewrite Ey, !Z.sub_0_r. apply date_of_parts_day; lia.
Qed.

Lemma parse_local_iso z t y m d h mi :
  fields_of t = (y, m, d, h, mi) -> 1970 <= y <= 2999 ->
  parseLocalTime z (local_iso t) = time_clip (to_utc z (t - t mod 60000)).
Proof.
  intros F Hy. unfold local_iso. rewrite F. unfold fields_of in F.
  pose proof (fields_range t) as R. cbv zeta in R.
  pose proof (civil_inverse (t / MS_DAY)) as C.
  destruct (civil_from_days (t / MS_DAY)) as [[y' m'] d']. injection F as -> -> -> <- <-.
  destruct C as [[Hm Hd] Hz].
  assert (days_in_month y m <= 31) by (unfold days_in_month; repeat case_match; lia).
  rewrite parse_local_text by lia. rewrite Hz. do 2 f_equal.
  pose proof (Z.div_mod t MS_DAY ltac:(done)). unfold MS_DAY in *. lia.
Qed.

(** ** Printed timestamps are read back *)

Definition in_years (t : Z) : Prop := let '(y, _, _, _, _) := fields_of t in 0 <= y <= 9999.

Lemma fixed_int_app n acc s v w r :
  fixed_int n acc s = Some (v, w) -> fixed_int n acc (s +:+ r) = Some (v, w +:+ r).
Proof.
  revert acc s. induction n as [|n IH]; intros acc s; [intros [= <- <-]; done|].
  destruct s as [|c s]; [done|]. change (String c s +:+ r) with (String c (s +:+ r)). cbn [fixed_int].
  destruct (digit_val c); [apply IH|done].
Qed.

Definition year4_ok (y : Z) : bool := bool_decide (fixed_int 4 0 (iso_year y) = Some (y, "")).
Lemma years4 : forallb year4_ok (upto (Z.to_nat 10000)) = true.
Proof. vm_compute. reflexivity. Qed.

Definition two_int_ok (n : Z) : bool := bool_decide (fixed_int 2 0 (two n) = Some (n, "")).
Lemma two_ints : forallb two_int_ok (upto 60) = true.
Proof. vm_compute. reflexivity. Qed.

(** The milliseconds, with the end of the text or a [Z] behind. *)
Definition millis (n : Z) : string := "." +:+ pad_start 3 (string_of_Z n).
Definition millis_ok (n : Z) : bool :=
  bool_decide (fraction_ms (millis n) = Some (n, "")) && bool_decide (fraction_ms (millis n +:+ "Z") = Some (n, "Z")).
Lemma millis_all : forallb millis_ok (upto 1000) = true.
Proof. vm_compute. reflexivity. Qed.

Lemma year_int y r : 0 <= y <= 9999 -> fixed_int 4 0 (iso_year y +:+ r) = Some (y, r).
Proof.
  intros H. pose proof (forallb_upto _ _ years4 y ltac:(lia)) as E. apply bool_decide_eq_true in E.
  by apply (fixed_int_app _ _ _ _ _ r) in E.
Qed.

Lemma two_int n r : 0 <= n < 60 -> fixed_int 2 0 (two n +:+ r) = Some (n, r).
Proof.
  intros H. pose proof (forallb_upto _ _ two_ints n ltac:(lia)) as E. apply bool_decide_eq_true in E.
  by apply (fixed_int_app _ _ _ _ _ r) in E.
Qed.

Lemma millis_read n : 0 <= n < 1000 ->
  fraction_ms (millis n) = Some (n, "") /\ fraction_ms (millis n +:+ "Z") = Some (n, "Z").
Proof.
  intros H. pose proof (forallb_upto _ _ millis_all n ltac:(lia)) as E.
  apply andb_true_iff in E as [E1 E2]. by apply bool_decide_eq_true in E1, E2.
Qed.

(** A printed time followed by a fraction and a zone. *)
Lemma iso_parse_text z t tail ms rest off :
  in_years t -> fraction_ms tail = Some (ms, rest) -> iso_offset rest = Some off ->
  iso_parse z (iso_seconds t +:+ tail) =
  Some (match off with
        | Some o => time_clip (t - t mod 1000 + ms - o * 60000)
        | None => time_clip (to_utc z (t - t mod 1000 + ms))
        end).
Proof.
  unfold in_years, iso_seconds. intros Hy Hf Ho.
  pose proof (fields_range t) as R. cbv zeta in R.
  pose proof (civil_inverse (t / MS_DAY)) as C. unfold fields_of in *.
  destruct (civil_from_days (t / MS_DAY)) as [[y m] d]. destruct C as [[Hm Hd] Hz].
  assert (days_in_month y m <= 31) by (unfold days_in_month; repeat case_match; lia).
  set (h := t mod MS_DAY / 3600000) in *. set (mi := t mod MS_DAY / 60000 mod 60) in *.
  pose proof (Z.mod_pos_bound t 60000 ltac:(done)) as Hr.
  assert (Hs : 0 <= t mod 60000 / 1000 < 60)
    by (split; [apply Z.div_pos; lia|apply Z.div_lt_upper_bound; lia]).
  rewrite !str_app_assoc, !(str_cons "-"), !(str_cons "T"), !(str_cons ":").
  unfold iso_parse, iso_date. rewrite year_int by lia. cbn [mbind option_bind eat].
  rewrite Ascii.eqb_refl. cbn [mbind option_bind].
  rewrite two_int by lia. cbn [mbind option_bind eat]. rewrite Ascii.eqb_refl. cbn [mbind option_bind].
  rewrite two_int by lia. cbn [mbind option_bind].
  assert (E : (1 <=? m) && (m <=? 12) && (1 <=? d) && (d <=? days_in_month y m) = true)
    by (rewrite !andb_true_iff, !Z.leb_le; lia).
  rewrite E. cbn [mbind option_bind eat]. rewrite Ascii.eqb_refl. cbn [mbind option_bind].
  unfold iso_time. rewrite two_int by lia. cbn [mbind option_bind eat]. rewrite Ascii.eqb_refl.
  cbn [mbind option_bind]. rewrite two_int by lia. cbn [mbind option_bind].
  rewrite two_int by lia. cbn [mbind option_bind]. rewrite Hf. cbn [mbind option_bind].
  assert (E2 : (h <=? 23) && (mi <=? 59) && (t mod 60000 / 1000 <=? 59) = true)
    by (rewrite !andb_true_iff, !Z.leb_le; lia).
  rewrite E2. cbn [mbind option_bind]. rewrite Ho. cbn [mbind option_bind].
  assert (Et : days_from_civil y m d * MS_DAY + (h * 3600000 + mi * 60000 + t mod 60000 / 1000 * 1000 + ms)
               = t - t mod 1000 + ms).
  { rewrite Hz. pose proof (Z.div_mod t MS_DAY ltac:(done)). unfold MS_DAY in *.
    clearbody h mi. Z.div_mod_to_equations. lia. }
  by rewrite Et.
Qed.

(** [new Date(d.toISOString())] is the same instant. *)
Lemma parse_iso_string z fallback t s :
  in_years t -> toISOString (Some t) = Ok s -> date_parse z fallback s = time_clip t.
Proof.
  intros Hy [= <-]. assert (R : 0 <= t mod 1000 < 1000) by (apply Z.mod_pos_bound; lia).
  unfold date_parse. change (pad_start 3 (string_of_Z (t mod 1000)) +:+ "Z") with
    (pad_start 3 (string_of_Z (t mod 1000)) +:+ "Z").
  assert (E : iso_seconds t +:+ "." +:+ pad_start 3 (string_of_Z (t mod 1000)) +:+ "Z"
            = iso_seconds t +:+ (millis (t mod 1000) +:+ "Z")) by (unfold millis; by rewrite !str_app_assoc).
  rewrite E, (iso_parse_text z t _ (t mod 1000) "Z" (Some 0) Hy) by (done || by apply millis_read).
  f_equal. lia.
Qed.

(** The text of a timestamp without a zone, as the server writes it: a fraction
    only when there is one.  A browser reads it as a local time. *)
Definition naive_text (t : Z) : string :=
  iso_seconds t +:+ (if t mod 1000 =? 0 then "" else millis (t mod 1000)).

Lemma parse_naive_text z fallback t :
  in_years t -> date_parse z fallback (naive_text t) = time_clip (to_utc z t).
Proof.
  intros Hy. assert (R : 0 <= t mod 1000 < 1000) by (apply Z.mod_pos_bound; lia).
  unfold date_parse, naive_text. destruct (t mod 1000 =? 0) eqn:E; bool_facts.
  - rewrite (iso_parse_text z t _ 0 "" None Hy) by done. do 2 f_equal. lia.
  - rewrite (iso_parse_text z t _ (t mod 1000) "" None Hy) by (done || by apply millis_read). do 2 f_equal. lia.
Qed.
