(* ===== verification/Markup.v ===== *)
(** * Rendered pages

    What a component returns: a tree of elements and texts, with the handlers the
    user can trigger.  A component's handlers are values of its own event type
    [A], so the tree says which events the page offers in a state.  Styles, class
    names and icons are left out; elements that only carry those are left out
    too. *)

From Stdlib Require Import Ascii.
From S2P Require Import Prelude JSNum.
#[local] Open Scope Z_scope.

(** What an element carries besides its children. *)
Inductive attribute (A : Type) :=
| Attr (name value : string)
| Disabled (b : bool)
| On (event : string) (a : A)
| Input (event : string) (f : string -> A).
Arguments Attr {A} name value.
Arguments Disabled {A} b.
Arguments On {A} event a.
Arguments Input {A} event f.

#[warnings="-register-all"]
Inductive node (A : Type) :=
| Txt (s : string)
| El (tag : string) (attrs : list (attribute A)) (kids : list (node A)).
Arguments Txt {A} s.
Arguments El {A} tag attrs kids.

(** [{b && n}] and [{b ? n : m}] among children. *)
Definition when {A} (b : bool) (l : list A) : list A := if b then l else [].

Definition is_disabled {A} (l : list (attribute A)) : bool :=
  existsb (fun a => match a with Disabled b => b | _ => false end) l.

Definition own_events {A} (l : list (attribute A)) : list A :=
  omap (fun a => match a with On _ e => Some e | _ => None end) l.

(** The events of the handlers that are not on a disabled element. *)
Fixpoint offered {A} (n : node A) : list A :=
  match n with
  | Txt _ => []
  | El _ attrs kids =>
      (if is_disabled attrs then [] else own_events attrs) ++ flat_map offered kids
  end.

(** The texts, in document order. *)
Fixpoint texts {A} (n : node A) : list string :=
  match n with
  | Txt s => [s]
  | El _ _ kids => flat_map texts kids
  end.

Definition own_links {A} (l : list (attribute A)) : list string :=
  omap (fun a => match a with Attr "href" v => Some v | _ => None end) l.

(** Where the links of the page lead. *)
Fixpoint links {A} (n : node A) : list string :=
  match n with
  | Txt _ => []
  | El _ attrs kids => own_links attrs ++ flat_map links kids
  end.

(** Shorthands for elements. *)
Definition tag {A} (t : string) (kids : list (node A)) : node A := El t [] kids.
Definition txt {A} (t s : string) : node A := El t [] [Txt s].
Definition link {A} (href s : string) : node A := El "a" [Attr "href" href] [Txt s].
Definition button {A} (a : A) (disabled : bool) (s : string) : node A :=
  El "button" [On "click" a; Disabled disabled] [Txt s].

(** The same page inside a component with more events. *)
Definition map_attr {A B} (f : A -> B) (x : attribute A) : attribute B :=
  match x with
  | Attr n v => Attr n v
  | Disabled b => Disabled b
  | On e a => On e (f a)
  | Input e g => Input e (fun v => f (g v))
  end.

Fixpoint map_node {A B} (f : A -> B) (n : node A) : node B :=
  match n with
  | Txt s => Txt s
  | El t attrs kids => El t (map (map_attr f) attrs) (map (map_node f) kids)
  end.

(** A labelled field with the constraints the browser checks before it submits a
    form. *)
Definition field {A} (label kind : string) (constraints : list (string * string)) (value : string)
    (f : string -> A) : node A :=
  El "label" [] [Txt label;
    El "input" (Attr "type" kind :: map (fun kv => Attr kv.1 kv.2) constraints ++
                [Attr "value" value; Input "change" f]) []].

Definition required : string * string := ("required", EmptyString).
Definition min_value (m : string) : string * string := ("min", m).
Definition min_length (m : string) : string * string := ("minLength", m).

Fixpoint get_attr {A} (name : string) (l : list (attribute A)) : option string :=
  match l with
  | [] => None
  | Attr n v :: r => if String.eqb n name then Some v else get_attr name r
  | _ :: r => get_attr name r
  end.

(** The constraints of one element: a required value is not empty, a number is not
    below its minimum, and a text is not shorter than its least length; the last
    two do not concern an empty value.  A disabled element is not checked. *)
Definition own_valid {A} (attrs : list (attribute A)) : bool :=
  match get_attr "value" attrs with
  | Some v =>
      let blank := String.eqb v EmptyString in
      is_disabled attrs ||
      (match get_attr "required" attrs with Some _ => negb blank | None => true end &&
       match get_attr "min" attrs with Some m => blank || negb (nlt (Number v) (Number m)) | None => true end &&
       match get_attr "minLength" attrs with
       | Some m => blank || negb (nlt (of_Z (Z.of_nat (String.length v))) (Number m))
       | None => true
       end)
  | None => true
  end.

(** The form can be submitted: every element passes. *)
Fixpoint form_valid {A} (n : node A) : bool :=
  match n with
  | Txt _ => true
  | El _ attrs kids => own_valid attrs && forallb form_valid kids
  end.

(** ** Lemmas *)
Section Trees.
Context {A : Type}.

Lemma offered_El (t : string) (attrs : list (attribute A)) (kids : list (node A)) (a : A) :
  a ∈ offered (El t attrs kids) <->
  (is_disabled attrs = false /\ a ∈ own_events attrs) \/ exists k, k ∈ kids /\ a ∈ offered k.
Proof.
  simpl. rewrite elem_of_app. split.
  - intros [H|H].
    + left. destruct (is_disabled attrs); [by apply not_elem_of_nil in H|done].
    + right. rewrite list_elem_of_In, in_flat_map in H. destruct H as (k & Hk & Ha).
      exists k. by rewrite !list_elem_of_In.
  - intros [[Hd H]|(k & Hk & Ha)].
    + left. by rewrite Hd.
    + right. rewrite list_elem_of_In, in_flat_map. exists k. by rewrite <-!list_elem_of_In.
Qed.

Lemma offered_tag (t : string) (kids : list (node A)) : offered (tag t kids) = flat_map offered kids.
Proof. done. Qed.

Lemma offered_button (x : A) (d : bool) (s : string) (a : A) :
  a ∈ offered (button x d s) <-> d = false /\ a = x.
Proof.
  unfold button. rewrite offered_El. simpl. rewrite orb_false_r, list_elem_of_singleton. split.
  - intros [[-> ->]|(k & ->%list_elem_of_singleton & H)]; [done|by apply not_elem_of_nil in H].
  - intros [-> ->]. by left.
Qed.

(** What the browser's check of a field says about its value. *)
Definition at_least (m v : string) : bool := String.eqb v EmptyString || negb (nlt (Number v) (Number m)).
Definition as_long_as (m v : string) : bool :=
  String.eqb v EmptyString || negb (nlt (of_Z (Z.of_nat (String.length v))) (Number m)).
Definition filled (v : string) : bool := negb (String.eqb v EmptyString).

Lemma field_valid (label kind v : string) (f : string -> A) (cs : list (string * string)) :
  form_valid (field label kind cs v f) =
  own_valid (Attr "type" kind :: map (fun kv => Attr kv.1 kv.2) cs ++ [Attr "value" v; Input "change" f]).
Proof. unfold field. simpl. by rewrite !andb_true_r. Qed.

Lemma free_field_valid (label kind v : string) (f : string -> A) :
  form_valid (field label kind [] v f) = true.
Proof. rewrite field_valid. reflexivity. Qed.

Lemma required_field_valid (label kind v : string) (f : string -> A) :
  form_valid (field label kind [required] v f) = filled v.
Proof. rewrite field_valid. unfold own_valid, filled. simpl. by rewrite !andb_true_r. Qed.

Lemma min_field_valid (label kind m v : string) (f : string -> A) :
  form_valid (field label kind [min_value m] v f) = at_least m v.
Proof. rewrite field_valid. unfold own_valid, at_least. simpl. by rewrite andb_true_r. Qed.

Lemma required_min_field_valid (label kind m v : string) (f : string -> A) :
  form_valid (field label kind [required; min_value m] v f) = filled v && at_least m v.
Proof. rewrite field_valid. unfold own_valid, filled, at_least. simpl. by rewrite andb_true_r. Qed.

Lemma required_length_field_valid (label kind m v : string) (f : string -> A) :
  form_valid (field label kind [required; min_length m] v f) = filled v && as_long_as m v.
Proof. rewrite field_valid. unfold own_valid, filled, as_long_as. simpl. by rewrite andb_true_r. Qed.

Lemma form_valid_kids (t : string) (kids : list (node A)) :
  form_valid (El t [] kids) = forallb form_valid kids.
Proof. done. Qed.

Lemma flat_map_when {B : Type} (f : B -> list A) (b : bool) (l : list B) (a : A) :
  a ∈ flat_map f (when b l) <-> b = true /\ a ∈ flat_map f l.
Proof. destruct b; simpl; rewrite ?elem_of_nil; naive_solver. Qed.

End Trees.

(** The events of an embedded page are the page's own, renamed. *)
Lemma own_events_map {A B} (f : A -> B) (l : list (attribute A)) :
  own_events (map (map_attr f) l) = map f (own_events l) /\ is_disabled (map (map_attr f) l) = is_disabled l.
Proof.
  induction l as [|x l [IH1 IH2]]; [done|]. unfold own_events, is_disabled in *.
  destruct x; simpl in *; (split; [try done; by f_equal|try done; by f_equal]).
Qed.

Lemma offered_map_node {A B} (f : A -> B) : forall n : node A, offered (map_node f n) = map f (offered n).
Proof.
  fix IH 1. intros [s|t attrs kids]; [done|]. cbn [offered map_node].
  destruct (own_events_map f attrs) as [-> ->].
  rewrite map_app. f_equal; [by destruct (is_disabled attrs)|].
  induction kids as [|k kids IHk]; [done|]. cbn [map flat_map]. by rewrite map_app, IH, IHk.
Qed.

(** A list of parts that offer nothing. *)
Lemma offered_none {A B} (f : B -> node A) (l : list B) :
  (forall x, offered (f x) = []) -> flat_map offered (map f l) = [].
Proof. intros H. induction l as [|x l IH]; [done|]. simpl. by rewrite H, IH. Qed.

(** Splits the validity of a form into the validity of its fields. *)
Ltac split_valid H :=
  rewrite ?form_valid_kids in H; rewrite ?forallb_app in H; cbn [forallb] in H;
  rewrite ?required_min_field_valid, ?required_length_field_valid, ?min_field_valid,
    ?required_field_valid in H;
  rewrite ?andb_true_iff in H.
