(* ===== verification/ApiTypes.v ===== *)
(** * Data shared by the web client

    The interfaces of [types/api.ts] and [schemas/auction.ts] and the constants
    of [constants/].  A property that may be missing or [null] is an [option]:
    the source never tells the two apart. *)

From S2P Require Import Prelude JSNum.
#[local] Open Scope Z_scope.

Inductive AuctionDirection := REVERSE | FORWARD.

#[export] Instance AuctionDirection_eq_dec : EqDecision AuctionDirection.
Proof. solve_decision. Defined.

Definition direction_text (d : AuctionDirection) : string :=
  match d with REVERSE => "REVERSE" | FORWARD => "FORWARD" end.

(** [interface Auction]. *)
Module Auction.
Record t := mk {
  id : string;
  title : string;
  description : string;
  auction_type : AuctionDirection;
  minimum_bid_step : num;
  reserve_price : option num;
  item_category : option string;
  item_condition : option string;
  quantity : option num;
  quantity_unit : option string;
  pickup_terms : option string;
  origin_address : option string;
  origin_lat : option num;
  origin_lng : option num;
  dest_address : option string;
  dest_lat : option num;
  dest_lng : option num;
  auction_start_time : string;
  auction_end_time : string;
  pickup_date : option string;
  media_urls : option (list string);
  weight : option num;
  length : option num;
  width : option num;
  height : option num;
  starting_price : option num;
  participants_count : option Z;
  is_registered : option bool;
  is_closed : option bool;
  winner_id : option string
}.
End Auction.

(** [UserRole] of [contexts/AuthContext.tsx]. *)
Inductive UserRole := CUSTOMER | CARRIER | ADMIN.

#[export] Instance UserRole_eq_dec : EqDecision UserRole.
Proof. solve_decision. Defined.

Definition role_text (r : UserRole) : string :=
  match r with CUSTOMER => "CUSTOMER" | CARRIER => "CARRIER" | ADMIN => "ADMIN" end.

Inductive ListingStatus :=
| DRAFT | SUBMITTED | UNDER_REVIEW | CHANGES_REQUESTED | APPROVED | REJECTED | SCHEDULED | CANCELLED.

#[export] Instance ListingStatus_eq_dec : EqDecision ListingStatus.
Proof. solve_decision. Defined.

Definition listing_status_text (s : ListingStatus) : string :=
  match s with
  | DRAFT => "DRAFT" | SUBMITTED => "SUBMITTED" | UNDER_REVIEW => "UNDER_REVIEW"
  | CHANGES_REQUESTED => "CHANGES_REQUESTED" | APPROVED => "APPROVED" | REJECTED => "REJECTED"
  | SCHEDULED => "SCHEDULED" | CANCELLED => "CANCELLED"
  end.

(** [interface AuctionListing]. *)
Module Listing.
Record t := mk {
  id : string;
  seller_id : string;
  auction_id : option string;
  status : ListingStatus;
  auction_type : AuctionDirection;
  title : string;
  description : string;
  item_category : option string;
  item_condition : option string;
  quantity : option num;
  quantity_unit : option string;
  starting_price : num;
  minimum_bid_step : num;
  reserve_price : option num;
  origin_address : option string;
  pickup_terms : option string;
  availability_start : option string;
  availability_end : option string;
  media_urls : list (option string);
  admin_feedback : option string;
  submitted_at : string;
  updated_at : string;
  seller_name : option string;
  seller_email : option string;
  seller_company : option string
}.
End Listing.

(** [schemas/auction.ts].  Form values are the texts of the inputs; the two
    fields that start as numbers ([quantity: 1], [minimumBidStep: 1]) start as the
    text an input shows for them. *)
Module AuctionFormData.
Record t := mk {
  title : string;
  description : string;
  auctionType : AuctionDirection;
  category : string;
  itemCondition : string;
  quantity : string;
  quantityUnit : string;
  startingPrice : string;
  minimumBidStep : string;
  reservePrice : string;
  auctionStartTime : string;
  auctionEndTime : string;
  detailedInformation : string;
  location : string;
  destination : string;
  length : string;
  width : string;
  height : string;
  weight : string
}.
End AuctionFormData.

Module ForwardAuctionFormData.
Record t := mk {
  title : string;
  description : string;
  length : string;
  width : string;
  height : string;
  weight : string;
  location : string;
  startingPrice : string;
  detailedInformation : string;
  category : string;
  auctionEndDate : string
}.
End ForwardAuctionFormData.

Inductive media_type := image | video.

#[export] Instance media_type_eq_dec : EqDecision media_type.
Proof. solve_decision. Defined.

(** A chosen file: what the forms use of it. *)
Record File := mkFile { file_name : string; file_type : string }.

(** [MediaPreview]. *)
Module MediaPreview.
Record t := mk { id : string; file : File; url : string; type : media_type }.
End MediaPreview.

Definition AUCTION_CATEGORIES : list string :=
  ["Art and collectibles"; "Business supplies"; "Commodities"; "Electronics"; "Event services";
   "Freight and logistics"; "Furniture"; "Healthcare"; "Industrial equipment";
   "Professional services"; "Real estate"; "Vehicles"; "Other"].

Definition ITEM_CONDITIONS : list string :=
  ["New"; "Used - like new"; "Used - inspected"; "Refurbished"; "Not applicable"].

Definition SHIPMENT_CATEGORIES : list string :=
  ["General Freight"; "Heavy Machinery"; "Vehicles / Auto"; "Temperature Controlled";
   "Hazardous Materials"; "Flatbed"; "Oversized"; "Other"].

Definition TIME_TO_DELIVER_OPTIONS : list string :=
  ["1-2 Days (Expedited)"; "3-5 Days (Standard)"; "1 Week"; "2 Weeks"; "Flexible"].
