(* ===== verification/AuctionSlice.v ===== *)
(** * The live auction store ([store/slices/auctionSlice.ts])

    The Redux slice that every live view reads: its state, its reducers, and the
    theorems on the bid ledger and the leading price.  Amounts are JavaScript
    numbers; instants are integer milliseconds.  [Date.now()] and the random
    identifier are arguments. *)

From S2P Require Import Prelude JSNum ApiTypes.
#[local] Open Scope Z_scope.

Inductive BidStatus := pending | confirmed | rejected.
Inductive AuctionPhase := waiting | active | ended.

#[export] Instance BidStatus_eq_dec : EqDecision BidStatus.
Proof. solve_decision. Defined.
#[export] Instance AuctionPhase_eq_dec : EqDecision AuctionPhase.
Proof. solve_decision. Defined.

Record Bid := mkBid {
  bid_id : string;
  bid_amount : num;
  bid_bidder : string;
  bid_timestamp : Z;
  bid_status : BidStatus
}.

Record AuctionState := mkState {
  auctionId : option string;
  bids : list Bid;
  currentPrice : option num;
  startingPrice : option num;
  auctionType : AuctionDirection;
  minimumBidStep : num;
  isConnected : bool;
  timeSkew : Z;
  startTime : option Z;
  endTime : option Z;
  auctionStatus : AuctionPhase;
  isParticipant : bool
}.

Definition initialState : AuctionState :=
  mkState None [] None None REVERSE (of_Z 1) false 0 None None waiting false.

(** Assignments to one or two properties of the draft. *)
Definition set_bids (l : list Bid) (p : option num) (s : AuctionState) : AuctionState :=
  mkState (auctionId s) l p (startingPrice s) (auctionType s) (minimumBidStep s) (isConnected s)
    (timeSkew s) (startTime s) (endTime s) (auctionStatus s) (isParticipant s).
Definition set_status (x : AuctionPhase) (s : AuctionState) : AuctionState :=
  mkState (auctionId s) (bids s) (currentPrice s) (startingPrice s) (auctionType s)
    (minimumBidStep s) (isConnected s) (timeSkew s) (startTime s) (endTime s) x (isParticipant s).

Record InitPayload := mkInit {
  ip_auctionId : string;
  ip_auctionType : AuctionDirection;
  ip_minimumBidStep : num;
  ip_startTime : Z;
  ip_endTime : Z;
  ip_initialPrice : option num;
  ip_isParticipant : bool
}.

(** [id] is optional; the status of an event is never [pending]. *)
Record ReconcilePayload := mkRec {
  rp_id : option string;
  rp_accepted : bool;
  rp_amount : num;
  rp_bidder : string;
  rp_timestamp : Z
}.

(** The nested conditional of [initAuction] and [updateAuctionStatus]. *)
Definition status_at (now start fin : Z) : AuctionPhase :=
  if fin <? now then ended else if start <=? now then active else waiting.

Definition initAuction (date_now : Z) (p : InitPayload) (s : AuctionState) : AuctionState :=
  let now := date_now + timeSkew s in
  mkState (Some (ip_auctionId p)) [] (ip_initialPrice p) (ip_initialPrice p) (ip_auctionType p)
    (ip_minimumBidStep p) (isConnected s) (timeSkew s) (Some (ip_startTime p))
    (Some (ip_endTime p)) (status_at now (ip_startTime p) (ip_endTime p)) (ip_isParticipant p).

(** A time property is truthy when it is neither [null] nor 0. *)
Definition truthy_time (t : option Z) : option Z :=
  match t with Some 0 => None | _ => t end.

Definition updateAuctionStatus (date_now : Z) (s : AuctionState) : AuctionState :=
  match truthy_time (startTime s), truthy_time (endTime s) with
  | Some st, Some fin => set_status (status_at (date_now + timeSkew s) st fin) s
  | _, _ => s
  end.

Definition setConnectionStatus (b : bool) (s : AuctionState) : AuctionState :=
  mkState (auctionId s) (bids s) (currentPrice s) (startingPrice s) (auctionType s)
    (minimumBidStep s) b (timeSkew s) (startTime s) (endTime s) (auctionStatus s) (isParticipant s).

Definition setTimeSkew (z : Z) (s : AuctionState) : AuctionState :=
  mkState (auctionId s) (bids s) (currentPrice s) (startingPrice s) (auctionType s)
    (minimumBidStep s) (isConnected s) z (startTime s) (endTime s) (auctionStatus s) (isParticipant s).

(** [a] beats [b] in the auction's direction. *)
Definition better (d : AuctionDirection) (a b : num) : bool :=
  match d with REVERSE => nlt a b | FORWARD => nlt b a end.

Definition addOptimisticBid (b : Bid) (s : AuctionState) : AuctionState :=
  let improvesPrice :=
    match currentPrice s with
    | None => true
    | Some p => better (auctionType s) (bid_amount b) p
    end in
  set_bids (b :: bids s) (if improvesPrice then Some (bid_amount b) else currentPrice s) s.

Definition event_status (p : ReconcilePayload) : BidStatus :=
  if rp_accepted p then confirmed else rejected.

(** [{ ...payload, id }]. *)
Definition bid_of (i : string) (p : ReconcilePayload) : Bid :=
  mkBid i (rp_amount p) (rp_bidder p) (rp_timestamp p) (event_status p).

Definition is_pending (b : Bid) : bool := bool_decide (bid_status b = pending).
Definition not_rejected (b : Bid) : bool := negb (bool_decide (bid_status b = rejected)).

(** The index of the bid an event updates: by identifier, else the first pending
    bid of that amount. *)
Definition match_index (p : ReconcilePayload) (l : list Bid) : option nat :=
  let byId :=
    if truthy_str (rp_id p)
    then find_index (fun b => bool_decide (Some (bid_id b) = rp_id p)) l else None in
  match byId with
  | Some i => Some i
  | None => find_index (fun b => is_pending b && neq (bid_amount b) (rp_amount p)) l
  end.

(** [(a, b) => b.timestamp - a.timestamp]. *)
Definition newest_first (a b : Bid) : bool := bid_timestamp b - bid_timestamp a <=? 0.

Definition apply_event (fresh : string) (p : ReconcilePayload) (l : list Bid) : list Bid :=
  match match_index p l with
  | Some i =>
      match l !! i with
      | Some old => <[i := bid_of (bid_id old) p]> l
      | None => l
      end
  | None => bid_of (or_ostr (rp_id p) fresh) p :: l
  end.

(** [Math.min(...amounts)] or [Math.max(...amounts)]. *)
Definition best_amount (d : AuctionDirection) (amounts : list num) : num :=
  match d with REVERSE => js_min amounts | FORWARD => js_max amounts end.

Definition leading_price (s : AuctionState) (l : list Bid) : option num :=
  match js_filter not_rejected l with
  | [] => startingPrice s
  | validBids => Some (best_amount (auctionType s) (map bid_amount validBids))
  end.

Definition reconcileBid (fresh : string) (p : ReconcilePayload) (s : AuctionState) : AuctionState :=
  let l := js_sort newest_first (apply_event fresh p (bids s)) in
  set_bids l (leading_price s l) s.

Definition endAuction (s : AuctionState) : AuctionState := set_status ended s.

Inductive action :=
| InitAuction (p : InitPayload)
| UpdateAuctionStatus
| SetConnectionStatus (b : bool)
| SetTimeSkew (z : Z)
| AddOptimisticBid (b : Bid)
| ReconcileBid (p : ReconcilePayload)
| EndAuction.

(** The slice's reducer; [now] is [Date.now()] and [fresh] the random text at the
    time of the dispatch. *)
Definition reducer (now : Z) (fresh : string) (s : AuctionState) (a : action) : AuctionState :=
  match a with
  | InitAuction p => initAuction now p s
  | UpdateAuctionStatus => updateAuctionStatus now s
  | SetConnectionStatus b => setConnectionStatus b s
  | SetTimeSkew z => setTimeSkew z s
  | AddOptimisticBid b => addOptimisticBid b s
  | ReconcileBid p => reconcileBid fresh p s
  | EndAuction => endAuction s
  end.

(** ** Helper lemmas *)

Lemma is_pending_bid_of i p : is_pending (bid_of i p) = false.
Proof. unfold is_pending, bid_of, event_status; simpl. by destruct (rp_accepted p). Qed.

Lemma not_rejected_bid_of i p : not_rejected (bid_of i p) = rp_accepted p.
Proof. unfold not_rejected, bid_of, event_status; simpl. by destruct (rp_accepted p). Qed.

Definition ids (l : list Bid) : list string := map bid_id l.
Definition finite_bids (l : list Bid) : Prop := Forall (fun b => is_finite (bid_amount b) = true) l.

(** The ledger as a map from identifiers: the abstract view of the bid list. *)
Definition ledger_of (l : list Bid) : gmap string Bid :=
  list_to_map (map (fun b => (bid_id b, b)) l).

Lemma newest_first_total x y : True -> True -> newest_first x y = true \/ newest_first y x = true.
Proof. unfold newest_first. rewrite !Z.leb_le. lia. Qed.

Lemma newest_first_trans x y z : True -> True -> True ->
  newest_first x y = true -> newest_first y z = true -> newest_first x z = true.
Proof. unfold newest_first. rewrite !Z.leb_le. lia. Qed.

Lemma ledger_keys l : (map (fun b => (bid_id b, b)) l).*1 = ids l.
Proof. induction l; simpl; [done|]. by f_equal. Qed.

Lemma ledger_perm l l' : NoDup (ids l) -> Permutation l l' -> ledger_of l = ledger_of l'.
Proof.
  intros Hn Hp. apply list_to_map_proper; [by rewrite ledger_keys|]. by apply Permutation_map.
Qed.

Lemma ids_perm l l' : Permutation l l' -> Permutation (ids l) (ids l').
Proof. apply Permutation_map. Qed.

Lemma ids_insert l i old b :
  l !! i = Some old -> bid_id b = bid_id old -> ids (<[i := b]> l) = ids l.
Proof.
  intros Hl Hb. unfold ids. rewrite list_fmap_insert. apply list_insert_id.
  rewrite list_lookup_fmap, Hl. simpl. by rewrite Hb.
Qed.

Lemma ledger_insert l i old b :
  NoDup (ids l) -> l !! i = Some old -> bid_id b = bid_id old ->
  ledger_of (<[i := b]> l) = <[bid_id old := b]> (ledger_of l).
Proof.
  revert i; induction l as [|x l IH]; intros [|i] Hn Hl Hb; simplify_eq/=.
  - unfold ledger_of. simpl. rewrite insert_insert_eq. by f_equal.
  - inversion Hn as [|? ? Hx Hn']; subst. change (list_insert i b l) with (<[i := b]> l).
    transitivity (<[bid_id x := x]> (ledger_of (<[i := b]> l))); [done|].
    rewrite (IH i) by done.
    transitivity (<[bid_id old := b]> (<[bid_id x := x]> (ledger_of l))); [|done].
    apply insert_insert_ne. intros E. apply Hx. rewrite E.
    apply list_elem_of_fmap. exists old. split; [done|]. by eapply list_elem_of_lookup_2.
Qed.

(** What the matching finds. *)
Lemma match_index_Some p l i :
  match_index p l = Some i -> exists old, l !! i = Some old.
Proof.
  unfold match_index. case_match eqn:E.
  - intros [= <-]. case_match; [|done]. apply find_index_Some in E as (x & ? & _); eauto.
  - intros H. apply find_index_Some in H as (x & ? & _); eauto.
Qed.

Lemma match_index_None p l :
  match_index p l = None ->
  (truthy_str (rp_id p) = true -> or_ostr (rp_id p) "" ∉ ids l).
Proof.
  unfold match_index. intros H Ht. rewrite Ht in H.
  destruct (find_index _ l) eqn:E; [done|]. apply find_index_None in E.
  rewrite Forall_forall in E. intros [b [Hb Hin]]%list_elem_of_fmap.
  specialize (E b Hin). apply bool_decide_eq_false in E. apply E.
  destruct (rp_id p) as [[|c s]|]; simpl in *; congruence.
Qed.

(** The entry an event is written to. *)
Definition event_key (fresh : string) (p : ReconcilePayload) (l : list Bid) : string :=
  match match_index p l with
  | Some i => match l !! i with Some old => bid_id old | None => or_ostr (rp_id p) fresh end
  | None => or_ostr (rp_id p) fresh
  end.

(** A random identifier, when one is drawn, is new. *)
Definition fresh_ok (fresh : string) (p : ReconcilePayload) (l : list Bid) : Prop :=
  truthy_str (rp_id p) = false -> fresh ∉ ids l.

Lemma event_key_new fresh p l :
  fresh_ok fresh p l -> match_index p l = None -> or_ostr (rp_id p) fresh ∉ ids l.
Proof.
  intros Hf Hm. pose proof (match_index_None p l Hm) as H.
  unfold fresh_ok in Hf. destruct (rp_id p) as [[|c s]|]; simpl in *; auto.
Qed.

Lemma apply_event_ids fresh p l :
  NoDup (ids l) -> fresh_ok fresh p l -> NoDup (ids (apply_event fresh p l)).
Proof.
  intros Hn Hf. unfold apply_event. destruct (match_index p l) as [i|] eqn:E.
  - destruct (match_index_Some p l i E) as [old Ho]. rewrite Ho.
    by rewrite (ids_insert l i old).
  - simpl. constructor; [|done]. by apply event_key_new.
Qed.

Lemma apply_event_ledger fresh p l :
  NoDup (ids l) ->
  ledger_of (apply_event fresh p l) =
  <[event_key fresh p l := bid_of (event_key fresh p l) p]> (ledger_of l).
Proof.
  intros Hn. unfold apply_event, event_key. destruct (match_index p l) as [i|] eqn:E.
  - destruct (match_index_Some p l i E) as [old Ho]. rewrite Ho. by apply ledger_insert.
  - done.
Qed.

Lemma apply_event_Forall (P : Bid -> Prop) fresh p l :
  Forall P l -> (forall i, P (bid_of i p)) -> Forall P (apply_event fresh p l).
Proof.
  intros Hl Hp. unfold apply_event. destruct (match_index p l) as [i|]; [|by constructor].
  destruct (l !! i) as [old|]; [|done]. by apply Forall_insert.
Qed.

Lemma apply_event_finite fresh p l :
  finite_bids l -> is_finite (rp_amount p) = true -> finite_bids (apply_event fresh p l).
Proof. intros. by apply apply_event_Forall. Qed.

(** The leading price and the bid that carries it. *)
Definition leads (d : AuctionDirection) (l : list Bid) (b : Bid) : Prop :=
  b ∈ l /\ not_rejected b = true /\
  forall b', b' ∈ l -> not_rejected b' = true -> better d (bid_amount b') (bid_amount b) = false.

Lemma best_amount_spec d l :
  l <> [] -> Forall (fun x => is_finite x = true) l ->
  best_amount d l ∈ l /\ Forall (fun x => better d x (best_amount d l) = false) l.
Proof.
  intros Hne Hf. destruct d; simpl.
  - destruct (js_min_spec l Hne Hf) as [E F]. split; [done|].
    eapply Forall_impl; [exact F|]. simpl. intros x Hx. num_order.
  - destruct (js_max_spec l Hne Hf) as [E F]. split; [done|].
    eapply Forall_impl; [exact F|]. simpl. intros x Hx. num_order.
Qed.

Lemma js_filter_elem p (l : list Bid) b : b ∈ js_filter p l <-> p b = true /\ b ∈ l.
Proof.
  unfold js_filter. rewrite !list_elem_of_In, List.filter_In. tauto.
Qed.

Lemma leading_price_spec s l :
  finite_bids l ->
  (Forall (fun b => not_rejected b = false) l /\ leading_price s l = startingPrice s) \/
  (exists b, leads (auctionType s) l b /\ leading_price s l = Some (bid_amount b)).
Proof.
  intros Hf. unfold leading_price. destruct (js_filter not_rejected l) as [|x v] eqn:E.
  - left. split; [|done]. apply Forall_forall. intros b Hb.
    destruct (not_rejected b) eqn:N; [|done].
    assert (b ∈ js_filter not_rejected l) as Hi by (by apply js_filter_elem).
    rewrite E in Hi. by apply not_elem_of_nil in Hi.
  - right.
    assert (Hv : Forall (fun y => is_finite y = true) (map bid_amount (x :: v))).
    { apply Forall_fmap, Forall_forall. intros b Hb. rewrite <-E in Hb.
      apply js_filter_elem in Hb as [_ Hb]. unfold finite_bids in Hf. rewrite Forall_forall in Hf. auto. }
    destruct (best_amount_spec (auctionType s) (map bid_amount (x :: v)) ltac:(done) Hv) as [Hin Hbest].
    apply list_elem_of_fmap in Hin as (b & Hb & Hin). exists b.
    rewrite <-E in Hin. apply js_filter_elem in Hin as [Hnr Hin].
    split; [|by rewrite Hb]. repeat split; auto.
    intros b' Hb' Hn'. rewrite Forall_fmap, Forall_forall in Hbest. rewrite <-Hb.
    apply Hbest. rewrite <-E. by apply js_filter_elem.
Qed.

Lemma reconcile_bids_perm fresh p s :
  Permutation (bids (reconcileBid fresh p s)) (apply_event fresh p (bids s)).
Proof. apply js_sort_perm. Qed.

Lemma reconcile_bids_Forall (P : Bid -> Prop) fresh p s :
  Forall P (bids s) -> (forall i, P (bid_of i p)) -> Forall P (bids (reconcileBid fresh p s)).
Proof. intros. apply js_sort_Forall. by apply apply_event_Forall. Qed.

Lemma reconcile_ids fresh p s :
  NoDup (ids (bids s)) -> fresh_ok fresh p (bids s) -> NoDup (ids (bids (reconcileBid fresh p s))).
Proof.
  intros. rewrite (ids_perm _ _ (reconcile_bids_perm fresh p s)). by apply apply_event_ids.
Qed.

Lemma reconcile_ledger fresh p s :
  NoDup (ids (bids s)) -> fresh_ok fresh p (bids s) ->
  ledger_of (bids (reconcileBid fresh p s)) =
  <[event_key fresh p (bids s) := bid_of (event_key fresh p (bids s)) p]> (ledger_of (bids s)).
Proof.
  intros Hn Hf. rewrite (ledger_perm _ (apply_event fresh p (bids s))).
  - by apply apply_event_ledger.
  - by apply reconcile_ids.
  - apply reconcile_bids_perm.
Qed.

(** Prices that agree as numbers ([-0] and [+0] agree). *)
Definition price_eq (a b : option num) : Prop :=
  match a, b with
  | Some x, Some y => neq x y = true
  | None, None => True
  | _, _ => False
  end.

Lemma leads_perm d l l' b : Permutation l l' -> leads d l b -> leads d l' b.
Proof.
  intros Hp (Hin & Hn & Hb). split; [by rewrite <-Hp|]. split; [done|].
  intros b' Hb'. apply Hb. by rewrite Hp.
Qed.

Lemma leads_unique d l b b' :
  finite_bids l -> leads d l b -> leads d l b' -> neq (bid_amount b) (bid_amount b') = true.
Proof.
  intros Hf (Hin & Hn & Hb) (Hin' & Hn' & Hb').
  unfold finite_bids in Hf. rewrite Forall_forall in Hf.
  pose proof (finite_not_nan _ (Hf b Hin)). pose proof (finite_not_nan _ (Hf b' Hin')).
  specialize (Hb b' Hin' Hn'). specialize (Hb' b Hin Hn). destruct d; simpl in *; num_order.
Qed.

Definition finite_price (p : option num) : Prop :=
  match p with Some x => is_finite x = true | None => True end.

Lemma price_eq_refl p : finite_price p -> price_eq p p.
Proof. destruct p; simpl; eauto with aqua. Qed.

#[export] Instance price_eq_per : RelationClasses.PER price_eq.
Proof.
  split; [intros [x|] [y|]|intros [x|] [y|] [z|]]; simpl; try done; intros; num_order.
Qed.

(** The leading price depends only on which bids there are. *)
Lemma leading_price_perm s s' l l' :
  startingPrice s = startingPrice s' -> auctionType s = auctionType s' ->
  finite_price (startingPrice s) -> finite_bids l -> Permutation l l' ->
  price_eq (leading_price s l) (leading_price s' l').
Proof.
  intros Hs Ha Hfs Hf Hp.
  assert (Hf' : finite_bids l') by (unfold finite_bids in *; by rewrite <-Hp).
  destruct (leading_price_spec s l Hf) as [[Hr ->]|(b & Hb & ->)],
    (leading_price_spec s' l' Hf') as [[Hr' ->]|(b' & Hb' & ->)].
  - rewrite <-Hs. by apply price_eq_refl.
  - destruct Hb' as (Hin & Hn & _). rewrite <-Hp in Hin. rewrite Forall_forall in Hr.
    by rewrite (Hr b' Hin) in Hn.
  - destruct Hb as (Hin & Hn & _). rewrite Hp in Hin. rewrite Forall_forall in Hr'.
    by rewrite (Hr' b Hin) in Hn.
  - simpl. apply (leads_unique (auctionType s) l'); [done|by eapply leads_perm|by rewrite Ha].
Qed.

Lemma ledger_eq_perm l l' :
  NoDup (ids l) -> NoDup (ids l') -> ledger_of l = ledger_of l' -> Permutation l l'.
Proof.
  intros Hn Hn' E.
  assert (H : Permutation (map (fun b => (bid_id b, b)) l) (map (fun b => (bid_id b, b)) l')).
  { rewrite <-(map_to_list_to_map (M := gmap string) (map (fun b => (bid_id b, b)) l))
      by (by rewrite ledger_keys).
    rewrite <-(map_to_list_to_map (M := gmap string) (map (fun b => (bid_id b, b)) l'))
      by (by rewrite ledger_keys).
    fold (ledger_of l) (ledger_of l'). by rewrite E. }
  apply (Permutation_map snd) in H. rewrite !map_map in H. simpl in H. by rewrite !map_id in H.
Qed.

(** ** Replaying a list of server events *)
Definition replay (ps : list ReconcilePayload) (s : AuctionState) : AuctionState :=
  fold_left (fun s p => reconcileBid "" p s) ps s.

Definition rp_key (p : ReconcilePayload) : string := or_ostr (rp_id p) "".
Definition no_pending (l : list Bid) : Prop := Forall (fun b => is_pending b = false) l.

(** An event with an identifier is written to that identifier's entry when the
    entry exists, or when no pending bid has its amount. *)
Lemma event_key_by_id fresh p l i b :
  find_index (fun b => bool_decide (Some (bid_id b) = rp_id p)) l = Some i ->
  l !! i = Some b -> Some (bid_id b) = rp_id p -> truthy_str (rp_id p) = true ->
  event_key fresh p l = rp_key p.
Proof.
  intros E Hb Hid Ht. unfold event_key, match_index, rp_key. rewrite Ht, E, Hb.
  rewrite <-Hid in *. simpl. by destruct (bid_id b).
Qed.

Lemma event_key_known fresh p l :
  truthy_str (rp_id p) = true -> rp_key p ∈ ids l -> event_key fresh p l = rp_key p.
Proof.
  intros Ht Hin.
  destruct (find_index (fun b => bool_decide (Some (bid_id b) = rp_id p)) l) as [i|] eqn:E.
  - pose proof E as E'. apply find_index_Some in E as (b & Hb & Hid & _).
    apply bool_decide_eq_true in Hid. by eapply event_key_by_id.
  - exfalso. apply find_index_None in E. rewrite Forall_forall in E.
    apply list_elem_of_fmap in Hin as (b & Hb & Hin). specialize (E b Hin).
    apply bool_decide_eq_false in E. unfold rp_key in Hb.
    destruct (rp_id p) as [[|c r]|]; simplify_eq/=. congruence.
Qed.

Lemma event_key_no_rival fresh p l :
  truthy_str (rp_id p) = true ->
  Forall (fun b => is_pending b && neq (bid_amount b) (rp_amount p) = false) l ->
  event_key fresh p l = rp_key p.
Proof.
  intros Ht Hp.
  destruct (find_index (fun b => bool_decide (Some (bid_id b) = rp_id p)) l) as [i|] eqn:E.
  - pose proof E as E'. apply find_index_Some in E as (b & Hb & Hid & _).
    apply bool_decide_eq_true in Hid. by eapply event_key_by_id.
  - unfold event_key, match_index, rp_key. rewrite Ht, E, (proj2 (find_index_None _ l) Hp).
    by destruct (rp_id p) as [[|c r]|].
Qed.

Lemma event_key_plain fresh p l :
  no_pending l -> truthy_str (rp_id p) = true -> event_key fresh p l = rp_key p.
Proof.
  intros Hp Ht. apply event_key_no_rival; [done|].
  eapply Forall_impl; [exact Hp|]. simpl. by intros b ->.
Qed.

Lemma fresh_ok_truthy fresh p l : truthy_str (rp_id p) = true -> fresh_ok fresh p l.
Proof. unfold fresh_ok. congruence. Qed.

Definition put_event (m : gmap string Bid) (p : ReconcilePayload) : gmap string Bid :=
  <[rp_key p := bid_of (rp_key p) p]> m.

Lemma replay_spec ps s :
  Forall (fun p => truthy_str (rp_id p) = true) ps ->
  no_pending (bids s) -> NoDup (ids (bids s)) ->
  ledger_of (bids (replay ps s)) = fold_left put_event ps (ledger_of (bids s)) /\
  NoDup (ids (bids (replay ps s))) /\
  startingPrice (replay ps s) = startingPrice s /\ auctionType (replay ps s) = auctionType s.
Proof.
  revert s; induction ps as [|p ps IH]; intros s Ht Hp Hn; simpl; [done|].
  inversion Ht as [|? ? Hp1 Ht']; subst.
  destruct (IH (reconcileBid "" p s)) as (E & N & S & A); auto.
  - apply reconcile_bids_Forall; [done|]. intros i. apply is_pending_bid_of.
  - apply reconcile_ids; [done|]. by apply fresh_ok_truthy.
  - rewrite E. rewrite reconcile_ledger by (done || by apply fresh_ok_truthy).
    by rewrite event_key_plain.
Qed.

Lemma replay_finite ps s :
  Forall (fun p => is_finite (rp_amount p) = true) ps -> finite_bids (bids s) ->
  finite_bids (bids (replay ps s)).
Proof.
  revert s; induction ps as [|p ps IH]; intros s Hf Hb; simpl; [done|].
  inversion Hf; subst. apply IH; [done|]. by apply reconcile_bids_Forall.
Qed.

Lemma replay_price ps s :
  ps <> [] -> currentPrice (replay ps s) = leading_price (replay ps s) (bids (replay ps s)).
Proof.
  intros Hne. destruct ps as [|p ps] using rev_ind; [done|].
  unfold replay. rewrite fold_left_app. done.
Qed.

Lemma put_events_perm ps qs m :
  Permutation ps qs -> NoDup (map rp_key ps) ->
  fold_left put_event ps m = fold_left put_event qs m.
Proof.
  intros Hp. revert m. induction Hp as [|p ps qs Hp IH|p q ps|ps qs rs H1 IH1 H2 IH2];
    intros m Hn; simpl in *.
  - done.
  - apply IH. by inversion Hn.
  - inversion Hn as [|? ? Hx _]; subst. f_equal. unfold put_event.
    apply insert_insert_ne. set_solver.
  - rewrite IH1 by done. apply IH2. by rewrite <-(Permutation_map rp_key H1).
Qed.

(** Events that carry the same identifier carry the same data (the server sends
    one record per bid, in a snapshot and again as an update). *)
Definition coherent (ps : list ReconcilePayload) : Prop :=
  forall p q, p ∈ ps -> q ∈ ps -> rp_key p = rp_key q -> p = q.

Lemma put_events_lookup ps k b :
  coherent ps ->
  fold_left put_event ps ∅ !! k = Some b <-> exists p, p ∈ ps /\ rp_key p = k /\ b = bid_of k p.
Proof.
  induction ps as [|p ps IH] using rev_ind; intros Hc.
  - split; [done|]. intros (p & Hp & _). by apply not_elem_of_nil in Hp.
  - assert (Hc' : coherent ps) by (intros x y Hx Hy; apply Hc; apply elem_of_app; by left).
    rewrite fold_left_app. simpl. unfold put_event at 1.
    destruct (decide (rp_key p = k)) as [E|E].
    + rewrite E, lookup_insert_eq. split.
      * intros [= <-]. exists p. split; [apply elem_of_app; right; apply list_elem_of_here|done].
      * intros (q & Hq & Hk & ->). f_equal. f_equal. apply Hc; [|done|congruence].
        apply elem_of_app; right; apply list_elem_of_here.
    + rewrite lookup_insert_ne, (IH Hc') by done. split; intros (q & Hq & Hk & ->); exists q.
      * split; [apply elem_of_app; by left|done].
      * apply elem_of_app in Hq as [Hq|Hq]; [done|].
        apply list_elem_of_singleton in Hq. congruence.
Qed.

Lemma ledger_elem l b : NoDup (ids l) -> b ∈ l <-> ledger_of l !! bid_id b = Some b.
Proof.
  intros Hn. unfold ledger_of. rewrite <-elem_of_list_to_map by (by rewrite ledger_keys).
  rewrite list_elem_of_fmap. split.
  - intros H. by exists b.
  - by intros (x & [= _ ->] & Hx).
Qed.

(** The bids after replaying events into an empty ledger are the events' bids. *)
Lemma replay_elem ps s b :
  Forall (fun p => truthy_str (rp_id p) = true) ps -> bids s = [] -> coherent ps ->
  b ∈ bids (replay ps s) <-> exists p, p ∈ ps /\ b = bid_of (rp_key p) p.
Proof.
  intros Ht Hs Hc.
  destruct (replay_spec ps s Ht ltac:(rewrite Hs; constructor) ltac:(rewrite Hs; constructor))
    as (E & N & _). rewrite Hs in E.
  rewrite (ledger_elem _ b N), E.
  change (ledger_of []) with (∅ : gmap string Bid). rewrite put_events_lookup by done. split.
  - intros (p & Hp & Hk & ->). exists p. by rewrite Hk.
  - intros (p & Hp & ->). by exists p.
Qed.

(** ** Well-formed states *)
Record wf (s : AuctionState) : Prop := {
  wf_ids : NoDup (ids (bids s));
  wf_finite : finite_bids (bids s);
  wf_current : finite_price (currentPrice s);
  wf_starting : finite_price (startingPrice s)
}.

(** What the dispatching code guarantees of an action: finite amounts, and new
    identifiers for new entries. *)
Definition action_ok (fresh : string) (s : AuctionState) (a : action) : Prop :=
  match a with
  | InitAuction p => finite_price (ip_initialPrice p)
  | AddOptimisticBid b => is_finite (bid_amount b) = true /\ bid_id b ∉ ids (bids s)
  | ReconcileBid p => is_finite (rp_amount p) = true /\ fresh_ok fresh p (bids s)
  | _ => True
  end.

Lemma wf_reconcile fresh p s :
  wf s -> is_finite (rp_amount p) = true -> fresh_ok fresh p (bids s) -> wf (reconcileBid fresh p s).
Proof.
  intros [Hn Hf Hc Hs] Hp Hk.
  assert (Hf' : finite_bids (bids (reconcileBid fresh p s))) by (by apply reconcile_bids_Forall).
  split; [by apply reconcile_ids|done| |done].
  change (currentPrice (reconcileBid fresh p s)) with (leading_price s (bids (reconcileBid fresh p s))).
  destruct (leading_price_spec s _ Hf') as [[_ ->]|(b & (Hin & _) & ->)]; [done|].
  unfold finite_bids in Hf'. rewrite Forall_forall in Hf'. by apply Hf'.
Qed.

(** Looking for a bid: nothing under an unknown identifier; the head first. *)
Lemma find_by_id_none p l :
  truthy_str (rp_id p) = true -> rp_key p ∉ ids l ->
  find_index (fun b => bool_decide (Some (bid_id b) = rp_id p)) l = None.
Proof.
  intros Ht Hk. apply find_index_None, Forall_forall. intros b Hb.
  apply bool_decide_eq_false. intros E. apply Hk, list_elem_of_fmap. exists b.
  split; [|done]. unfold rp_key. rewrite <-E in *. simpl. by destruct (bid_id b).
Qed.

Lemma find_index_here {A} (f : A -> bool) x l : f x = true -> find_index f (x :: l) = Some 0%nat.
Proof. simpl. by intros ->. Qed.

(** A rejected bid does not count. *)
Lemma leading_price_drop s b l :
  not_rejected b = false -> leading_price s (b :: l) = leading_price s l.
Proof. intros H. unfold leading_price, js_filter. simpl. by rewrite H. Qed.

(** The answer to a pending bid replaces it, and only it. *)
Lemma settled_bids fresh b p s :
  is_pending b = true -> neq (bid_amount b) (rp_amount p) = true ->
  rp_key p ∉ ids (b :: bids s) -> truthy_str (rp_id p) = true ->
  Permutation (bids (reconcileBid fresh p (addOptimisticBid b s))) (bid_of (bid_id b) p :: bids s).
Proof.
  intros Hb Ha Hk Ht. rewrite reconcile_bids_perm. simpl. unfold apply_event, match_index.
  rewrite Ht, (find_by_id_none p), find_index_here; [done|by rewrite Hb, Ha|done|done].
Qed.

(** ** The slice's properties *)

(** after a server event the leading price is the best amount (lowest in a
    reverse auction, highest in a forward one) among the bids that are not
    rejected, and the starting price when every bid is rejected. *)
Theorem reconcile_leading_price fresh p s :
  finite_bids (bids s) -> is_finite (rp_amount p) = true ->
  let s' := reconcileBid fresh p s in
  (Forall (fun b => not_rejected b = false) (bids s') /\ currentPrice s' = startingPrice s) \/
  (exists b, leads (auctionType s) (bids s') b /\ currentPrice s' = Some (bid_amount b)).
Proof.
  intros Hf Hp s'.
  change (currentPrice s') with (leading_price s (bids s')).
  apply leading_price_spec. by apply reconcile_bids_Forall.
Qed.

(** C6: refinement: on the abstract ledger (a map from identifiers to bids) a
    server event is one insertion, at the identifier of the bid it matches or at
    its own, and the list stays sorted newest first. *)
Theorem reconcile_refines_ledger fresh p s :
  NoDup (ids (bids s)) -> fresh_ok fresh p (bids s) ->
  let k := event_key fresh p (bids s) in
  ledger_of (bids (reconcileBid fresh p s)) = <[k := bid_of k p]> (ledger_of (bids s)) /\
  StronglySorted (leP newest_first) (bids (reconcileBid fresh p s)).
Proof.
  intros Hn Hf k. split; [by apply reconcile_ledger|].
  apply (js_sort_sorted newest_first (fun _ => True)).
  - apply newest_first_total.
  - apply newest_first_trans.
  - by apply Forall_true.
Qed.

(** every action that the client dispatches keeps the state well formed:
    distinct identifiers, finite amounts and finite prices. *)
Theorem reducer_preserves_wf now fresh s a :
  wf s -> action_ok fresh s a -> wf (reducer now fresh s a).
Proof.
  intros [Hn Hf Hc Hs] Ha. destruct a as [p| |b|z|b|p|]; simpl in *; try by split.
  - split; simpl; [constructor|constructor|done|done].
  - unfold updateAuctionStatus. repeat case_match; simplify_eq; by split.
  - destruct Ha as [Hb Hi]. split; simpl; [by constructor|by constructor| |done].
    by case_match.
  - destruct Ha. by apply wf_reconcile; [split|..].
Qed.

(** C5: the order in which the server's events arrive does not matter: for events of
    distinct identifiers and finite amounts, and a page without a pending bid of its
    own, replaying two orders of them gives the same ledger and the same leading
    price ([order_matters_with_pending] shows that a pending bid makes a
    difference). *)
Theorem delivery_order_irrelevant ps qs s :
  Permutation ps qs -> NoDup (map rp_key ps) ->
  Forall (fun p => truthy_str (rp_id p) = true /\ is_finite (rp_amount p) = true) ps ->
  wf s -> no_pending (bids s) ->
  ledger_of (bids (replay ps s)) = ledger_of (bids (replay qs s)) /\
  price_eq (currentPrice (replay ps s)) (currentPrice (replay qs s)).
Proof.
  intros Hp Hk [Ht Hf]%Forall_and [Hn Hb Hc Hs] Hnp.
  assert (Ht' := Ht). rewrite Hp in Ht'.
  destruct (replay_spec ps s Ht Hnp Hn) as (E1 & N1 & S1 & A1).
  destruct (replay_spec qs s Ht' Hnp Hn) as (E2 & N2 & S2 & A2).
  assert (E : ledger_of (bids (replay ps s)) = ledger_of (bids (replay qs s))).
  { rewrite E1, E2. by apply put_events_perm. }
  split; [done|].
  destruct ps as [|p ps]; [apply Permutation_nil in Hp; subst qs; by apply price_eq_refl|].
  rewrite !replay_price; [|by intros ->; apply Permutation_sym, Permutation_nil in Hp|done].
  apply leading_price_perm; [congruence|congruence|by rewrite S1| |by apply ledger_eq_perm].
  by apply replay_finite.
Qed.

(** replaying an event is harmless: when the event's identifier is known, or
    no pending bid has its amount, delivering it twice is delivering it once. *)
Theorem reconcile_redelivery fresh p s :
  wf s -> truthy_str (rp_id p) = true ->
  (rp_key p ∈ ids (bids s) \/
   Forall (fun b => is_pending b && neq (bid_amount b) (rp_amount p) = false) (bids s)) ->
  let s' := reconcileBid fresh p s in
  ledger_of (bids (reconcileBid fresh p s')) = ledger_of (bids s').
Proof.
  intros [Hn _ _ _] Ht Hk s'.
  assert (Ek : event_key fresh p (bids s) = rp_key p)
    by (destruct Hk; [by apply event_key_known|by apply event_key_no_rival]).
  assert (Hl : ledger_of (bids s') = <[rp_key p := bid_of (rp_key p) p]> (ledger_of (bids s))).
  { unfold s'. rewrite reconcile_ledger by (done || by apply fresh_ok_truthy). by rewrite Ek. }
  assert (Hn' : NoDup (ids (bids s'))) by (apply reconcile_ids; [done|by apply fresh_ok_truthy]).
  assert (Hin : ledger_of (bids s') !! rp_key p = Some (bid_of (rp_key p) p))
    by (rewrite Hl; apply lookup_insert_eq).
  rewrite reconcile_ledger by (done || by apply fresh_ok_truthy).
  rewrite event_key_known; [by apply insert_id|done|].
  apply elem_of_list_to_map_2, list_elem_of_fmap in Hin as (b & Hb & Hin).
  apply list_elem_of_fmap. exists b. split; [congruence|done].
Qed.

(** the server's answer to a pending bid settles it: the entry keeps the
    client's identifier and takes the server's data, nothing stays pending, and
    after a rejection the leading price is again that of the other bids. *)
Theorem optimistic_bid_settled fresh b p s :
  wf s -> no_pending (bids s) ->
  is_pending b = true -> is_finite (bid_amount b) = true -> bid_id b ∉ ids (bids s) ->
  neq (bid_amount b) (rp_amount p) = true -> is_finite (rp_amount p) = true ->
  rp_key p ∉ ids (b :: bids s) -> truthy_str (rp_id p) = true ->
  let s' := reconcileBid fresh p (addOptimisticBid b s) in
  ledger_of (bids s') = <[bid_id b := bid_of (bid_id b) p]> (ledger_of (bids s)) /\
  no_pending (bids s') /\
  (rp_accepted p = false -> price_eq (currentPrice s') (leading_price s (bids s))).
Proof.
  intros W Hnp Hb Hfb Hi Ha Hfp Hk Ht s'.
  pose proof (settled_bids fresh b p s Hb Ha Hk Ht) as Hp. fold s' in Hp. destruct W as [Hn Hf Hc Hs].
  assert (Hn' : NoDup (ids (bids s')))
    by (apply reconcile_ids; [by constructor|by apply fresh_ok_truthy]).
  split; [|split].
  - by rewrite (ledger_perm _ _ Hn' Hp).
  - unfold no_pending. rewrite Hp. constructor; [apply is_pending_bid_of|done].
  - intros Hr. change (currentPrice s') with (leading_price (addOptimisticBid b s) (bids s')).
    rewrite <-(leading_price_drop s (bid_of (bid_id b) p)) by (by rewrite not_rejected_bid_of).
    apply leading_price_perm; [done|done|done| |done].
    unfold finite_bids. rewrite Hp. by constructor.
Qed.

(** ** Time *)

(** with the clock moving forward the phase never moves back: an auction
    that is active does not wait again and one that has ended stays ended. *)
Theorem status_monotone now now' start fin :
  start <= fin -> now <= now' ->
  match status_at now start fin, status_at now' start fin with
  | waiting, _ | active, active | active, ended | ended, ended => True
  | _, _ => False
  end.
Proof. intros. unfold status_at. case_tests; auto; lia. Qed.

(** an optimistic bid never makes the displayed price worse, and the price
    it leaves is one the auction already had or the bid's own amount. *)
Theorem optimistic_price b s p :
  currentPrice s = Some p -> is_finite p = true -> is_finite (bid_amount b) = true ->
  exists q, currentPrice (addOptimisticBid b s) = Some q /\
    better (auctionType s) p q = false /\ better (auctionType s) (bid_amount b) q = false /\
    (q = p \/ q = bid_amount b).
Proof.
  intros Hp Hf Hb. simpl. rewrite Hp.
  pose proof (finite_not_nan _ Hf). pose proof (finite_not_nan _ Hb).
  destruct (better (auctionType s) (bid_amount b) p) eqn:E; eexists; (split; [done|]);
    destruct (auctionType s); simpl in *; repeat split; auto; num_order.
Qed.

(** ** Witnesses: a reverse auction from 120 with bids of 100 and 90 *)
Definition sample_bid (i : string) (a : Z) (who : string) (t : Z) (st : BidStatus) : Bid :=
  mkBid i (of_Z a) who t st.
Definition sample_event (i : string) (ok : bool) (a : Z) (who : string) (t : Z) : ReconcilePayload :=
  mkRec (Some i) ok (of_Z a) who t.
Definition sample_state : AuctionState :=
  mkState (Some "a1") [sample_bid "bob20" 90 "bob" 20 confirmed; sample_bid "ann10" 100 "ann" 10 confirmed]
    (Some (of_Z 90)) (Some (of_Z 120)) REVERSE (of_Z 5) true 0 (Some 1) (Some 1000) active true.

Lemma sample_wf : wf sample_state.
Proof. split; [by_decide|by repeat constructor|done|done]. Qed.

Lemma sample_no_pending : no_pending (bids sample_state).
Proof. by repeat constructor. Qed.

Lemma reconcile_leading_price_witness :
  let s' := reconcileBid "x" (sample_event "ann30" true 80 "ann" 30) sample_state in
  exists b, leads REVERSE (bids s') b /\ currentPrice s' = Some (bid_amount b).
Proof.
  destruct (reconcile_leading_price "x" (sample_event "ann30" true 80 "ann" 30) sample_state
    ltac:(by repeat constructor) eq_refl) as [[H _]|H]; [|exact H].
  apply Forall_inv in H. discriminate H.
Defined.

Lemma reconcile_refines_ledger_witness :
  let s' := reconcileBid "x" (sample_event "ann30" true 80 "ann" 30) sample_state in
  ledger_of (bids s') !! "ann30" = Some (sample_bid "ann30" 80 "ann" 30 confirmed).
Proof.
  destruct (reconcile_refines_ledger "x" (sample_event "ann30" true 80 "ann" 30) sample_state
    (wf_ids _ sample_wf) ltac:(by apply fresh_ok_truthy)) as [H _].
  intros s'. unfold s'. rewrite H. reflexivity.
Defined.

Lemma reducer_preserves_wf_witness :
  wf (reducer 50 "x" sample_state (AddOptimisticBid (sample_bid "uuid" 85 "You (Optimistic)" 40 pending))).
Proof. apply reducer_preserves_wf; [apply sample_wf|split; [done|by_decide]]. Defined.

Lemma delivery_order_irrelevant_witness :
  let e1 := sample_event "ann30" true 80 "ann" 30 in
  let e2 := sample_event "bob40" false 85 "bob" 40 in
  price_eq (currentPrice (replay [e1; e2] sample_state)) (currentPrice (replay [e2; e1] sample_state)).
Proof.
  intros e1 e2.
  apply (delivery_order_irrelevant [e1; e2] [e2; e1] sample_state).
  - constructor.
  - by_decide.
  - by repeat constructor.
  - apply sample_wf.
  - apply sample_no_pending.
Defined.

(** While a bid is pending the first event of its amount settles it: two events of
    that amount leave different ledgers in their two orders. *)
Lemma order_matters_with_pending :
  let s := addOptimisticBid (sample_bid "uuid" 70 "You (Optimistic)" 40 pending) sample_state in
  let e1 := sample_event "ann30" true 70 "ann" 30 in
  let e2 := sample_event "bob40" true 70 "bob" 40 in
  ledger_of (bids (replay [e1; e2] s)) <> ledger_of (bids (replay [e2; e1] s)).
Proof.
  intros s e1 e2 E. apply (f_equal (fun m => m !! "uuid")) in E. vm_compute in E. discriminate E.
Qed.

Lemma reconcile_redelivery_witness :
  let p := sample_event "ann10" false 100 "ann" 10 in
  let s' := reconcileBid "x" p sample_state in
  ledger_of (bids (reconcileBid "x" p s')) = ledger_of (bids s').
Proof. apply reconcile_redelivery; [apply sample_wf|done|left; by_decide]. Defined.

Lemma optimistic_bid_settled_witness :
  let b := sample_bid "uuid" 70 "You (Optimistic)" 40 pending in
  let s' := reconcileBid "x" (sample_event "me40" false 70 "me" 40) (addOptimisticBid b sample_state) in
  currentPrice (addOptimisticBid b sample_state) = Some (of_Z 70) /\
  price_eq (currentPrice s') (Some (of_Z 90)).
Proof.
  split; [done|].
  apply (optimistic_bid_settled "x" (sample_bid "uuid" 70 "You (Optimistic)" 40 pending)
    (sample_event "me40" false 70 "me" 40) sample_state); try done;
    [apply sample_wf|apply sample_no_pending|by_decide|by_decide].
Defined.

Lemma status_monotone_witness : status_at 500 100 1000 = active /\ status_at 1500 100 1000 = ended.
Proof.
  pose proof (status_monotone 500 1500 100 1000 ltac:(lia) ltac:(lia)) as H.
  split; reflexivity.
Defined.

Lemma optimistic_price_witness :
  exists q, currentPrice (addOptimisticBid (sample_bid "uuid" 95 "me" 40 pending) sample_state) = Some q.
Proof.
  destruct (optimistic_price (sample_bid "uuid" 95 "me" 40 pending) sample_state (of_Z 90)
    eq_refl eq_refl eq_refl) as (q & H & _). by exists q.
Defined.
