(* ===== verification/Schedule.v ===== *)
(** * The phases of an auction as each view computes them

    The marketplace page, the dashboard card, the auction page, the admin page
    and the seller dashboard each read an auction's two times and decide whether
    it is to come, running or over; the live page's slice decides from the times
    the server sends.  A time is [None] when the text is not a date. *)

From Stdlib Require Import Ascii.
From S2P Require Import Prelude JSNum JSText JSDate ApiTypes AuctionSlice.
#[local] Open Scope Z_scope.

(** Comparisons of times; [NaN] compares false. *)
Definition t_lt (a b : option Z) : bool :=
  match a, b with Some x, Some y => x <? y | _, _ => false end.
Definition t_le (a b : option Z) : bool :=
  match a, b with Some x, Some y => x <=? y | _, _ => false end.

Definition minus (a : option Z) (k : Z) : option Z := (fun x => x - k) <$> a.
Definition FIVE_MINUTES : Z := 5 * 60000.

(** ** The marketplace page ([app/page.tsx]) *)
Inductive Phase := upcoming | live | completed.

#[export] Instance Phase_eq_dec : EqDecision Phase.
Proof. solve_decision. Defined.

(** [phaseOf]; its "ended" is [completed]. *)
Definition phaseOf (start fin : option Z) (now : Z) : Phase :=
  match start, fin with
  | Some st, Some en => if now <? st then upcoming else if now <? en then live else completed
  | _, _ => completed
  end.

(** [countdown]: the parts of a number of seconds. *)
Definition clock_parts (totalSeconds : Z) : Z * Z * Z * Z :=
  (totalSeconds / 86400, (totalSeconds mod 86400) / 3600, (totalSeconds mod 3600) / 60, totalSeconds mod 60).

Definition hms (h m s : Z) : string := two h +:+ ":" +:+ two m +:+ ":" +:+ two s.

(** The text for an invalid target ([NaN] in every part). *)
Definition nan_clock : string := "NaN:NaN:NaN".

Definition countdown (target : option Z) (now : Z) : string :=
  match target with
  | None => nan_clock
  | Some t =>
      let '(d, h, m, s) := clock_parts (Z.max 0 (t - now) / 1000) in
      if 0 <? d then string_of_Z d +:+ "d " +:+ string_of_Z h +:+ "h " +:+ string_of_Z m +:+ "m"
      else hms h m s
  end.

(** ** The dashboard card ([components/dashboard/ShippingAuctionCard.tsx]) *)

(** [dateStr.replace(' ', 'T')]: the first space. *)
Fixpoint replace_space (s : string) : string :=
  match s with
  | EmptyString => EmptyString
  | String c r => if Ascii.eqb c " "%char then String "T"%char r else String c (replace_space r)
  end.

(** A text with a space and no [Z] is read as a universal time. *)
Definition utc_text (dateStr : string) : string :=
  if includes " " dateStr && negb (includes "Z" dateStr) then replace_space dateStr +:+ "Z" else dateStr.

Definition parseUtcDate (parse : string -> option Z) (dateStr : string) : option Z := parse (utc_text dateStr).

Definition card_start (parse : string -> option Z) (auctionStartTime : option string) (now : Z) : option Z :=
  match auctionStartTime with
  | Some (String c r) => parseUtcDate parse (String c r)
  | _ => Some now
  end.

Definition card_end (parse : string -> option Z) (auctionEndTime : option string) (now : Z) : option Z :=
  match auctionEndTime with
  | Some (String c r) => parseUtcDate parse (String c r)
  | _ => Some (now + 86400000)
  end.

Definition joinTime (start : option Z) : option Z := minus start FIVE_MINUTES.

Inductive card_action :=
| PlaceBid | Loading | Closed | EnterConsole | JoinLive | RegistrationClosed | Unregister | Register.

#[export] Instance card_action_eq_dec : EqDecision card_action.
Proof. solve_decision. Defined.

Definition actionText (a : card_action) : string :=
  match a with
  | PlaceBid => "Place Bid" | Loading => "Loading…" | Closed => "Closed"
  | EnterConsole => "Enter Console" | JoinLive => "Join Live"
  | RegistrationClosed => "Registration closed" | Unregister => "Unregister" | Register => "Register"
  end.

(** What the nested conditional assigns: the action, [isClosed], the label, the
    time left ([None] for [NaN]). *)
Record CardPlan := mkPlan {
  cp_action : card_action;
  cp_closed : bool;
  cp_label : string;
  cp_timeDiff : option Z
}.

Definition card_plan (start fin : option Z) (registered : bool) (now : Z) : CardPlan :=
  let join := joinTime start in
  if now =? 0 then mkPlan Loading false "Checking schedule" (Some 0)
  else if t_lt fin (Some now) then mkPlan Closed true "Ended" (Some 0)
  else if t_le start (Some now) && t_le (Some now) fin then
    mkPlan (if registered then EnterConsole else if t_lt (Some now) join then JoinLive else RegistrationClosed)
      (negb registered && t_le join (Some now)) "Ends in" (minus fin now)
  else if t_lt (Some now) start then
    mkPlan (if registered then Unregister else if t_lt (Some now) join then Register else RegistrationClosed)
      (negb registered && t_le join (Some now)) "Time left to register" (minus join now)
  else mkPlan PlaceBid false EmptyString (Some 0).

Definition card_phase (start fin : option Z) (now : Z) : Phase :=
  if t_lt fin (Some now) then completed else if t_le start (Some now) then live else upcoming.

(** [displayTime]. *)
Definition displayTime (timeDiff : option Z) : string :=
  match timeDiff with
  | Some d =>
      if 0 <? d then
        let '(dd, h, m, _) := clock_parts (d / 1000) in
        if 0 <? dd then string_of_Z dd +:+ "d " +:+ string_of_Z h +:+ "h " +:+ string_of_Z m +:+ "m"
        else string_of_Z h +:+ "h " +:+ string_of_Z m +:+ "m"
      else EmptyString
  | None => EmptyString
  end.

(** [formatCountdown]. *)
Definition formatCountdown (diff : option Z) : string :=
  match diff with
  | None => nan_clock
  | Some d =>
      if d <=? 0 then "00:00:00"
      else
        let '(dd, h, m, s) := clock_parts (d / 1000) in
        if 0 <? dd then string_of_Z dd +:+ "d " +:+ hms h m s else hms h m s
  end.

(** [startTimer] and [joinTimer]; [formatDate] is the locale's. *)
Definition card_timer (formatDate : option Z -> string) (passed : string) (at_ : option Z) (now : Z) : string :=
  let diff := minus at_ now in
  if t_lt (Some 0) diff then formatDate at_ +:+ " (in " +:+ formatCountdown diff +:+ ")" else passed.

(** ** The auction page ([app/auction/[id]/page.tsx]) *)
Definition page_phase (startsAt endsAt : option Z) (now : Z) : Phase :=
  if t_le endsAt (Some now) then completed else if t_le startsAt (Some now) then live else upcoming.

Definition canRegister (startsAt endsAt : option Z) (now : Z) : bool :=
  negb (bool_decide (page_phase startsAt endsAt now = completed)) && t_lt (Some now) (minus startsAt FIVE_MINUTES).

(** ** The admin page and the seller dashboard *)
Definition admin_status (start fin : option Z) (now : Z) : string :=
  if t_lt (Some now) start then "Scheduled" else if t_le (Some now) fin then "Live" else "Closed".

Definition operationalStatus (start fin : option Z) (now1 now2 : Z) : string :=
  if t_lt (Some now1) start then "UPCOMING" else if t_le (Some now2) fin then "LIVE" else "COMPLETED".

(** ** The phases as one type *)
Definition of_status (p : AuctionPhase) : Phase :=
  match p with waiting => upcoming | active => live | ended => completed end.

Definition admin_text (p : Phase) : string :=
  match p with upcoming => "Scheduled" | live => "Live" | completed => "Closed" end.
Definition seller_text (p : Phase) : string :=
  match p with upcoming => "UPCOMING" | live => "LIVE" | completed => "COMPLETED" end.

(** ** The server's rules ([apps/http-server/src/services/auction.rs])

    [join_auction_service] for a user who is registered already or not, and
    [leave_auction_service]. *)
Definition server_join (start : Z) (registered : bool) (now : Z) : result unit :=
  if registered then Ok tt
  else if start - FIVE_MINUTES <=? now
  then Throw "Registration closed five minutes before the auction start time" else Ok tt.

Definition server_leave (start : Z) (registered : bool) (now : Z) : result unit :=
  if start <=? now then Throw "Too late to unregister from the auction"
  else if registered then Ok tt else Throw "You are not registered for this auction".

(** ** Properties *)

(** for an auction with valid times every view shows the same phase at every
    instant but the end itself: there the marketplace and the auction page show
    it as over, and the card, the admin page, the seller dashboard and the live
    slice as running. *)
Theorem phases_agree_except_at_end st en now :
  st < en ->
  let p := phaseOf (Some st) (Some en) now in
  page_phase (Some st) (Some en) now = p /\
  (now <> en ->
     card_phase (Some st) (Some en) now = p /\ of_status (status_at now st en) = p /\
     admin_status (Some st) (Some en) now = admin_text p /\
     operationalStatus (Some st) (Some en) now now = seller_text p) /\
  (now = en ->
     p = completed /\ card_phase (Some st) (Some en) now = live /\
     of_status (status_at now st en) = live /\
     admin_status (Some st) (Some en) now = admin_text live /\
     operationalStatus (Some st) (Some en) now now = seller_text live).
Proof.
  intros Hlt p. unfold p, phaseOf, page_phase, card_phase, status_at, admin_status, operationalStatus.
  simpl. split; [tests|]. split; intros Hn; repeat split; tests.
Qed.

(** the card offers what the server accepts: "Register" exactly when the
    server takes a new registration, "Unregister" exactly when it lets a
    registered user leave, and for the others nothing is offered. *)
Theorem card_offers_what_server_accepts st en registered now :
  st < en -> now <> 0 ->
  let a := cp_action (card_plan (Some st) (Some en) registered now) in
  (a = Register <-> registered = false /\ server_join st false now = Ok tt) /\
  (a = Unregister <-> registered = true /\ server_leave st true now = Ok tt) /\
  (a = EnterConsole <-> registered = true /\ st <= now <= en) /\
  (cp_closed (card_plan (Some st) (Some en) registered now) = true <->
   a = Closed \/ a = RegistrationClosed).
Proof.
  intros Hlt Hn. unfold card_plan, server_join, server_leave, joinTime, minus, FIVE_MINUTES. simpl.
  destruct registered; case_tests; bool_facts; simpl; bool_facts;
    repeat split; intros; try done; try lia; try (by left); try (by right);
    repeat match goal with H : _ /\ _ |- _ => destruct H end; try done; try lia;
    try match goal with H : _ \/ _ |- _ => destruct H; done end.
Qed.

(** two of the card's actions are never shown for an auction with valid times
    (end after start): "Join Live" asks for an instant after the start and before
    the registration deadline, which is earlier, and "Place Bid" is overwritten. *)
Theorem card_actions_unreachable st en registered now :
  st <= en ->
  let a := cp_action (card_plan (Some st) (Some en) registered now) in
  a <> JoinLive /\ a <> PlaceBid.
Proof.
  intros Hlt. unfold card_plan, joinTime, minus, FIVE_MINUTES. simpl.
  destruct registered; case_tests; bool_facts; simpl; bool_facts; split; try done; lia.
Qed.

(** ** Witnesses: an auction from 10:00 to 11:00 of some day *)
Definition at_time (h m : Z) : Z := 1760000400000 + h * 3600000 + m * 60000.

Lemma phases_agree_except_at_end_witness :
  page_phase (Some (at_time 10 0)) (Some (at_time 11 0)) (at_time 11 0) = completed /\
  card_phase (Some (at_time 10 0)) (Some (at_time 11 0)) (at_time 11 0) = live.
Proof.
  destruct (phases_agree_except_at_end (at_time 10 0) (at_time 11 0) (at_time 11 0) eq_refl)
    as (H1 & _ & H2). destruct (H2 eq_refl) as (H3 & H4 & _). split; [rewrite H1; exact H3|exact H4].
Defined.

Lemma card_offers_what_server_accepts_witness :
  cp_action (card_plan (Some (at_time 10 0)) (Some (at_time 11 0)) false (at_time 9 54)) = Register.
Proof.
  apply (card_offers_what_server_accepts (at_time 10 0) (at_time 11 0) false (at_time 9 54));
    [reflexivity|discriminate|split; reflexivity].
Defined.

Lemma card_actions_unreachable_witness :
  cp_action (card_plan (Some (at_time 10 0)) (Some (at_time 11 0)) false (at_time 10 30)) <> JoinLive.
Proof. apply (card_actions_unreachable (at_time 10 0) (at_time 11 0)). discriminate. Defined.
