(* ===== verification/SocketContext.v ===== *)
(** * Live connections ([contexts/SocketContext.tsx])

    The provider that owns one socket per auction: its reference counts and the
    ticket requests and retry timers in flight.
    The socket library, the network and the timers are outside: what they report
    ([OnConnect], [OnDisconnect], a resolved task) is an input of the machine, in
    any order, and what the provider asks of them is an effect.  Which sockets are
    live follows from the inputs and effects ([live]). *)

From Stdlib Require Import Ascii.
From S2P Require Import Prelude JSNum ApiTypes AuctionSlice.
#[local] Open Scope Z_scope.

(** ** Payloads *)
Module BidRequestPayload.
Record t := mk {
auction_id : string;
bidder_id : string;
username : option string;
amount : num;
timestamp : Z
}.
End BidRequestPayload.

Module BidEventPayload.
Record t := mk {
bid : BidRequestPayload.t;
is_executed : bool
}.
End BidEventPayload.

(** The optional fields may be missing or [null]; an element of an array may be
    [null], or an object without its [bid]. *)
Module AuctionInitPayload.
Record t := mk {
auction_id : string;
auction_type : option AuctionDirection;
minimum_bid_step : option num;
leading_bids : option (list (option BidEventPayload.t));
lowest_bids : option (list (option BidEventPayload.t));
recent_events : option (list (option BidEventPayload.t));
start_time : Z;
end_time : Z;
initial_price : option num;
initial_lowest : option num;
is_participant : bool
}.
End AuctionInitPayload.

Module AuctionClosedPayload.
Record t := mk { event : string; data : option BidRequestPayload.t }.
End AuctionClosedPayload.

(** [ServerToClientEvents] and [ClientToServerEvents]. *)
Inductive ServerEvent := auction_init | bid_update | auction_closed | error | info.
Inductive ClientEvent := place_bid (data : BidRequestPayload.t).

#[export] Instance ServerEvent_eq_dec : EqDecision ServerEvent.
Proof. solve_decision. Defined.

(** ** The provider's state *)

(** A callback is an identity: [off] is given the callback that [on] was given. *)
Definition callback := nat.

Record Socket := mkSocket {
  sk_auction : string;
  sk_user : string;
  sk_token : string;
  sk_ticket : string
}.

(** What the provider waits for: the first ticket of a socket, the two-second
    timer after a lost connection, the ticket of a reconnection. *)
Inductive task := FirstTicket (r : nat) | RetryTimer (r : nat) | RetryTicket (r : nat).

#[export] Instance task_eq_dec : EqDecision task.
Proof. solve_decision. Defined.

(** The sockets created are numbered; [heap] holds them all, those that the map
    of current sockets no longer names as well. *)
Record provider := mkProvider {
  heap : list Socket;
  sockets : gmap string nat;
  refCounts : gmap string Z;
  tasks : list task;
  isConnected : bool
}.

Definition provider0 : provider := mkProvider [] ∅ ∅ [] false.

(** What the provider asks of the socket library, the network and the store. *)
Inductive effect :=
| Connect (r : nat) (ticket : string)
| Disconnect (r : nat)
| ListenOn (r : nat) (e : ServerEvent) (cb : callback)
| ListenOff (r : nat) (e : ServerEvent) (cb : callback)
| RequestTicket (r : nat)
| StartTimer (r : nat)
| SendOn (r : nat) (m : ClientEvent)
| Dispatch (a : action).

(** The reasons socket.io gives; only one of them is the client's own. *)
Definition io_client_disconnect : string := "io client disconnect".

Inductive input :=
| Subscribe (a : string) (stored_user token : string)
| Unsubscribe (a : string)
| On (a : string) (e : ServerEvent) (cb : callback)
| Off (a : string) (e : ServerEvent) (cb : callback)
| Emit (a : string) (connected : bool) (m : ClientEvent)
| OnConnect (r : nat)
| OnDisconnect (r : nat) (reason : string)
| Resolved (t : task) (ticket : string)
| Rejected (t : task)
| TimerFired (t : task)
| Unmount.

(** Assignments to one field. *)
Definition with_heap (h : list Socket) (s : provider) : provider :=
  mkProvider h (sockets s) (refCounts s) (tasks s) (isConnected s).
Definition with_tasks (l : list task) (s : provider) : provider :=
  mkProvider (heap s) (sockets s) (refCounts s) l (isConnected s).
Definition with_connected (b : bool) (s : provider) : provider :=
  mkProvider (heap s) (sockets s) (refCounts s) (tasks s) b.

(** [refCounts.current.get(auctionId) ?? 0]. *)
Definition count_of (s : provider) (a : string) : Z := default 0 (refCounts s !! a).

(** A task leaves the queue once. *)
Fixpoint take_task (t : task) (l : list task) : option (list task) :=
  match l with
  | [] => None
  | x :: l' => if decide (x = t) then Some l' else (x ::.) <$> take_task t l'
  end.

Definition set_ticket (ticket : string) (k : Socket) : Socket :=
  mkSocket (sk_auction k) (sk_user k) (sk_token k) ticket.

(** The identity the handshake carries: the server's, else the stored one. *)
Definition handshake_user (serverUserId : option string) (stored : string) : string :=
  or_ostr serverUserId stored.

Definition subscribeToAuction (serverUserId : option string) (a stored_user token : string)
    (s : provider) : provider * list effect :=
  let rc := <[a := count_of s a + 1]> (refCounts s) in
  match sockets s !! a with
  | Some _ => (mkProvider (heap s) (sockets s) rc (tasks s) (isConnected s), [])
  | None =>
      let r := length (heap s) in
      let k := mkSocket a (handshake_user serverUserId stored_user) token "" in
      (mkProvider (heap s ++ [k]) (<[a := r]> (sockets s)) rc (tasks s ++ [FirstTicket r])
         (isConnected s),
       [RequestTicket r])
  end.

(** The count of an unknown auction is taken to be 1. *)
Definition unsubscribeFromAuction (a : string) (s : provider) : provider * list effect :=
  let count := default 1 (refCounts s !! a) - 1 in
  if 0 <? count then
    (mkProvider (heap s) (sockets s) (<[a := count]> (refCounts s)) (tasks s) (isConnected s), [])
  else
    (mkProvider (heap s) (delete a (sockets s)) (delete a (refCounts s)) (tasks s) (isConnected s),
     match sockets s !! a with Some r => [Disconnect r] | None => [] end).

(** [onEvent] registers with the socket the auction has now ... *)
Definition onEvent (a : string) (e : ServerEvent) (cb : callback) (s : provider) : list effect :=
  match sockets s !! a with Some r => [ListenOn r e cb] | None => [] end.

(** ... and the function it returns unregisters from the socket the auction has
    when it is called. *)
Definition offEvent (a : string) (e : ServerEvent) (cb : callback) (s : provider) : list effect :=
  match sockets s !! a with Some r => [ListenOff r e cb] | None => [] end.

(** [connected] is the library's flag for the auction's socket. *)
Definition emitEvent (a : string) (connected : bool) (m : ClientEvent) (s : provider) : list effect :=
  match sockets s !! a with
  | Some r => if connected then [SendOn r m] else []
  | None => []
  end.

Definition on_connect (s : provider) : provider * list effect :=
  (with_connected true s, [Dispatch (SetConnectionStatus true)]).

Definition on_disconnect (r : nat) (reason : string) (s : provider) : provider * list effect :=
  let s1 := with_connected false s in
  let said := Dispatch (SetConnectionStatus false) in
  if bool_decide (reason = io_client_disconnect) then (s1, [said])
  else (with_tasks (tasks s ++ [RetryTimer r]) s1, [said; StartTimer r]).

Definition auction_of (s : provider) (r : nat) : option string := sk_auction <$> heap s !! r.

(** The body of the two-second timer. *)
Definition on_timer (r : nat) (s : provider) : provider * list effect :=
  match auction_of s r with
  | Some a =>
      if 0 <? count_of s a
      then (with_tasks (tasks s ++ [RetryTicket r]) s, [RequestTicket r]) else (s, [])
  | None => (s, [])
  end.

(** [refreshTicket] stores the ticket in the socket's query. *)
Definition refreshTicket (r : nat) (ticket : string) (s : provider) : provider :=
  with_heap (alter (set_ticket ticket) r (heap s)) s.

Definition on_first_ticket (r : nat) (ticket : string) (s : provider) : provider * list effect :=
  let s1 := refreshTicket r ticket s in
  match auction_of s r with
  | Some a => (s1, if 0 <? count_of s a then [Connect r ticket] else [])
  | None => (s1, [])
  end.

Definition on_first_ticket_failed (r : nat) (s : provider) : provider * list effect :=
  match auction_of s r with
  | Some a => (mkProvider (heap s) (delete a (sockets s)) (refCounts s) (tasks s) (isConnected s), [])
  | None => (s, [])
  end.

Definition on_retry_ticket (r : nat) (ticket : string) (s : provider) : provider * list effect :=
  (refreshTicket r ticket s, [Connect r ticket]).

(** The provider's cleanup; the order of the disconnections is not modelled. *)
Definition unmount (s : provider) : provider * list effect :=
  (mkProvider (heap s) ∅ ∅ (tasks s) (isConnected s),
   map (fun ar => Disconnect ar.2) (map_to_list (sockets s))).

(** One input; an input that answers a task which is not in flight is ignored. *)
Definition step (serverUserId : option string) (i : input) (s : provider) : provider * list effect :=
  match i with
  | Subscribe a u tok => subscribeToAuction serverUserId a u tok s
  | Unsubscribe a => unsubscribeFromAuction a s
  | On a e cb => (s, onEvent a e cb s)
  | Off a e cb => (s, offEvent a e cb s)
  | Emit a c m => (s, emitEvent a c m s)
  | OnConnect r => on_connect s
  | OnDisconnect r reason => on_disconnect r reason s
  | Resolved t ticket =>
      match take_task t (tasks s), t with
      | Some l, FirstTicket r => on_first_ticket r ticket (with_tasks l s)
      | Some l, RetryTicket r => on_retry_ticket r ticket (with_tasks l s)
      | _, _ => (s, [])
      end
  | Rejected t =>
      match take_task t (tasks s), t with
      | Some l, FirstTicket r => on_first_ticket_failed r (with_tasks l s)
      | Some l, RetryTicket r => (with_tasks l s, [])
      | _, _ => (s, [])
      end
  | TimerFired t =>
      match take_task t (tasks s), t with
      | Some l, RetryTimer r => on_timer r (with_tasks l s)
      | _, _ => (s, [])
      end
  | Unmount => unmount s
  end.

Fixpoint run (u : option string) (ins : list input) (s : provider) : provider * list effect :=
  match ins with
  | [] => (s, [])
  | i :: rest =>
      let '(s1, e1) := step u i s in
      let '(s2, e2) := run u rest s1 in (s2, e1 ++ e2)
  end.

(** ** Invariant *)
Definition task_socket (t : task) : nat :=
  match t with FirstTicket r | RetryTimer r | RetryTicket r => r end.

Record inv (s : provider) : Prop := {
  inv_count : forall a n, refCounts s !! a = Some n -> 1 <= n;
  inv_subscribed : forall a r, sockets s !! a = Some r -> is_Some (refCounts s !! a);
  inv_heap : forall a r, sockets s !! a = Some r -> auction_of s r = Some a
}.

Lemma inv_provider0 : inv provider0.
Proof. split; simpl; intros ? ? H; discriminate H. Qed.

(** What only changes tasks, tickets or the connection flag keeps the invariant. *)
Lemma inv_same s s' :
  refCounts s' = refCounts s -> sockets s' = sockets s ->
  (forall r, auction_of s' r = auction_of s r) -> inv s -> inv s'.
Proof. intros E1 E2 E3 [I1 I2 I3]. split; intros *; rewrite ?E1, ?E2, ?E3; eauto. Qed.

Lemma auction_refreshTicket r ticket s r' :
  auction_of (refreshTicket r ticket s) r' = auction_of s r'.
Proof.
  unfold auction_of, refreshTicket; simpl.
  destruct (decide (r = r')) as [<-|Hne].
  - rewrite list_lookup_alter_eq. by destruct (heap s !! r).
  - by rewrite list_lookup_alter_ne.
Qed.

Lemma count_pos s a : inv s -> is_Some (refCounts s !! a) -> 1 <= count_of s a.
Proof. intros [I _ _] [n E]. unfold count_of. rewrite E. simpl. eauto. Qed.

Lemma count_nonneg s a : inv s -> 0 <= count_of s a.
Proof.
  intros [I _ _]. unfold count_of. destruct (refCounts s !! a) as [n|] eqn:E; simpl; [|lia].
  apply I in E. lia.
Qed.

Lemma inv_subscribe u a su tok s : inv s -> inv (subscribeToAuction u a su tok s).1.
Proof.
  intros Hi. pose proof (count_nonneg s a Hi) as Hc. destruct Hi as [I1 I2 I3].
  unfold subscribeToAuction. destruct (sockets s !! a) as [r0|] eqn:Es; simpl.
  - split; simpl.
    + intros b n. destruct (decide (a = b)) as [<-|]; simplify_map_eq; [intros [= <-]; lia|eauto].
    + intros b r Hb. destruct (decide (a = b)) as [<-|]; simplify_map_eq; eauto.
    + eauto.
  - split; simpl.
    + intros b n. destruct (decide (a = b)) as [<-|]; simplify_map_eq; [intros [= <-]; lia|eauto].
    + intros b r. destruct (decide (a = b)) as [<-|]; simplify_map_eq; eauto.
    + intros b r. unfold auction_of; simpl. destruct (decide (a = b)) as [<-|]; simplify_map_eq.
      * intros [= <-]. by rewrite list_lookup_middle.
      * intros Hb. specialize (I3 b r Hb). unfold auction_of in I3.
        destruct (heap s !! r) as [k|] eqn:E; [|done]. by rewrite (lookup_app_l_Some _ _ _ _ E).
Qed.

Lemma inv_unsubscribe a s : inv s -> inv (unsubscribeFromAuction a s).1.
Proof.
  intros [I1 I2 I3]. unfold unsubscribeFromAuction. destruct (0 <? _) eqn:E; simpl; bool_facts.
  - split; simpl; [| |done]; intros b x;
      (destruct (decide (a = b)) as [<-|]; simplify_map_eq; eauto). intros [= <-]. lia.
  - split; simpl; intros b x; (destruct (decide (a = b)) as [<-|]; simplify_map_eq; eauto; done).
Qed.

Lemma inv_drop_socket a s :
  inv s -> inv (mkProvider (heap s) (delete a (sockets s)) (refCounts s) (tasks s) (isConnected s)).
Proof.
  intros [I1 I2 I3]. split; simpl; eauto; intros b r [_ Hb]%lookup_delete_Some; eauto.
Qed.

Lemma inv_with_tasks l s : inv s -> inv (with_tasks l s).
Proof. by apply inv_same. Qed.

Lemma inv_step u i s : inv s -> inv (step u i s).1.
Proof.
  intros Hi. destruct i as [a su tok|a|a e cb|a e cb|a c m|r|r reason|t tk|t|t|]; simpl; auto.
  - by apply inv_subscribe.
  - by apply inv_unsubscribe.
  - by apply (inv_same s).
  - unfold on_disconnect. case_match; by apply (inv_same s).
  - destruct (take_task t (tasks s)) as [l|], t as [r|r|r]; simpl; auto.
    + unfold on_first_ticket. case_match; simpl;
        (apply (inv_same s); [..|exact Hi]; simpl; auto; intros; apply (auction_refreshTicket _ _ (with_tasks l s))).
    + apply (inv_same s); [..|exact Hi]; simpl; auto. intros; apply (auction_refreshTicket _ _ (with_tasks l s)).
  - destruct (take_task t (tasks s)) as [l|], t as [r|r|r]; simpl; auto.
    + unfold on_first_ticket_failed. case_match; [|by apply inv_with_tasks].
      by apply (inv_drop_socket _ (with_tasks l s)), inv_with_tasks.
    + by apply inv_with_tasks.
  - destruct (take_task t (tasks s)) as [l|], t as [r|r|r]; simpl; auto.
    unfold on_timer. repeat case_match; by apply (inv_same s).
  - split; simpl; intros ? ? H; discriminate H.
Qed.

Lemma run_app u xs ys s :
  run u (xs ++ ys) s =
  ((run u ys (run u xs s).1).1, (run u xs s).2 ++ (run u ys (run u xs s).1).2).
Proof.
  revert s; induction xs as [|x xs IH]; intros s; simpl.
  - by destruct (run u ys s).
  - destruct (step u x s) as [s1 e1]. rewrite IH. destruct (run u xs s1) as [s2 e2]; simpl.
    by rewrite app_assoc.
Qed.

Lemma inv_run u ins s : inv s -> inv (run u ins s).1.
Proof.
  revert s; induction ins as [|i ins IH]; intros s Hi; simpl; [done|].
  pose proof (inv_step u i s Hi) as H1. destruct (step u i s) as [s1 e1]; simpl in *.
  specialize (IH s1 H1). by destruct (run u ins s1).
Qed.

(** ** Reference counting: the abstract counter *)

(** The number of subscribers of [a]: one more for each subscription, one less,
    down to zero, for each unsubscription, none after the provider's cleanup. *)
Definition subscribers_step (a : string) (n : Z) (i : input) : Z :=
  match i with
  | Subscribe b _ _ => if decide (b = a) then n + 1 else n
  | Unsubscribe b => if decide (b = a) then Z.max 0 (n - 1) else n
  | Unmount => 0
  | _ => n
  end.

Definition subscribers (a : string) (ins : list input) : Z := fold_left (subscribers_step a) ins 0.

Lemma count_step u a i s :
  inv s -> count_of (step u i s).1 a = subscribers_step a (count_of s a) i.
Proof.
  intros Hi. pose proof (count_nonneg s a Hi) as Hc.
  destruct i as [b su tok|b|b e cb|b e cb|b c m|r|r reason|t tk|t|t|]; simpl; auto.
  - unfold subscribeToAuction, count_of. case_match; simpl;
      (case_decide; [subst; by rewrite lookup_insert_eq|by rewrite lookup_insert_ne]).
  - unfold unsubscribeFromAuction, count_of in *. destruct (0 <? _) eqn:E; simpl; bool_facts;
      (case_decide; [subst|by simplify_map_eq]); simplify_map_eq;
      destruct (refCounts s !! a) as [n|] eqn:En; simpl in *; lia.
  - unfold on_disconnect. by case_match.
  - destruct (take_task t (tasks s)), t; simpl; auto; unfold on_first_ticket, on_retry_ticket;
      by repeat case_match.
  - destruct (take_task t (tasks s)), t; simpl; auto; unfold on_first_ticket_failed;
      by repeat case_match.
  - destruct (take_task t (tasks s)), t; simpl; auto; unfold on_timer; by repeat case_match.
Qed.

Lemma count_run u a ins s :
  inv s -> count_of (run u ins s).1 a = fold_left (subscribers_step a) ins (count_of s a).
Proof.
  revert s; induction ins as [|i ins IH]; intros s Hi; simpl; [done|].
  rewrite <-(count_step u) by done. pose proof (inv_step u i s Hi) as H1.
  destruct (step u i s) as [s1 e1]; simpl in *. rewrite <-IH by done. by destruct (run u ins s1).
Qed.

(** ** Tickets *)
Definition ticket_used (e : effect) : option string :=
  match e with Connect _ t => Some t | _ => None end.
Definition ticket_issued (i : input) : option string :=
  match i with Resolved _ t => Some t | _ => None end.

Lemma step_tickets u i s :
  sublist (omap ticket_used (step u i s).2) (option_list (ticket_issued i)).
Proof.
  destruct i as [b su tok|b|b e cb|b e cb|b c m|r|r reason|t tk|t|t|]; simpl.
  - unfold subscribeToAuction. by case_match.
  - unfold unsubscribeFromAuction. by repeat case_match.
  - unfold onEvent. by case_match.
  - unfold offEvent. by case_match.
  - unfold emitEvent. by repeat case_match.
  - done.
  - unfold on_disconnect. by case_match.
  - destruct (take_task t (tasks s)), t; simpl; try (by apply sublist_nil_l); [|done].
    unfold on_first_ticket. repeat case_match; simpl; done || by apply sublist_nil_l.
  - destruct (take_task t (tasks s)), t; simpl; try done. unfold on_first_ticket_failed. by case_match.
  - destruct (take_task t (tasks s)), t; simpl; try done. unfold on_timer. by repeat case_match.
  - induction (map_to_list (sockets s)); simpl; done.
Qed.

Lemma run_tickets u ins s :
  sublist (omap ticket_used (run u ins s).2) (omap ticket_issued ins).
Proof.
  revert s; induction ins as [|i ins IH]; intros s; simpl; [done|].
  pose proof (step_tickets u i s) as H. destruct (step u i s) as [s1 e1]; simpl in *.
  specialize (IH s1). destruct (run u ins s1) as [s2 e2]; simpl in *. rewrite omap_app.
  pose proof (sublist_app _ _ _ _ H IH) as K.
  by destruct (ticket_issued i).
Qed.

(** ** Live sockets, and calm runs: no auction is left while a connection of it is
    being prepared *)

(** The sockets that were told to connect and have neither been told to disconnect nor
    been reported as disconnected since. *)
Definition live_effect (L : gset nat) (e : effect) : gset nat :=
  match e with Connect r _ => {[r]} ∪ L | Disconnect r => L ∖ {[r]} | _ => L end.
Definition live_step (i : input) (es : list effect) (L : gset nat) : gset nat :=
  fold_left live_effect es (match i with OnDisconnect r _ => L ∖ {[r]} | _ => L end).
Fixpoint live (u : option string) (ins : list input) (s : provider) (L : gset nat) : gset nat :=
  match ins with
  | [] => L
  | i :: rest => live u rest (step u i s).1 (live_step i (step u i s).2 L)
  end.

(** [r] is the socket its auction has now. *)
Definition current (s : provider) (r : nat) : Prop :=
  exists a, auction_of s r = Some a /\ sockets s !! a = Some r.

Definition idle (s : provider) (a : string) : Prop :=
  Forall (fun t => auction_of s (task_socket t) <> Some a) (tasks s).

(** An auction is left, and the provider unmounted, only when no ticket and no timer of
    it is awaited; the library reports the loss of a connection only of a live socket. *)
Definition calm_input (s : provider) (L : gset nat) (i : input) : Prop :=
  match i with
  | Unsubscribe a => 1 < count_of s a \/ idle s a
  | Unmount => tasks s = []
  | OnDisconnect r reason => reason = io_client_disconnect \/ r ∈ L
  | _ => True
  end.

Fixpoint calm (u : option string) (ins : list input) (s : provider) (L : gset nat) : Prop :=
  match ins with
  | [] => True
  | i :: rest => calm_input s L i /\ calm u rest (step u i s).1 (live_step i (step u i s).2 L)
  end.

#[export] Instance calm_input_dec s L i : Decision (calm_input s L i).
Proof. unfold calm_input, idle. destruct i; apply _. Defined.

#[export] Instance calm_dec u ins : forall s L, Decision (calm u ins s L).
Proof. induction ins as [|i ins IH]; intros s L; simpl; apply _. Defined.

(** The sockets whose first ticket is awaited, and those that wait to connect again. *)
Definition firsts (l : list task) : list nat := omap (fun t => match t with FirstTicket r => Some r | _ => None end) l.
Definition retries (l : list task) : list nat :=
  omap (fun t => match t with FirstTicket _ => None | RetryTimer r | RetryTicket r => Some r end) l.

(** Tasks and live sockets are of current sockets, and a socket that waits for its
    first ticket is not live and waits for nothing else. *)
Record calm_inv (s : provider) (L : gset nat) : Prop := {
  ci_tasks : forall t, t ∈ tasks s -> current s (task_socket t);
  ci_live : forall r, r ∈ L -> current s r;
  ci_firsts : forall r, r ∈ firsts (tasks s) -> r ∉ L /\ r ∉ retries (tasks s);
  ci_once : NoDup (firsts (tasks s))
}.

Lemma take_task_perm t l : forall l', take_task t l = Some l' -> Permutation l (t :: l').
Proof.
  induction l as [|y l IH]; intros l'; simpl; [done|].
  case_decide as Ht; [by intros [= ->]; subst|].
  destruct (take_task t l) as [k|]; simpl; [|done]. intros [= <-]. rewrite (IH k eq_refl). apply perm_swap.
Qed.

Lemma firsts_elem r l : r ∈ firsts l <-> FirstTicket r ∈ l.
Proof.
  unfold firsts. rewrite list_elem_of_omap. split; [|by intros H; exists (FirstTicket r)].
  by intros ([x|x|x] & Hx & [= <-]).
Qed.

Lemma retries_elem r l : r ∈ retries l <-> RetryTimer r ∈ l \/ RetryTicket r ∈ l.
Proof.
  unfold retries. rewrite list_elem_of_omap. split.
  - intros ([x|x|x] & Hx & [= <-]); auto.
  - intros [H|H]; eexists; (split; [exact H|done]).
Qed.

(** A task is taken: what is left. *)
Lemma calm_take t l s L : take_task t (tasks s) = Some l -> calm_inv s L ->
  current s (task_socket t) /\ calm_inv (with_tasks l s) L /\
  (forall r, t = FirstTicket r -> r ∉ L /\ r ∉ firsts l /\ r ∉ retries l) /\
  (forall r, t = RetryTimer r \/ t = RetryTicket r -> r ∉ firsts l).
Proof.
  intros Ht%take_task_perm [I1 I2 I3 I4].
  assert (Hin : t ∈ tasks s) by (rewrite Ht; by left).
  assert (Hsub : forall x, x ∈ l -> x ∈ tasks s) by (intros x Hx; rewrite Ht; by right).
  assert (Hf : Permutation (firsts (tasks s)) (firsts (t :: l))) by (unfold firsts; by rewrite Ht).
  assert (Hr : forall r, r ∈ retries l -> r ∈ retries (tasks s))
    by (intros r; rewrite !retries_elem; intros [H|H]; auto).
  split; [by apply I1|]. split; [|split].
  - split; simpl; [intros x Hx; exact (I1 x (Hsub x Hx))|exact I2| |].
    + intros r Hx%firsts_elem. destruct (I3 r) as [H1 H2]; [apply firsts_elem; auto|]. split; [done|]. by intros ?%Hr.
    + rewrite Hf in I4. destruct t; [exact (proj2 (proj1 (NoDup_cons _ _) I4))|exact I4|exact I4].
  - intros r ->. destruct (I3 r) as [H1 H2]; [by apply firsts_elem|]. split; [done|].
    rewrite Hf in I4. apply NoDup_cons in I4 as [I4 _]. split; [done|]. by intros ?%Hr.
  - intros r Hrt Hx%firsts_elem. destruct (I3 r) as [_ H2]; [apply firsts_elem; auto|]. apply H2, retries_elem.
    destruct Hrt as [->| ->]; auto.
Qed.

Lemma current_append s k r m l :
  current s r -> sockets s !! sk_auction k = None ->
  current (mkProvider (heap s ++ [k]) (<[sk_auction k := length (heap s)]> (sockets s)) m l (isConnected s)) r.
Proof.
  intros (a & Ha & Hs) Hn. exists a. unfold auction_of in *; simpl.
  destruct (heap s !! r) as [x|] eqn:E; [|done]. rewrite (lookup_app_l_Some _ _ _ _ E).
  split; [done|]. rewrite lookup_insert_ne; [done|]. intros <-. congruence.
Qed.

Lemma current_known s r : current s r -> (r < length (heap s))%nat.
Proof. intros (a & Ha & _). unfold auction_of in Ha. destruct (heap s !! r) eqn:E; [|done]. by eapply lookup_lt_Some. Qed.

(** What only changes tickets, counts or the flag. *)
Lemma calm_same s s' L : tasks s' = tasks s -> sockets s' = sockets s ->
  (forall r, auction_of s' r = auction_of s r) -> calm_inv s L -> calm_inv s' L.
Proof.
  intros E1 E2 E3 [I1 I2 I3 I4].
  assert (Hc : forall r, current s r -> current s' r) by (intros r (a & Ha & Hs); exists a; by rewrite E3, E2).
  split; rewrite ?E1; [by auto|by auto|done|done].
Qed.

Lemma calm_subscribe u a su tok s L : calm_inv s L -> calm_inv (subscribeToAuction u a su tok s).1 L.
Proof.
  intros I. unfold subscribeToAuction. destruct (sockets s !! a) as [r0|] eqn:Es; simpl; [by apply (calm_same s)|].
  set (k := mkSocket _ _ _ _). destruct I as [I1 I2 I3 I4].
  assert (Hnew : forall r, current s r -> r <> length (heap s)) by (intros r H%current_known; lia).
  assert (Hold : forall t, t ∈ tasks s -> task_socket t <> length (heap s)) by (intros t Ht; by apply Hnew, I1).
  split; cbn [tasks].
  - intros t [Ht| ->%list_elem_of_singleton]%elem_of_app; [by apply (current_append s k), Es; apply I1|].
    exists a. unfold auction_of. simpl. rewrite list_lookup_middle by done. by rewrite lookup_insert_eq.
  - intros r Hr. by apply (current_append s k), Es; apply I2.
  - intros r. unfold firsts, retries. rewrite !omap_app, elem_of_app. simpl. rewrite app_nil_r.
    intros [Hr| ->%list_elem_of_singleton]; [by apply I3|]. split; [by intros ?%I2%Hnew|].
    intros Hr. apply retries_elem in Hr as [Hr|Hr]; by apply Hold in Hr.
  - unfold firsts. rewrite omap_app. simpl. apply NoDup_app. split; [done|]. split; [|apply NoDup_singleton].
    intros r Hr%firsts_elem ->%list_elem_of_singleton. by apply Hold in Hr.
Qed.

(** The current socket of an auction goes, with its tasks and its connection. *)
Lemma calm_delete a s s' L L' :
  tasks s' = tasks s -> (forall r, auction_of s' r = auction_of s r) -> sockets s' = delete a (sockets s) ->
  idle s a -> (forall r, r ∈ L' -> r ∈ L /\ auction_of s r <> Some a) -> calm_inv s L -> calm_inv s' L'.
Proof.
  intros E1 E2 E3 Hi HL [I1 I2 I3 I4]. unfold idle in Hi. rewrite Forall_forall in Hi.
  assert (Hc : forall r, current s r -> auction_of s r <> Some a -> current s' r).
  { intros r (b & Hb & Hs) Hne. exists b. rewrite E2, E3. split; [done|].
    rewrite lookup_delete_ne; [done|]. intros <-. done. }
  split; rewrite ?E1; [..|done].
  - intros t Ht. apply Hc; [by apply I1|by apply Hi].
  - intros r [Hr Hne]%HL. by apply Hc; [apply I2|].
  - intros r Hr. destruct (I3 r Hr) as [H1 H2]. split; [|done]. by intros [? _]%HL.
Qed.

(** Only the auction's own socket can be live. *)
Lemma live_is_current a r r' s L : calm_inv s L -> r ∈ L -> auction_of s r = Some a -> sockets s !! a = Some r' -> r = r'.
Proof. intros I Hr Ha Hs. destruct (ci_live _ _ I r Hr) as (b & Hb & Hs'). congruence. Qed.

Lemma calm_unsubscribe a s L : inv s -> calm_input s L (Unsubscribe a) -> calm_inv s L ->
  calm_inv (unsubscribeFromAuction a s).1 (live_step (Unsubscribe a) (unsubscribeFromAuction a s).2 L).
Proof.
  intros Hi Hq I. unfold unsubscribeFromAuction, calm_input, count_of in *.
  destruct (0 <? _) eqn:E; simpl; bool_facts; [by apply (calm_same s)|].
  destruct Hq as [Hq|Hq]; [destruct (refCounts s !! a); simpl in *; lia|].
  unfold live_step. apply (calm_delete a s _ L); try done. intros r.
  destruct (sockets s !! a) as [r'|] eqn:Es; simpl.
  - intros [Hr Hne%not_elem_of_singleton]%elem_of_difference. split; [done|]. intros Ha.
    by apply Hne, (live_is_current a r r' s L).
  - intros Hr. split; [done|]. intros Ha. destruct (ci_live _ _ I r Hr) as (b & Hb & Hs). congruence.
Qed.

Lemma calm_disconnected r reason s L : calm_input s L (OnDisconnect r reason) -> calm_inv s L ->
  calm_inv (on_disconnect r reason s).1 (L ∖ {[r]}).
Proof.
  intros Hq I. assert (I' : forall l, tasks s = l -> calm_inv (with_tasks l (with_connected false s)) (L ∖ {[r]})).
  { intros l <-. destruct I as [I1 I2 I3 I4]. split; simpl; try done.
    - intros x [Hx _]%elem_of_difference. by apply I2.
    - intros x Hx. destruct (I3 x Hx). set_solver. }
  unfold on_disconnect. case_bool_decide as Hr; simpl; [by apply I'|]. destruct Hq as [?|Hq]; [done|].
  pose proof (ci_live _ _ I r Hq) as Hc. destruct (I' _ eq_refl) as [I1 I2 I3 I4].
  split; simpl; unfold firsts, retries; rewrite ?omap_app; cbn [omap list_omap]; rewrite ?app_nil_r; try done.
  - intros t [Ht| ->%list_elem_of_singleton]%elem_of_app; [by apply I1|done].
  - intros x Hx. destruct (I3 x Hx) as [H1 H2]. split; [done|]. intros [Hr'| ->%list_elem_of_singleton]%elem_of_app; [done|].
    by destruct (ci_firsts _ _ I r Hx).
Qed.

Lemma calm_connect r t s L : calm_inv s L -> current s r -> r ∉ firsts (tasks s) ->
  calm_inv (refreshTicket r t s) ({[r]} ∪ L).
Proof.
  intros I Hc Hf. apply (calm_same s); [done|done|by intros; apply auction_refreshTicket|].
  destruct I as [I1 I2 I3 I4]. split; try done.
  - intros x [->%elem_of_singleton|Hx]%elem_of_union; [done|by apply I2].
  - intros x Hx. destruct (I3 x Hx) as [H1 H2]. split; [|done]. intros [->%elem_of_singleton|?]%elem_of_union; done.
Qed.

Lemma calm_resolved u t ticket s L : calm_inv s L ->
  calm_inv (step u (Resolved t ticket) s).1 (live_step (Resolved t ticket) (step u (Resolved t ticket) s).2 L).
Proof.
  intros I. unfold live_step. simpl. destruct (take_task t (tasks s)) as [l|] eqn:E; [|by destruct t].
  destruct (calm_take t l s L E I) as (Hc & Il & Hf & Hr).
  destruct t as [r|r|r]; simpl; [|done|].
  - destruct (Hf r eq_refl) as (H1 & H2 & _). unfold on_first_ticket.
    assert (I' : calm_inv (refreshTicket r ticket (with_tasks l s)) L)
      by (apply (calm_same (with_tasks l s)); [done|done|by intros; apply auction_refreshTicket|done]).
    destruct (auction_of _ r); [|done]. cbn [fst snd]. destruct (0 <? _); [|done]. by apply calm_connect.
  - by apply calm_connect; [| |apply Hr; right].
Qed.

Lemma calm_rejected u t s L : calm_inv s L ->
  calm_inv (step u (Rejected t) s).1 (live_step (Rejected t) (step u (Rejected t) s).2 L).
Proof.
  intros I. unfold live_step. simpl. destruct (take_task t (tasks s)) as [l|] eqn:E; [|by destruct t].
  destruct (calm_take t l s L E I) as (Hc & Il & Hf & _).
  destruct t as [r|r|r]; simpl; [|done|done]. destruct (Hf r eq_refl) as (H1 & H2 & H3).
  destruct Hc as (a & Ha & Hs). cbn [task_socket] in *. unfold on_first_ticket_failed.
  change (auction_of (with_tasks l s) r) with (auction_of s r). rewrite Ha. cbn [fst snd fold_left].
  assert (Hown : forall r', current (with_tasks l s) r' -> auction_of s r' = Some a -> r' = r)
    by (intros r' (b & Hb & Hs') Ha'; change (auction_of s r' = Some b) in Hb; simpl in Hs'; congruence).
  apply (calm_delete a (with_tasks l s) _ L); try done.
  - unfold idle. apply Forall_forall. intros t Ht Ha'. simpl in Ht.
    pose proof (Hown _ (ci_tasks _ _ Il t Ht) Ha') as Er.
    destruct t as [x|x|x]; simpl in Er; subst x;
      [by apply H2, firsts_elem|apply H3, retries_elem; by left|apply H3, retries_elem; by right].
  - intros r' Hr'. split; [done|]. intros Ha'. by rewrite (Hown _ (ci_live _ _ Il r' Hr') Ha') in Hr'.
Qed.

Lemma calm_fired u t s L : calm_inv s L ->
  calm_inv (step u (TimerFired t) s).1 (live_step (TimerFired t) (step u (TimerFired t) s).2 L).
Proof.
  intros I. unfold live_step. simpl. destruct (take_task t (tasks s)) as [l|] eqn:E; [|by destruct t].
  destruct (calm_take t l s L E I) as (Hc & Il & _ & Hr).
  destruct t as [r|r|r]; simpl; [done| |done]. unfold on_timer.
  destruct (auction_of _ r); [|done]. destruct (0 <? _); [|done]. cbn [fst snd fold_left live_effect].
  specialize (Hr r (or_introl eq_refl)). destruct Il as [I1 I2 I3 I4]. simpl in *.
  split; simpl; unfold firsts, retries; rewrite ?omap_app; cbn [omap list_omap]; rewrite ?app_nil_r; try done.
  - intros t [Ht| ->%list_elem_of_singleton]%elem_of_app; [by apply I1|done].
  - intros x Hx. destruct (I3 x Hx) as [H1 H2]. split; [done|]. by intros [?| ->%list_elem_of_singleton]%elem_of_app.
Qed.

Lemma disconnect_all rs : forall L r, r ∈ fold_left live_effect (map Disconnect rs) L -> r ∈ L /\ r ∉ rs.
Proof.
  induction rs as [|x rs IH]; intros L r Hr; [split; [done|apply not_elem_of_nil]|]. simpl in Hr.
  apply IH in Hr as [[Hr Hx%not_elem_of_singleton]%elem_of_difference Hn]. split; [done|]. by apply not_elem_of_cons.
Qed.

Lemma calm_unmount s L : tasks s = [] -> calm_inv s L ->
  calm_inv (unmount s).1 (live_step Unmount (unmount s).2 L).
Proof.
  intros Ht I. unfold live_step. simpl.
  assert (Hnone : forall r, r ∉ fold_left live_effect (map (fun ar => Disconnect ar.2) (map_to_list (sockets s))) L).
  { intros r Hr. rewrite <-(map_map snd Disconnect) in Hr. apply disconnect_all in Hr as [Hr Hn].
    destruct (ci_live _ _ I r Hr) as (a & _ & Hs). apply Hn, list_elem_of_fmap. exists (a, r).
    split; [done|]. by apply elem_of_map_to_list. }
  split; simpl; rewrite ?Ht; try constructor.
  - intros t H. by apply not_elem_of_nil in H.
  - intros r Hr. by apply Hnone in Hr.
  - by apply not_elem_of_nil in H.
  - by apply not_elem_of_nil in H.
Qed.

Lemma quiet_effects L es : Forall (fun e => match e with Connect _ _ | Disconnect _ => False | _ => True end) es ->
  fold_left live_effect es L = L.
Proof. induction 1 as [|e es He _ IH]; [done|]. simpl. by destruct e. Qed.

Lemma calm_step u i s L : inv s -> calm_input s L i -> calm_inv s L ->
  calm_inv (step u i s).1 (live_step i (step u i s).2 L).
Proof.
  intros Hi Hq I. destruct i as [a su tok|a|a e cb|a e cb|a c m|r|r reason|t tk|t|t|].
  - unfold live_step. rewrite quiet_effects; [by apply calm_subscribe|]. simpl. unfold subscribeToAuction.
    case_match; by repeat constructor.
  - by apply calm_unsubscribe.
  - unfold live_step. rewrite quiet_effects; [done|]. simpl. unfold onEvent. case_match; by repeat constructor.
  - unfold live_step. rewrite quiet_effects; [done|]. simpl. unfold offEvent. case_match; by repeat constructor.
  - unfold live_step. rewrite quiet_effects; [done|]. simpl. unfold emitEvent. repeat case_match; by repeat constructor.
  - by apply (calm_same s).
  - unfold live_step. rewrite quiet_effects; [by apply calm_disconnected|]. simpl. unfold on_disconnect.
    case_match; by repeat constructor.
  - by apply calm_resolved.
  - by apply calm_rejected.
  - by apply calm_fired.
  - by apply calm_unmount.
Qed.

Lemma calm_run u ins : forall s L, inv s -> calm_inv s L -> calm u ins s L -> calm_inv (run u ins s).1 (live u ins s L).
Proof.
  induction ins as [|i ins IH]; intros s L Hi Hc Hq; simpl in *; [done|].
  destruct Hq as [Hq Hr]. pose proof (inv_step u i s Hi) as H1.
  pose proof (calm_step u i s L Hi Hq Hc) as H2. destruct (step u i s) as [s1 e1]; simpl in *.
  specialize (IH s1 _ H1 H2 Hr). by destruct (run u ins s1).
Qed.

Lemma calm_inv0 : calm_inv provider0 ∅.
Proof. split; simpl; [by intros t ?%not_elem_of_nil|set_solver|by intros t ?%not_elem_of_nil|constructor]. Qed.

(** ** Properties of the provider *)

(** C10: refinement: on every run the reference count of an auction is the number
    of its subscribers, and a socket is kept only for an auction that has one. *)
Theorem refcounts_refine_subscribers u a ins :
  let s := (run u ins provider0).1 in
  count_of s a = subscribers a ins /\
  forall r, sockets s !! a = Some r -> 1 <= subscribers a ins /\ auction_of s r = Some a.
Proof.
  intros s. pose proof (inv_run u ins provider0 inv_provider0) as Hi. fold s in Hi.
  assert (E : count_of s a = subscribers a ins) by (apply count_run, inv_provider0).
  split; [done|]. intros r Hr. rewrite <-E.
  split; [apply count_pos, (inv_subscribed s Hi a r Hr); done|by apply inv_heap].
Qed.

(** gateway tickets are single-use: on every run the connections use tickets
    in the order they were issued, and none twice when none is issued twice. *)
Theorem tickets_used_once u ins :
  let used := omap ticket_used (run u ins provider0).2 in
  let issued := omap ticket_issued ins in
  sublist used issued /\ (NoDup issued -> NoDup used).
Proof.
  intros used issued. assert (H : sublist used issued) by apply run_tickets.
  split; [done|]. intros Hn. by eapply sublist_NoDup.
Qed.

(** C14: one live socket per auction.  On a run in which no auction is left, and the
    provider not unmounted, while a ticket or a timer of it is awaited, and in which
    the library reports a lost connection only of a live socket: every live socket
    (told to connect, and neither told to disconnect nor reported disconnected since)
    is the one that its auction has now, the auction has a subscriber, and no other
    socket of the auction is live. *)
Theorem calm_run_one_live_socket u ins r :
  calm u ins provider0 ∅ ->
  let s := (run u ins provider0).1 in
  let L := live u ins provider0 ∅ in
  r ∈ L ->
  exists a, auction_of s r = Some a /\ sockets s !! a = Some r /\ 1 <= subscribers a ins /\
    forall r', r' ∈ L -> auction_of s r' = Some a -> r' = r.
Proof.
  intros Hq s L Hr. pose proof (inv_run u ins _ inv_provider0) as Hi. fold s in Hi.
  pose proof (calm_run u ins provider0 ∅ inv_provider0 calm_inv0 Hq) as I. fold s L in I.
  destruct (ci_live _ _ I r Hr) as (a & Ha & Hs). exists a. split; [done|]. split; [done|].
  assert (E : count_of s a = subscribers a ins) by (apply count_run, inv_provider0).
  split; [rewrite <-E; by apply count_pos, (inv_subscribed s Hi a _ Hs)|].
  intros r' Hr' Ha'. by apply (live_is_current a r' r s L).
Qed.

(** the double mount that the reference counts are meant for (subscribe,
    unsubscribe, subscribe before the first ticket arrives) connects two sockets
    for one subscriber, and leaving the auction closes only the second. *)
Theorem double_mount_leaks_socket u a su tok t0 t1 :
  (run u [Subscribe a su tok; Unsubscribe a; Subscribe a su tok;
          Resolved (FirstTicket 0) t0; Resolved (FirstTicket 1) t1; Unsubscribe a] provider0).2 =
  [RequestTicket 0; Disconnect 0; RequestTicket 1; Connect 0 t0; Connect 1 t1; Disconnect 1].
Proof.
  cbn [run step subscribeToAuction unsubscribeFromAuction].
  unfold subscribeToAuction, unsubscribeFromAuction, on_first_ticket, count_of, auction_of; simpl.
  repeat (simplify_map_eq; simpl). done.
Qed.

(** a reconnection does not look at the subscribers again: when the auction is
    left while the new ticket is on its way, the socket connects with nobody
    subscribed and no socket recorded for the auction. *)
Theorem reconnect_without_subscriber u a su tok t0 t1 :
  let ins := [Subscribe a su tok; Resolved (FirstTicket 0) t0; OnConnect 0;
              OnDisconnect 0 "transport close"; TimerFired (RetryTimer 0); Unsubscribe a] in
  let s := (run u ins provider0).1 in
  subscribers a ins = 0 /\ sockets s !! a = None /\
  (step u (Resolved (RetryTicket 0) t1) s).2 = [Connect 0 t1].
Proof.
  unfold subscribers. simpl. rewrite !decide_True by done. split; [done|].
  unfold subscribeToAuction, unsubscribeFromAuction, on_first_ticket, on_disconnect, on_timer,
    count_of, auction_of; simpl.
  repeat (simplify_map_eq; simpl). done.
Qed.

(** ** Witnesses: one subscriber, a lost connection, a reconnection *)
Definition sample_session : list input :=
  [Subscribe "a1" "u1" "tok"; Resolved (FirstTicket 0) "t0"; OnConnect 0;
   OnDisconnect 0 "transport close"; TimerFired (RetryTimer 0)].

Lemma refcounts_refine_subscribers_witness :
  count_of (run None sample_session provider0).1 "a1" = 1 /\
  subscribers "a1" sample_session = 1 /\
  1 <= subscribers "a1" sample_session.
Proof.
  destruct (refcounts_refine_subscribers None "a1" sample_session) as [E H].
  split; [rewrite E; reflexivity|]. split; [reflexivity|].
  apply (H 0%nat). reflexivity.
Defined.

Lemma tickets_used_once_witness :
  let used := omap ticket_used (run None (sample_session ++ [Resolved (RetryTicket 0) "t1"]) provider0).2 in
  used = ["t0"; "t1"] /\ NoDup used.
Proof.
  split; [reflexivity|].
  apply (tickets_used_once None (sample_session ++ [Resolved (RetryTicket 0) "t1"])). by_decide.
Defined.

(** Two auctions, one of them lost and connected again, the other left. *)
Definition sample_calm : list input :=
  [Subscribe "a1" "u1" "tok"; Subscribe "a2" "u1" "tok"; Resolved (FirstTicket 1) "t0"; Resolved (FirstTicket 0) "t1";
   OnConnect 0; OnDisconnect 0 "transport close"; Unsubscribe "a2"; OnDisconnect 1 io_client_disconnect;
   TimerFired (RetryTimer 0); Resolved (RetryTicket 0) "t2"].

Lemma calm_run_one_live_socket_witness :
  0%nat ∈ live None sample_calm provider0 ∅ /\
  exists a, auction_of (run None sample_calm provider0).1 0 = Some a /\
    sockets (run None sample_calm provider0).1 !! a = Some 0%nat /\ 1 <= subscribers a sample_calm.
Proof.
  assert (Hc : calm None sample_calm provider0 ∅) by by_decide.
  assert (Hr : 0%nat ∈ live None sample_calm provider0 ∅) by by_decide.
  split; [exact Hr|].
  destruct (calm_run_one_live_socket None sample_calm 0 Hc Hr) as (a & H1 & H2 & H3 & _).
  exists a. split; [exact H1|]. split; [exact H2|exact H3].
Defined.
