(* ===== verification/AuctionSocket.v ===== *)
(** * The auction's event handlers ([hooks/useAuctionSocket.ts])

    What the live page does with the server's messages: [auction_init] resets the
    slice and replays the server's events into it, [bid_update] reconciles one
    bid, the other messages are only logged.  The theorems relate the state after
    a snapshot to the events it carries. *)

From S2P Require Import Prelude JSNum JSText ApiTypes AuctionSlice SocketContext.
#[local] Open Scope Z_scope.

(** [item.bid.bidder_id + item.bid.timestamp]: the number is written out. *)
Definition event_id (b : BidRequestPayload.t) : string :=
  BidRequestPayload.bidder_id b +:+ string_of_Z (BidRequestPayload.timestamp b).

(** The payload of [reconcileBid] for one server event; [Number] of a number is
    the number. *)
Definition reconcile_payload (e : BidEventPayload.t) : ReconcilePayload :=
  let b := BidEventPayload.bid e in
  mkRec (Some (event_id b)) (BidEventPayload.is_executed e) (BidRequestPayload.amount b)
    (or_ostr (BidRequestPayload.username b) (BidRequestPayload.bidder_id b))
    (BidRequestPayload.timestamp b).

(** [.filter(item => item && item.bid)] followed by [.forEach]; a field that is
    not an array gives nothing. *)
Definition event_actions (l : option (list (option BidEventPayload.t))) : list action :=
  match l with
  | Some items => map (fun e => ReconcileBid (reconcile_payload e)) (omap id items)
  | None => []
  end.

(** [event.minimum_bid_step || 1]. *)
Definition init_payload (e : AuctionInitPayload.t) : InitPayload :=
  mkInit (AuctionInitPayload.auction_id e)
    (default REVERSE (AuctionInitPayload.auction_type e))
    (match AuctionInitPayload.minimum_bid_step e with
     | Some x => or_num x (of_Z 1)
     | None => of_Z 1
     end)
    (AuctionInitPayload.start_time e) (AuctionInitPayload.end_time e)
    (match AuctionInitPayload.initial_price e with
     | Some x => Some x
     | None => AuctionInitPayload.initial_lowest e
     end)
    (AuctionInitPayload.is_participant e).

(** [event.leading_bids || event.lowest_bids]: an array is truthy. *)
Definition snapshot_leaders (e : AuctionInitPayload.t) : option (list (option BidEventPayload.t)) :=
  match AuctionInitPayload.leading_bids e with
  | Some l => Some l
  | None => AuctionInitPayload.lowest_bids e
  end.

Definition on_auction_init (e : AuctionInitPayload.t) : list action :=
  InitAuction (init_payload e) ::
  event_actions (AuctionInitPayload.recent_events e) ++ event_actions (snapshot_leaders e).

Definition on_bid_update (e : BidEventPayload.t) : list action := [ReconcileBid (reconcile_payload e)].

(** The messages the hook listens to; the last three are logged. *)
Inductive message :=
| MInit (e : AuctionInitPayload.t)
| MBid (e : BidEventPayload.t)
| MClosed (e : AuctionClosedPayload.t)
| MError (msg : string)
| MInfo (msg : string).

Definition on_message (m : message) : list action :=
  match m with
  | MInit e => on_auction_init e
  | MBid e => on_bid_update e
  | MClosed _ | MError _ | MInfo _ => []
  end.

(** The hook's effect and its cleanup, for the callbacks numbered [cb], [cb + 1], ... *)
Definition listeners (cb : callback) : list (ServerEvent * callback) :=
  [(auction_init, cb); (bid_update, S cb); (auction_closed, S (S cb));
   (error, S (S (S cb))); (info, S (S (S (S cb))))].

Definition mount_inputs (auctionId stored_user token : string) (cb : callback) : list input :=
  if bool_decide (auctionId = EmptyString) then []
  else Subscribe auctionId stored_user token ::
    map (fun x => On auctionId x.1 x.2) (listeners cb).

Definition cleanup_inputs (auctionId : string) (cb : callback) : list input :=
  if bool_decide (auctionId = EmptyString) then []
  else map (fun x => Off auctionId x.1 x.2) (listeners cb) ++ [Unsubscribe auctionId].

(** The slice after some actions, at one instant [now]. *)
Definition dispatch_all (now : Z) (l : list action) (s : AuctionState) : AuctionState :=
  fold_left (fun s a => reducer now "" s a) l s.

Definition receive (now : Z) (m : message) (s : AuctionState) : AuctionState :=
  dispatch_all now (on_message m) s.

(** ** Lemmas *)

(** The events a snapshot carries. *)
Definition snapshot_events (e : AuctionInitPayload.t) : list BidEventPayload.t :=
  omap id (default [] (AuctionInitPayload.recent_events e)) ++
  omap id (default [] (snapshot_leaders e)).

Definition ev_bidder (e : BidEventPayload.t) : string := BidRequestPayload.bidder_id (BidEventPayload.bid e).
Definition ev_time (e : BidEventPayload.t) : Z := BidRequestPayload.timestamp (BidEventPayload.bid e).
Definition ev_amount (e : BidEventPayload.t) : num := BidRequestPayload.amount (BidEventPayload.bid e).
Definition ev_entry (e : BidEventPayload.t) : Bid :=
  bid_of (event_id (BidEventPayload.bid e)) (reconcile_payload e).

(** What the server's events satisfy: bidder identifiers of one positive length
    (UUIDs), finite amounts, one record per bidder and instant. *)
Record server_events (n : nat) (evs : list BidEventPayload.t) : Prop := {
  se_length : (0 < n)%nat;
  se_ids : Forall (fun e => String.length (ev_bidder e) = n) evs;
  se_finite : Forall (fun e => is_finite (ev_amount e) = true) evs;
  se_record : forall e e', e ∈ evs -> e' ∈ evs ->
    ev_bidder e = ev_bidder e' -> ev_time e = ev_time e' -> e = e'
}.

Lemma event_id_inj a b :
  String.length (BidRequestPayload.bidder_id a) = String.length (BidRequestPayload.bidder_id b) ->
  event_id a = event_id b ->
  BidRequestPayload.bidder_id a = BidRequestPayload.bidder_id b /\
  BidRequestPayload.timestamp a = BidRequestPayload.timestamp b.
Proof.
  intros Hl [E1 E2]%str_app_inj; [|done]. split; [done|]. by apply (inj string_of_Z) in E2.
Qed.

Lemma event_id_truthy e : (0 < String.length (ev_bidder e))%nat ->
  truthy_str (rp_id (reconcile_payload e)) = true /\
  rp_key (reconcile_payload e) = event_id (BidEventPayload.bid e).
Proof.
  unfold ev_bidder, reconcile_payload, rp_key, event_id. simpl.
  destruct (BidRequestPayload.bidder_id _); simpl; [lia|done].
Qed.

Section Events.
Context (n : nat) (evs : list BidEventPayload.t) (H : server_events n evs).

Let payloads := map reconcile_payload evs.

Lemma events_key e : e ∈ evs ->
  truthy_str (rp_id (reconcile_payload e)) = true /\
  rp_key (reconcile_payload e) = event_id (BidEventPayload.bid e).
Proof.
  intros He. apply event_id_truthy. destruct H as [H0 Hl _ _]. rewrite Forall_forall in Hl.
  by rewrite (Hl e He).
Qed.

Lemma events_truthy : Forall (fun p => truthy_str (rp_id p) = true) payloads.
Proof.
  apply Forall_fmap, Forall_forall. intros e He. by apply events_key.
Qed.

Lemma events_finite : Forall (fun p => is_finite (rp_amount p) = true) payloads.
Proof. apply Forall_fmap. apply H. Qed.

Lemma events_coherent : coherent payloads.
Proof.
  intros p q (e & -> & He)%list_elem_of_fmap (e' & -> & He')%list_elem_of_fmap E.
  rewrite (proj2 (events_key e He)), (proj2 (events_key e' He')) in E.
  destruct H as [_ Hl _ Hr]. rewrite Forall_forall in Hl.
  apply event_id_inj in E as [E1 E2]; [by rewrite (Hr e e')|].
  unfold ev_bidder in Hl. by rewrite (Hl e He), (Hl e' He').
Qed.

(** Replaying the events into an empty ledger. *)
Lemma events_replayed s : bids s = [] ->
  let s' := replay payloads s in
  (forall b, b ∈ bids s' <-> exists e, e ∈ evs /\ b = ev_entry e) /\
  NoDup (ids (bids s')) /\ finite_bids (bids s') /\
  startingPrice s' = startingPrice s /\ auctionType s' = auctionType s.
Proof.
  intros Hs s'.
  assert (Hnil : no_pending (bids s) /\ NoDup (ids (bids s))) by (rewrite Hs; by repeat constructor).
  destruct (replay_spec payloads s events_truthy (proj1 Hnil) (proj2 Hnil)) as (_ & N & S & T).
  repeat split; auto.
  - intros (p & Hp & ->)%(replay_elem payloads s _ events_truthy Hs events_coherent).
    apply list_elem_of_fmap in Hp as (e & -> & He). exists e. split; [done|].
    unfold ev_entry. by rewrite (proj2 (events_key e He)).
  - intros (e & He & ->). apply (replay_elem payloads s _ events_truthy Hs events_coherent).
    exists (reconcile_payload e). split; [by apply list_elem_of_fmap; exists e|].
    unfold ev_entry. by rewrite (proj2 (events_key e He)).
  - apply replay_finite; [apply events_finite|]. rewrite Hs. constructor.
Qed.

(** The price they lead to: the best executed bid, else the starting price. *)
Lemma events_price s : bids s = [] -> currentPrice s = startingPrice s ->
  let s' := replay payloads s in
  (Forall (fun e => BidEventPayload.is_executed e = false) evs -> currentPrice s' = startingPrice s) /\
  (Exists (fun e => BidEventPayload.is_executed e = true) evs ->
   exists e, e ∈ evs /\ BidEventPayload.is_executed e = true /\
     currentPrice s' = Some (ev_amount e) /\
     forall e', e' ∈ evs -> BidEventPayload.is_executed e' = true ->
       better (auctionType s) (ev_amount e') (ev_amount e) = false).
Proof.
  intros Hs Hp s'. destruct (events_replayed s Hs) as (Hin & _ & Hf & Hst & Hty).
  fold s' in Hin, Hf, Hst, Hty.
  destruct (decide (evs = [])) as [Hnil|Hne].
  { split; [intros _|intros He; rewrite Hnil in He; inversion He].
    unfold s', payloads. by rewrite Hnil. }
  assert (Hcp : currentPrice s' = leading_price s' (bids s')).
  { apply replay_price. unfold payloads. by destruct evs. }
  assert (Hex : forall e, not_rejected (ev_entry e) = BidEventPayload.is_executed e).
  { intros e. unfold ev_entry. by rewrite not_rejected_bid_of. }
  rewrite Hcp. destruct (leading_price_spec s' (bids s') Hf) as [[Hr ->]|(b & (Hb & Hn & Hl) & ->)].
  - split; [by rewrite Hst|]. intros (e & He & Hee)%Exists_exists. rewrite Forall_forall in Hr.
    specialize (Hr (ev_entry e) (proj2 (Hin _) (ex_intro _ e (conj He eq_refl)))).
    rewrite Hex in Hr. congruence.
  - apply Hin in Hb as (e & He & ->). rewrite Hex in Hn. split.
    + intros Hall. rewrite Forall_forall in Hall. by rewrite (Hall e He) in Hn.
    + intros _. exists e. split; [done|]. split; [done|]. split; [done|].
      intros e' He' Hee'. rewrite <-Hty. apply (Hl (ev_entry e')); [|by rewrite Hex].
      apply Hin. by exists e'.
Qed.
End Events.

Lemma dispatch_reconciles now evs s :
  dispatch_all now (map (fun e => ReconcileBid (reconcile_payload e)) evs) s =
  replay (map reconcile_payload evs) s.
Proof.
  unfold dispatch_all, replay. revert s; induction evs as [|e evs IH]; intros s; simpl; [done|].
  apply IH.
Qed.

Lemma event_actions_default l :
  event_actions l = map (fun e => ReconcileBid (reconcile_payload e)) (omap id (default [] l)).
Proof. by destruct l. Qed.

Lemma receive_init now e s :
  receive now (MInit e) s =
  replay (map reconcile_payload (snapshot_events e)) (initAuction now (init_payload e) s).
Proof.
  unfold receive, snapshot_events. simpl on_message. unfold on_auction_init.
  rewrite !event_actions_default, <-map_app. simpl. by rewrite dispatch_reconciles.
Qed.

Lemma best_amount_one d a : is_finite a = true -> best_amount d [a] = a.
Proof.
  intros Ha. destruct (best_amount_spec d [a]) as [H _]; [done|by constructor|].
  by apply list_elem_of_singleton in H.
Qed.

(** ** Properties *)


(** a page that was already open and a page that has just been opened show
    the same bids and the same price after the same snapshot. *)
Theorem snapshot_forgets_history now e s s' :
  timeSkew s = timeSkew s' -> AuctionSlice.isConnected s = AuctionSlice.isConnected s' ->
  receive now (MInit e) s = receive now (MInit e) s'.
Proof.
  intros H1 H2. rewrite !receive_init. f_equal. unfold initAuction. by rewrite H1, H2.
Qed.

(** two bids of one bidder in the same millisecond share an identifier: the
    second answer overwrites the first, and when it is a rejection the accepted
    bid is lost from the page together with the price it set. *)
Theorem same_millisecond_bids_collide now who t a b s :
  who <> EmptyString -> bids s = [] -> is_finite a = true ->
  let ev x ok := BidEventPayload.mk (BidRequestPayload.mk "a1" who None x t) ok in
  let s1 := receive now (MBid (ev a true)) s in
  let s2 := receive now (MBid (ev b false)) s1 in
  currentPrice s1 = Some a /\ currentPrice s2 = startingPrice s /\ length (bids s2) = 1%nat.
Proof.
  intros Hw Hs Ha ev s1 s2. unfold s2, s1, receive, dispatch_all. simpl.
  unfold reconcileBid, apply_event, match_index. simpl. rewrite Hs. simpl.
  unfold event_id. destruct who as [|c who]; [done|]. simpl.
  rewrite bool_decide_eq_true_2 by done. simpl. split; [|done].
  unfold leading_price. simpl.
  by rewrite best_amount_one.
Qed.

(** ** Witnesses: a snapshot with three events, one of them listed twice *)
Definition sample_ev (who : string) (ok : bool) (a : Z) (t : Z) : BidEventPayload.t :=
  BidEventPayload.mk (BidRequestPayload.mk "a1" who (Some "name") (of_Z a) t) ok.
Definition sample_snapshot : AuctionInitPayload.t :=
  AuctionInitPayload.mk "a1" (Some REVERSE) (Some (of_Z 5))
    (Some [Some (sample_ev "u2" true 90 20)]) None
    (Some [Some (sample_ev "u1" true 100 10); None; Some (sample_ev "u2" true 90 20);
           Some (sample_ev "u1" false 95 30)])
    1 1000 (Some (of_Z 120)) (Some (of_Z 120)) true.

Lemma sample_server_events : server_events 2 (snapshot_events sample_snapshot).
Proof.
  split; [lia|by repeat constructor|by repeat constructor|].
  assert (E : snapshot_events sample_snapshot =
    [sample_ev "u1" true 100 10; sample_ev "u2" true 90 20; sample_ev "u1" false 95 30;
     sample_ev "u2" true 90 20]) by reflexivity.
  rewrite E. intros e e' He He'. rewrite !elem_of_cons, elem_of_nil in He, He'.
  intuition; subst; first [done | discriminate].
Qed.


Lemma snapshot_forgets_history_witness :
  receive 50 (MInit sample_snapshot) initialState =
  receive 50 (MInit sample_snapshot)
    (addOptimisticBid (mkBid "x" (of_Z 1) "me" 5 pending) initialState).
Proof. apply snapshot_forgets_history; reflexivity. Defined.

Lemma same_millisecond_bids_collide_witness :
  let ev x ok := sample_ev "u1" ok x 10 in
  exists s1 s2 : AuctionState, currentPrice s1 = Some (of_Z 90) /\ currentPrice s2 = None /\
    length (bids s2) = 1%nat.
Proof.
  eexists; eexists.
  apply (same_millisecond_bids_collide 50 "u1" 10 (of_Z 90) (of_Z 95) initialState); done.
Defined.
