(* ===== verification/Engine.v ===== *)
(** * The bid decision of the auction engine ([apps/auction-engine])

    The actor that owns one auction's price: the rule that accepts a bid, the
    ledger write with its idempotency record, and the loop that processes the
    queue in order.  Redis answers as an argument of each step: it may serve the
    call, refuse it before anything is written, apply the write and lose the
    reply, or serve the write and not the broadcast that follows it.  The last section joins the engine to the page: what a page shows
    after the engine's decisions have reached it. *)

From S2P Require Import Prelude JSNum JSRound JSText ApiTypes AuctionSlice SocketContext AuctionSocket.
#[local] Open Scope Z_scope.

(** [f64::is_finite] and the comparisons of Rust are those of the numbers. *)
Definition is_better_bid (auction_type : AuctionDirection) (current_price amount minimum_bid_step : num) : bool :=
  if negb (is_finite amount) || nle amount nzero || negb (is_finite current_price)
     || negb (is_finite minimum_bid_step) || nle minimum_bid_step nzero
  then false
  else match auction_type with
       | REVERSE => nle amount (nsub current_price minimum_bid_step)
       | FORWARD => nle (nadd current_price minimum_bid_step) amount
       end.

Record AuctionRuntime := mkRuntime {
  rt_type : AuctionDirection;
  rt_price : num;
  rt_step : num;
  rt_reserve : option num;
  rt_end : Z
}.

Record AuctionTask := mkTask {
  request_id : string;
  task_bid : BidRequestPayload.t
}.

(** The decision event: the fields the ledger and the page read. *)
Record Decision := mkDecision {
  d_request : string;
  d_bid : BidRequestPayload.t;
  d_executed : bool;
  d_previous : num;
  d_resulting : num
}.

(** Redis for one auction: the idempotency records of accepted requests (their
    expiry is not modelled), the live and sync streams (written together), the
    sorted set as the list of its members, the stream the publisher drains, and
    what was published to the pages. *)
Record Ledger := mkLedger {
  processed : gmap string Decision;
  live_stream : list Decision;
  zset : list Decision;
  pending_stream : list Decision;
  published : list Decision
}.

Definition ledger0 : Ledger := mkLedger ∅ [] [] [] [].

Inductive LedgerWrite := Applied | Duplicate.
Inductive AuctionTaskResult := Committed | TaskRejected (reason : string) | Retryable.
(** [Unannounced]: the write is served, the broadcast of the update is not; the
    engine only reports that. *)
Inductive RedisOutcome := Served | Refused | ReplyLost | Unannounced.

Definition decision (task : AuctionTask) (is_executed : bool) (previous : num) : Decision :=
  mkDecision (request_id task) (task_bid task) is_executed previous
    (if is_executed then BidRequestPayload.amount (task_bid task) else previous).

(** [write_bid]: the answer, [None] when the call failed, and the ledger after it. *)
Definition write_bid (o : RedisOutcome) (task : AuctionTask) (is_executed : bool) (previous : num)
    (l : Ledger) : option LedgerWrite * Ledger :=
  let d := decision task is_executed previous in
  match o with
  | Refused => (None, l)
  | _ =>
      let '(w, l') :=
        match processed l !! request_id task, is_executed with
        | Some accepted, false =>
            (Duplicate, mkLedger (processed l) (live_stream l) (zset l)
               (pending_stream l ++ [accepted]) (published l))
        | None, false =>
            (Applied, mkLedger (processed l) (live_stream l) (zset l) (pending_stream l ++ [d])
               (match o with Served => published l ++ [d] | _ => published l end))
        | Some _, true => (Duplicate, l)
        | None, true =>
            (Applied, mkLedger (<[request_id task := d]> (processed l)) (live_stream l ++ [d])
               (zset l ++ [d]) (pending_stream l ++ [d])
               (match o with Served => published l ++ [d] | _ => published l end))
        end in
      (match o with Served | Unannounced => Some w | _ => None end, l')
  end.

Record Actor := mkActor { runtime : AuctionRuntime; ledger : Ledger }.

Definition set_price (p : num) (r : AuctionRuntime) : AuctionRuntime :=
  mkRuntime (rt_type r) p (rt_step r) (rt_reserve r) (rt_end r).

(** One turn of the loop for a task that arrived before the end of the auction:
    the new state, the answer to the consumer, whether the publisher is woken. *)
Definition process_task (auction_id : string) (o : RedisOutcome) (task : AuctionTask) (a : Actor) :
    Actor * AuctionTaskResult * bool :=
  if negb (bool_decide (BidRequestPayload.auction_id (task_bid task) = auction_id))
  then (a, TaskRejected "AUCTION_ID_MISMATCH", false)
  else
    let r := runtime a in
    let amount := BidRequestPayload.amount (task_bid task) in
    let is_executed := is_better_bid (rt_type r) (rt_price r) amount (rt_step r) in
    match write_bid o task is_executed (rt_price r) (ledger a) with
    | (Some Applied, l) =>
        (mkActor (if is_executed then set_price amount r else r) l, Committed, true)
    | (Some Duplicate, l) => (mkActor r l, Committed, false)
    | (None, l) => (mkActor r l, Retryable, false)
    end.

(** The loop: a deadline that has passed closes the auction and rejects what is
    still queued. *)
Fixpoint run_actor_loop (auction_id : string) (queue : list (Z * RedisOutcome * AuctionTask)) (a : Actor) :
    Actor * list AuctionTaskResult :=
  match queue with
  | [] => (a, [])
  | (now, o, task) :: rest =>
      if rt_end (runtime a) <=? now
      then (a, map (fun _ => TaskRejected "AUCTION_ENDED") queue)
      else
        let '(a1, res, _) := process_task auction_id o task a in
        let '(a2, rs) := run_actor_loop auction_id rest a1 in (a2, res :: rs)
  end.

(** The winner [close_auction] announces: the first of the sorted set ([zfirst]
    stands for Redis' [ZRANGE]/[ZREVRANGE 0 0]), unless a forward auction has a
    reserve that it does not reach.  A reading that failed ([read] is false) is taken
    for an empty set. *)
Definition close_winner (zfirst : AuctionDirection -> list Decision -> option Decision) (read : bool)
    (auction_type : AuctionDirection) (reserve_price : option num) (l : Ledger) : option Decision :=
  let w := if read then zfirst auction_type (zset l) else None in
  match auction_type, reserve_price with
  | FORWARD, Some reserve =>
      match w with
      | Some d => if nlt (BidRequestPayload.amount (d_bid d)) reserve then None else w
      | None => None
      end
  | _, _ => w
  end.

(** ** Lemmas *)

Lemma accepted_finite ty cur amount step :
  is_better_bid ty cur amount step = true ->
  is_finite amount = true /\ nlt nzero amount = true /\ is_finite cur = true /\
  is_finite step = true /\ nlt nzero step = true.
Proof.
  unfold is_better_bid. destruct (_ || _) eqn:E; [done|]. intros _. bool_facts.
  repeat match goal with H : _ || _ = false |- _ => apply orb_false_iff in H as [? ?] end.
  bool_facts. repeat split; auto.
  - assert (is_nan amount = false) by eauto with aqua.
    destruct amount as [|[]| |[]]; done.
  - destruct step as [|[]| |[]]; done.
Qed.

(** A price the actor can hold: a non-negative finite number. *)
Record price_ok (x : num) : Prop := {
  po_valid : valid x = true;
  po_finite : is_finite x = true;
  po_nonneg : nle nzero x = true
}.

(** An accepted bid is at least as good as the price it replaces. *)
Lemma accepted_improves ty cur amount step :
  price_ok cur -> valid step = true -> is_better_bid ty cur amount step = true ->
  better ty cur amount = false.
Proof.
  intros [Vc Fc Nc] Vs H. pose proof (accepted_finite _ _ _ _ H) as (Fa & Pa & _ & Fs & Ps).
  unfold is_better_bid in H. destruct (_ || _); [done|].
  destruct ty; simpl.
  - pose proof (nsub_below cur step Vc Vs Fc Nc Ps). num_order.
  - pose proof (nadd_above cur step Vc Vs Fc Nc Ps). num_order.
Qed.

Lemma better_trans ty x y z :
  is_finite x = true -> is_finite y = true -> is_finite z = true ->
  better ty x y = false -> better ty y z = false -> better ty x z = false.
Proof. intros Fx Fy Fz. destruct ty; simpl; intros; num_order. Qed.

Lemma better_irrefl ty x : is_finite x = true -> better ty x x = false.
Proof. intros F. destruct ty; simpl; num_order. Qed.

Definition d_amount (d : Decision) : num := BidRequestPayload.amount (d_bid d).

(** The state of an actor whose starting price was [p0] and whose Redis never
    lost a reply. *)
Record actor_inv (ty : AuctionDirection) (p0 : num) (a : Actor) : Prop := {
  ai_type : rt_type (runtime a) = ty;
  ai_price : price_ok (rt_price (runtime a));
  ai_step : valid (rt_step (runtime a)) = true;
  ai_finite : Forall (fun d => is_finite (d_amount d) = true) (live_stream (ledger a));
  ai_source : live_stream (ledger a) = [] /\ rt_price (runtime a) = p0 \/
    exists d, d ∈ live_stream (ledger a) /\ d_amount d = rt_price (runtime a);
  ai_best : forall d, d ∈ live_stream (ledger a) ->
    better ty (d_amount d) (rt_price (runtime a)) = false;
  ai_published : forall d, d ∈ live_stream (ledger a) <->
    d ∈ published (ledger a) /\ d_executed d = true;
  ai_processed : forall k d, processed (ledger a) !! k = Some d -> d ∈ live_stream (ledger a)
}.

Definition amount_valid (t : AuctionTask) : Prop := valid (BidRequestPayload.amount (task_bid t)) = true.

Lemma actor_inv_accept ty p0 a task :
  actor_inv ty p0 a -> amount_valid task ->
  is_better_bid ty (rt_price (runtime a)) (BidRequestPayload.amount (task_bid task))
    (rt_step (runtime a)) = true ->
  let d := decision task true (rt_price (runtime a)) in
  let l := ledger a in
  actor_inv ty p0 (mkActor (set_price (BidRequestPayload.amount (task_bid task)) (runtime a))
    (mkLedger (<[request_id task := d]> (processed l)) (live_stream l ++ [d]) (zset l ++ [d])
      (pending_stream l ++ [d]) (published l ++ [d]))).
Proof.
  intros [I1 I2 I3 I4 I5 I6 I7 I8] Hv Hb d l. subst l.
  pose proof (accepted_finite _ _ _ _ Hb) as (Fa & Pa & _).
  pose proof (accepted_improves _ _ _ _ I2 I3 Hb) as Hi. destruct I2 as [Vp Fp Np].
  split; simpl; try done.
  - split; [done|done|num_order].
  - apply Forall_app. split; [done|]. by apply Forall_singleton.
  - right. exists d. split; [apply elem_of_app; right; apply list_elem_of_here|done].
  - intros x [Hx| ->%list_elem_of_singleton]%elem_of_app; [|by apply better_irrefl].
    rewrite Forall_forall in I4.
    by eapply better_trans; [apply I4| |..|apply I6|]; eauto.
  - intros x. rewrite !elem_of_app, !list_elem_of_singleton, I7. split.
    + intros [[H1 H2]| ->]; [by split; [left|]|]. split; [by right|done].
    + intros [[H1| ->] H2]; [by left|by right].
  - intros k x. rewrite elem_of_app. destruct (decide (request_id task = k)) as [<-|Hk]; simplify_map_eq.
    + intros [= <-]. right. apply list_elem_of_here.
    + intros Hx. left. eauto.
Qed.

(** Only the pending stream, or the list of published rejections, changed. *)
Lemma actor_inv_same ty p0 a pend pub :
  actor_inv ty p0 a ->
  (forall d, d ∈ pub /\ d_executed d = true <-> d ∈ published (ledger a) /\ d_executed d = true) ->
  actor_inv ty p0 (mkActor (runtime a)
    (mkLedger (processed (ledger a)) (live_stream (ledger a)) (zset (ledger a)) pend pub)).
Proof.
  intros [I1 I2 I3 I4 I5 I6 I7 I8] Hp. split; simpl; try done. intros d. by rewrite Hp.
Qed.

Lemma actor_inv_step ty p0 a id o task :
  o = Served \/ o = Refused -> amount_valid task -> actor_inv ty p0 a ->
  actor_inv ty p0 (process_task id o task a).1.1.
Proof.
  intros Ho Hv Hi. unfold process_task. case_match; [done|]. cbv zeta.
  rewrite (ai_type _ _ _ Hi).
  destruct (is_better_bid ty _ _ _) eqn:Hb; destruct Ho as [-> | ->]; simpl;
    destruct (processed (ledger a) !! request_id task) as [d|] eqn:Ep; simpl; try done;
    try (by destruct a).
  - by apply actor_inv_accept.
  - by apply actor_inv_same.
  - apply actor_inv_same; [done|]. intros d. rewrite elem_of_app, list_elem_of_singleton. split.
    + intros [[H1| ->] H2]; [done|]. done.
    + intros [H1 H2]. split; [by left|done].
Qed.

Definition quiet_queue (queue : list (Z * RedisOutcome * AuctionTask)) : Prop :=
  Forall (fun q => (q.1.2 = Served \/ q.1.2 = Refused) /\ amount_valid q.2) queue.

Lemma actor_inv_run ty p0 id queue a :
  quiet_queue queue -> actor_inv ty p0 a -> actor_inv ty p0 (run_actor_loop id queue a).1.
Proof.
  revert a; induction queue as [|[[now o] task] queue IH]; intros a Hq Hi; simpl; [done|].
  inversion Hq as [|? ? [Ho Hv] Hq']; subst. simpl in *. case_match; [done|].
  pose proof (actor_inv_step ty p0 a id o task Ho Hv Hi) as H1.
  destruct (process_task id o task a) as [[a1 res] w]; simpl in *.
  specialize (IH a1 Hq' H1). by destruct (run_actor_loop id queue a1).
Qed.

Definition start_actor (ty : AuctionDirection) (p0 step : num) (reserve : option num) (fin : Z) : Actor :=
  mkActor (mkRuntime ty p0 step reserve fin) ledger0.

Lemma actor_inv_start ty p0 step reserve fin :
  price_ok p0 -> valid step = true -> actor_inv ty p0 (start_actor ty p0 step reserve fin).
Proof.
  intros Hp Hs. split; simpl; auto.
  - intros d Hd. by apply not_elem_of_nil in Hd.
  - intros d. split; [intros Hd; by apply not_elem_of_nil in Hd|intros [Hd _]; by apply not_elem_of_nil in Hd].
  - done.
Qed.

(** ** From the engine to the page *)
Definition event_of (d : Decision) : BidEventPayload.t := BidEventPayload.mk (d_bid d) (d_executed d).

(** A page that receives a snapshot and then updates. *)
Definition page (now : Z) (e0 : AuctionInitPayload.t) (evs : list BidEventPayload.t) (s : AuctionState) :
    AuctionState :=
  fold_left (fun s m => receive now m s) (MInit e0 :: map MBid evs) s.

Lemma receive_updates now evs s :
  fold_left (fun s m => receive now m s) (map MBid evs) s = replay (map reconcile_payload evs) s.
Proof.
  revert s; induction evs as [|e evs IH]; intros s; simpl; [done|]. by rewrite IH.
Qed.

Lemma page_replay now e0 evs s :
  page now e0 evs s =
  replay (map reconcile_payload (snapshot_events e0 ++ evs)) (initAuction now (init_payload e0) s).
Proof.
  unfold page. simpl. rewrite receive_updates, receive_init. unfold replay.
  by rewrite <-fold_left_app, <-map_app.
Qed.

Lemma better_neq ty x y :
  is_finite x = true -> is_finite y = true ->
  better ty x y = false -> better ty y x = false -> neq x y = true.
Proof. intros Fx Fy. destruct ty; simpl; intros; num_order. Qed.

(** ** Properties *)

(** C22: of an actor with a finite non-negative starting price and a valid step, whose queue holds
    valid amounts, and as long as Redis loses no reply and no broadcast: the price is
    the best amount in the live stream (the starting price when it is empty), and the
    accepted decisions that were sent to the pages are exactly those of the live
    stream.  A lost reply leaves a stale price ([lost_reply_keeps_stale_price]). *)
Theorem engine_price_is_best id ty p0 step reserve fin queue :
  price_ok p0 -> valid step = true -> quiet_queue queue ->
  let a := (run_actor_loop id queue (start_actor ty p0 step reserve fin)).1 in
  let live := live_stream (ledger a) in
  let price := rt_price (runtime a) in
  (live = [] /\ price = p0 \/ exists d, d ∈ live /\ d_amount d = price) /\
  (forall d, d ∈ live -> better ty (d_amount d) price = false) /\
  (forall d, d ∈ live <-> d ∈ published (ledger a) /\ d_executed d = true).
Proof.
  intros Hp Hs Hq a live price.
  destruct (actor_inv_run ty p0 id queue _ Hq (actor_inv_start ty p0 step reserve fin Hp Hs))
    as [_ _ _ _ H1 H2 H3 _]. auto.
Qed.

(** C23: a request that was accepted is accepted once: when it is delivered again,
    whatever Redis does, the streams, the sorted set, the price and what the
    pages were sent stay as they are, and a served call is committed. *)
Theorem accepted_request_is_idempotent id o task a d :
  processed (ledger a) !! request_id task = Some d ->
  BidRequestPayload.auction_id (task_bid task) = id ->
  let '(a', res, _) := process_task id o task a in
  runtime a' = runtime a /\ processed (ledger a') = processed (ledger a) /\
  live_stream (ledger a') = live_stream (ledger a) /\ zset (ledger a') = zset (ledger a) /\
  published (ledger a') = published (ledger a) /\ (o = Served -> res = Committed).
Proof.
  intros Hd Hid. unfold process_task. rewrite bool_decide_eq_true_2 by done. simpl.
  unfold write_bid. rewrite Hd.
  destruct (is_better_bid (rt_type (runtime a)) _ _ _), o; simpl; repeat split; done.
Qed.


(** when the reply to an accepted write is lost and the task is delivered
    again, the retry finds the idempotency record and is committed, but the
    actor keeps the old price and the pages are never told: the engine goes on
    accepting bids against a price its own ledger has already improved. *)
Theorem lost_reply_keeps_stale_price id task a :
  BidRequestPayload.auction_id (task_bid task) = id ->
  processed (ledger a) !! request_id task = None ->
  let r := runtime a in
  is_better_bid (rt_type r) (rt_price r) (BidRequestPayload.amount (task_bid task)) (rt_step r) = true ->
  let '(a1, res1, _) := process_task id ReplyLost task a in
  let '(a2, res2, _) := process_task id Served task a1 in
  res1 = Retryable /\ res2 = Committed /\ runtime a2 = r /\
  decision task true (rt_price r) ∈ live_stream (ledger a2) /\
  published (ledger a2) = published (ledger a).
Proof.
  intros Hid Hn r Hb. unfold process_task. rewrite bool_decide_eq_true_2 by done. simpl.
  fold r. rewrite Hb. unfold write_bid. rewrite Hn. simpl.
  fold r. rewrite Hb, lookup_insert_eq. simpl. repeat split; auto.
  apply elem_of_app. right. apply list_elem_of_here.
Qed.

(** the replay of an accepted bid that no longer improves the price adds an
    entry to the stream the publisher drains, and does not wake the publisher. *)
Theorem replay_queues_without_waking id task a d :
  BidRequestPayload.auction_id (task_bid task) = id ->
  processed (ledger a) !! request_id task = Some d ->
  let r := runtime a in
  is_better_bid (rt_type r) (rt_price r) (BidRequestPayload.amount (task_bid task)) (rt_step r) = false ->
  let '(a', res, woken) := process_task id Served task a in
  pending_stream (ledger a') = pending_stream (ledger a) ++ [d] /\ woken = false /\ res = Committed.
Proof.
  intros Hid Hd r Hb. unfold process_task. rewrite bool_decide_eq_true_2 by done. simpl.
  fold r. rewrite Hb. unfold write_bid. by rewrite Hd.
Qed.

(** ** Witnesses: a reverse auction from 120 in steps of 5 *)
Definition sample_task (rid who : string) (amount : Z) (t : Z) : AuctionTask :=
  mkTask rid (BidRequestPayload.mk "a1" who (Some "name") (of_Z amount) t).
Definition sample_actor : Actor := start_actor REVERSE (of_Z 120) (of_Z 5) None 1000.
Definition sample_queue : list (Z * RedisOutcome * AuctionTask) :=
  [(10, Served, sample_task "r1" "u1" 100 10); (20, Refused, sample_task "r2" "u2" 90 20);
   (21, Served, sample_task "r2" "u2" 90 20); (30, Served, sample_task "r3" "u1" 88 30)].
Definition sample_init : AuctionInitPayload.t :=
  AuctionInitPayload.mk "a1" (Some REVERSE) (Some (of_Z 5)) (Some []) None
    (Some [Some (sample_ev "u1" true 100 10)]) 1 1000 (Some (of_Z 120)) None true.

Lemma sample_price_ok : price_ok (of_Z 120).
Proof. by split. Qed.

Lemma sample_quiet : quiet_queue sample_queue.
Proof. repeat constructor; by auto. Qed.

Lemma engine_price_is_best_witness :
  let a := (run_actor_loop "a1" sample_queue sample_actor).1 in
  rt_price (runtime a) = of_Z 90 /\ length (live_stream (ledger a)) = 2%nat /\
  (forall d, d ∈ live_stream (ledger a) -> better REVERSE (d_amount d) (rt_price (runtime a)) = false).
Proof.
  split; [reflexivity|]. split; [reflexivity|].
  apply (engine_price_is_best "a1" REVERSE (of_Z 120) (of_Z 5) None 1000 sample_queue
    sample_price_ok eq_refl sample_quiet).
Defined.

Lemma accepted_request_is_idempotent_witness :
  let a := (run_actor_loop "a1" sample_queue sample_actor).1 in
  let '(a', res, _) := process_task "a1" Served (sample_task "r1" "u1" 100 10) a in
  live_stream (ledger a') = live_stream (ledger a) /\ res = Committed.
Proof.
  pose proof (accepted_request_is_idempotent "a1" Served (sample_task "r1" "u1" 100 10)
    (run_actor_loop "a1" sample_queue sample_actor).1
    (decision (sample_task "r1" "u1" 100 10) true (of_Z 120)) eq_refl eq_refl) as H.
  cbv zeta. destruct (process_task _ _ _ _) as [[a' res] w]. destruct H as (_ & _ & H & _ & _ & R).
  split; [exact H|by apply R].
Defined.

Definition sample_d1 : Decision := decision (sample_task "r1" "u1" 100 10) true (of_Z 120).
Definition sample_d2 : Decision := decision (sample_task "r2" "u2" 90 20) true (of_Z 100).
Definition sample_d3 : Decision := decision (sample_task "r3" "u1" 88 30) false (of_Z 90).

Lemma sample_published :
  published (ledger (run_actor_loop "a1" sample_queue sample_actor).1) = [sample_d1; sample_d2; sample_d3].
Proof. vm_compute. reflexivity. Qed.


Lemma lost_reply_keeps_stale_price_witness :
  let '(a1, res1, _) := process_task "a1" ReplyLost (sample_task "r1" "u1" 80 10) sample_actor in
  let '(a2, res2, _) := process_task "a1" Served (sample_task "r1" "u1" 80 10) a1 in
  rt_price (runtime a2) = of_Z 120 /\ res2 = Committed /\ published (ledger a2) = [].
Proof.
  pose proof (lost_reply_keeps_stale_price "a1" (sample_task "r1" "u1" 80 10) sample_actor
    eq_refl eq_refl eq_refl) as H.
  destruct (process_task "a1" ReplyLost _ _) as [[a1 res1] w1].
  destruct (process_task "a1" Served _ a1) as [[a2 res2] w2].
  destruct H as (_ & H2 & H3 & _ & H5). rewrite H3, H5. by split.
Defined.

Lemma replay_queues_without_waking_witness :
  let a := (run_actor_loop "a1" sample_queue sample_actor).1 in
  let '(a', _, woken) := process_task "a1" Served (sample_task "r1" "u1" 100 10) a in
  length (pending_stream (ledger a')) = S (length (pending_stream (ledger a))) /\ woken = false.
Proof.
  pose proof (replay_queues_without_waking "a1" (sample_task "r1" "u1" 100 10)
    (run_actor_loop "a1" sample_queue sample_actor).1
    (decision (sample_task "r1" "u1" 100 10) true (of_Z 120)) eq_refl eq_refl eq_refl) as H.
  cbv zeta. destruct (process_task _ _ _ _) as [[a' res] w]. destruct H as (H1 & H2 & _).
  rewrite H1, length_app. simpl. split; [lia|done].
Defined.
