(* ===== verification/AuctionPage.v ===== *)
(** * The auction page ([app/auction/[id]/page.tsx])

    The page as a machine: what it knows of the auction and of the user's
    registration, the requests in flight, the effect that restores a
    registration, and the view with the buttons it offers.  The queries and
    mutations of the data library report back through events; the effect's
    dependencies change on every render (the mutation object is new each time),
    so the effect runs after every event. *)

From Stdlib Require Import Ascii.
From S2P Require Import Prelude Markup JSNum JSText JSDate ApiTypes AuctionSlice Schedule.
#[local] Open Scope Z_scope.

(** [auction]: [None] while the query runs, [Some None] when the auction is not in
    the list. *)
Record Page := mkPage {
  auction : option (option Auction.t);
  hasJoined : bool;
  p_now : Z;
  joinPending : bool;
  leavePending : bool;
  joinError : string
}.

Definition page0 : Page := mkPage None false 0 false false EmptyString.

Inductive page_event :=
| Loaded (found : option Auction.t)
| Tick (now : Z)
| JoinOk
| JoinFailed (status : Z) (error : option string)
| LeaveOk
| LeaveFailed (error : string)
| ClickJoin
| ClickLeave
| CloseToast
| ReturnToDashboard.

Inductive page_effect :=
| RequestJoin
| RequestLeave
| Refetch
| Navigate (path : string).

#[export] Instance page_effect_eq_dec : EqDecision page_effect.
Proof. solve_decision. Defined.

(** Assignments to one field. *)
Definition set_auction (a : option (option Auction.t)) (p : Page) : Page :=
  mkPage a (hasJoined p) (p_now p) (joinPending p) (leavePending p) (joinError p).
Definition set_joined (b : bool) (p : Page) : Page :=
  mkPage (auction p) b (p_now p) (joinPending p) (leavePending p) (joinError p).
Definition set_now (z : Z) (p : Page) : Page :=
  mkPage (auction p) (hasJoined p) z (joinPending p) (leavePending p) (joinError p).
Definition set_joinPending (b : bool) (p : Page) : Page :=
  mkPage (auction p) (hasJoined p) (p_now p) b (leavePending p) (joinError p).
Definition set_leavePending (b : bool) (p : Page) : Page :=
  mkPage (auction p) (hasJoined p) (p_now p) (joinPending p) b (joinError p).
Definition set_error (e : string) (p : Page) : Page :=
  mkPage (auction p) (hasJoined p) (p_now p) (joinPending p) (leavePending p) e.

(** [auction?.is_registered], as a condition. *)
Definition registered (p : Page) : bool :=
  match auction p with Some (Some a) => default false (Auction.is_registered a) | _ => false end.

Definition already_joined : string := "You have already joined this auction".

(** The error [joinMutation] ends with, for the status and the body's error. *)
Definition join_failure (status : Z) (error : option string) : string :=
  if (status =? 401) || (status =? 403) then "Authentication required. Redirecting..."
  else or_ostr error "Failed to join auction".

Definition handle (e : page_event) (p : Page) : Page * list page_effect :=
  match e with
  | Loaded found => (set_auction (Some found) p, [])
  | Tick now => (set_now now p, [])
  | JoinOk => (set_joined true (set_joinPending false p), [Refetch])
  | JoinFailed status err =>
      let p1 := set_joinPending false p in
      let nav := if (status =? 401) || (status =? 403) then [Navigate "/login"] else [] in
      let message := join_failure status err in
      if bool_decide (message = already_joined) then (set_joined true p1, nav)
      else (set_error message p1, nav)
  | LeaveOk => (set_joined false (set_leavePending false p), [Refetch])
  | LeaveFailed err => (set_error err (set_leavePending false p), [])
  | ClickJoin => (set_joinPending true p, [RequestJoin])
  | ClickLeave => (set_leavePending true p, [RequestLeave])
  | CloseToast => (set_error EmptyString p, [])
  | ReturnToDashboard => (p, [Navigate "/dashboard"])
  end.

(** The effect of lines 97-101. *)
Definition rejoin (p : Page) : Page * list page_effect :=
  if registered p && negb (hasJoined p) && negb (joinPending p)
  then (set_joinPending true p, [RequestJoin]) else (p, []).

Definition page_step (e : page_event) (p : Page) : Page * list page_effect :=
  let '(p1, e1) := handle e p in
  let '(p2, e2) := rejoin p1 in (p2, e1 ++ e2).

Fixpoint page_run (es : list page_event) (p : Page) : Page * list page_effect :=
  match es with
  | [] => (p, [])
  | e :: rest =>
      let '(p1, e1) := page_step e p in
      let '(p2, e2) := page_run rest p1 in (p2, e1 ++ e2)
  end.

(** [useAuctionSocket(hasJoined ? resolvedParams.id : '')]. *)
Definition socket_auction (id : string) (p : Page) : string := if hasJoined p then id else EmptyString.

(** The page's times, read by [parse]. *)
Section View.
Context (parse : string -> option Z) (toLocaleString : option Z -> string).

Definition startsAt (p : Page) : option Z :=
  match auction p with Some (Some a) => parse (Auction.auction_start_time a) | _ => Some 0 end.
Definition endsAt (p : Page) : option Z :=
  match auction p with Some (Some a) => parse (Auction.auction_end_time a) | _ => Some 0 end.
Definition phase (p : Page) : Phase := page_phase (startsAt p) (endsAt p) (p_now p).
Definition mayRegister (p : Page) : bool := canRegister (startsAt p) (endsAt p) (p_now p).

Definition phase_text (ph : Phase) : string :=
  match ph with upcoming => "upcoming" | live => "live" | completed => "completed" end.

(** A component of another file, with the props that choose what it shows. *)
Definition component (name : string) (props : list (string * string)) : node page_event :=
  El name (map (fun kv => Attr kv.1 kv.2) props) [].

Definition toast_view (message : string) : list (node page_event) :=
  when (truthy_str (Some message)) [El "Toast" [] [txt "p" message; El "button" [On "click" CloseToast] []]].

(** The header of the page before and after the auction. *)
Definition lobby (a : Auction.t) (p : Page) : node page_event :=
  let ph := phase p in
  tag "div" (toast_view (joinError p) ++ [
    tag "section" [
      tag "div" ([txt "span" (phase_text ph)] ++ when (hasJoined p) [txt "span" "Registered"]);
      txt "h1" (Auction.title a);
      tag "div" [
        txt "span" ("Starts " +:+ toLocaleString (startsAt p));
        txt "span" ("Ends " +:+ toLocaleString (endsAt p));
        txt "span" ("Register by " +:+ toLocaleString (minus (startsAt p) FIVE_MINUTES));
        txt "span" (string_of_Z (default 0 (Auction.participants_count a)) +:+ " registered")];
      tag "div" (
        when (hasJoined p && bool_decide (ph = upcoming))
          [button ClickLeave (leavePending p) (if leavePending p then "Unregistering…" else "Unregister")] ++
        when (negb (hasJoined p) && mayRegister p)
          [button ClickJoin (joinPending p)
             (if joinPending p then "Joining…"
              else if bool_decide (ph = live) then "Join live auction" else "Register for auction")] ++
        when (negb (hasJoined p) && negb (mayRegister p) && negb (bool_decide (ph = completed)))
          [txt "span" "Registration closed"] ++
        when (bool_decide (ph = completed)) [txt "span" "Auction completed"])];
    component "AuctionDetailsView"
      [("initialTab", match Auction.media_urls a with Some (_ :: _) => "photos" | _ => "details" end)]]).

(** The live room; [s] is the slice. *)
Definition waiting_room (s : AuctionState) : bool :=
  bool_decide (auctionStatus s = waiting) && bool_decide (is_Some (truthy_time (startTime s))).

Definition room (id : string) (s : AuctionState) (p : Page) : node page_event :=
  tag "div" [
    component "ConcurrencyGuardModal" [];
    tag "main"
      (if waiting_room s
       then [tag "div" [
               txt "h2" "Auction Starts Soon";
               txt "p" "You are registered and in the waiting room. The live auction console will open automatically once the countdown reaches zero.";
               component "CountdownTimer" [];
               button ClickLeave (leavePending p) "Unregister from auction"]]
       else [tag "header" [tag "h1" [Txt "Auction ID: "; txt "span" ("#" +:+ id)]; txt "div" "Participant"];
             tag "div" [
               tag "div" [component "CountdownTimer" []; component "Leaderboard" []];
               component "BiddingConsole" [];
               component "AuditLedger" []]])].

Definition view (id : string) (s : AuctionState) (p : Page) : node page_event :=
  match auction p with
  | None => tag "div" []
  | Some None =>
      tag "div" [txt "h1" "Auction not found"; button ReturnToDashboard false "Return to dashboard"]
  | Some (Some a) =>
      if bool_decide (phase p = live) && registered p && negb (hasJoined p)
      then txt "div" "Opening live auction…"
      else if negb (hasJoined p) || negb (bool_decide (phase p = live))
      then lobby a p
      else room id s p
  end.

(** The elements of a page. *)
Fixpoint tags (n : node page_event) : list string :=
  match n with
  | Txt _ => []
  | El t _ kids => t :: flat_map tags kids
  end.

(** ** Lemmas *)

Lemma offered_toast m a : a ∈ flat_map offered (toast_view m) -> a = CloseToast.
Proof. unfold toast_view. destruct (truthy_str _); simpl; list_in. Qed.

Lemma offered_toast_nil m : flat_map offered (toast_view m) = when (truthy_str (Some m)) [CloseToast].
Proof. unfold toast_view. by destruct (truthy_str _). Qed.

(** The buttons of the lobby. *)
Lemma lobby_offers a p :
  offered (lobby a p) =
  when (truthy_str (Some (joinError p))) [CloseToast] ++
  when (hasJoined p && bool_decide (phase p = upcoming) && negb (leavePending p)) [ClickLeave] ++
  when (negb (hasJoined p) && mayRegister p && negb (joinPending p)) [ClickJoin].
Proof.
  unfold lobby. rewrite offered_tag, flat_map_app, offered_toast_nil. f_equal.
  destruct (hasJoined p), (mayRegister p), (joinPending p), (leavePending p),
    (bool_decide (phase p = upcoming)); destruct (bool_decide (phase p = completed)); reflexivity.
Qed.

Lemma room_offers id s p :
  offered (room id s p) = when (waiting_room s && negb (leavePending p)) [ClickLeave].
Proof. unfold room. destruct (waiting_room s), (leavePending p); reflexivity. Qed.

Lemma elem_when {A} (b : bool) (x y : A) : y ∈ when b [x] <-> b = true /\ y = x.
Proof.
  destruct b; simpl; [rewrite list_elem_of_singleton; tauto|rewrite elem_of_nil].
  split; [done|by intros [[=] _]].
Qed.
End View.

(** ** Properties *)
Section Claims.
Context (parse : string -> option Z) (toLocaleString : option Z -> string).

(** before the auction the page offers registration exactly when the server
    would take one at the same instant: the user has not joined, no request is in
    flight, and the deadline five minutes before the start has not passed. *)
Theorem register_offered_iff_server_accepts id s p a st en :
  auction p = Some (Some a) -> registered p = false ->
  parse (Auction.auction_start_time a) = Some st -> parse (Auction.auction_end_time a) = Some en ->
  st < en ->
  ClickJoin ∈ offered (view parse toLocaleString id s p) <->
  hasJoined p = false /\ joinPending p = false /\ server_join st false (p_now p) = Ok tt.
Proof.
  intros Ha Hr Hs He Hlt. unfold view. rewrite Ha, Hr, andb_false_r. simpl.
  assert (Hph : phase parse p = page_phase (Some st) (Some en) (p_now p))
    by (unfold phase, startsAt, endsAt; by rewrite Ha, Hs, He).
  assert (Hmr : mayRegister parse p = (p_now p <? st - FIVE_MINUTES)).
  { unfold mayRegister, startsAt, endsAt, canRegister. rewrite Ha, Hs, He. unfold page_phase. simpl.
    unfold FIVE_MINUTES. case_tests; simpl; bool_facts; try done; tests. }
  destruct (negb (hasJoined p) || negb (bool_decide (phase parse p = live))) eqn:El.
  - rewrite lobby_offers, Hmr, !elem_of_app, !elem_when. unfold server_join.
    destruct (hasJoined p), (joinPending p); simpl; rewrite ?andb_false_r, ?andb_true_r;
      (split; [intros [[_ [=]]|[[_ [=]]|[H _]]]|intros (? & ? & H)]; try done).
    + split; [done|]. split; [done|]. tests.
    + do 2 right. split; [|done]. revert H. tests.
  - apply orb_false_iff in El as [El _]. bool_facts. rewrite room_offers, elem_when.
    split; [intros [_ [=]]|intros (H & _); congruence].
Qed.

(** the live room, with its bidding console, is shown only to a user who has
    joined and only while the auction runs by the page's clock; the socket is
    opened for the same users. *)
Theorem room_only_after_join id s p :
  "BiddingConsole" ∈ tags (view parse toLocaleString id s p) ->
  hasJoined p = true /\ phase parse p = live /\ socket_auction id p = id.
Proof.
  unfold view, socket_auction. intros H. destruct (auction p) as [[a|]|]; [|not_here H|not_here H].
  destruct (bool_decide (phase parse p = live) && registered p && negb (hasJoined p)); [not_here H|].
  destruct (negb (hasJoined p) || negb (bool_decide (phase parse p = live))) eqn:E.
  - exfalso. revert H. unfold lobby, toast_view.
    destruct (truthy_str _), (hasJoined p), (mayRegister parse p);
      destruct (bool_decide (phase parse p = upcoming)), (bool_decide (phase parse p = completed));
      intros H; not_here H.
  - apply orb_false_iff in E as [E1 E2]. bool_facts. rewrite E1. split; [done|].
    apply bool_decide_eq_true in E2. done.
Qed.
End Claims.

(** leaving does not last: the answer to "Unregister" clears the page's flag
    while its copy of the auction still says that the user is registered, so the
    effect that restores registrations sends a new registration at once. *)
Theorem unregister_registers_again p :
  registered p = true -> joinPending p = false ->
  let '(p', effects) := page_step LeaveOk p in
  effects = [Refetch; RequestJoin] /\ joinPending p' = true /\
  hasJoined (page_step JoinOk p').1 = true.
Proof.
  intros Hr Hj. unfold page_step. simpl. unfold rejoin. simpl.
  change (registered (set_joined false (set_leavePending false p))) with (registered p).
  rewrite Hr, Hj. simpl. by rewrite andb_false_r.
Qed.

(** a registration that cannot be restored is asked for without end: every
    failure other than "already joined" is answered by the next request, so [n]
    failures cause [n] requests more. *)
Theorem failed_restore_never_stops p status err n :
  registered p = true -> hasJoined p = false ->
  join_failure status err <> already_joined ->
  length (filter (fun e => e = RequestJoin) (page_run (replicate n (JoinFailed status err)) p).2) = n.
Proof.
  revert p; induction n as [|n IH]; intros p Hr Hj Hf; [done|]. simpl.
  unfold page_step. simpl. rewrite bool_decide_eq_false_2 by done.
  set (p1 := set_error (join_failure status err) (set_joinPending false p)).
  assert (Hr1 : registered p1 = true) by done.
  assert (E : rejoin p1 = (set_joinPending true p1, [RequestJoin])).
  { unfold rejoin. rewrite Hr1. unfold p1. simpl. by rewrite Hj. }
  rewrite E. pose proof (IH (set_joinPending true p1) Hr Hj Hf) as IH'.
  destruct (page_run (replicate n (JoinFailed status err)) (set_joinPending true p1)) as [p2 e2]. simpl in *.
  rewrite !filter_app, !length_app. rewrite IH'.
  destruct ((status =? 401) || (status =? 403)); reflexivity.
Qed.

(** ** Witnesses: an auction from 10:00 to 11:00, the page at 9:30 *)
Definition sample_auction (reg : bool) : Auction.t :=
  Auction.mk "a1" "Pallets" "Twenty pallets" REVERSE (of_Z 5) None (Some "Freight") None None None None
    None None None None None None "2025-10-09T10:00:00Z" "2025-10-09T11:00:00Z" None None None None None
    None (Some (of_Z 120)) (Some 3) (Some reg) None None.
Definition sample_page (joined reg : bool) (now : Z) : Page :=
  mkPage (Some (Some (sample_auction reg))) joined now false false EmptyString.
Definition read_utc : string -> option Z := date_parse UTC no_fallback.
Definition show_time (_ : option Z) : string := "a time".

Lemma register_offered_iff_server_accepts_witness :
  ClickJoin ∈ offered (view read_utc show_time "a1" initialState (sample_page false false 1760002200000)).
Proof.
  apply (register_offered_iff_server_accepts read_utc show_time "a1" initialState
    (sample_page false false 1760002200000) (sample_auction false) 1760004000000 1760007600000);
    try reflexivity. repeat split.
Defined.

Lemma room_only_after_join_witness :
  hasJoined (sample_page true true 1760004000000) = true /\
  phase read_utc (sample_page true true 1760004000000) = live.
Proof.
  destruct (room_only_after_join read_utc show_time "a1"
    (updateAuctionStatus 5 initialState) (sample_page true true 1760004000000)) as (H1 & H2 & _);
    [by_decide|by split].
Defined.

Lemma unregister_registers_again_witness :
  (page_step LeaveOk (sample_page true true 1760002200000)).2 = [Refetch; RequestJoin].
Proof.
  pose proof (unregister_registers_again (sample_page true true 1760002200000) eq_refl eq_refl) as H.
  destruct (page_step LeaveOk (sample_page true true 1760002200000)) as [p' e].
  by destruct H as [H _].
Defined.

Lemma failed_restore_never_stops_witness :
  length (filter (fun e => e = RequestJoin)
    (page_run (replicate 3 (JoinFailed 500 None)) (sample_page false true 1760002200000)).2) = 3%nat.
Proof. apply failed_restore_never_stops; [reflexivity|reflexivity|discriminate]. Defined.
