(* ===== verification/AuctionCard.v ===== *)
(** * The dashboard's auction card ([components/dashboard/ShippingAuctionCard.tsx])

    The card as a machine: its clock, its toast, its three dialogs, the two
    requests, the click handlers and the view.  The schedule it shows is
    [Schedule.card_plan]. *)

From Stdlib Require Import Ascii.
From S2P Require Import Prelude Markup JSNum JSText JSDate ApiTypes AuctionSlice Schedule.
#[local] Open Scope Z_scope.

Inductive view_mode := grid | strip.
Inductive toast_kind := success | failure | notice.

Record CardProps := mkProps {
  cp_id : option string;
  cp_title : string;
  cp_origin : option string;
  cp_destination : option string;
  cp_distance : string;
  cp_category : string;
  cp_image : string;
  cp_lowestBid : string;
  cp_suppliers : Z;
  cp_auctionStartTime : option string;
  cp_auctionEndTime : option string;
  cp_auctionType : AuctionDirection;
  cp_isRegistered : bool;
  cp_viewMode : view_mode
}.

Record Card := mkCard {
  c_now : Z;
  toastMsg : string;
  toastType : toast_kind;
  showJoinModal : bool;
  showLeaveModal : bool;
  showSuccessModal : bool;
  joinPending : bool;
  leavePending : bool
}.

Definition card0 : Card := mkCard 0 EmptyString notice false false false false false.

(** What the server answers to a request: success, or a status and the error of
    the body. *)
Inductive reply := Accepted | Refused (status : Z) (message : option string).

Inductive card_event :=
| CardTick (now : Z)
| ClickAction
| ClickCard (on_action_button : bool)
| CloseJoin | ConfirmJoin
| CloseLeave | ConfirmLeave
| CloseSuccess
| CloseCardToast
| JoinReply (r : reply)
| LeaveReply (r : reply).

Inductive card_effect :=
| Push (path : string)
| PostJoin (id : string)
| PostLeave (id : string)
| InvalidateAuctions.

Definition with_toast (m : string) (k : toast_kind) (c : Card) : Card :=
  mkCard (c_now c) m k (showJoinModal c) (showLeaveModal c) (showSuccessModal c) (joinPending c) (leavePending c).
Definition with_modals (join leave succ : bool) (c : Card) : Card :=
  mkCard (c_now c) (toastMsg c) (toastType c) join leave succ (joinPending c) (leavePending c).
Definition with_pending (j l : bool) (c : Card) : Card :=
  mkCard (c_now c) (toastMsg c) (toastType c) (showJoinModal c) (showLeaveModal c) (showSuccessModal c) j l.
Definition with_now (z : Z) (c : Card) : Card :=
  mkCard z (toastMsg c) (toastType c) (showJoinModal c) (showLeaveModal c) (showSuccessModal c) (joinPending c) (leavePending c).

Definition unauthorized (status : Z) : bool := (status =? 401) || (status =? 403).

(** The error a refused request ends with. *)
Definition refusal (default_message : string) (status : Z) (message : option string) : string :=
  if unauthorized status then "Authentication required. Redirecting..."
  else or_ostr message default_message.

Definition nav_login (status : Z) : list card_effect := if unauthorized status then [Push "/login"] else [].

(** [onError] of the two mutations. *)
Definition join_error (message : string) (c : Card) : Card * list card_effect :=
  let c1 := with_modals false (showLeaveModal c) (showSuccessModal c) (with_pending false (leavePending c) c) in
  if bool_decide (message = "You have already joined this auction")
  then (with_toast "You are already registered!" notice c1, [InvalidateAuctions])
  else (with_toast message failure c1, []).

Definition leave_error (message : string) (c : Card) : Card * list card_effect :=
  (with_toast message failure
     (with_modals (showJoinModal c) false (showSuccessModal c) (with_pending (joinPending c) false c)), []).

Section Component.
Context (parse : string -> option Z) (formatDate : option Z -> string) (props : CardProps).

Definition startTime (c : Card) : option Z := card_start parse (cp_auctionStartTime props) (c_now c).
Definition endTime (c : Card) : option Z := card_end parse (cp_auctionEndTime props) (c_now c).
Definition plan (c : Card) : CardPlan := card_plan (startTime c) (endTime c) (cp_isRegistered props) (c_now c).

Definition action_path : string :=
  "/auction/" +:+ match cp_id props with Some i => i | None => "undefined" end.

(** [handleActionClick]. *)
Definition handleActionClick (c : Card) : Card * list card_effect :=
  match cp_action (plan c) with
  | Register | JoinLive => (with_modals true (showLeaveModal c) (showSuccessModal c) c, [])
  | Unregister => (with_modals (showJoinModal c) true (showSuccessModal c) c, [])
  | EnterConsole => (c, [Push action_path])
  | _ => (c, [])
  end.

Definition card_step (e : card_event) (c : Card) : Card * list card_effect :=
  match e with
  | CardTick now => (with_now now c, [])
  | ClickAction => handleActionClick c
  | ClickCard on_button => (c, if on_button then [] else [Push action_path])
  | CloseJoin => (with_modals false (showLeaveModal c) (showSuccessModal c) c, [])
  | ConfirmJoin =>
      match (if truthy_str (cp_id props) then cp_id props else None) with
      | Some i => (with_pending true (leavePending c) c, [PostJoin i])
      | None => join_error "No auction ID" c
      end
  | CloseLeave => (with_modals (showJoinModal c) false (showSuccessModal c) c, [])
  | ConfirmLeave =>
      match (if truthy_str (cp_id props) then cp_id props else None) with
      | Some i => (with_pending (joinPending c) true c, [PostLeave i])
      | None => leave_error "No auction ID" c
      end
  | CloseSuccess => (with_modals (showJoinModal c) (showLeaveModal c) false c, [])
  | CloseCardToast => (with_toast EmptyString (toastType c) c, [])
  | JoinReply Accepted =>
      (with_toast "Successfully registered for auction!" success
         (with_modals false (showLeaveModal c) true (with_pending false (leavePending c) c)),
       [InvalidateAuctions])
  | JoinReply (Refused status m) =>
      let '(c1, e1) := join_error (refusal "Failed to register" status m) c in (c1, nav_login status ++ e1)
  | LeaveReply Accepted =>
      (with_toast "Successfully unregistered from auction." notice
         (with_modals (showJoinModal c) false (showSuccessModal c) (with_pending (joinPending c) false c)),
       [InvalidateAuctions])
  | LeaveReply (Refused status m) =>
      let '(c1, e1) := leave_error (refusal "Failed to unregister" status m) c in (c1, nav_login status ++ e1)
  end.

(** The image is a video: by its extension, or by the media host's path. *)
Definition isVideo (image : string) : bool :=
  has_extension ["mp4"; "webm"; "ogg"; "mov"] (to_lower image) || includes "/video/upload/" image.

Definition phase_label (p : Phase) : string :=
  match p with upcoming => "upcoming" | live => "live" | completed => "completed" end.

Definition media_view : node card_event :=
  match cp_image props with
  | EmptyString => tag "div" []
  | img => if isVideo img then El "video" [Attr "src" img] []
           else El "img" [Attr "src" img; Attr "alt" (cp_title props)] []
  end.

Definition route_view : node card_event :=
  if truthy_str (cp_origin props) || truthy_str (cp_destination props)
  then tag "div" [
    txt "div" (or_ostr (cp_origin props) "Location not specified");
    tag "div" (Txt (or_ostr (cp_destination props) "Destination not specified") ::
      when (truthy_str (cp_destination props)) [txt "span" (cp_distance props)])]
  else txt "div" "General auction item · no route required".

(** The card's face. *)
Definition face (c : Card) : node card_event :=
  let pl := plan c in
  let ph := card_phase (startTime c) (endTime c) (c_now c) in
  El "div" [On "click" (ClickCard false)] [
    tag "div" [
      media_view;
      txt "div" (phase_label ph);
      txt "div" (cp_label pl +:+
        (match displayTime (cp_timeDiff pl) with EmptyString => EmptyString | d => " · " +:+ d end));
      txt "div" (cp_category props)];
    tag "div" [
      txt "h4" (cp_title props);
      route_view;
      tag "div" [txt "span" "Starts"; txt "span" (card_timer formatDate "Started" (startTime c) (c_now c))];
      tag "div" [txt "span" "Join By"; txt "span" (card_timer formatDate "Closed" (joinTime (startTime c)) (c_now c))];
      tag "div" [
        txt "p" (match cp_auctionType props with FORWARD => "Current highest" | REVERSE => "Current lowest" end);
        txt "p" (cp_lowestBid props);
        txt "p" (string_of_Z (cp_suppliers props) +:+ " active bids")];
      El "div" [On "click" ClickAction] [Txt (actionText (cp_action pl))]]].

(** The three dialogs; a click beside one closes it. *)
Definition join_dialog (c : Card) : node card_event :=
  El "div" [On "click" CloseJoin] [
    txt "h3" "Confirm Registration";
    txt "p" "Are you sure you want to register for this auction? By registering, you agree to the terms and conditions.";
    button CloseJoin false "Cancel";
    button ConfirmJoin (joinPending c) "Confirm Registration"].

Definition leave_dialog (c : Card) : node card_event :=
  El "div" [On "click" CloseLeave] [
    txt "h3" "Unregister from Auction";
    txt "p" "Are you sure you want to unregister from this auction? You can register again before the deadline.";
    button CloseLeave (leavePending c) "Cancel";
    button ConfirmLeave (leavePending c) "Unregister"].

Definition success_dialog : node card_event :=
  El "div" [On "click" CloseSuccess] [
    txt "h3" "Registration Successful";
    txt "p" ("You are now registered for " +:+ cp_title props +:+
      ". You will be able to enter the live auction console when the event starts.");
    button CloseSuccess false "Done"].

Definition card_view (c : Card) : list (node card_event) :=
  when (truthy_str (Some (toastMsg c)))
    [El "Toast" [] [txt "p" (toastMsg c); El "button" [On "click" CloseCardToast] []]] ++
  [face c] ++
  when (showJoinModal c) [join_dialog c] ++
  when (showLeaveModal c) [leave_dialog c] ++
  when (showSuccessModal c) [success_dialog].

(** ** Invariant: requests come from open dialogs *)

(** A request is in flight only while its dialog is open, or was closed meanwhile;
    the success dialog is opened by an accepted registration only. *)
Definition offers (c : Card) (e : card_event) : Prop := e ∈ flat_map offered (card_view c).

Lemma face_offers c : offered (face c) = [ClickCard false; ClickAction].
Proof.
  unfold face, media_view, route_view. cbn [offered is_disabled existsb].
  destruct (cp_image props) as [|ch img]; [|destruct (isVideo _)];
    (destruct (truthy_str (cp_origin props) || truthy_str (cp_destination props));
      [destruct (truthy_str (cp_destination props))|]); reflexivity.
Qed.

Lemma offers_request c e :
  offers c e -> e = ConfirmJoin \/ e = ConfirmLeave ->
  (e = ConfirmJoin /\ showJoinModal c = true /\ joinPending c = false) \/
  (e = ConfirmLeave /\ showLeaveModal c = true /\ leavePending c = false).
Proof.
  unfold offers, card_view. rewrite !flat_map_app, !elem_of_app, !flat_map_when.
  change (flat_map offered [face c]) with (offered (face c) ++ []). rewrite face_offers.
  unfold join_dialog, leave_dialog, success_dialog.
  intros [[_ H]|[H|[[-> H]|[[-> H]|[_ H]]]]] He;
    [| |destruct (joinPending c)|destruct (leavePending c)|];
    cbn in H; rewrite ?elem_of_cons, ?elem_of_nil in H; naive_solver.
Qed.
End Component.

(** A user's session with a card: clicks among what the card offers, replies to
    requests in flight, and ticks.  [evs] are its events, [effs] their effects. *)
Inductive session (parse : string -> option Z) (formatDate : option Z -> string) (props : CardProps) :
    list card_event -> list card_effect -> Card -> Prop :=
| session_start : session parse formatDate props [] [] card0
| session_step evs effs c e :
    session parse formatDate props evs effs c ->
    match e with
    | JoinReply _ => joinPending c = true
    | LeaveReply _ => leavePending c = true
    | CardTick _ => True
    | _ => offers parse formatDate props c e
    end ->
    session parse formatDate props (evs ++ [e]) (effs ++ (card_step parse props e c).2) (card_step parse props e c).1.

Definition is_post_join (e : card_effect) : bool := match e with PostJoin _ => true | _ => false end.
Definition is_post_leave (e : card_effect) : bool := match e with PostLeave _ => true | _ => false end.
Definition is_join_reply (e : card_event) : bool := match e with JoinReply _ => true | _ => false end.
Definition is_leave_reply (e : card_event) : bool := match e with LeaveReply _ => true | _ => false end.

Definition count {A} (f : A -> bool) (l : list A) : nat := length (List.filter f l).

Lemma count_app {A} (f : A -> bool) (l m : list A) : count f (l ++ m) = (count f l + count f m)%nat.
Proof. unfold count. by rewrite List.filter_app, length_app. Qed.

(** What a session keeps: as many requests as replies, and one in flight. *)
Record card_inv (evs : list card_event) (effs : list card_effect) (c : Card) : Prop := {
  ci_join : count is_post_join effs = (count is_join_reply evs + Nat.b2n (joinPending c))%nat;
  ci_leave : count is_post_leave effs = (count is_leave_reply evs + Nat.b2n (leavePending c))%nat;
  ci_success : showSuccessModal c = true -> JoinReply Accepted ∈ evs
}.

(** One event: a request is sent when none is in flight, and ends with its reply. *)
Ltac card_cases :=
  unfold join_error, leave_error, nav_login, handleActionClick;
  repeat match goal with
  | |- context [if ?x then _ else _] => destruct x
  | |- context [match cp_id ?p with _ => _ end] => destruct (cp_id p)
  | |- context [match cp_action ?p with _ => _ end] => destruct (cp_action p)
  | |- context [match ?r with Accepted => _ | _ => _ end] => destruct r
  end.

Lemma step_requests parse props e c :
  (e = ConfirmJoin -> joinPending c = false) -> (e = ConfirmLeave -> leavePending c = false) ->
  (is_join_reply e = true -> joinPending c = true) -> (is_leave_reply e = true -> leavePending c = true) ->
  let c' := (card_step parse props e c).1 in let effs := (card_step parse props e c).2 in
  (count is_post_join effs + Nat.b2n (joinPending c) = count is_join_reply [e] + Nat.b2n (joinPending c') /\
   count is_post_leave effs + Nat.b2n (leavePending c) = count is_leave_reply [e] + Nat.b2n (leavePending c'))%nat.
Proof.
  intros H1 H2 H3 H4.
  destruct e; cbn in *; card_cases; cbn;
    rewrite ?H1, ?H2, ?H3, ?H4 by done; cbn; lia.
Qed.

Lemma step_success parse props e c :
  showSuccessModal (card_step parse props e c).1 = true -> showSuccessModal c = true \/ e = JoinReply Accepted.
Proof.
  destruct e; cbn; card_cases; cbn; intuition discriminate.
Qed.

Lemma session_inv parse formatDate props evs effs c :
  session parse formatDate props evs effs c -> card_inv evs effs c.
Proof.
  induction 1 as [|evs effs c e _ [Hj Hl Hs] Hen]; [by split|].
  pose proof (step_success parse props e c) as Hsucc.
  pose proof (step_requests parse props e c) as Hreq.
  destruct (card_step parse props e c) as [c' es].
  destruct Hreq as [Hj' Hl'].
  - intros ->. apply offers_request in Hen; naive_solver.
  - intros ->. apply offers_request in Hen; naive_solver.
  - by destruct e.
  - by destruct e.
  - split; rewrite ?count_app; cbn -[count] in *; [lia..|].
    intros Hm%Hsucc. rewrite elem_of_app, list_elem_of_singleton. naive_solver.
Qed.

(** A card never has two registration requests in flight, nor two cancellations:
    in every session the requests sent are the replies received and the one that
    is pending, although the dialogs can be closed while a request is in flight
    and opened again.  The success dialog shows only after an accepted
    registration. *)
Theorem card_requests_are_serial parse formatDate props evs effs c :
  session parse formatDate props evs effs c ->
  (count is_post_join effs = count is_join_reply evs + Nat.b2n (joinPending c))%nat /\
  (count is_post_leave effs = count is_leave_reply evs + Nat.b2n (leavePending c))%nat /\
  (showSuccessModal c = true -> JoinReply Accepted ∈ evs).
Proof. intros [Hj Hl Hs]%session_inv. auto. Qed.

Definition sample_props : CardProps :=
  mkProps (Some "a1") "Steel" None None "12 km" "Metals" EmptyString "$10" 2 (Some "3600000") None REVERSE false grid.
Definition sample_parse (s : string) : option Z := Some 3600000.
Definition sample_format (d : option Z) : string := "soon".

(** One more event of the sample session. *)
Ltac sample_click e H :=
  let H' := fresh in
  pose proof (session_step sample_parse sample_format sample_props _ _ _ e H) as H';
  clear H; rename H' into H; specialize (H ltac:(first [exact I | reflexivity | unfold offers; apply list_elem_of_In; vm_compute; tauto])).

Lemma card_requests_are_serial_witness :
  exists effs c,
  let evs := [CardTick 1; ClickAction; ConfirmJoin; CloseJoin; ClickAction; JoinReply Accepted] in
  session sample_parse sample_format sample_props evs effs c /\
  (count is_post_join effs = count is_join_reply evs + Nat.b2n (joinPending c))%nat /\
  effs = [PostJoin "a1"; InvalidateAuctions] /\ showSuccessModal c = true /\ JoinReply Accepted ∈ evs.
Proof.
  pose proof (session_start sample_parse sample_format sample_props) as H.
  sample_click (CardTick 1) H. sample_click ClickAction H. sample_click ConfirmJoin H. sample_click CloseJoin H.
  sample_click ClickAction H. sample_click (JoinReply Accepted) H.
  destruct (card_requests_are_serial _ _ _ _ _ _ H) as (H1 & _ & H3).
  eexists _, _. split; [exact H|]. split; [exact H1|]. split; [reflexivity|].
  split; [reflexivity|]. apply H3. reflexivity.
Defined.
