(* ===== verification/Tally.v ===== *)
(** * Tallies of categories

    The marketplace page and the dashboard count the auctions of each category with
    a [Map] in insertion order and sort the entries by their number; the two pages
    name the category of an auction differently. *)

From S2P Require Import Prelude ApiTypes.
#[local] Open Scope Z_scope.

(** [counts.set(category, (counts.get(category) || 0) + 1)] on a [Map] in insertion
    order. *)
Fixpoint bump (category : string) (counts : list (string * Z)) : list (string * Z) :=
  match counts with
  | [] => [(category, 1)]
  | (k, n) :: r => if bool_decide (k = category) then (k, n + 1) :: r else (k, n) :: bump category r
  end.

Definition more_first (a b : string * Z) : bool := b.2 - a.2 <=? 0.
(** [name] is the category of an auction as the page names it. *)
Section Tally.
Context (name : Auction.t -> string).

Definition counts_by (l : list Auction.t) : list (string * Z) :=
  fold_left (fun m a => bump (name a) m) l [].

(** The auctions of a list that are in a category. *)
Definition in_category (c : string) (l : list Auction.t) : list Auction.t :=
  js_filter (fun a => bool_decide (name a = c)) l.

Definition size (l : list Auction.t) : Z := Z.of_nat (length l).

(** The numbers of a tally, summed. *)
Definition total (m : list (string * Z)) : Z := foldr (fun kv acc => kv.2 + acc) 0 m.

(** A tally: every category once, with the number of its auctions. *)
Record tally (l : list Auction.t) (m : list (string * Z)) : Prop := {
  ty_once : NoDup (map fst m);
  ty_count : forall c n, (c, n) ∈ m -> n = size (in_category c l) /\ 0 < n;
  ty_all : forall a, a ∈ l -> name a ∈ map fst m;
  ty_total : total m = size l
}.

Lemma bump_keys c m k : k ∈ map fst (bump c m) <-> k = c \/ k ∈ map fst m.
Proof.
  induction m as [|[k' n] m IH]; simpl; [rewrite elem_of_cons, elem_of_nil; tauto|].
  case_bool_decide as E; simpl; rewrite !elem_of_cons, ?IH; subst; tauto.
Qed.

Lemma bump_once c m : NoDup (map fst m) -> NoDup (map fst (bump c m)).
Proof.
  induction m as [|[k n] m IH]; simpl; [intros _; apply NoDup_singleton|].
  intros [Hk Hm]%NoDup_cons. case_bool_decide as E; simpl; constructor; auto.
  rewrite bump_keys. tauto.
Qed.

Lemma bump_total c m : total (bump c m) = total m + 1.
Proof. induction m as [|[k n] m IH]; simpl; [lia|]. case_bool_decide; simpl; lia. Qed.

Lemma bump_elem c m k n :
  NoDup (map fst m) ->
  (k, n) ∈ bump c m ->
  (k <> c /\ (k, n) ∈ m) \/ (k = c /\ ((k, n - 1) ∈ m \/ (n = 1 /\ k ∉ map fst m))).
Proof.
  induction m as [|[k' n'] m IH]; simpl.
  - intros _ [[= -> ->]|H%not_elem_of_nil]%elem_of_cons; [|done].
    right. split; [done|]. right. split; [done|apply not_elem_of_nil].
  - intros [Hk Hm]%NoDup_cons. case_bool_decide as E; rewrite !elem_of_cons.
    + subst k'. intros [[= -> ->]|H]; [right; split; [done|left; left; f_equal; lia]|].
      left. split; [|by right]. intros ->. apply Hk. rewrite list_elem_of_fmap. by exists (c, n).
    + intros [[= -> ->]|H]; [left; split; [done|by left]|].
      destruct (IH Hm H) as [[? ?]|[-> [?|[? ?]]]]; [left; tauto|right; tauto|].
      right. split; [done|]. right. split; [done|]. naive_solver.
Qed.

Lemma in_category_snoc c l a :
  size (in_category c (l ++ [a])) = size (in_category c l) + (if bool_decide (name a = c) then 1 else 0).
Proof.
  unfold size, in_category, js_filter. rewrite List.filter_app, length_app. simpl.
  case_bool_decide; simpl; lia.
Qed.

Lemma in_category_none c l : (forall a, a ∈ l -> name a <> c) -> size (in_category c l) = 0.
Proof.
  induction l as [|a l IH]; [done|]. intros H. unfold size, in_category, js_filter in *. simpl.
  rewrite bool_decide_eq_false_2 by (apply H; by left). apply IH. intros b Hb. apply H. by right.
Qed.

Lemma counts_tally l : tally l (counts_by l).
Proof.
  unfold counts_by. induction l as [|a l IH] using rev_ind;
    [split; [constructor|by intros ? ? ?%not_elem_of_nil|by intros ? ?%not_elem_of_nil|done]|].
  rewrite fold_left_app. simpl. destruct IH as [H1 H2 H3 H4]. split.
  - by apply bump_once.
  - intros c n [[Hc H]|[-> [H|[-> H]]]]%bump_elem; [..|done]; rewrite in_category_snoc.
    + apply H2 in H as [-> ?]. rewrite bool_decide_eq_false_2 by congruence. lia.
    + apply H2 in H as [? ?]. rewrite bool_decide_eq_true_2 by done. lia.
    + rewrite bool_decide_eq_true_2, in_category_none by (try done; intros b Hb E; apply H; rewrite <-E; auto). lia.
  - intros b [Hb| ->%list_elem_of_singleton]%elem_of_app; rewrite bump_keys; auto.
  - rewrite bump_total, H4. unfold size. rewrite length_app. simpl. lia.
Qed.

Lemma total_perm m m' : Permutation m m' -> total m = total m'.
Proof. induction 1; simpl; lia. Qed.

Lemma more_first_sorted m : StronglySorted (fun a b : string * Z => b.2 <= a.2) (js_sort more_first m).
Proof.
  eapply sorted_weaken; [|apply (js_sort_sorted more_first (fun _ => True))].
  - unfold leP, more_first. intros a b H%Z.leb_le. lia.
  - intros x y _ _. unfold more_first. rewrite !Z.leb_le. lia.
  - intros x y z _ _ _. unfold more_first. rewrite !Z.leb_le. lia.
  - by apply Forall_true.
Qed.
End Tally.
