(* ===== verification/Marketplace.v ===== *)
(** * The marketplace ([app/page.tsx])

    The home page: the catalogue it loads, the auctions it keeps (to come or
    running), the category chips with their counts, the search, and the view.
    [parse] reads a date, [currency] is the host's currency format. *)

From Stdlib Require Import Ascii.
From S2P Require Import Prelude Tally Markup JSNum JSText JSDate ApiTypes Schedule.
#[local] Open Scope Z_scope.

(** ** Texts of an auction *)

Definition money (currency : num -> string) (value : option num) : string :=
  match value with None => "Price on request" | Some v => currency v end.

(** [auction.item_category?.trim() || "General marketplace"]. *)
Definition categoryName (a : Auction.t) : string :=
  or_ostr (trim <$> Auction.item_category a) "General marketplace".

Inductive icon := Car | Wrench | Laptop | Gem | Building2 | Boxes | PackageOpen.

Definition categoryIcon (category : string) : icon :=
  let value := to_lower category in
  if includes "vehicle" value || includes "motor" value then Car
  else if includes "industrial" value || includes "equipment" value then Wrench
  else if includes "electronic" value || includes "technology" value then Laptop
  else if includes "collect" value || includes "art" value then Gem
  else if includes "service" value || includes "contract" value then Building2
  else if includes "logistic" value || includes "freight" value then Boxes
  else PackageOpen.

Definition tones : list string := ["blue"; "cyan"; "violet"; "emerald"; "amber"; "rose"].

Fixpoint char_sum (s : string) : Z :=
  match s with
  | EmptyString => 0
  | String c r => Z.of_nat (Ascii.nat_of_ascii c) + char_sum r
  end.

(** [tones[sum % tones.length]], by the name of its colour. *)
Definition categoryTone (category : string) : option string :=
  tones !! Z.to_nat (char_sum category mod Z.of_nat (length tones)).

(** ** The page's state *)
Record Home := mkHome {
  h_now : Z;
  authToken : option string;
  search : string;
  selectedCategory : string;
  apiAuctions : list Auction.t;
  isFetching : bool;
  session : option UserRole
}.

Definition home0 : Home := mkHome 0 None EmptyString "All" [] false None.

(** [Fetched] is the answer of the catalogue query, [None] when it failed. *)
Inductive home_event :=
| Mounted (now : Z) (token : option string)
| HomeTick (now : Z)
| Search (text : string)
| Pick (category : string)
| Fetched (l : option (list Auction.t))
| SessionLoaded (r : option UserRole).

(** [useQuery]: enabled by a token; a failed query leaves the catalogue as it was. *)
Definition home_step (e : home_event) (h : Home) : Home :=
  match e with
  | Mounted now token =>
      mkHome now token (search h) (selectedCategory h) (apiAuctions h) (truthy_str token) (session h)
  | HomeTick now => mkHome now (authToken h) (search h) (selectedCategory h) (apiAuctions h) (isFetching h) (session h)
  | Search s => mkHome (h_now h) (authToken h) s (selectedCategory h) (apiAuctions h) (isFetching h) (session h)
  | Pick c => mkHome (h_now h) (authToken h) (search h) c (apiAuctions h) (isFetching h) (session h)
  | Fetched l =>
      mkHome (h_now h) (authToken h) (search h) (selectedCategory h) (default (apiAuctions h) l) false (session h)
  | SessionLoaded r => mkHome (h_now h) (authToken h) (search h) (selectedCategory h) (apiAuctions h) (isFetching h) r
  end.

Section Page.
Context (parse : string -> option Z) (currency : num -> string).

Definition phase_of (a : Auction.t) (now : Z) : Phase :=
  phaseOf (parse (Auction.auction_start_time a)) (parse (Auction.auction_end_time a)) now.

Definition activeApiAuctions (h : Home) : list Auction.t :=
  js_filter (fun a => (0 <? h_now h) && negb (bool_decide (phase_of a (h_now h) = completed))) (apiAuctions h).

(** The tally of the categories on a [Map]. *)
Definition counts (l : list Auction.t) : list (string * Z) := counts_by categoryName l.

Definition categories (h : Home) : list (string * Z) := js_sort more_first (counts (activeApiAuctions h)).

Definition needle (h : Home) : string := to_lower (trim (search h)).

Definition matchesCategory (h : Home) (a : Auction.t) : bool :=
  bool_decide (selectedCategory h = "All") || bool_decide (categoryName a = selectedCategory h).
Definition matchesSearch (h : Home) (a : Auction.t) : bool :=
  negb (truthy_str (Some (needle h))) ||
  includes (needle h)
    (to_lower (Auction.title a +:+ " " +:+ Auction.description a +:+ " " +:+ categoryName a)).

Definition filtered (h : Home) : list Auction.t :=
  js_filter (fun a => matchesCategory h a && matchesSearch h a) (activeApiAuctions h).

Definition live_auctions (h : Home) : list Auction.t :=
  js_filter (fun a => bool_decide (phase_of a (h_now h) = live)) (filtered h).
Definition upcoming_auctions (h : Home) : list Auction.t :=
  js_filter (fun a => bool_decide (phase_of a (h_now h) = upcoming)) (filtered h).

(** ** The view *)

Definition AuctionCard (a : Auction.t) (phase : Phase) (now : Z) : node home_event :=
  let isLive := bool_decide (phase = live) in
  let forward := bool_decide (Auction.auction_type a = FORWARD) in
  let target := if isLive then Auction.auction_end_time a else Auction.auction_start_time a in
  let clock := countdown (parse target) now in
  tag "article" [
    tag "div" [
      match Auction.media_urls a with
      | Some (String c r :: _) => El "img" [Attr "src" (String c r)] []
      | _ => tag "div" []
      end;
      tag "div" [txt "span" (if isLive then "LIVE" else "UPCOMING"); txt "span" (if forward then "Forward" else "Reverse")];
      tag "div" [txt "span" (categoryName a); txt "span" clock]];
    tag "div" [
      txt "h3" (Auction.title a);
      txt "p" (Auction.description a);
      tag "div" [
        tag "div" [txt "p" (if forward then "Opening bid" else "Price ceiling"); txt "p" (money currency (Auction.starting_price a))];
        tag "div" [txt "p" (if isLive then "Ends in" else "Starts in"); txt "p" clock]];
      tag "div" [
        txt "span" (string_of_Z (default 0 (Auction.participants_count a)) +:+ " interested");
        link ("/auction/" +:+ Auction.id a) (if isLive then "Enter room" else "View details")]]].

Definition signed_in (h : Home) : bool := truthy_str (authToken h).

Definition sell_link (h : Home) : node home_event :=
  link
    (if negb (signed_in h) then "/signup"
     else match session h with
          | Some CUSTOMER => "/sell/new"
          | Some ADMIN => "/admin"
          | _ => "/dashboard"
          end)
    (match session h with
     | Some CARRIER => "Bidder dashboard"
     | Some ADMIN => "Review listings"
     | _ => "Sell an item"
     end).

Definition hero (h : Home) : node home_event :=
  tag "section" [
    txt "h1" "Discover the next opportunity before the clock runs out.";
    link (if signed_in h then "/dashboard" else "/login") "Browse live auctions";
    sell_link h;
    tag "div" [txt "p" (string_of_Z (Z.of_nat (length (live_auctions h)))); txt "p" "Live now"];
    tag "div" [txt "p" (string_of_Z (Z.of_nat (length (upcoming_auctions h)))); txt "p" "Upcoming"];
    tag "div" [txt "p" (string_of_Z (Z.of_nat (length (categories h)))); txt "p" "Categories"]].

Definition chip (c : string * Z) : node home_event :=
  El "button" [On "click" (Pick c.1)] [Txt c.1; txt "span" (string_of_Z c.2)].

Definition cards (h : Home) : list (node home_event) :=
  map (fun a => AuctionCard a (phase_of a (h_now h)) (h_now h)) (filtered h).

Definition market (h : Home) : node home_event :=
  tag "section" ([
    txt "h2" "Live and upcoming auctions";
    El "input" [Attr "value" (search h); Input "change" Search] [];
    El "div" [Attr "id" "categories"]
      (El "button" [On "click" (Pick "All")] [Txt "All categories"] :: map chip (categories h))] ++
    when (isFetching h) [El "div" [Attr "aria-label" "Loading auctions"] [tag "div" []; tag "div" []; tag "div" []]] ++
    when (negb (isFetching h) && negb (bool_decide (filtered h = []))) [tag "div" (cards h)] ++
    when (negb (isFetching h) && signed_in h && bool_decide (filtered h = []))
      [tag "div" [txt "h3" "No matching auctions"; txt "p" "Try another search or category."]] ++
    when (negb (signed_in h))
      [tag "div" [txt "h3" "Sign in to browse the live catalogue"; link "/login" "Sign in"]]).

Definition workflows (h : Home) : node home_event :=
  tag "section" [
    txt "h2" "One marketplace, two focused workflows";
    tag "div" [txt "h3" "For sellers"; link (if signed_in h then "/seller/dashboard" else "/signup") "Open seller workspace"];
    tag "div" [txt "h3" "For bidders"; link (if signed_in h then "/dashboard" else "/signup") "Browse bidder marketplace"]].

(** The promises below the catalogue, and the footer. *)
Definition assurances : node home_event :=
  tag "section" [
    tag "div" [txt "h3" "Verified participation";
      txt "p" "Role-aware access and participant checks protect seller reviews, registrations, and live auction rooms."];
    tag "div" [txt "h3" "Every bid in order";
      txt "p" "Bids are processed sequentially within each auction, giving every participant a consistent price and result."];
    tag "div" [txt "h3" "Auditable outcomes";
      txt "p" "Accepted and rejected attempts are retained so authorized users can review how an auction reached its final outcome."]].

Definition footer : node home_event :=
  tag "footer" [txt "div" "AquaBid"; txt "p" "Forward and reverse auctions for modern markets."].

Definition MarketplaceHome (h : Home) : node home_event :=
  tag "main" [
    tag "nav" [link "/" "AquaBid"; link "#marketplace" "Marketplace"; link "#categories" "Categories"; link "/dashboard" "Dashboard"];
    hero h; market h; workflows h; assurances; footer].
End Page.

(** ** Lemmas *)
Section Claims.
Context (parse : string -> option Z).

Lemma active_elem h a :
  a ∈ activeApiAuctions parse h <->
  a ∈ apiAuctions h /\ 0 < h_now h /\ phase_of parse a (h_now h) <> completed.
Proof.
  unfold activeApiAuctions, js_filter.
  rewrite list_elem_of_In, filter_In, <-list_elem_of_In, andb_true_iff, negb_true_iff,
    Z.ltb_lt, bool_decide_eq_false. tauto.
Qed.

Lemma filtered_elem h a : a ∈ filtered parse h -> a ∈ activeApiAuctions parse h.
Proof. unfold filtered, js_filter. rewrite !list_elem_of_In, filter_In. tauto. Qed.

(** What a click on a chip selects, with a blank search. *)
Lemma filtered_category h :
  needle h = EmptyString -> selectedCategory h <> "All" ->
  filtered parse h = in_category categoryName (selectedCategory h) (activeApiAuctions parse h).
Proof.
  intros Hn Hc. unfold filtered, in_category. apply js_filter_ext. intros a _.
  unfold matchesCategory, matchesSearch. rewrite Hn, (bool_decide_eq_false_2 (selectedCategory h = "All")) by done.
  simpl. by rewrite andb_true_r.
Qed.

(** every category chip counts what a click on it shows: the chips are
    distinct, sorted by falling counts that add up to the catalogue shown, and with
    a blank search a click on the chip [(c, n)] leaves exactly [n] auctions, all of
    that category; only a category that is itself named "All" is not selected by
    its chip. *)
Theorem chips_count_what_they_show h c n :
  (c, n) ∈ categories parse h ->
  needle h = EmptyString ->
  let h' := home_step (Pick c) h in
  NoDup (map fst (categories parse h)) /\
  StronglySorted (fun a b => b.2 <= a.2) (categories parse h) /\
  total (categories parse h) = size (activeApiAuctions parse h) /\
  0 < n /\
  (c <> "All" -> size (filtered parse h') = n /\ Forall (fun a => categoryName a = c) (filtered parse h')) /\
  (c = "All" -> filtered parse h' = activeApiAuctions parse h).
Proof.
  intros Hin Hn h'. pose proof (counts_tally categoryName (activeApiAuctions parse h)) as [H1 H2 H3 H4].
  assert (Hp := js_sort_perm more_first (counts (activeApiAuctions parse h))).
  unfold categories in *. rewrite js_sort_elem_of in Hin. apply H2 in Hin as [Hc Hpos].
  split; [by rewrite Hp|]. split; [|split; [by rewrite (total_perm _ _ Hp)|split; [done|split]]].
  - apply more_first_sorted.
  - intros Hall. rewrite filtered_category by done. split; [done|].
    unfold in_category, js_filter. rewrite Forall_forall. intros a.
    rewrite list_elem_of_In, filter_In, bool_decide_eq_true. tauto.
  - intros ->. unfold filtered. apply js_filter_true. intros a _.
    unfold matchesCategory, matchesSearch. change (needle h') with (needle h). by rewrite Hn.
Qed.

(** the page's two figures split what it shows: every auction shown is running
    or to come at the page's clock, so the numbers of live and upcoming auctions
    add up to the cards, and no card is made for an auction that is over. *)
Theorem figures_split_the_cards currency h :
  Permutation (live_auctions parse h ++ upcoming_auctions parse h) (filtered parse h) /\
  length (cards parse currency h) =
    (length (live_auctions parse h) + length (upcoming_auctions parse h))%nat /\
  forall a, a ∈ filtered parse h -> phase_of parse a (h_now h) <> completed.
Proof.
  assert (Hph : forall a, a ∈ filtered parse h -> phase_of parse a (h_now h) <> completed)
    by (intros a Ha; apply filtered_elem, active_elem in Ha; tauto).
  assert (Hp : Permutation (live_auctions parse h ++ upcoming_auctions parse h) (filtered parse h)).
  { apply js_filter_split. intros a Ha%Hph. by destruct (phase_of parse a (h_now h)). }
  split; [done|]. split; [|done]. unfold cards. by rewrite length_map, <-Hp, length_app.
Qed.
End Claims.

(** ** Witness: three auctions of two categories *)
Definition sample_item (i : string) (category : string) (start : string) : Auction.t :=
  Auction.mk i ("Lot " +:+ i) "Sheet steel" FORWARD (of_Z 1) None (Some category) None None None None
    None None None None None None start "9" None None None None None None None None None None None.
Definition sample_clock (s : string) : option Z := to_int (Number s).
Definition sample_home : Home :=
  mkHome 5 (Some "t") "  " "All"
    [sample_item "a" "Metals" "1"; sample_item "b" " Metals " "7"; sample_item "c" "All" "2"] false None.

Lemma chips_count_what_they_show_witness :
  ("Metals", 2) ∈ categories sample_clock sample_home /\
  size (filtered sample_clock (home_step (Pick "Metals") sample_home)) = 2.
Proof.
  assert (H : ("Metals", 2) ∈ categories sample_clock sample_home)
    by (apply list_elem_of_In; vm_compute; tauto).
  split; [exact H|].
  destruct (chips_count_what_they_show sample_clock sample_home "Metals" 2 H eq_refl) as (_ & _ & _ & _ & H5 & _).
  apply H5. discriminate.
Defined.
