(* ===== verification/Catalog.v ===== *)
(** * The signed-in catalogues

    The dashboard ([components/Dashboard.tsx], [dashboard/DashboardOverview.tsx],
    [dashboard/ReverseAuctionsView.tsx], [auction/AuctionSearch.tsx],
    [dashboard/utils.ts]), the search page ([components/SearchResults.tsx],
    [app/search/page.tsx]) and the bidding history ([app/history/page.tsx]). *)

From Stdlib Require Import Ascii.
From S2P Require Import Prelude Tally Markup JSNum JSText JSDate ApiTypes AuctionSlice Schedule AuctionCard Marketplace.
#[local] Open Scope Z_scope.
#[local] Open Scope aqua_scope.

(** ** The query of the auctions

    [queryFn] turns an answer (whether its status is a success, and the body's
    [auctions]) into the list or an error; the data library keeps the last list,
    and [useAuctions] answers an empty one before the first. *)
Definition queryFn (ok : bool) (auctions : option (list Auction.t)) : result (list Auction.t) :=
  if ok then Ok (default [] auctions) else Throw "Failed to fetch auctions".

Definition settled (r : result (list Auction.t)) (data : option (list Auction.t)) : option (list Auction.t) :=
  match r with Ok l => Some l | Throw _ => data end.

Definition useAuctions (data : option (list Auction.t)) : list Auction.t := default [] data.

(** ** Cards *)

(** The properties that the three catalogues give to a card. *)
Definition card_of (mode : view_mode) (a : Auction.t) : CardProps :=
  mkProps (Some (Auction.id a)) (Auction.title a) (Auction.origin_address a) (Auction.dest_address a)
    "Calculating..." (or_ostr (Auction.item_category a) "General")
    (default EmptyString (Auction.media_urls a ≫= head))
    ("$" +:+ num_to_string (match Auction.starting_price a with Some p => or_num p nzero | None => nzero end))
    (default 0 (Auction.participants_count a)) (Some (Auction.auction_start_time a)) (Some (Auction.auction_end_time a))
    (Auction.auction_type a) (default false (Auction.is_registered a)) mode.

(** A card inside a catalogue: its properties and where it is. *)
Definition card_node {A} (p : CardProps) : node A :=
  El "ShippingAuctionCard" [Attr "id" (default EmptyString (cp_id p)); Attr "lowestBid" (cp_lowestBid p);
                            Attr "category" (cp_category p)] [Txt (cp_title p)].

(** ** The dashboard's overview *)

(** [dashboard/utils.ts] repeats the two functions of the marketplace page. *)
Definition dashboard_icon : string -> icon := categoryIcon.
Definition dashboard_tone : string -> option string := categoryTone.

(** [auction.item_category?.trim() || "General"]. *)
Definition generalCategory (a : Auction.t) : string := or_ostr (trim <$> Auction.item_category a) "General".

Record Overview := mkOverview { ov_category : string; ov_mode : view_mode }.
Definition overview0 : Overview := mkOverview "All" grid.

Inductive overview_event := PickCategory (c : string) | SetMode (m : view_mode).

Definition overview_step (e : overview_event) (s : Overview) : Overview :=
  match e with
  | PickCategory c => mkOverview c (ov_mode s)
  | SetMode m => mkOverview (ov_category s) m
  end.

Definition overview_categories (auctions : list Auction.t) : list (string * Z) :=
  js_sort more_first (counts_by generalCategory auctions).

Definition overview_filtered (auctions : list Auction.t) (s : Overview) : list Auction.t :=
  js_filter (fun a => bool_decide (ov_category s = "All") || bool_decide (generalCategory a = ov_category s)) auctions.

Definition overview_cards (auctions : list Auction.t) (s : Overview) : list CardProps :=
  map (card_of (ov_mode s)) (take 8 (overview_filtered auctions s)).

Definition overview_view (auctions : list Auction.t) (userRole : option string) (s : Overview) : node overview_event :=
  tag "div" ([
    txt "h1" "Executive Dashboard"; link "/notifications" EmptyString] ++
    when (bool_decide (userRole = Some "ADMIN")) [link "/auction/new" "Create Auction"] ++ [
    txt "h2" "Live Auction Marketplace"; txt "p" "Bid up in forward auctions or bid down in reverse auctions.";
    tag "div" (map (fun c => button (PickCategory c) false c) ("All" :: map fst (overview_categories auctions)));
    button (SetMode grid) false "Grid View"; button (SetMode strip) false "List View";
    tag "div" (map card_node (overview_cards auctions s) ++
      when (bool_decide (overview_filtered auctions s = [])) [txt "p" "No active auctions right now."])]).

(** ** The other tab *)

(** [AuctionSearch]: its fields and buttons have no handlers but one. *)
Inductive search_panel_event := ToggleFilters.

Definition auction_search (isExpanded : bool) : node search_panel_event :=
  tag "div" ([
    El "input" [Attr "type" "text"; Attr "placeholder" "Search by ID, Origin, Destination, or Description..."] [];
    button ToggleFilters false "Advanced Filters"] ++
    when isExpanded [
      tag "div" [txt "label" "Auction Type";
        tag "select" [txt "option" "All Types"; txt "option" "Reverse (Bid Down)"; txt "option" "Forward (Bid Up)"]];
      tag "div" [txt "label" "Category";
        tag "select" (map (txt "option") ("All Categories" :: SHIPMENT_CATEGORIES))];
      tag "div" [txt "label" "Pickup Date Range"; El "input" [Attr "type" "date"] []; El "input" [Attr "type" "date"] []];
      tag "div" [txt "label" "Price Range ($)"; El "input" [Attr "type" "number"; Attr "placeholder" "Min"] [];
        El "input" [Attr "type" "number"; Attr "placeholder" "Max"] []];
      txt "button" "Reset Filters"; txt "button" "Apply Filters"]).

Definition reverse_view (auctions : list Auction.t) (isExpanded : bool) : node search_panel_event :=
  tag "div" [
    txt "h1" "Auction Marketplace"; txt "p" "Browse items, services, assets, contracts, and logistics events.";
    auction_search isExpanded;
    tag "div" (map (fun a => card_node (card_of grid a)) auctions ++
      when (bool_decide (auctions = [])) [txt "p" "No active auctions right now."])].

Inductive dashboard_event := OnOverview (e : overview_event) | OnSearchPanel (e : search_panel_event).

(** [Dashboard], with the tab of the interface slice; [role] is read by an effect. *)
Definition dashboard_view (activeTab : string) (auctions : list Auction.t) (role : option string) (s : Overview)
    (isExpanded : bool) : node dashboard_event :=
  tag "div" (
    when (String.eqb activeTab "dashboard") [map_node OnOverview (overview_view auctions role s)] ++
    when (String.eqb activeTab "reverse") [map_node OnSearchPanel (reverse_view auctions isExpanded)] ++
    when (bool_decide (role = Some "ADMIN")) [link "/auction/new" "Create New Auction"]).

(** ** The search page *)

(** [sr_flight] are the queries that were sent and not answered. *)
Record Search := mkSearch {
  sr_results : list Auction.t;
  sr_loading : bool;
  sr_error : string;
  sr_flight : list string
}.
Definition search0 : Search := mkSearch [] true EmptyString [].

(** A query sent by the effect, or the answer to the [k]th query in flight. *)
Inductive search_event :=
| Query (q : string)
| Answer (k : nat) (r : result (option (list Auction.t))).

Definition search_step (e : search_event) (s : Search) : Search :=
  match e with
  | Query q => mkSearch (sr_results s) true (sr_error s) (sr_flight s ++ [q])
  | Answer k r =>
      match sr_flight s !! k with
      | Some _ =>
          match r with
          | Ok l => mkSearch (default [] l) false (sr_error s) (delete k (sr_flight s))
          | Throw m => mkSearch (sr_results s) false m (delete k (sr_flight s))
          end
      | None => s
      end
  end.
Definition search_run (es : list search_event) (s : Search) : Search := fold_left (fun s e => search_step e s) es s.

Definition search_view (s : Search) : node overview_event :=
  if sr_loading s then tag "div" (replicate 8 (tag "div" []))
  else if truthy_str (Some (sr_error s)) then txt "div" (sr_error s)
  else match sr_results s with
       | [] => tag "div" [txt "h3" "No results found"; txt "p" "Try adjusting your search terms"]
       | l => tag "div" (map (fun a => El "a" [Attr "href" ("/auction/" +:+ Auction.id a)] [card_node (card_of grid a)]) l)
       end.

Definition search_page (s : Search) : node overview_event :=
  tag "div" [txt "h1" "Search Results"; txt "p" "Intelligent semantic and phonetic search powered by Elasticsearch.";
    search_view s].

(** ** The history *)

Inductive history_tab := AllAuctions | WonAuctions.
#[export] Instance history_tab_eq_dec : EqDecision history_tab.
Proof. solve_decision. Defined.

Record HistoryPage := mkHistoryPage { hp_tab : history_tab; hp_page : Z; hp_user : option string }.
Definition history0 : HistoryPage := mkHistoryPage AllAuctions 1 None.
Definition itemsPerPage : Z := 10.

Inductive history_event := Tab (t : history_tab) | Previous | Next | OpenRow (path : string) | Identity (user : option string).

(** The list under the tab: every auction, or the closed ones whose winner is the
    visitor; a missing winner and a missing identity are both [null]. *)
Definition history_list (auctions : list Auction.t) (s : HistoryPage) : list Auction.t :=
  match hp_tab s with
  | AllAuctions => auctions
  | WonAuctions =>
      js_filter (fun a => bool_decide (Auction.is_closed a = Some true) && bool_decide (Auction.winner_id a = hp_user s)) auctions
  end.

(** [Math.ceil(n / 10) || 1]. *)
Definition totalPages (n : Z) : Z := let k := (n + itemsPerPage - 1) / itemsPerPage in if k =? 0 then 1 else k.

Definition startIndex (page : Z) : Z := (page - 1) * itemsPerPage.

(** [slice(startIndex, startIndex + itemsPerPage)] for a page of 1 or more. *)
Definition page_of {A} (page : Z) (l : list A) : list A :=
  take (Z.to_nat itemsPerPage) (drop (Z.to_nat (startIndex page)) l).

Definition history_step (auctions : list Auction.t) (e : history_event) (s : HistoryPage) : HistoryPage :=
  match e with
  | Tab t => mkHistoryPage t 1 (hp_user s)
  | Previous => mkHistoryPage (hp_tab s) (Z.max 1 (hp_page s - 1)) (hp_user s)
  | Next =>
      mkHistoryPage (hp_tab s) (Z.min (totalPages (Z.of_nat (length (history_list auctions s)))) (hp_page s + 1)) (hp_user s)
  | OpenRow _ => s
  | Identity u => mkHistoryPage (hp_tab s) (hp_page s) u
  end.
Definition history_run (auctions : list Auction.t) (es : list history_event) (s : HistoryPage) : HistoryPage :=
  fold_left (fun s e => history_step auctions e s) es s.

(** [(..).split(/[ T]/)[0]]. *)
Fixpoint first_word (s : string) : string :=
  match s with
  | EmptyString => EmptyString
  | String c r => if Ascii.eqb c " "%char || Ascii.eqb c "T"%char then EmptyString else String c (first_word r)
  end.

Section History.
Context (date : string -> option Z).

Definition row_closed (now : Z) (a : Auction.t) : bool :=
  match Auction.is_closed a with Some b => b | None => t_le (date (Auction.auction_end_time a)) (Some now) end.

Definition row_path (now : Z) (a : Auction.t) : string :=
  (if row_closed now a then "/auction/bidinfo/" else "/auction/") +:+ Auction.id a.

Definition outcome (now : Z) (user : option string) (a : Auction.t) : string :=
  if negb (row_closed now a) then "Active"
  else if bool_decide (Auction.winner_id a = user) then "Won"
  else if truthy_str (Auction.winner_id a) then "Lost"
  else "Closed".

Definition history_row (now : Z) (user : option string) (a : Auction.t) : node history_event :=
  El "tr" [On "click" (OpenRow (row_path now a))] [
    txt "td" (String.substring 0 8 (Auction.id a) +:+ "...");
    tag "td" [txt "p" (Auction.title a);
      txt "p" (or_ostr (Auction.item_category a) (or_ostr (Auction.origin_address a) "General item") +:+
               match Auction.dest_address a with Some (String c r) => " → " +:+ String c r | _ => EmptyString end)];
    txt "td" (first_word (or_ostr (Auction.pickup_date a) (Auction.auction_end_time a)));
    txt "td" (match Auction.starting_price a with
              | Some p => if truthy_num p then "$" +:+ num_to_string p else "Pending"
              | None => "Pending"
              end);
    txt "td" (outcome now user a)].

Definition history_view (now : Z) (auctions : list Auction.t) (s : HistoryPage) : node history_event :=
  let l := history_list auctions s in
  let n := Z.of_nat (length l) in
  let rows := page_of (hp_page s) l in
  tag "main" ([
    txt "h1" "Bidding History"; txt "p" "Review every auction you joined, across both bid directions.";
    button (Tab AllAuctions) false "All Participated"; button (Tab WonAuctions) false "Won Bids";
    tag "tr" (map (txt "th") ["Ref ID"; "Auction item"; "Date"; "Final Bid"; "Status"]);
    tag "tbody" (map (history_row now (hp_user s)) rows ++
      when (bool_decide (rows = []))
        [txt "td" (match hp_tab s with
                   | WonAuctions => "You have not won any auctions yet."
                   | AllAuctions => "You have not participated in any auctions yet."
                   end)])] ++
    when (0 <? n) [
      txt "p" ("Showing " +:+ string_of_Z (startIndex (hp_page s) + 1) +:+ " to " +:+
               string_of_Z (Z.min (startIndex (hp_page s) + itemsPerPage) n) +:+ " of " +:+ string_of_Z n +:+ " results");
      button Previous (hp_page s =? 1) "Previous";
      button Next (hp_page s =? totalPages n) "Next"]).
End History.

(** ** Lemmas *)

Lemma overview_category auctions c m : c <> "All" ->
  overview_filtered auctions (mkOverview c m) = in_category generalCategory c auctions.
Proof.
  intros Hc. unfold overview_filtered, in_category. apply js_filter_ext. intros a _. simpl.
  by rewrite (bool_decide_eq_false_2 _ Hc).
Qed.

Lemma total_pages_spec n : 0 <= n ->
  1 <= totalPages n /\ n <= totalPages n * 10 /\ (0 < n -> (totalPages n - 1) * 10 < n).
Proof.
  intros H. unfold totalPages, itemsPerPage. pose proof (Z.div_mod (n + 10 - 1) 10 ltac:(done)).
  pose proof (Z.mod_pos_bound (n + 10 - 1) 10 ltac:(done)).
  destruct (_ =? 0) eqn:E; bool_facts; lia.
Qed.

(** The pages from the first on. *)
Definition pages {A} (m : nat) (l : list A) : list (list A) := map (fun k => page_of (Z.of_nat (S k)) l) (seq 0 m).

Lemma page_slice {A} (k : nat) (l : list A) : page_of (Z.of_nat (S k)) l = take 10 (drop (10 * k) l).
Proof. unfold page_of, startIndex, itemsPerPage. do 2 f_equal. lia. Qed.

Lemma pages_concat {A} (m : nat) (l : list A) : concat (pages m l) = take (10 * m) l.
Proof.
  unfold pages. induction m as [|m IH]; [done|].
  rewrite seq_S, map_app, concat_app, IH. simpl map. simpl concat. rewrite app_nil_r, page_slice, take_take_drop.
  f_equal. lia.
Qed.

Definition is_identity (e : history_event) : bool := match e with Identity _ => true | _ => false end.

(** The page is one of those there are. *)
Definition page_ok (auctions : list Auction.t) (s : HistoryPage) : Prop :=
  1 <= hp_page s <= totalPages (Z.of_nat (length (history_list auctions s))).

Lemma page_ok_step auctions e s : is_identity e = false -> page_ok auctions s -> page_ok auctions (history_step auctions e s).
Proof.
  unfold page_ok. intros He H. destruct e; try done; simpl.
  - pose proof (total_pages_spec (Z.of_nat (length (history_list auctions (mkHistoryPage t 1 (hp_user s))))) ltac:(lia)). lia.
  - change (history_list auctions (mkHistoryPage _ _ _)) with (history_list auctions s). lia.
  - change (history_list auctions (mkHistoryPage _ _ _)) with (history_list auctions s). lia.
Qed.

Lemma next_iter auctions s (k : nat) :
  page_ok auctions s ->
  let total := totalPages (Z.of_nat (length (history_list auctions s))) in
  history_run auctions (replicate k Next) s = mkHistoryPage (hp_tab s) (Z.min total (hp_page s + Z.of_nat k)) (hp_user s).
Proof.
  intros H total. unfold history_run.
  assert (G : forall k p, 1 <= p <= total -> fold_left (fun s e => history_step auctions e s) (replicate k Next)
                (mkHistoryPage (hp_tab s) p (hp_user s)) = mkHistoryPage (hp_tab s) (Z.min total (p + Z.of_nat k)) (hp_user s)).
  { induction k0 as [|k0 IH]; intros p Hp; [simpl; f_equal; lia|]. simpl.
    change (history_list auctions (mkHistoryPage _ _ _)) with (history_list auctions s). fold total.
    rewrite IH by lia. f_equal. lia. }
  unfold page_ok in H. fold total in H. specialize (G k (hp_page s) H). by destruct s.
Qed.

(** ** Properties *)

(** the pages of the history are its list: put one after the other they give
    it back, each has at most ten rows and is empty only with the list; from the
    first page the buttons reach every page and never leave them, and the last is
    reached, and Next disabled, after as many clicks as there are other pages. *)
Theorem history_pages_cover auctions es s :
  let l := history_list auctions s in
  let total := totalPages (Z.of_nat (length l)) in
  page_ok auctions s -> forallb (fun e => negb (is_identity e)) es = true ->
  concat (pages (Z.to_nat total) l) = l /\
  page_ok auctions (history_run auctions es s) /\
  (length (page_of (hp_page s) l) <= 10)%nat /\ (page_of (hp_page s) l = [] <-> l = []) /\
  (forall k, 1 <= k <= total -> hp_page (history_run auctions (replicate (Z.to_nat (k - 1)) Next) (mkHistoryPage (hp_tab s) 1 (hp_user s))) = k) /\
  hp_page (history_run auctions (replicate (Z.to_nat (total - hp_page s)) Next) s) = total.
Proof.
  intros l total H He. pose proof (total_pages_spec (Z.of_nat (length l)) ltac:(lia)) as (T1 & T2 & T3). fold total in T1, T2, T3.
  split_and!.
  - rewrite pages_concat. apply take_ge. lia.
  - unfold history_run. clear l total T1 T2 T3. revert s H. induction es as [|e es IH]; intros s H; [done|].
    simpl in *. apply andb_true_iff in He as [He1 He2]. apply IH; [done|].
    apply page_ok_step; [by apply negb_true_iff|done].
  - unfold page_of, itemsPerPage. rewrite length_take. lia.
  - unfold page_ok in H. fold l total in H. unfold page_of, startIndex, itemsPerPage. split.
    + intros E%(f_equal length). rewrite length_take, length_drop, length_nil in E.
      apply length_zero_iff_nil. destruct (decide (length l = 0%nat)) as [|Hn]; [done|]. specialize (T3 ltac:(lia)). lia.
    + intros E. by rewrite E, drop_nil.
  - intros k Hk. rewrite next_iter by (unfold page_ok; simpl; change (history_list auctions (mkHistoryPage _ _ _)) with l; fold total; lia).
    simpl. change (history_list auctions (mkHistoryPage _ _ _)) with l. fold total. lia.
  - rewrite next_iter by done. simpl. fold l total. unfold page_ok in H. fold l total in H. lia.
Qed.

(** A failed search. *)
Definition failed (s : Search) : Prop := truthy_str (Some (sr_error s)) = true.

Lemma failed_step e s :
  (forall k m, e = Answer k (Throw m) -> truthy_str (Some m) = true) -> failed s -> failed (search_step e s).
Proof.
  intros He Hs. destruct e as [q|k r]; simpl; [done|]. destruct (sr_flight s !! k); [|done].
  destruct r; [done|]. by apply (He k).
Qed.

(** an answer is shown whoever asked for it, and a failure is never forgotten:
    of two searches answered in the other order the page keeps the results of the
    first, and once a search has failed no later one is shown: the page is loading
    or shows an error. *)
Theorem search_shows_last_answer s q1 q2 l1 l2 es :
  (sr_flight s = [] ->
   sr_results (search_run [Query q1; Query q2; Answer 1 (Ok (Some l2)); Answer 0 (Ok (Some l1))] s) = l1) /\
  (failed s -> (forall k m, Answer k (Throw m) ∈ es -> truthy_str (Some m) = true) ->
   let s' := search_run es s in
   sr_loading s' = true \/ exists m, truthy_str (Some m) = true /\ search_view s' = txt "div" m).
Proof.
  split; [intros H; unfold search_run; simpl; by rewrite H|].
  intros Hs He s'. assert (F : failed s').
  { unfold s', search_run. clear s'. revert s Hs He. induction es as [|e es IH]; intros s Hs He; [done|]. simpl. apply IH.
    - apply failed_step; [|done]. intros k m ->. apply (He k). by left.
    - intros k m Hm. apply (He k). by right. }
  unfold search_view. destruct (sr_loading s'); [by left|right]. unfold failed in F. rewrite F. eauto.
Qed.

(** the overview counts a category in full but shows eight: the chips are the
    categories once, most numerous first, with as many auctions behind a chip as
    counted, all of that category, of which the first eight get a card. *)
Theorem overview_shows_eight auctions c n m :
  (c, n) ∈ overview_categories auctions -> c <> "All" ->
  let s := overview_step (PickCategory c) (mkOverview "All" m) in
  NoDup (map fst (overview_categories auctions)) /\
  StronglySorted (fun a b => b.2 <= a.2) (overview_categories auctions) /\
  Z.of_nat (length (overview_filtered auctions s)) = n /\
  Forall (fun a => generalCategory a = c) (overview_filtered auctions s) /\
  Z.of_nat (length (overview_cards auctions s)) = Z.min 8 n.
Proof.
  intros Hin Hc s. pose proof (counts_tally generalCategory auctions) as [H1 H2 _ _].
  assert (Hp := js_sort_perm more_first (counts_by generalCategory auctions)).
  unfold overview_categories in *. rewrite js_sort_elem_of in Hin. apply H2 in Hin as [Hn Hpos].
  assert (E : overview_filtered auctions s = in_category generalCategory c auctions) by by apply overview_category.
  split_and!.
  - by rewrite Hp.
  - apply more_first_sorted.
  - by rewrite E, Hn.
  - rewrite E. unfold in_category, js_filter. rewrite Forall_forall. intros a.
    rewrite list_elem_of_In, filter_In, bool_decide_eq_true. tauto.
  - unfold overview_cards. rewrite length_map, length_take, E. unfold size in Hn. lia.
Qed.

(** A visitor without an identity is told to have won every closed auction that has
    no winner. *)
Theorem no_winner_is_won date now a :
  Auction.is_closed a = Some true -> Auction.winner_id a = None ->
  outcome date now (hp_user history0) a = "Won" /\ outcome date now (Some "u") a = "Closed".
Proof. intros Hc Hw. unfold outcome, row_closed. by rewrite Hc, Hw. Qed.

(** ** Witnesses *)
Definition sample_auction (id category : string) : Auction.t :=
  Auction.mk id "T" "D" REVERSE (of_Z 1) None (Some category) None None None None None None None None None None
    "s" "e" None None None None None None (Some (of_Z 10)) None None (Some true) None.
Definition sample_auctions : list Auction.t :=
  map (fun k => sample_auction (string_of_Z (Z.of_nat k)) (if Nat.even k then "Art" else " Tools ")) (seq 0 23).

Lemma history_pages_cover_witness :
  let l := history_list sample_auctions history0 in
  totalPages (Z.of_nat (length l)) = 3 /\
  concat (pages 3 l) = l /\
  page_ok sample_auctions (history_run sample_auctions [Next; Next; Next; Previous] history0) /\
  hp_page (history_run sample_auctions (replicate 2 Next) history0) = 3.
Proof.
  assert (P : page_ok sample_auctions history0) by (unfold page_ok; vm_compute; split; discriminate).
  destruct (history_pages_cover sample_auctions [Next; Next; Next; Previous] history0 P eq_refl) as (H1 & H2 & _ & _ & _ & H3).
  split; [reflexivity|]. split; [exact H1|]. split; [exact H2|exact H3].
Defined.

Lemma search_shows_last_answer_witness :
  let l1 := [sample_auction "1" "Art"] in
  sr_results (search_run [Query "a"; Query "b"; Answer 1 (Ok (Some [])); Answer 0 (Ok (Some l1))] search0) = l1 /\
  let s := search_run [Query "a"; Answer 0 (Throw "down")] search0 in
  let s' := search_run [Query "b"; Answer 0 (Ok (Some l1))] s in
  sr_loading s' = false /\
  (sr_loading s' = true \/ exists m, truthy_str (Some m) = true /\ search_view s' = txt "div" m).
Proof.
  split; [apply (search_shows_last_answer search0 "a" "b" [sample_auction "1" "Art"] [] []); reflexivity|].
  split; [reflexivity|].
  apply (search_shows_last_answer (search_run [Query "a"; Answer 0 (Throw "down")] search0) "" "" [] []
    [Query "b"; Answer 0 (Ok (Some [sample_auction "1" "Art"]))]); [reflexivity|].
  intros k m H. rewrite !elem_of_cons, elem_of_nil in H. by destruct H as [|[|]].
Defined.

Lemma overview_shows_eight_witness :
  let s := overview_step (PickCategory "Art") (mkOverview "All" grid) in
  length (overview_filtered sample_auctions s) = 12%nat /\
  Z.of_nat (length (overview_cards sample_auctions s)) = Z.min 8 12.
Proof.
  split; [vm_compute; reflexivity|].
  apply (overview_shows_eight sample_auctions "Art" 12 grid); [by_decide|discriminate].
Defined.
