(* ===== verification/Shell.v ===== *)
(** * The frame of the application

    What surrounds every page: the guards ([components/AuthGuard.tsx],
    [components/AdminGuard.tsx]), the chrome ([components/AppShell.tsx],
    [components/Header.tsx], [components/Sidebar.tsx], [components/SearchBar.tsx],
    [components/UserMenu.tsx]), the interface slice ([store/slices/uiSlice.ts]),
    the toast ([components/Toast.tsx]) and the dialog of the tab guard
    ([components/auction/ConcurrencyGuardModal.tsx]). *)

From Stdlib Require Import Ascii.
From S2P Require Import Prelude Markup JSNum JSText ApiTypes.
#[local] Open Scope Z_scope.

(** [localStorage]. *)
Notation Storage := (gmap string string).

(** ** The interface slice *)
Record UiState := mkUi { activeTab : string; isSidebarCollapsed : bool }.
Definition ui0 : UiState := mkUi "dashboard" false.

Inductive ui_action := SetActiveTab (t : string) | SetSidebarCollapsed (b : bool) | ToggleSidebarCollapsed.

Definition ui_reducer (s : UiState) (a : ui_action) : UiState :=
  match a with
  | SetActiveTab t => mkUi t (isSidebarCollapsed s)
  | SetSidebarCollapsed b => mkUi (activeTab s) b
  | ToggleSidebarCollapsed => mkUi (activeTab s) (negb (isSidebarCollapsed s))
  end.

(** ** Guards *)
Definition publicRoutes : list string :=
  ["/"; "/login"; "/admin/login"; "/signup"; "/forgot-password"; "/verify-email"].

Definition is_public (pathname : string) : bool := bool_decide (pathname ∈ publicRoutes).

(** [AuthGuard]: [isAuthenticated] is [None] until an effect decides.  The effect
    runs when the path changes; it never sets the flag to [false]. *)
Definition auth_effect (st : Storage) (pathname : string) (flag : option bool) : option bool * list string :=
  if is_public pathname then (Some true, [])
  else if truthy_str (st !! "token") then (Some true, []) else (flag, ["/login"]).

(** Whether the guard renders its children. *)
Definition guard_open (flag : option bool) : bool := match flag with None => false | Some _ => true end.

(** The paths a visitor goes through, each with the storage at that time; the
    result is the guard's flag and the redirects it asked for. *)
Fixpoint guard_run (visits : list (Storage * string)) (flag : option bool) : option bool * list string :=
  match visits with
  | [] => (flag, [])
  | (st, p) :: r =>
      let '(flag1, out1) := auth_effect st p flag in
      let '(flag2, out2) := guard_run r flag1 in (flag2, out1 ++ out2)
  end.

(** [AdminGuard]. *)
Inductive admin_view := Checking | AdminRequired | AdminChildren.
Definition AdminGuard (isLoading : bool) (role : option UserRole) : admin_view :=
  if isLoading then Checking
  else if bool_decide (role = Some ADMIN) then AdminChildren else AdminRequired.

(** ** Chrome *)
Definition hasAppChrome (pathname : string) : bool := negb (is_public pathname).

(** [Header]: the search bar is shown on three kinds of page. *)
Definition showSearch (pathname : string) : bool :=
  String.eqb pathname "/" || String.eqb pathname "/dashboard" || starts_with "/admin" pathname.

(** [SearchBar]: [encodeURIComponent] is the host's. *)
Definition handleSearch (encode : string -> string) (query : string) : option string :=
  if truthy_str (Some (trim query)) then Some ("/search?q=" +:+ encode (trim query)) else None.

Inductive chrome_event := OpenMenu | CloseMenu | ToggleCollapsed | OpenAccount | CloseAccount | SignOut | Query (s : string) | SearchNow.

Definition nav_link (collapsed : bool) (href label : string) : node chrome_event :=
  El "a" [Attr "href" href; On "click" CloseMenu; Attr "title" (if collapsed then label else EmptyString)]
    (when (negb collapsed) [txt "span" label]).

(** [Sidebar]: the links, by role. *)
Definition Sidebar (ui : UiState) (isOpen : bool) (role : option UserRole) : node chrome_event :=
  let c := isSidebarCollapsed ui in
  tag "div" ([El "button" [On "click" OpenMenu] []] ++
    when isOpen [El "div" [On "click" CloseMenu] []] ++
    [tag "aside" [
      El "button" [On "click" CloseMenu] [];
      El "button" [On "click" ToggleCollapsed] [];
      tag "nav" (
        [nav_link c "/dashboard" "Executive Dashboard"] ++
        when (bool_decide (role = Some CUSTOMER))
          [nav_link c "/seller/dashboard" "Seller dashboard"; nav_link c "/sell/new" "Submit listing"] ++
        [nav_link c "/history" "Bidding History"; nav_link c "/profile" "User Profile";
         nav_link c "/settings" "Platform Settings"] ++
        when (bool_decide (role = Some ADMIN))
          [nav_link c "/auction/new" "Create Auction"; nav_link c "/admin" "Admin Console"])]]).

Definition SearchBar (query : string) : node chrome_event :=
  El "form" [On "submit" SearchNow] [
    El "input" [Attr "type" "text"; Attr "placeholder" "Search here"; Attr "value" query; Input "change" Query] []].

(** [UserMenu]: what it read when it was mounted. *)
Record Menu := mkMenu { m_open : bool; m_authenticated : bool; m_name : string }.

Definition mount_menu (st : Storage) : Menu :=
  mkMenu false (truthy_str (st !! "token")) (or_ostr (trim <$> st !! "userName") "Your account").

Definition session_keys : list string := ["token"; "userId"; "userRole"; "userName"].
Definition remove_items (keys : list string) (st : Storage) : Storage := fold_left (fun s k => delete k s) keys st.

(** [handleLogout]: the state, the storage, and the page to load. *)
Definition handleLogout (st : Storage) (m : Menu) : Menu * Storage * string :=
  (mkMenu false false (m_name m), remove_items session_keys st, "/login").

Definition menu_link (href label : string) : node chrome_event :=
  El "a" [Attr "href" href; On "click" CloseAccount] [Txt label].

Definition UserMenu (m : Menu) : node chrome_event :=
  tag "div" ([
    El "button" [On "click" OpenAccount; Attr "aria-label" "Open account menu"]
      [txt "span" (if m_authenticated m then m_name m else "Account")]] ++
    when (m_open m)
      [El "div" [Attr "role" "menu"]
        (if m_authenticated m
         then [txt "p" (m_name m); txt "p" "Manage your AquaBid account";
               menu_link "/dashboard" "Dashboard"; menu_link "/profile" "Update profile";
               menu_link "/settings" "Account settings"; El "button" [On "click" SignOut] [Txt "Sign Out"]]
         else [menu_link "/login" "Sign In"; menu_link "/signup" "Create Account"])]).

Definition Header (pathname query : string) (m : Menu) : node chrome_event :=
  tag "header" ([link "/dashboard" "AquaBid"] ++ when (showSearch pathname) [SearchBar query] ++ [UserMenu m]).

Definition AppShell (pathname query : string) (ui : UiState) (isOpen : bool) (role : option UserRole) (m : Menu)
    (children : node chrome_event) : node chrome_event :=
  if hasAppChrome pathname
  then tag "div" [Header pathname query m; Sidebar ui isOpen role; tag "div" [children]]
  else children.

(** ** Toast

    The timer of a toast belongs to an effect on [message], [duration] and
    [onClose].  A page that passes a new function at every render ([fresh]) starts
    the timer again at every render.  [due] is the time the timer fires. *)
Record Toast := mkToast { t_message : string; t_due : option Z }.

Definition toast_mount (now duration : Z) (message : string) : Toast :=
  mkToast message (if truthy_str (Some message) then Some (now + duration) else None).

Definition toast_render (now duration : Z) (fresh : bool) (message : string) (t : Toast) : Toast :=
  if negb fresh && String.eqb message (t_message t) then t else toast_mount now duration message.

(** The clock reaches [now]: the timer fires, and the page clears the message. *)
Definition toast_fire (now : Z) (t : Toast) : Toast :=
  match t_due t with
  | Some d => if d <=? now then mkToast EmptyString None else t
  | None => t
  end.

Definition toast_view {A} (kind : string) (close : A) (t : Toast) : list (node A) :=
  when (truthy_str (Some (t_message t)))
    [El "Toast" [Attr "type" kind] [txt "p" (t_message t); El "button" [On "click" close] []]].

(** A page that renders at the times [ticks], always with the same message. *)
Fixpoint toast_run (duration : Z) (fresh : bool) (ticks : list Z) (t : Toast) : Toast :=
  match ticks with
  | [] => t
  | now :: r =>
      let t1 := toast_fire now t in
      toast_run duration fresh r (toast_render now duration fresh (t_message t1) t1)
  end.

(** ** The dialog of the tab guard *)
Definition ConcurrencyGuardModal {A} (hasConflict : bool) : list (node A) :=
  when hasConflict [
    tag "div" [
      txt "h2" "Duplicate Session Detected";
      txt "p" "You have another tab or window open for this auction. Bidding across multiple tabs is restricted to prevent race conditions.";
      txt "p" "Please close all other active tabs for this auction to continue."]].

(** ** Properties *)

(** Render times that follow each other by less than [gap]. *)
Fixpoint steady (gap prev : Z) (ticks : list Z) : Prop :=
  match ticks with
  | [] => True
  | now :: r => prev <= now < prev + gap /\ steady gap now r
  end.

Lemma fresh_toast_stays duration prev ticks t :
  truthy_str (Some (t_message t)) = true -> t_due t = Some (prev + duration) -> steady duration prev ticks ->
  t_message (toast_run duration true ticks t) = t_message t.
Proof.
  revert prev t. induction ticks as [|now r IH]; intros prev t Hm Hd; [done|]. intros [Hn Hs]. simpl.
  assert (Hf : toast_fire now t = t)
    by (unfold toast_fire; rewrite Hd; by rewrite (proj2 (Z.leb_gt _ _)) by lia).
  rewrite Hf. unfold toast_render. simpl. unfold toast_mount. rewrite Hm.
  by rewrite (IH now (mkToast (t_message t) (Some (now + duration)))).
Qed.

Lemma still_toast_goes duration prev ticks t d :
  t_due t = Some d -> steady duration prev ticks -> Exists (fun now => d <= now) ticks ->
  t_message (toast_run duration false ticks t) = EmptyString.
Proof.
  intros Hd _. revert t Hd.
  assert (Hgone : forall l, toast_run duration false l (mkToast EmptyString None) = mkToast EmptyString None)
    by (induction l as [|x l IH]; [done|]; simpl; exact IH).
  induction ticks as [|now r IH]; intros t Hd He; [inversion He|]. simpl.
  assert (Ef : toast_fire now t = if d <=? now then mkToast EmptyString None else t)
    by (unfold toast_fire; by rewrite Hd).
  rewrite Ef. destruct (d <=? now) eqn:E.
  - change (toast_render now duration false _ _) with (mkToast EmptyString None). by rewrite Hgone.
  - replace (toast_render now duration false (t_message t) t) with t
      by (unfold toast_render; by rewrite String.eqb_refl).
    apply IH; [done|]. apply Exists_cons in He as [He|He]; [|done]. apply Z.leb_gt in E. lia.
Qed.

(** a toast goes away by itself only on a page that stands still: on a page
    that renders again within the duration with a new [onClose] each time, as every
    page with a clock does, the message stays for ever; with the same [onClose] it
    is gone at the first render after the duration. *)
Theorem toast_outlives_a_ticking_page now duration message ticks :
  message <> EmptyString -> steady duration now ticks ->
  let t := toast_mount now duration message in
  t_message (toast_run duration true ticks t) = message /\
  (Exists (fun x => now + duration <= x) ticks -> t_message (toast_run duration false ticks t) = EmptyString).
Proof.
  intros Hm Hs t. assert (Ht : truthy_str (Some message) = true) by (by destruct message).
  assert (Hd : t_due t = Some (now + duration)) by (unfold t, toast_mount; by rewrite Ht).
  split.
  - by rewrite (fresh_toast_stays duration now ticks t).
  - intros He. by apply (still_toast_goes duration now ticks t (now + duration)).
Qed.

Lemma guard_stays_open visits : guard_open (guard_run visits (Some true)).1 = true.
Proof.
  induction visits as [|[st p] r IH]; [done|]. simpl. unfold auth_effect.
  destruct (is_public p); [|destruct (truthy_str (st !! "token"))];
    destruct (guard_run r (Some true)); exact IH.
Qed.

(** the guard closes a page only to a visitor who starts on it: it opens
    exactly when some page of the visit was public or had a token in storage, and
    from then on it shows every page, also to a visitor whose token is gone, while
    it asks for the login page. *)
Theorem guard_opens_once visits :
  guard_open (guard_run visits None).1 = true <->
  Exists (fun v => is_public v.2 = true \/ truthy_str (v.1 !! "token") = true) visits.
Proof.
  induction visits as [|[st p] r IH]; [split; [done|inversion 1]|].
  rewrite Exists_cons. simpl. unfold auth_effect.
  destruct (is_public p); [|destruct (truthy_str (st !! "token"))].
  - pose proof (guard_stays_open r) as H. destruct (guard_run r (Some true)). simpl in *. tauto.
  - pose proof (guard_stays_open r) as H. destruct (guard_run r (Some true)). simpl in *. tauto.
  - destruct (guard_run r None). simpl in *. rewrite IH. intuition congruence.
Qed.

(** What the sidebar leads to is what the session's role may open. *)
Lemma sidebar_admin_links ui isOpen role :
  "/admin" ∈ links (Sidebar ui isOpen role) <-> AdminGuard false role = AdminChildren.
Proof.
  destruct ui as [tab []], role as [[]|], isOpen;
    (split; intros H; [first [reflexivity | not_here H] | first [by_decide | discriminate]]).
Qed.

Lemma toast_outlives_a_ticking_page_witness :
  t_message (toast_run 5000 true [1000; 2000; 3000; 4000; 5000; 6000] (toast_mount 0 5000 "Saved")) = "Saved".
Proof.
  apply (toast_outlives_a_ticking_page 0 5000 "Saved" [1000; 2000; 3000; 4000; 5000; 6000]).
  - discriminate.
  - simpl; lia.
Defined.
