(* ===== verification/Accounts.v ===== *)
(** * Accounts and sessions

    The server's account rules ([apps/http-server/src/services/auth.rs] with the
    validation of [types.rs]), the session kept in [localStorage]
    ([contexts/AuthContext.tsx]) and the pages that change it: sign up
    ([app/signup/page.tsx]), sign in ([app/login/page.tsx],
    [app/admin/login/page.tsx]), the reset and verification pages
    ([app/forgot-password/page.tsx], [app/verify-email/page.tsx]), the profile
    ([components/profile/UserProfile.tsx]) and the settings
    ([app/settings/page.tsx]).  Sending mail is not modelled. *)

From Stdlib Require Import Ascii.
From S2P Require Import Prelude Markup JSNum JSText ApiTypes Shell.
#[local] Open Scope Z_scope.

(** ** The server *)

(** [AuthResponse]. *)
Record AuthResponse := mkAuth { token : string; role : UserRole; user_id : string; name : string }.

Record User := mkUser {
  u_id : string;
  u_name : string;
  u_company : option string;
  u_password_hash : string;
  u_role : UserRole
}.

(** The users by e-mail, and the one-time codes by e-mail with their expiry. *)
Record AuthServer := mkServer { users : gmap string User; otps : gmap string (string * Z) }.

(** What the sign-up page sends. *)
Record SignUpPayload := mkSignUp {
  su_email : string;
  su_password : string;
  su_name : string;
  su_company_name : option string;
  su_role_type : option string;
  su_otp : string
}.

(** The role of a new account: an administrator is never made here. *)
Definition role_of (role_type : option string) : UserRole :=
  let r := to_upper (default "CARRIER" role_type) in
  if String.eqb r "SELLER" || String.eqb r "CUSTOMER" then CUSTOMER else CARRIER.

Definition shorter (n : Z) (s : string) : bool := Z.of_nat (String.length s) <? n.

(** A session token lives for a day. *)
Definition SESSION_SECONDS : Z := 86400.

Section Server.
(** The e-mail validator of the validation library, the password hash, and the
    signed token of a user, of a role, with an expiry in seconds. *)
Context (is_email : string -> bool) (hash : string -> string) (verify : string -> string -> bool)
  (jwt : string -> UserRole -> Z -> string).

(** [send_otp_service]: a new code replaces the old one and lives for 300 s. *)
Definition send_otp (now : Z) (code email : string) (srv : AuthServer) : result AuthServer :=
  if negb (is_email email) then Throw "Validation failed: email"
  else Ok (mkServer (users srv) (<[email := (code, now + 300)]> (otps srv))).

Definition live_otp (now : Z) (email : string) (srv : AuthServer) : option string :=
  match otps srv !! email with
  | Some (code, expiry) => if now <? expiry then Some code else None
  | None => None
  end.

(** The answer of sign-up and sign-in. *)
Definition auth_response (now : Z) (u : User) : AuthResponse :=
  mkAuth (jwt (u_id u) (u_role u) (now + SESSION_SECONDS)) (u_role u) (u_id u) (u_name u).

(** [sign_up_service]; [uid] is the new identifier. *)
Definition sign_up (now : Z) (uid : string) (p : SignUpPayload) (srv : AuthServer) : result (AuthResponse * AuthServer) :=
  if negb (includes "@" (su_email p) && includes "." (su_email p)) then Throw "Validation failed: email"
  else if shorter 6 (su_password p) then Throw "Validation failed: password"
  else if shorter 2 (su_name p) then Throw "Validation failed: name"
  else if shorter 6 (su_otp p) then Throw "Validation failed: otp"
  else match live_otp now (su_email p) srv with
  | None => Throw "OTP expired or not found. Please request a new one."
  | Some valid_otp =>
      if negb (String.eqb valid_otp (su_otp p)) then Throw "Invalid OTP"
      else match users srv !! su_email p with
      | Some _ => Throw "Email already in use"
      | None =>
          let u := mkUser uid (su_name p) (su_company_name p) (hash (su_password p)) (role_of (su_role_type p)) in
          Ok (auth_response now u, mkServer (<[su_email p := u]> (users srv)) (delete (su_email p) (otps srv)))
      end
  end.

(** [sign_in_service]: the e-mail is compared as it is. *)
Definition sign_in (now : Z) (email password : string) (srv : AuthServer) : result AuthResponse :=
  if negb (is_email email) then Throw "Validation failed: email"
  else if shorter 1 password then Throw "Validation failed: password"
  else match users srv !! email with
  | None => Throw "Invalid credentials"
  | Some u => if verify password (u_password_hash u) then Ok (auth_response now u) else Throw "Invalid credentials"
  end.
End Server.

(** ** The session in storage *)

(** [onSuccess] of the sign-up and sign-in pages. *)
Definition store_session (r : AuthResponse) (st : Storage) : Storage :=
  let st1 := <["userRole" := role_text (role r)]> (<["userId" := user_id r]> (<["token" := token r]> st)) in
  if truthy_str (Some (name r)) then <["userName" := name r]> st1 else st1.

Definition after_signup (r : UserRole) : string :=
  match r with CUSTOMER => "/seller/dashboard" | _ => "/dashboard" end.
Definition after_login (r : UserRole) : string :=
  match r with ADMIN => "/admin" | CUSTOMER => "/seller/dashboard" | CARRIER => "/dashboard" end.

(** [onSuccess] of the administrator's page: another role is signed out. *)
Definition admin_session (r : AuthResponse) (st : Storage) : Storage :=
  if bool_decide (role r = ADMIN) then store_session r st else remove_items session_keys st.

(** [AuthContext]: the session the server confirms, and whether it is known yet. *)
Record AuthValue := mkValue { session : option (string * UserRole); isLoading : bool }.
Definition auth0 : AuthValue := mkValue None true.

(** What the browser keeps: its storage, the value of [AuthContext] on the page, and
    the token whose confirmation the page still waits for. *)
Record Account := mkAccount { kept : Storage; shown : AuthValue; asking : option string }.
Definition account0 : Account := mkAccount ∅ auth0 None.

(** [refresh] up to its request: without a token there is nothing to ask. *)
Definition refresh (a : Account) : Account :=
  match kept a !! "token" with
  | Some (String c s) => mkAccount (kept a) (shown a) (Some (String c s))
  | _ => mkAccount (kept a) (mkValue None false) (asking a)
  end.

(** [refresh] from the answer on: [None] is every failure, the network's too.  What
    is stored meanwhile is not looked at again. *)
Definition refreshed (answer : option (string * UserRole)) (a : Account) : Account :=
  match asking a, answer with
  | None, _ => a
  | Some _, Some (id, r) => mkAccount (<["userRole" := role_text r]> (kept a)) (mkValue (Some (id, r)) false) None
  | Some _, None => mkAccount (delete "userRole" (delete "token" (kept a))) (mkValue None false) None
  end.

(** ** The profile: names *)

(** [s.split(/\s+/)]. *)
Fixpoint split_spaces (skipping : bool) (s : string) : list string :=
  match s with
  | EmptyString => [EmptyString]
  | String c r =>
      if is_space c then (if skipping then split_spaces true r else EmptyString :: split_spaces true r)
      else match split_spaces false r with
           | w :: l => String c w :: l
           | [] => [String c EmptyString]
           end
  end.

(** The first and last name shown, read from storage. *)
Definition profile_names (st : Storage) : string * string :=
  match split_spaces false (or_ostr (trim <$> st !! "userName") EmptyString) with
  | [] => (EmptyString, EmptyString)
  | first :: rest => (first, join " "%char rest)
  end.

(** [handleSave]. *)
Definition save_profile (first last : string) (st : Storage) : Storage :=
  <["userName" := trim (first +:+ " " +:+ last)]> st.

(** ** What can happen to a session *)

(** A sign-in stores its response and loads another page; the old page may still get
    the answer it waits for before it is gone.  [Confirmed false] is a request that
    failed. *)
Inductive account_event :=
| SignedUp (r : AuthResponse)
| SignedIn (r : AuthResponse)
| AdminSignedIn (r : AuthResponse)
| LoggedOut
| PageLoaded
| Confirmed (served : bool)
| ProfileSaved (first last : string).

Definition set_kept (st : Storage) (a : Account) : Account := mkAccount st (shown a) (asking a).

(** [me] is what the server says of a token. *)
Definition account_step (me : string -> option (string * UserRole)) (e : account_event) (a : Account) : Account :=
  match e with
  | SignedUp r | SignedIn r => set_kept (store_session r (kept a)) a
  | AdminSignedIn r => set_kept (admin_session r (kept a)) a
  | LoggedOut => set_kept (remove_items session_keys (kept a)) a
  | PageLoaded => refresh (mkAccount (kept a) auth0 None)
  | Confirmed served => refreshed (if served then asking a ≫= me else None) a
  | ProfileSaved f l => set_kept (save_profile f l (kept a)) a
  end.

Definition account_run (me : string -> option (string * UserRole)) (es : list account_event) : Account :=
  fold_left (fun a e => account_step me e a) es account0.

(** The responses among the events. *)
Definition response_of (e : account_event) : option AuthResponse :=
  match e with SignedUp r | SignedIn r | AdminSignedIn r => Some r | _ => None end.

(** ** The sign-up page *)
Record Details := mkDetails {
  d_name : string;
  d_company : string;
  d_email : string;
  d_password : string;
  d_role_type : string
}.

Record SignupPage := mkSignupPage {
  step_two : bool;
  details : Details;
  otp : string;
  s_toast : option string;
  sending : bool;
  verifying : bool
}.

Definition signup0 : SignupPage :=
  mkSignupPage false (mkDetails EmptyString EmptyString EmptyString EmptyString "CARRIER") EmptyString None false false.

(** [SubmitDetails] carries the texts of the form's fields. *)
Inductive signup_event :=
| SubmitDetails (typed : Details)
| OtpSent
| OtpFailed (error : option string)
| TypeOtp (s : string)
| SubmitOtp
| SignupOk (r : AuthResponse)
| SignupFailed (error : option string)
| BackToDetails
| CloseSignupToast.

Inductive account_effect :=
| PostSendOtp (email : string)
| PostSignup (p : SignUpPayload)
| PostSignin (email password : string)
| PostForgot (email : string)
| Redirect (path : string).

(** What the page keeps of the typed details. *)
Definition clean (t : Details) : Details :=
  mkDetails (trim (d_name t)) (trim (d_company t)) (to_lower (trim (d_email t))) (d_password t)
    (or_str (d_role_type t) "CARRIER").

Definition signup_step (e : signup_event) (p : SignupPage) (st : Storage) :
    SignupPage * Storage * list account_effect :=
  match e with
  | SubmitDetails t =>
      let d := clean t in
      (mkSignupPage (step_two p) d (otp p) (s_toast p) true (verifying p), st, [PostSendOtp (d_email d)])
  | OtpSent => (mkSignupPage true (details p) (otp p) (s_toast p) false (verifying p), st, [])
  | OtpFailed err =>
      (mkSignupPage (step_two p) (details p) (otp p) (Some ("Error: " +:+ or_ostr err "Failed to send OTP"))
         false (verifying p), st, [])
  | TypeOtp s => (mkSignupPage (step_two p) (details p) s (s_toast p) (sending p) (verifying p), st, [])
  | SubmitOtp =>
      let d := details p in
      (mkSignupPage (step_two p) d (otp p) (s_toast p) (sending p) true, st,
       [PostSignup (mkSignUp (d_email d) (d_password d) (d_name d) (Some (d_company d)) (Some (d_role_type d)) (otp p))])
  | SignupOk r =>
      (mkSignupPage (step_two p) (details p) (otp p) (s_toast p) (sending p) false, store_session r st,
       [Redirect (after_signup (role r))])
  | SignupFailed err =>
      (mkSignupPage (step_two p) (details p) (otp p) (Some ("Signup failed: " +:+ or_ostr err "Unknown error"))
         (sending p) false, st, [])
  | BackToDetails => (mkSignupPage false (details p) (otp p) (s_toast p) (sending p) (verifying p), st, [])
  | CloseSignupToast => (mkSignupPage (step_two p) (details p) (otp p) None (sending p) (verifying p), st, [])
  end.

(** ** The sign-in pages *)
Record LoginPage := mkLogin { l_toast : option string; signing_in : bool }.
Definition login0 : LoginPage := mkLogin None false.

Inductive login_event :=
| SubmitLogin (email password : string)
| LoginOk (r : AuthResponse)
| LoginFailed (error : option string)
| CloseLoginToast.

Definition login_failed (error : option string) : LoginPage :=
  mkLogin (Some ("Login failed: " +:+ or_ostr error "Invalid credentials")) false.

Definition login_step (e : login_event) (p : LoginPage) (st : Storage) : LoginPage * Storage * list account_effect :=
  match e with
  | SubmitLogin email password => (mkLogin (l_toast p) true, st, [PostSignin email password])
  | LoginOk r => (mkLogin (l_toast p) false, store_session r st, [Redirect (after_login (role r))])
  | LoginFailed err => (login_failed err, st, [])
  | CloseLoginToast => (mkLogin None (signing_in p), st, [])
  end.

Definition admin_login_step (e : login_event) (p : LoginPage) (st : Storage) :
    LoginPage * Storage * list account_effect :=
  match e with
  | SubmitLogin email password => (mkLogin (l_toast p) true, st, [PostSignin email password])
  | LoginOk r =>
      if bool_decide (role r = ADMIN)
      then (mkLogin (l_toast p) false, admin_session r st, [Redirect "/admin"])
      else (mkLogin (Some "This account does not have administrator access.") false, admin_session r st, [])
  | LoginFailed err => (login_failed err, st, [])
  | CloseLoginToast => (mkLogin None (signing_in p), st, [])
  end.

(** ** The reset page *)
Record ForgotPage := mkForgot { submitted : bool; f_toast : option string; resetting : bool }.
Definition forgot0 : ForgotPage := mkForgot false None false.

Inductive forgot_event := SubmitEmail (email : string) | ResetSent | ResetFailed (error : option string) | CloseForgotToast.

Definition forgot_step (e : forgot_event) (p : ForgotPage) : ForgotPage * list account_effect :=
  match e with
  | SubmitEmail email => (mkForgot (submitted p) (f_toast p) true, [PostForgot email])
  | ResetSent => (mkForgot true (f_toast p) false, [])
  | ResetFailed err => (mkForgot (submitted p) (Some ("Error: " +:+ or_ostr err "Failed to send reset link")) false, [])
  | CloseForgotToast => (mkForgot (submitted p) None (resetting p), [])
  end.

(** ** Views *)

(** An input the page does not control. *)
Definition plain_input {A} (label name kind : string) (constraints : list (string * string)) (hint : string) : node A :=
  El "label" [] [Txt label;
    El "input" (Attr "name" name :: Attr "type" kind :: map (fun kv => Attr kv.1 kv.2) constraints ++
                [Attr "placeholder" hint]) []].

Definition page_toast {A} (message : option string) (close : A) : list (node A) :=
  when (truthy_str message)
    [El "Toast" [] [txt "p" (default EmptyString message); El "button" [On "click" close] []]].

Definition submit {A} (pending : bool) (busy idle : string) : node A :=
  El "button" [Attr "type" "submit"; Disabled pending] [Txt (if pending then busy else idle)].

Definition details_form (p : SignupPage) : node signup_event :=
  El "form" [Attr "id" "details"] [
    plain_input "Full Name" "name" "text" [required] "Enter your full name";
    plain_input "Company Name" "company_name" "text" [] "Enter your business name";
    El "label" [] [Txt "Account Type";
      El "select" [Attr "name" "role_type"] [
        El "option" [Attr "value" "CARRIER"] [Txt "Bidder - browse and bid in auctions"];
        El "option" [Attr "value" "CUSTOMER"] [Txt "Seller - submit products for auction"]]];
    plain_input "Email Address" "email" "email" [required] "name@company.com";
    plain_input "Password" "password" "password" [required; min_length "6"] "password";
    submit (sending p) "Sending..." "Continue"].

Definition code_form (p : SignupPage) : node signup_event :=
  El "form" [On "submit" SubmitOtp] [
    El "label" [] [Txt "Verification Code";
      El "input" [Attr "type" "text"; Attr "required" EmptyString; Attr "maxLength" "6"; Attr "value" (otp p);
                  Input "change" TypeOtp] []];
    submit (verifying p) "Verifying..." "Verify & Complete Signup";
    El "button" [Attr "type" "button"; On "click" BackToDetails] [Txt "Back to edit details"]].

(** The panel beside a form. *)
Definition signup_panel : node signup_event :=
  tag "div" [
    link "/" "ProcureX";
    txt "h2" "Your gateway to the global logistics market.";
    txt "p" "Create your free account today. Shippers save up to 20% on freight costs via Reverse Auctions, and brokers can effortlessly liquidate lost cargo via Forward Auctions.";
    tag "div" [txt "h4" "$50M+"; txt "p" "In processed freight"];
    tag "div" [txt "h4" "99.9%"; txt "p" "Platform uptime"]].

Definition signup_view (p : SignupPage) : node signup_event :=
  tag "div" (page_toast (s_toast p) CloseSignupToast ++ [signup_panel;
    txt "h1" (if step_two p then "Verify Email" else "Create an account");
    txt "p" (if step_two p then "Enter the 6-digit code sent to " +:+ d_email (details p)
             else "Join the premier logistics marketplace.");
    (if step_two p then code_form p else details_form p);
    link "/login" "Sign in"]).

Definition login_panel : node login_event :=
  tag "div" [
    link "/" "ProcureX";
    txt "h2" "Drive freight costs to their true market bottom.";
    txt "p" "Log in to your enterprise dashboard to monitor live Reverse Auctions, bid on Forward Auctions, and manage your capacity seamlessly.";
    txt "p" "Trusted by 10,000+ logistics professionals"].

Definition login_view (p : LoginPage) : node login_event :=
  tag "div" (page_toast (l_toast p) CloseLoginToast ++ [
    login_panel;
    txt "h1" "Welcome back";
    txt "p" "Enter your credentials to access your account.";
    El "form" [] [
      plain_input "Email Address" EmptyString "email" [required] "name@company.com";
      link "/forgot-password" "Forgot password?";
      plain_input "Password" EmptyString "password" [required] "password";
      submit (signing_in p) "Signing In..." "Sign In"];
    txt "button" "Google";
    link "/signup" "Sign up"]).

Definition admin_login_view (p : LoginPage) : node login_event :=
  tag "main" (page_toast (l_toast p) CloseLoginToast ++ [
    txt "h1" "Admin sign in";
    txt "p" "Use your platform administrator account to open the operations console.";
    El "form" [] [
      plain_input "Email address" "email" "email" [required] "admin@company.com";
      plain_input "Password" "password" "password" [required] "password";
      submit (signing_in p) "Signing in" "Open admin console"];
    link "/login" "Use the standard sign in"]).

Definition forgot_view (p : ForgotPage) : node forgot_event :=
  tag "div" (page_toast (f_toast p) CloseForgotToast ++ [
    txt "h1" "Reset Password";
    (if submitted p
     then tag "div" [txt "p" "Check your email!"; txt "p" "If an account exists with that email, a reset link has been sent."]
     else El "form" [] [
       plain_input "Email Address" EmptyString "email" [required] "name@company.com";
       submit (resetting p) "Sending..." "Send Reset Link"]);
    link "/login" "Back to Sign In"]).

(** The verification page: its button does nothing. *)
Definition verify_view : node Empty_set :=
  tag "div" [
    txt "h1" "Verify your email";
    txt "p" "We've sent a verification link to your email address. Please click the link to activate your AquaBid account.";
    El "button" [] [Txt "Resend Verification Email"];
    link "/login" "Proceed to Login"].

(** The profile page: the texts of its fields, and the role-specific section. *)
Record Profile := mkProfile {
  p_first : string; p_last : string; p_email : string; p_phone : string; p_company : string;
  p_industry : string; p_volume : string; p_dot : string; p_fleet : string; p_areas : string
}.

Definition profile0 (st : Storage) : Profile :=
  let '(first, last) := profile_names st in
  mkProfile first last EmptyString EmptyString EmptyString EmptyString "10-50 loads/month" "US-12345678"
    "25-50 trucks" "Midwest, Northeast".

Definition is_seller (v : AuthValue) : bool := bool_decide (snd <$> session v = Some CUSTOMER).

Inductive profile_event := EditField (name value : string) | Save.

Definition edit_field (name value : string) (p : Profile) : Profile :=
  let pick (n old : string) := if String.eqb name n then value else old in
  mkProfile (pick "firstName" (p_first p)) (pick "lastName" (p_last p)) (pick "email" (p_email p))
    (pick "phone" (p_phone p)) (pick "companyName" (p_company p)) (pick "industry" (p_industry p))
    (pick "shippingVolume" (p_volume p)) (pick "dotNumber" (p_dot p)) (pick "fleetSize" (p_fleet p))
    (pick "serviceAreas" (p_areas p)).

Definition profile_input (label kind name value : string) : node profile_event :=
  field label kind [] value (EditField name).

Definition profile_select (label name value : string) (options : list string) : node profile_event :=
  El "label" [] [Txt label;
    El "select" [Attr "name" name; Attr "value" value; Input "change" (EditField name)] (map (txt "option") options)].

Definition first_letter (s : string) : string :=
  match s with String c _ => String c EmptyString | EmptyString => EmptyString end.

Definition business_section (v : AuthValue) (p : Profile) : node profile_event :=
  tag "section" (
    txt "h3" "Business Profile" :: profile_input "Company Name" "text" "companyName" (p_company p) ::
    if is_seller v
    then [profile_input "Industry" "text" "industry" (p_industry p);
          profile_select "Average Shipping Volume" "shippingVolume" (p_volume p)
            ["1-10 loads/month"; "10-50 loads/month"; "50-200 loads/month"; "200+ loads/month"]]
    else [profile_input "Carrier DOT Number" "text" "dotNumber" (p_dot p);
          profile_select "Fleet Size" "fleetSize" (p_fleet p) ["1-5 trucks"; "5-25 trucks"; "25-50 trucks"; "50+ trucks"];
          profile_input "Primary Service Areas" "text" "serviceAreas" (p_areas p)]).

Definition profile_view (v : AuthValue) (p : Profile) : node profile_event :=
  tag "div" [
    txt "span" (or_str (first_letter (p_first p)) "A" +:+ first_letter (p_last p));
    txt "h2" (p_first p +:+ " " +:+ p_last p);
    txt "p" ("Manage your " +:+ (if is_seller v then "Seller" else "Bidder") +:+ " account details and preferences.");
    El "form" [On "submit" Save] [
      tag "section" [
        txt "h3" "Personal Details";
        profile_input "First Name" "text" "firstName" (p_first p);
        profile_input "Last Name" "text" "lastName" (p_last p);
        profile_input "Email Address" "email" "email" (p_email p);
        profile_input "Phone Number" "tel" "phone" (p_phone p)];
      business_section v p;
      El "button" [Attr "type" "submit"] [Txt "Save Changes"]]].

(** [handleSave] with its toast. *)
Definition profile_step (e : profile_event) (p : Profile) (st : Storage) : Profile * Storage * option string :=
  match e with
  | EditField n v => (edit_field n v p, st, None)
  | Save => (p, save_profile (p_first p) (p_last p) st, Some "Profile saved successfully!")
  end.

(** The settings page: preferences by role, and the theme. *)
Definition check_box (s : string) : node string := El "label" [] [El "input" [Attr "type" "checkbox"] []; txt "span" s].

Definition settings_view (v : AuthValue) (theme : string) : node string :=
  tag "div" [
    txt "h1" "Platform Settings";
    txt "p" ("Manage your " +:+ (if is_seller v then "seller" else "bidder") +:+ " preferences and security.");
    txt "button" "Notification Preferences"; txt "button" "Security & Privacy"; txt "button" "Billing & Escrow";
    tag "form" [
      tag "div" (map check_box
        (if is_seller v
         then ["Email me when a new bid is placed on my auction";
               "Alert me when a carrier asks a question in the Q&A thread"; "Daily summary of active auctions"]
         else ["SMS Alert when I am outbid (Reverse Auction)";
               "Alert me 15 minutes before an auction I bid on ends";
               "Notify me of new auctions matching my Service Areas"]));
      El "select" [Attr "value" theme; Input "change" (fun t => t)] [
        El "option" [Attr "value" "light"] [Txt "Light Mode"];
        El "option" [Attr "value" "dark"] [Txt "Dark Mode"];
        El "option" [Attr "value" "system"] [Txt "System Preference"]];
      El "button" [Attr "type" "button"] [Txt "Save Preferences"]]].

(** ** Lemmas *)

Lemma removed_keys st k : k ∈ session_keys -> remove_items session_keys st !! k = None.
Proof.
  unfold session_keys, remove_items. simpl. rewrite !elem_of_cons, elem_of_nil.
  intros [->|[->|[->|[->|[]]]]]; by simplify_map_eq.
Qed.

Lemma stored r st :
  store_session r st !! "token" = Some (token r) /\ store_session r st !! "userId" = Some (user_id r) /\
  store_session r st !! "userRole" = Some (role_text (role r)).
Proof. unfold store_session. destruct (truthy_str _); split_and!; by simplify_map_eq. Qed.

Lemma removed_token st : remove_items session_keys st !! "token" = None.
Proof. apply removed_keys. unfold session_keys. set_solver. Qed.

(** The session in storage is the one of an accepted sign-in. *)
Definition session_of (rs : list AuthResponse) (st : Storage) : Prop :=
  forall t, st !! "token" = Some t -> exists r, r ∈ rs /\ t = token r /\
    st !! "userId" = Some (user_id r) /\ st !! "userRole" = Some (role_text (role r)).

Lemma session_of_mono rs rs' st : (forall r, r ∈ rs -> r ∈ rs') -> session_of rs st -> session_of rs' st.
Proof. intros H Hs t Ht. destruct (Hs t Ht) as (r & ? & ?). exists r. auto. Qed.

Lemma session_of_stored rs r st : r ∈ rs -> session_of rs (store_session r st).
Proof.
  intros Hr t. destruct (stored r st) as (-> & H2 & H3). intros [= <-]. by exists r.
Qed.

Lemma session_of_absent rs st : st !! "token" = None -> session_of rs st.
Proof. intros H t. by rewrite H. Qed.

Section Sessions.
Context (me : string -> option (string * UserRole)).

(** No sign-in is answered while the page waits for a confirmation. *)
Fixpoint in_turn (es : list account_event) (a : Account) : Prop :=
  match es with
  | [] => True
  | e :: es' => (response_of e <> None -> asking a = None) /\ in_turn es' (account_step me e a)
  end.

(** The stored session is of one response, and a question is about the stored token
    unless there is none any more. *)
Definition account_inv (rs : list AuthResponse) (a : Account) : Prop :=
  session_of rs (kept a) /\
  forall t, asking a = Some t -> kept a !! "token" = Some t \/ kept a !! "token" = None.

Lemma account_step_inv rs e a :
  (forall r, r ∈ rs -> me (token r) = None \/ me (token r) = Some (user_id r, role r)) ->
  (forall r, response_of e = Some r -> r ∈ rs) -> (response_of e <> None -> asking a = None) ->
  account_inv rs a -> account_inv rs (account_step me e a).
Proof.
  intros Hme Hr Ht [Hs Ha]. destruct e as [r|r|r| | |served|f l]; simpl in *.
  - split; simpl; [apply session_of_stored, Hr; reflexivity|]. by rewrite Ht.
  - split; simpl; [apply session_of_stored, Hr; reflexivity|]. by rewrite Ht.
  - split; simpl; [|by rewrite Ht]. unfold admin_session.
    case_bool_decide; [apply session_of_stored, Hr; reflexivity|]. apply session_of_absent, removed_token.
  - split; simpl; [apply session_of_absent, removed_token|]. intros t _. right. apply removed_token.
  - unfold refresh. simpl. destruct (kept a !! "token") as [[|c s]|] eqn:Et; split; simpl; try done.
    intros t [= <-]. by left.
  - unfold refreshed. destruct (asking a) as [t|] eqn:Eq; [|by split; simpl; rewrite ?Eq].
    destruct served; simpl; [destruct (me t) as [[id r]|] eqn:Em|]; split; simpl; try done;
      try (apply session_of_absent; by simplify_map_eq).
    intros t' Ht'. rewrite lookup_insert_ne in Ht' by done.
    destruct (Ha t eq_refl) as [Hk|Hk]; [|congruence]. assert (t' = t) as -> by congruence.
    destruct (Hs _ Hk) as (r' & Hin & -> & Hid & _). exists r'.
    destruct (Hme r' Hin) as [|E]; [congruence|]. rewrite Em in E. injection E as -> ->.
    by simplify_map_eq.
  - unfold save_profile. split; simpl; [|intros t Ht'; simplify_map_eq; auto].
    intros t Ht'. simplify_map_eq. destruct (Hs _ Ht') as (r & ? & ? & ? & ?). exists r. by simplify_map_eq.
Qed.

Lemma account_run_inv rs es a :
  (forall r, r ∈ rs -> me (token r) = None \/ me (token r) = Some (user_id r, role r)) ->
  (forall e r, e ∈ es -> response_of e = Some r -> r ∈ rs) -> in_turn es a ->
  account_inv rs a -> account_inv rs (fold_left (fun a e => account_step me e a) es a).
Proof.
  intros Hme. revert a. induction es as [|e es IH]; intros a Hr Ht Ha; [done|]. destruct Ht as [Ht Ht']. simpl.
  apply IH; [|done|].
  - intros e' r He. apply Hr. by right.
  - apply account_step_inv; [done| |done|done]. intros r. apply Hr. by left.
Qed.

(** ** Properties *)

(** the session in storage is never a mixture: after any history of sign-ups,
    sign-ins on either page, sign-outs, loads of a page, confirmations by the server
    that came or failed, and saved profiles, in which no sign-in was answered while
    the page waited for a confirmation, a token in storage is the token of a response
    that was accepted, and the identifier and the role stored beside it are those of
    the same response. *)
Theorem stored_session_is_one_response es t :
  (forall r, r ∈ omap response_of es -> me (token r) = None \/ me (token r) = Some (user_id r, role r)) ->
  in_turn es account0 -> kept (account_run me es) !! "token" = Some t ->
  exists r, r ∈ omap response_of es /\ t = token r /\
    kept (account_run me es) !! "userId" = Some (user_id r) /\
    kept (account_run me es) !! "userRole" = Some (role_text (role r)).
Proof.
  intros Hme Ht. apply (account_run_inv (omap response_of es) es account0); [done| |done|].
  - intros e r He Hr. apply list_elem_of_omap. by exists e.
  - split; [by apply session_of_absent|done].
Qed.

(** a load of the page settles the session: when the question is answered, the page
    shows what the server said of the stored token and stores that role, and otherwise
    neither a session is shown nor a token kept. *)
Theorem page_load_settles a served :
  let a' := account_step me (Confirmed served) (account_step me PageLoaded a) in
  isLoading (shown a') = false /\ asking a' = None /\
  match session (shown a') with
  | Some (id, r) => served = true /\ kept a' !! "userRole" = Some (role_text r) /\
      exists t, kept a !! "token" = Some t /\ kept a' !! "token" = Some t /\ me t = Some (id, r)
  | None => truthy_str (kept a' !! "token") = false
  end.
Proof.
  simpl. unfold refresh. simpl. destruct (kept a !! "token") as [[|c s]|] eqn:Et; simpl; rewrite ?Et; try done.
  destruct served; simpl; [destruct (me (String c s)) as [[id r]|] eqn:Em|]; split_and!; simplify_map_eq; eauto 6.
Qed.
End Sessions.

(** C40: an account is found again only under the e-mail the sign-up page kept: the
    page trims and lowers what was typed, the sign-in page sends it as it is, and
    the server compares e-mails exactly.  After an accepted sign-up, with a hash that
    verifies its own password, e-mails that the validator takes and no other user
    under the text that was typed, the kept e-mail and the password sign in, whenever
    it is, to the same account, role and name with a token of another day, and the
    text that was typed does so exactly when it was already in that form. *)
Theorem sign_in_after_sign_up is_email hash verify jwt now now' uid typed code srv r srv' :
  let d := clean typed in
  let again := mkAuth (jwt uid (role r) (now' + SESSION_SECONDS)) (role r) uid (name r) in
  (forall p, verify p (hash p) = true) ->
  sign_up hash jwt now uid
    (mkSignUp (d_email d) (d_password d) (d_name d) (Some (d_company d)) (Some (d_role_type d)) code) srv = Ok (r, srv') ->
  is_email (d_email d) = true -> is_email (d_email typed) = true ->
  users srv !! d_email typed = None ->
  r = mkAuth (jwt uid (role_of (Some (d_role_type d))) (now + SESSION_SECONDS)) (role_of (Some (d_role_type d))) uid (d_name d) /\
  sign_in is_email verify jwt now' (d_email d) (d_password typed) srv' = Ok again /\
  (sign_in is_email verify jwt now' (d_email typed) (d_password typed) srv' = Ok again <->
   d_email typed = to_lower (trim (d_email typed))) /\
  (sign_in is_email verify jwt now' (d_email typed) (d_password typed) srv' <> Ok again ->
   sign_in is_email verify jwt now' (d_email typed) (d_password typed) srv' = Throw "Invalid credentials").
Proof.
  intros d again Hv Hs He He' Hfree.
  assert (Hd : d_email d = to_lower (trim (d_email typed))) by done.
  assert (Hp : d_password typed = d_password d) by done. rewrite Hp, <-Hd. unfold again. clear again. clearbody d. unfold sign_up in Hs. cbn [su_email su_password su_name su_otp su_role_type su_company_name] in Hs.
  revert Hs. destruct (live_otp now (d_email d) srv) as [valid|], (users srv !! d_email d);
    case_tests; try discriminate; intros Hs; injection Hs as <- <-.
  assert (Hlen : shorter 1 (d_password d) = false).
  { unfold shorter in *. cbn in *. bool_facts. apply Z.ltb_ge. lia. }
  set (u := mkUser uid (d_name d) (Some (d_company d)) (hash (d_password d)) (role_of (Some (d_role_type d)))).
  set (srv2 := mkServer _ _).
  assert (Hin : sign_in is_email verify jwt now' (d_email d) (d_password d) srv2 = Ok (auth_response jwt now' u)).
  { unfold sign_in. rewrite He, Hlen. cbn [negb users srv2]. rewrite lookup_insert_eq. cbn [u_password_hash u].
    by rewrite Hv. }
  split; [done|]. split; [exact Hin|].
  destruct (decide (d_email typed = d_email d)) as [E|E]; [rewrite E, Hin; split; [done|by intros []]|].
  assert (Hno : sign_in is_email verify jwt now' (d_email typed) (d_password d) srv2 = Throw "Invalid credentials").
  { unfold sign_in. rewrite He', Hlen. cbn [negb users srv2]. by rewrite lookup_insert_ne, Hfree. }
  by rewrite Hno.
Qed.

(** ** Witnesses *)
Definition sample_response (id : string) : AuthResponse := mkAuth ("t-" +:+ id) CARRIER id "Ann".
Definition sample_me (t : string) : option (string * UserRole) := if String.eqb t "t-u1" then Some ("u1", CARRIER) else None.

Definition sample_visit : list account_event :=
  [PageLoaded; SignedIn (sample_response "u1"); PageLoaded; ProfileSaved "Ann" "Lee"; Confirmed true].

Lemma stored_session_is_one_response_witness :
  exists r, r ∈ omap response_of sample_visit /\ "t-u1" = token r /\
    kept (account_run sample_me sample_visit) !! "userId" = Some (user_id r) /\
    kept (account_run sample_me sample_visit) !! "userRole" = Some (role_text (role r)).
Proof.
  assert (H : kept (account_run sample_me sample_visit) !! "token" = Some "t-u1") by (vm_compute; reflexivity).
  revert H. apply stored_session_is_one_response.
  - intros r Hr. right. change (r ∈ [sample_response "u1"]) in Hr.
    apply list_elem_of_singleton in Hr as ->. reflexivity.
  - vm_compute. split_and!; by intros.
Defined.

(** A confirmation is asked for the token that was stored when the page was loaded,
    and its answer is applied to the one that is stored when it comes: the refusal of
    an old token removes the new one and leaves its identifier, and the confirmation
    of an old token puts its role beside the new one. *)
Lemma late_answer_drops_new_session :
  let a := account_run sample_me [SignedIn (sample_response "u0"); PageLoaded; SignedIn (sample_response "u1"); Confirmed true] in
  kept a !! "token" = None /\ kept a !! "userId" = Some "u1".
Proof. split; vm_compute; reflexivity. Qed.

Lemma late_answer_mixes_roles :
  let admin := mkAuth "t-u2" ADMIN "u2" "Bo" in
  let a := account_run sample_me [SignedIn (sample_response "u1"); PageLoaded; AdminSignedIn admin; Confirmed true] in
  kept a !! "token" = Some "t-u2" /\ kept a !! "userRole" = Some "CARRIER".
Proof. split; vm_compute; reflexivity. Qed.

(** A request that never reached the server signs the user out. *)
Lemma failed_request_signs_out me r a :
  token r <> EmptyString ->
  let a' := account_step me (Confirmed false) (account_step me PageLoaded (account_step me (SignedIn r) a)) in
  kept a' !! "token" = None /\ kept a' !! "userId" = Some (user_id r).
Proof.
  intros Hr. destruct (stored r (kept a)) as (Ht & Hi & _). destruct (token r) as [|c s] eqn:E; [done|].
  cbn -[store_session]. unfold refresh. simpl. rewrite Ht. simpl. by simplify_map_eq.
Qed.

Definition sample_typed : Details := mkDetails "Ann" "" " Ann@x.io" "secret" "CUSTOMER".
Definition sample_server : AuthServer := mkServer ∅ {["ann@x.io" := ("123456", 300)]}.
Definition sample_hash (p : string) : string := "#" +:+ p.
Definition sample_verify (p h : string) : bool := String.eqb (sample_hash p) h.

Definition sample_token (id : string) (r : UserRole) (expires : Z) : string := id +:+ "." +:+ string_of_Z expires.

Lemma sign_in_after_sign_up_witness :
  exists r srv', sign_up sample_hash sample_token 0 "u1"
      (mkSignUp "ann@x.io" "secret" "Ann" (Some "") (Some "CUSTOMER") "123456") sample_server = Ok (r, srv') /\
    sign_in (includes "@") sample_verify sample_token 1000 "ann@x.io" "secret" srv' =
      Ok (mkAuth "u1.87400" (role r) "u1" (name r)).
Proof.
  destruct (sign_up sample_hash sample_token 0 "u1"
      (mkSignUp "ann@x.io" "secret" "Ann" (Some "") (Some "CUSTOMER") "123456") sample_server) as [[r srv']|e] eqn:E;
    [|vm_compute in E; discriminate].
  exists r, srv'. split; [reflexivity|].
  apply (sign_in_after_sign_up (includes "@") sample_hash sample_verify sample_token 0 1000 "u1" sample_typed "123456"
    sample_server r srv').
  - intros p. unfold sample_verify. apply String.eqb_refl.
  - exact E.
  - reflexivity.
  - reflexivity.
  - reflexivity.
Defined.
