(* ===== verification/Media.v ===== *)
(** * Chosen files: previews and uploads

    What the auction forms do with the files a user picks.  The three auction
    forms ([components/shipment/NewShipmentForm.tsx],
    [components/auction/NewForwardAuctionForm.tsx],
    [components/auction/NewAuctionForm.tsx]) keep a list of previews with object
    URLs and revoke them in the cleanup of an effect that depends on the list; the
    seller's page ([app/sell/new/page.tsx]) keeps a list and never revokes.  All
    four upload the files one after the other before they send the form. *)

From Stdlib Require Import Ascii.
From stdpp Require Import pretty.
From S2P Require Import Prelude JSNum JSText ApiTypes.
#[local] Open Scope Z_scope.
#[local] Open Scope aqua_scope.

(** ** Object URLs

    [URL.createObjectURL] returns a new text every time; [alive] are the texts
    that still resolve. *)
Record Urls := mkUrls { next_url : Z; alive : gset string }.
Definition urls0 : Urls := mkUrls 0 ∅.

Definition url_text (n : Z) : string := "blob:" +:+ string_of_Z n.

Definition createObjectURL (u : Urls) : string * Urls :=
  (url_text (next_url u), mkUrls (next_url u + 1) ({[url_text (next_url u)]} ∪ alive u)).

Definition revokeObjectURL (url : string) (u : Urls) : Urls := mkUrls (next_url u) (alive u ∖ {[url]}).

Definition revoke_all (l : list MediaPreview.t) (u : Urls) : Urls :=
  fold_left (fun u m => revokeObjectURL (MediaPreview.url m) u) l u.

(** ** The list of previews *)

Definition media_kind (mime : string) : media_type := if starts_with "video/" mime then video else image.
Arguments media_kind mime : simpl never.

(** One picked file with the identifier the host made for it
    ([Math.random()...] or [crypto.randomUUID()]). *)
Definition preview (id : string) (f : File) (u : Urls) : MediaPreview.t * Urls :=
  let '(url, u') := createObjectURL u in
  (MediaPreview.mk id f url (media_kind (file_type f)), u').

Fixpoint previews (files : list (string * File)) (u : Urls) : list MediaPreview.t * Urls :=
  match files with
  | [] => ([], u)
  | (id, f) :: r =>
      let '(m, u1) := preview id f u in
      let '(ms, u2) := previews r u1 in (m :: ms, u2)
  end.

Record Gallery := mkGallery { media : list MediaPreview.t; urls : Urls }.
Definition gallery0 : Gallery := mkGallery [] urls0.

Inductive media_event :=
| PickFiles (files : list (string * File))
| RemoveMedia (id : string)
| ClearMedia.

(** [setMedia]: the effect's cleanup runs with the list it was set up with. *)
Definition commit (g : Gallery) (l : list MediaPreview.t) (u : Urls) : Gallery :=
  mkGallery l (revoke_all (media g) u).

Definition handleFileChange (files : list (string * File)) (g : Gallery) : Gallery :=
  let '(ms, u) := previews files (urls g) in commit g (media g ++ ms) u.

Definition removeMedia (id : string) (g : Gallery) : Gallery :=
  commit g (js_filter (fun m => negb (bool_decide (MediaPreview.id m = id))) (media g))
    (match js_find (fun m => bool_decide (MediaPreview.id m = id)) (media g) with
     | Some m => revokeObjectURL (MediaPreview.url m) (urls g)
     | None => urls g
     end).

Definition gallery_step (e : media_event) (g : Gallery) : Gallery :=
  match e with
  | PickFiles files => handleFileChange files g
  | RemoveMedia id => removeMedia id g
  | ClearMedia => commit g [] (urls g)
  end.

Definition gallery_run (es : list media_event) : Gallery :=
  fold_left (fun g e => gallery_step e g) es gallery0.

(** Leaving the page runs the last cleanup. *)
Definition unmount_gallery (g : Gallery) : Urls := revoke_all (media g) (urls g).

(** The seller's page appends the picked files and removes by position. *)
Definition seller_step (e : media_event + nat) (g : Gallery) : Gallery :=
  match e with
  | inl (PickFiles files) =>
      let '(ms, u) := previews files (urls g) in mkGallery (media g ++ ms) u
  | inl _ => g
  | inr i => mkGallery (delete i (media g)) (urls g)
  end.
Definition seller_run (es : list (media_event + nat)) : Gallery :=
  fold_left (fun g e => seller_step e g) es gallery0.

(** ** Uploads *)

(** The upload service's answer to a file: whether the status is a success, the
    body's error and its URL. *)
Record upload_reply := mkUpload { up_ok : bool; up_error : option string; secure_url : option string }.

(** The loop of the three auction forms.  [failure] is the error of a failed
    upload; the loop stops there.  The texts are the files sent. *)
Fixpoint upload_media (reply : File -> upload_reply) (failure : File -> string) (l : list MediaPreview.t) :
    list string * result (list (option string)) :=
  match l with
  | [] => ([], Ok [])
  | m :: r =>
      let f := MediaPreview.file m in
      if up_ok (reply f) then
        let '(sent, res) := upload_media reply failure r in
        (file_name f :: sent,
         match res with
         | Ok us => Ok (secure_url (reply f) :: us)
         | Throw e => Throw e
         end)
      else ([file_name f], Throw (failure f))
  end.

Definition form_failure (_ : File) : string := "Failed to upload media".
Definition named_failure (f : File) : string := "Could not upload " +:+ file_name f.

(** The seller's page also insists on a URL. *)
Definition seller_reply (reply : File -> upload_reply) (f : File) : result string :=
  if up_ok (reply f) then
    if truthy_str (secure_url (reply f)) then Ok (default EmptyString (secure_url (reply f)))
    else Throw ("Upload did not return a media URL for " +:+ file_name f)
  else Throw (or_ostr (up_error (reply f)) (named_failure f)).

Fixpoint seller_upload (reply : File -> upload_reply) (l : list MediaPreview.t) : result (list string) :=
  match l with
  | [] => Ok []
  | m :: r =>
      let* u := seller_reply reply (MediaPreview.file m) in
      let* us := seller_upload reply r in Ok (u :: us)
  end.

(** ** Lemmas *)

Definition url_set (l : list MediaPreview.t) : gset string := list_to_set (MediaPreview.url <$> l).

Lemma url_set_app l m : url_set (l ++ m) = url_set l ∪ url_set m.
Proof. unfold url_set. by rewrite fmap_app, list_to_set_app_L. Qed.

Lemma revoke_all_alive l u :
  alive (revoke_all l u) = alive u ∖ url_set l /\ next_url (revoke_all l u) = next_url u.
Proof.
  unfold revoke_all. revert u. induction l as [|m l IH]; intros u; [split; [set_solver|done]|].
  simpl. destruct (IH (revokeObjectURL (MediaPreview.url m) u)) as [H1 H2].
  rewrite H1, H2. unfold url_set. simpl. split; [set_solver|done].
Qed.

(** Every URL of a list was made, and before the ones to come. *)
Definition made (n : Z) (l : list MediaPreview.t) : Prop :=
  forall m, m ∈ l -> exists k, MediaPreview.url m = url_text k /\ k < n.

Lemma made_weaken n n' l : n <= n' -> made n l -> made n' l.
Proof. intros Hn H m Hm. destruct (H m Hm) as (k & ? & ?). exists k. split; [done|lia]. Qed.

#[export] Instance url_text_inj : Inj eq eq url_text.
Proof. intros a b H. unfold url_text in H. by apply (inj (String.append "blob:")), (inj pretty) in H. Qed.

(** What picking files makes: URLs never made before, all alive. *)
Lemma previews_spec files u :
  let '(ms, u') := previews files u in
  next_url u <= next_url u' /\ made (next_url u') ms /\
  (forall m, m ∈ ms -> exists k, MediaPreview.url m = url_text k /\ next_url u <= k) /\
  alive u' = alive u ∪ url_set ms /\
  MediaPreview.id <$> ms = files.*1 /\ MediaPreview.file <$> ms = files.*2.
Proof.
  revert u. induction files as [|[i f] files IH]; intros u; simpl.
  - split; [lia|]. split; [by intros m ?%not_elem_of_nil|].
    split; [by intros m ?%not_elem_of_nil|]. split; [unfold url_set; set_solver|done].
  - specialize (IH (mkUrls (next_url u + 1) ({[url_text (next_url u)]} ∪ alive u))).
    destruct (previews files _) as [ms u2]. simpl in IH. destruct IH as (H1 & H2 & H3 & H4 & H5 & H6).
    split; [lia|]. split; [|split; [|split; [|simpl; split; by f_equal]]].
    + intros m [->|Hm]%elem_of_cons; [exists (next_url u); simpl; split; [done|lia]|auto].
    + intros m [->|Hm]%elem_of_cons; [exists (next_url u); simpl; split; [done|lia]|].
      destruct (H3 m Hm) as (k & ? & ?). exists k. split; [done|lia].
    + rewrite H4. unfold url_set. simpl. set_solver.
Qed.

(** New URLs are not those of the list. *)
Lemma made_disjoint n l ms :
  made n l -> (forall m, m ∈ ms -> exists k, MediaPreview.url m = url_text k /\ n <= k) ->
  url_set ms ∖ url_set l = url_set ms.
Proof.
  intros Hl Hm. apply set_eq. intros x. rewrite elem_of_difference. split; [tauto|]. intros Hx. split; [done|].
  unfold url_set in *. rewrite elem_of_list_to_set, list_elem_of_fmap in *. intros (y & -> & Hy).
  destruct Hx as (m & E & Hin). destruct (Hl y Hy) as (k & E1 & ?). destruct (Hm m Hin) as (k' & E2 & ?).
  rewrite E1, E2 in E. apply (inj url_text) in E. lia.
Qed.

Record gallery_inv (g : Gallery) : Prop := {
  gi_made : made (next_url (urls g)) (media g);
  gi_alive : alive (urls g) ⊆ url_set (media g)
}.

(** One event: what is alive afterwards are the URLs the event itself made. *)
Lemma gallery_step_spec e g :
  gallery_inv g ->
  let g' := gallery_step e g in
  gallery_inv g' /\
  alive (urls g') = match e with
                    | PickFiles files => url_set (previews files (urls g)).1
                    | _ => ∅
                    end /\
  (match e with
   | PickFiles files => media g' = media g ++ (previews files (urls g)).1
   | RemoveMedia id => media g' = js_filter (fun m => negb (bool_decide (MediaPreview.id m = id))) (media g)
   | ClearMedia => media g' = []
   end).
Proof.
  intros [Hm Ha]. destruct e as [files|id|]; simpl.
  - unfold handleFileChange. pose proof (previews_spec files (urls g)) as Hs.
    destruct (previews files (urls g)) as [ms u]. destruct Hs as (H1 & H2 & H3 & H4 & _).
    unfold commit. simpl. destruct (revoke_all_alive (media g) u) as [E1 E2].
    assert (E : alive (revoke_all (media g) u) = url_set ms).
    { rewrite E1, H4, difference_union_distr_l_L, (made_disjoint _ _ _ Hm H3).
      assert (alive (urls g) ∖ url_set (media g) = ∅) as -> by set_solver. by rewrite union_empty_l_L. }
    split; [|split; [exact E|done]]. split; simpl.
    + rewrite E2. intros m [Hin|Hin]%elem_of_app; [by apply (made_weaken _ _ _ H1 Hm)|auto].
    + rewrite E, url_set_app. set_solver.
  - unfold removeMedia, commit. simpl.
    match goal with |- context [revoke_all _ ?u] => set (u1 := u) end.
    destruct (revoke_all_alive (media g) u1) as [E1 E2].
    assert (Hn : next_url u1 = next_url (urls g)) by (unfold u1; by case_match).
    assert (Hs : alive u1 ⊆ alive (urls g)) by (unfold u1; case_match; simpl; set_solver).
    assert (E : alive (revoke_all (media g) u1) = ∅) by (rewrite E1; set_solver).
    split; [|done]. split; simpl; [|rewrite E; set_solver].
    rewrite E2, Hn. intros m Hin. apply Hm. revert Hin. unfold js_filter.
    rewrite !list_elem_of_In, filter_In. tauto.
  - unfold commit. simpl. destruct (revoke_all_alive (media g) (urls g)) as [E1 E2].
    assert (E : alive (revoke_all (media g) (urls g)) = ∅) by (rewrite E1; set_solver).
    split; [|done]. split; simpl; [by intros m ?%not_elem_of_nil|rewrite E; set_solver].
Qed.

Lemma gallery_run_snoc es e : gallery_run (es ++ [e]) = gallery_step e (gallery_run es).
Proof. unfold gallery_run. by rewrite fold_left_app. Qed.

Lemma gallery_run_inv es : gallery_inv (gallery_run es).
Proof.
  induction es as [|e es IH] using rev_ind.
  - split; [by intros m ?%not_elem_of_nil|set_solver].
  - rewrite gallery_run_snoc. by apply gallery_step_spec.
Qed.

Lemma seller_run_snoc es e : seller_run (es ++ [e]) = seller_step e (seller_run es).
Proof. unfold seller_run. by rewrite fold_left_app. Qed.

(** ** Properties *)

(** a preview lasts until the next change of the list: after any history, the
    URLs that still resolve are those the last event made, so adding files or
    removing one breaks every preview shown before, which stays in the list; and
    leaving the form leaves no URL alive. *)
Theorem only_newest_previews_resolve es e :
  let g := gallery_run es in
  let g' := gallery_run (es ++ [e]) in
  alive (urls g') = match e with
                    | PickFiles files => url_set (previews files (urls g)).1
                    | _ => ∅
                    end /\
  (forall files, e = PickFiles files ->
     media g' = media g ++ (previews files (urls g)).1 /\
     MediaPreview.file <$> (previews files (urls g)).1 = files.*2 /\
     forall m, m ∈ media g -> MediaPreview.url m ∉ alive (urls g')) /\
  alive (unmount_gallery g') = ∅.
Proof.
  intros g g'. unfold g'. rewrite gallery_run_snoc. fold g.
  pose proof (gallery_step_spec e g (gallery_run_inv es)) as ([Hm Ha] & Hal & Hmed).
  split; [done|]. split.
  - intros files ->. pose proof (previews_spec files (urls g)) as Hs.
    pose proof (gi_made _ (gallery_run_inv es)) as Hold. fold g in Hold.
    rewrite Hal. destruct (previews files (urls g)) as [ms u]. destruct Hs as (_ & _ & H3 & _ & _ & H6).
    split; [done|]. split; [done|]. intros m Hin.
    cbn [fst]. rewrite <-(made_disjoint _ _ _ Hold H3). intros [_ Hno]%elem_of_difference.
    apply Hno. unfold url_set. rewrite elem_of_list_to_set. by apply list_elem_of_fmap_2.
  - unfold unmount_gallery. destruct (revoke_all_alive (media (gallery_step e g)) (urls (gallery_step e g))) as [-> _].
    set_solver.
Qed.

(** the seller's page never gives a URL back: every URL it makes stays alive,
    whatever is removed from the list. *)
Theorem seller_previews_leak es files :
  alive (urls (seller_run (es ++ [inl (PickFiles files)]))) =
    alive (urls (seller_run es)) ∪ url_set (previews files (urls (seller_run es))).1 /\
  forall i, alive (urls (seller_run (es ++ [inr i]))) = alive (urls (seller_run es)).
Proof.
  split; [|intros i; by rewrite seller_run_snoc].
  rewrite seller_run_snoc. unfold seller_step. pose proof (previews_spec files (urls (seller_run es))) as H.
  destruct (previews files _) as [ms u]. by destruct H as (_ & _ & _ & H & _).
Qed.

(** the upload loop sends the files in order and stops at the first refusal:
    it succeeds exactly when every file is accepted, with the URLs in the order of
    the list, and when it fails the files sent are those up to the first refused
    one, whose error it reports. *)
Theorem upload_stops_at_first_failure reply failure l :
  let '(sent, res) := upload_media reply failure l in
  let files := MediaPreview.file <$> l in
  match res with
  | Ok us => Forall (fun f => up_ok (reply f) = true) files /\ us = (fun f => secure_url (reply f)) <$> files /\
             sent = file_name <$> files
  | Throw e => exists before f after, files = before ++ f :: after /\
      Forall (fun f => up_ok (reply f) = true) before /\ up_ok (reply f) = false /\
      e = failure f /\ sent = file_name <$> before ++ [f]
  end.
Proof.
  induction l as [|m l IH]; simpl; [done|].
  destruct (up_ok (reply (MediaPreview.file m))) eqn:E.
  - destruct (upload_media reply failure l) as [sent [us|e]].
    + destruct IH as (H1 & -> & ->). by repeat constructor.
    + destruct IH as (b & f & a & H1 & H2 & H3 & -> & ->).
      exists (MediaPreview.file m :: b), f, a. split; [simpl; f_equal; exact H1|]. by repeat constructor.
  - exists [], (MediaPreview.file m), (MediaPreview.file <$> l). by repeat constructor.
Qed.
