(* ===== verification/CreateAuction.v ===== *)
(** * Creating an auction

    What the three forms that create auctions share: the payload they send, the
    server's rules for it ([apps/http-server/src/types.rs],
    [services/auction.rs]: [create_auction_service]), and the life of a form from a
    keystroke to the server's answer. *)

From Stdlib Require Import Ascii.
From S2P Require Import Prelude Markup JSNum JSText JSDate ApiTypes Media.
#[local] Open Scope Z_scope.
#[local] Open Scope aqua_scope.

(** [CreateAuctionPayload].  A number that JSON cannot write is sent as [null]. *)
Record Payload := mkPayload {
  py_title : string;
  py_description : string;
  py_auction_type : AuctionDirection;
  py_item_category : option string;
  py_item_condition : option string;
  py_quantity : option num;
  py_quantity_unit : option string;
  py_starting_price : option num;
  py_minimum_bid_step : option num;
  py_reserve_price : option num;
  py_auction_start_time : string;
  py_auction_end_time : string;
  py_pickup_terms : option string;
  py_origin_address : option string;
  py_origin : option num * option num;
  py_dest_address : option string;
  py_dest : option num * option num;
  py_pickup_date : option string;
  py_weight : option num;
  py_length : option num;
  py_width : option num;
  py_height : option num;
  py_media_urls : option (list (option string))
}.

Definition json_num (x : num) : option num := if is_finite x then Some x else None.

(** [Number(s) || null], as the server receives it. *)
Definition number_or_null (s : string) : option num :=
  let x := Number s in if truthy_num x then json_num x else None.

(** [optionalNumber]. *)
Definition optionalNumber (value : string) : option num :=
  match value with
  | EmptyString => None
  | _ => json_num (Number value)
  end.

(** [uploadedMediaUrls.length > 0 ? uploadedMediaUrls : null]. *)
Definition urls_or_null (us : list (option string)) : option (list (option string)) :=
  match us with [] => None | _ => Some us end.

(** ** The server *)

(** [is_some_and(|x| !x.is_finite() || bad(x))]. *)
Definition bad_number (bad : num -> bool) (x : option num) : bool :=
  match x with Some v => negb (is_finite v) || bad v | None => false end.

Section Server.
(** [chrono]'s reading of a UTC timestamp. *)
Context (read_utc : string -> option Z).

(** [create_auction_service] up to the insertions: the first rule that fails is
    reported, otherwise the times are those of the new auction. *)
Definition create_auction_service (p : Payload) : result (Z * Z) :=
  match py_starting_price p with
  | None => Throw "starting_price must be greater than zero"
  | Some price =>
  if negb (is_finite price && nlt nzero price) then Throw "starting_price must be greater than zero"
  else
  let step := default (of_Z 1) (py_minimum_bid_step p) in
  if negb (is_finite step) || nle step nzero then Throw "minimum_bid_step must be greater than zero"
  else if bad_number (fun r => nlt r nzero) (py_reserve_price p) then Throw "reserve_price cannot be negative"
  else if bool_decide (py_auction_type p = FORWARD) &&
          match py_reserve_price p with Some r => nlt r price | None => false end
  then Throw "forward auction reserve_price cannot be below starting_price"
  else if bad_number (fun q => nle q nzero) (py_quantity p) then Throw "quantity must be greater than zero"
  else match read_utc (py_auction_start_time p) with
  | None => Throw "auction_start_time must be a valid UTC timestamp"
  | Some st =>
  match read_utc (py_auction_end_time p) with
  | None => Throw "auction_end_time must be a valid UTC timestamp"
  | Some en =>
  if en - st <=? 0 then Throw "auction_end_time must be after auction_start_time"
  else if en - st <? 5 * 60000 then Throw "Auction duration must be at least 5 minutes"
  else Ok (st, en)
  end end end.

(** [create_auction_handler]: the body must be of the declared types, then its
    validation rules, then the service. *)
Definition create_auction (p : Payload) : result (Z * Z) :=
  if negb (forallb (fun u => bool_decide (is_Some u)) (default [] (py_media_urls p))) then Throw "invalid type: null"
  else if (Z.of_nat (String.length (py_title p)) <? 3) then Throw "Validation failed: title"
  else if (Z.of_nat (String.length (py_description p)) <? 5) then Throw "Validation failed: description"
  else create_auction_service p.
End Server.

(** The timestamps the forms write are read back: with milliseconds to the
    millisecond, without them to the second. *)
Definition reads_back (read_utc : string -> option Z) (t : Z) : Prop :=
  (forall s, toISOString (Some t) = Ok s -> read_utc s = Some t) /\
  (forall s, toISO_no_ms (Some t) = Ok s -> read_utc s = Some (t - t mod 1000)).

(** ** The life of a form *)

(** [data] is what the user typed; [pending] the mutation in flight. *)
Record Form (D : Type) := mkForm {
  f_data : D;
  f_gallery : Gallery;
  f_error : string;
  f_success : string;
  f_pending : bool
}.
Arguments mkForm {D} f_data f_gallery f_error f_success f_pending.
Arguments f_data {D}. Arguments f_gallery {D}. Arguments f_error {D}.
Arguments f_success {D}. Arguments f_pending {D}.

(** What a form adds to the common course: its initial data, how a change edits
    it, its check before submission ([now] is [Date.now()]), which messages a
    submission clears, and the texts of success (for the new identifier) and failure. *)
Record Rules (D C : Type) := mkRules {
  r_initial : D;
  r_change : C -> D -> D;
  r_check : Z -> D -> option string;
  r_clears_first : bool;
  r_clears_error : bool;
  r_success : string -> string;
  r_failure : string -> string
}.
Arguments mkRules {D C} r_initial r_change r_check r_clears_first r_clears_error r_success r_failure.
Arguments r_initial {D C}. Arguments r_change {D C}. Arguments r_check {D C}.
Arguments r_clears_first {D C}. Arguments r_clears_error {D C}. Arguments r_success {D C}. Arguments r_failure {D C}.

Inductive form_event (C : Type) :=
| Change (c : C)
| OnMedia (e : media_event)
| Submit (now : Z)
| Published (id : string)
| Failed (message : string)
| CloseError
| CloseSuccess.
Arguments Change {C} c.
Arguments OnMedia {C} e.
Arguments Submit {C} now.
Arguments Published {C} id.
Arguments Failed {C} message.
Arguments CloseError {C}.
Arguments CloseSuccess {C}.

(** [form_step] gives the new state and the data to publish, if the event starts a
    publication. *)
Definition form_step {D C} (r : Rules D C) (e : form_event C) (f : Form D) : Form D * option D :=
  match e with
  | Change c => (mkForm (r_change r c (f_data f)) (f_gallery f) (f_error f) (f_success f) (f_pending f), None)
  | OnMedia m => (mkForm (f_data f) (gallery_step m (f_gallery f)) (f_error f) (f_success f) (f_pending f), None)
  | Submit now =>
      let ok := if r_clears_first r then EmptyString else f_success f in
      match r_check r now (f_data f) with
      | Some message => (mkForm (f_data f) (f_gallery f) message ok (f_pending f), None)
      | None =>
          (mkForm (f_data f) (f_gallery f)
             (if r_clears_first r || r_clears_error r then EmptyString else f_error f) ok true,
           Some (f_data f))
      end
  | Published id => (mkForm (r_initial r) (gallery_step ClearMedia (f_gallery f)) EmptyString (r_success r id) false, None)
  | Failed m => (mkForm (f_data f) (f_gallery f) (r_failure r m) EmptyString false, None)
  | CloseError => (mkForm (f_data f) (f_gallery f) EmptyString (f_success f) (f_pending f), None)
  | CloseSuccess => (mkForm (f_data f) (f_gallery f) (f_error f) EmptyString (f_pending f), None)
  end.

(** The mutation: the uploads, then the payload made from what the form held when
    it was submitted and from the clock after the uploads, then the server. *)
Definition publish {D} (failure : File -> string) (payload : Z -> D -> list (option string) -> result Payload)
    (reply : File -> upload_reply) (now : Z) (server : Payload -> result (Z * Z)) (d : D)
    (l : list MediaPreview.t) : result (Z * Z) :=
  let* us := (upload_media reply failure l).2 in
  let* p := payload now d us in
  server p.

(** ** Views shared by the forms *)

Definition toast {C} (kind message : string) (close : form_event C) : list (node (form_event C)) :=
  when (truthy_str (Some message))
    [El "Toast" [Attr "type" kind] [txt "p" message; El "button" [On "click" close] []]].

(** The previews of the picked files, each with its remove button. *)
Definition preview_cards {C} (l : list MediaPreview.t) : list (node (form_event C)) :=
  when (negb (bool_decide (l = [])))
    [tag "div" (map (fun m =>
       tag "div" [
         match MediaPreview.type m with
         | image => El "img" [Attr "src" (MediaPreview.url m); Attr "alt" "Preview"] []
         | video => tag "div" [El "video" [Attr "src" (MediaPreview.url m)] []]
         end;
         El "button" [On "click" (OnMedia (RemoveMedia (MediaPreview.id m)))] []]) l)].

Definition submit_button {C} (pending : bool) (busy idle : string) : node (form_event C) :=
  El "button" [Attr "type" "submit"; Disabled pending] [Txt (if pending then busy else idle)].

(** ** Lemmas shared by the forms *)

(** What the server's rules come to. *)
Lemma create_auction_service_ok read_utc p t :
  create_auction_service read_utc p = Ok t <->
  exists price, py_starting_price p = Some price /\ is_finite price = true /\ nlt nzero price = true /\
    is_finite (default (of_Z 1) (py_minimum_bid_step p)) = true /\
    nle (default (of_Z 1) (py_minimum_bid_step p)) nzero = false /\
    bad_number (fun r => nlt r nzero) (py_reserve_price p) = false /\
    bool_decide (py_auction_type p = FORWARD) &&
      match py_reserve_price p with Some r => nlt r price | None => false end = false /\
    bad_number (fun q => nle q nzero) (py_quantity p) = false /\
    read_utc (py_auction_start_time p) = Some (fst t) /\ read_utc (py_auction_end_time p) = Some (snd t) /\
    5 * 60000 <= snd t - fst t.
Proof.
  unfold create_auction_service. destruct t as [st en]. cbn [fst snd].
  destruct (py_starting_price p) as [price|]; [|split; [done|by intros (? & ? & _)]].
  split.
  - intros H. exists price. split; [done|]. case_tests; try done.
    destruct (read_utc (py_auction_start_time p)), (read_utc (py_auction_end_time p)); try done.
    case_tests; try done. bool_facts. injection H as -> ->. repeat split; try done; lia.
  - intros (pr & [= <-] & -> & -> & -> & -> & -> & -> & -> & -> & -> & H). simpl.
    destruct (en - st <=? 0) eqn:E1; bool_facts; [lia|].
    tests.
Qed.

(** A text of a number input: empty or a finite number. *)
Definition number_text (s : string) : Prop := s = EmptyString \/ is_finite (Number s) = true.

Definition all_present (us : list (option string)) : Prop := Forall is_Some us.

(** The URLs of a gallery, when every upload is accepted. *)
Definition uploaded (reply : File -> upload_reply) (l : list MediaPreview.t) : list (option string) :=
  map (fun m => secure_url (reply (MediaPreview.file m))) l.

Definition all_accepted (reply : File -> upload_reply) (l : list MediaPreview.t) : Prop :=
  Forall (fun m => up_ok (reply (MediaPreview.file m)) = true) l.

(** An accepted upload says where the file is. *)
Definition gives_urls (reply : File -> upload_reply) : Prop :=
  forall f, up_ok (reply f) = true -> is_Some (secure_url (reply f)).

Lemma uploads_ok reply failure l us :
  (upload_media reply failure l).2 = Ok us <-> all_accepted reply l /\ us = uploaded reply l.
Proof.
  unfold all_accepted. revert us; induction l as [|m l IH]; intros us; simpl.
  - split; [intros [= <-]; by repeat constructor|by intros [_ ->]].
  - rewrite Forall_cons. destruct (up_ok (reply (MediaPreview.file m))); [|split; [cbn; discriminate|intros [[? _] _]; discriminate]].
    destruct (upload_media reply failure l) as [sent [us'|e]]; simpl in *.
    + destruct (proj1 (IH us') eq_refl) as [H ->]. split; [by intros [= <-]|]. by intros [_ ->].
    + split; [done|]. intros [[_ H] _]. discriminate (proj2 (IH (uploaded reply l)) (conj H eq_refl)).
Qed.

Lemma uploaded_present reply l : gives_urls reply -> all_accepted reply l -> all_present (uploaded reply l).
Proof.
  intros Hu Ha. apply Forall_fmap. eapply Forall_impl; [exact Ha|]. intros m Hm. by apply Hu.
Qed.

(** A publication succeeds when all uploads are accepted and the server accepts the
    payload made of their URLs. *)
Lemma publish_ok {D} failure payload reply now server (d : D) l t :
  publish failure payload reply now server d l = Ok t <->
  all_accepted reply l /\ (let* p := payload now d (uploaded reply l) in server p) = Ok t.
Proof.
  unfold publish. destruct (upload_media reply failure l).2 as [us|e] eqn:E.
  - apply uploads_ok in E as [Ha ->]. simpl. split; [by intros H|by intros [_ H]].
  - split; [done|]. intros [Ha _]. rewrite (proj2 (uploads_ok reply failure l _) (conj Ha eq_refl)) in E. done.
Qed.

Lemma or_str_filled s d : filled s = true -> or_str s d = s.
Proof. by destruct s. Qed.

Lemma urls_present us : all_present us ->
  forallb (fun u => bool_decide (is_Some u)) (default [] (urls_or_null us)) = true.
Proof.
  intros H. apply forallb_forall. intros u Hu. apply bool_decide_eq_true.
  unfold all_present in H. rewrite Forall_forall in H. apply H.
  rewrite list_elem_of_In. destruct us; [done|exact Hu].
Qed.

Lemma positive_rule x : is_finite x = true -> nlt nzero x = negb (nle x nzero).
Proof. intros H%finite_not_nan. by apply nlt_nle_neg. Qed.

Lemma optionalNumber_text s :
  number_text s -> optionalNumber s = if String.eqb s EmptyString then None else Some (Number s).
Proof.
  unfold optionalNumber, json_num. intros [->|H]; [done|].
  destruct s as [|c s]; [done|]. by rewrite H.
Qed.

Lemma filled_number s : number_text s -> filled s = true ->
  is_finite (Number s) = true /\ optionalNumber s = Some (Number s).
Proof.
  intros H Hf. rewrite optionalNumber_text by done. unfold filled in Hf.
  destruct H as [->|H]; [done|]. apply negb_true_iff in Hf. by rewrite Hf.
Qed.

(** The least amount that the forms accept is positive. *)
Lemma cent_positive s : number_text s -> filled s = true -> at_least "0.01" s = true ->
  nlt nzero (Number s) = true.
Proof.
  unfold at_least, filled. intros [->|H]; [done|]. intros Hf Hq. apply negb_true_iff in Hf. rewrite Hf in Hq.
  simpl in Hq. apply negb_true_iff in Hq. rewrite positive_rule by done. apply negb_true_iff.
  assert (Hz : nlt nzero (Number "0.01") = true) by (vm_compute; reflexivity).
  revert Hq Hz. generalize (Number "0.01"). intros m Hq Hz. revert H Hq. generalize (Number s). intros x H Hq.
  apply not_true_is_false. intros Hle. revert Hq. apply not_false_iff_true.
  exact (nle_lt_trans _ _ _ Hle Hz).
Qed.

Lemma quantity_ok s : number_text s -> at_least "0.01" s = true ->
  bad_number (fun q => nle q nzero) (optionalNumber s) = false.
Proof.
  intros H Hq. rewrite optionalNumber_text by done.
  destruct (String.eqb_spec s EmptyString) as [->|Hs]; [done|].
  pose proof (cent_positive s H ltac:(unfold filled; by apply negb_true_iff, String.eqb_neq) Hq) as P.
  destruct H as [->|H]; [done|]. simpl. rewrite H. simpl. rewrite positive_rule in P by done.
  by apply negb_true_iff in P.
Qed.

(** A text that passes [required] and [minLength]. *)
Lemma long_enough m k v :
  Number m = of_Z k -> forallb (fun n => nlt (of_Z n) (of_Z k)) (upto (Z.to_nat k)) = true ->
  filled v = true -> as_long_as m v = true -> k <= Z.of_nat (String.length v).
Proof.
  unfold filled, as_long_as. intros Hm Hk Hf Ha. rewrite Hm in Ha.
  destruct (String.eqb v EmptyString); [done|]. simpl in Ha. apply negb_true_iff in Ha.
  destruct (Z.lt_ge_cases (Z.of_nat (String.length v)) k) as [Hl|Hl]; [|done].
  rewrite (forallb_upto _ _ Hk) in Ha by lia. discriminate.
Qed.

(** A reader of dates that follows the standard reads what the forms write. *)
Lemma date_parse_reads_back z fallback t :
  in_years t -> time_clip t = Some t -> time_clip (t - t mod 1000) = Some (t - t mod 1000) ->
  reads_back (date_parse z fallback) t.
Proof.
  intros Hy Hc Hc'. split; intros s Hs.
  - by rewrite (parse_iso_string z fallback t s Hy Hs).
  - injection Hs as <-. unfold date_parse.
    rewrite (iso_parse_text z t "Z" 0 "Z" (Some 0) Hy) by done. rewrite <-Hc'. f_equal. lia.
Qed.

(** Both sides accept, both refuse, or the case is impossible. *)
Ltac verdicts :=
  case_tests; bool_facts;
  (split; [intros ?; first [discriminate | eexists; reflexivity | exfalso; first [congruence | lia]]
          |intros [? ?]; first [discriminate | reflexivity | exfalso; first [congruence | lia]]]).

(** What the server gets for an amount that the browser let through. *)
Lemma number_or_null_positive s :
  number_text s -> at_least "0" s = true ->
  number_or_null s = if nlt nzero (Number s) then Some (Number s) else None.
Proof.
  intros [->|H] Hm; [reflexivity|]. unfold number_or_null, json_num, at_least in *. rewrite H.
  destruct (String.eqb_spec s EmptyString) as [->|Hs]; [reflexivity|]. simpl in Hm.
  apply negb_true_iff in Hm. revert Hm. change (Number "0") with nzero.
  destruct (Number s) as [b|b| |b m e]; try discriminate; [by destruct b|].
  destruct b; [|done]. discriminate.
Qed.
