(* ===== verification/AdminForm.v ===== *)
(** * The administrator's form ([components/auction/NewAuctionForm.tsx])

    The form that creates an auction of either direction: its fields, the check
    before submission, the payload, the view with the browser's constraints, and
    the theorem that relates them to the server's rules. *)

From Stdlib Require Import Ascii.
From S2P Require Import Prelude Markup JSNum JSText JSDate ApiTypes Media CreateAuction.
#[local] Open Scope Z_scope.
#[local] Open Scope aqua_scope.

Definition INITIAL_FORM : AuctionFormData.t :=
  AuctionFormData.mk EmptyString EmptyString REVERSE
    (default EmptyString (head AUCTION_CATEGORIES)) (default EmptyString (head ITEM_CONDITIONS))
    "1" "item" EmptyString "1" EmptyString EmptyString EmptyString EmptyString EmptyString EmptyString
    EmptyString EmptyString EmptyString EmptyString.

(** [keyof AuctionFormData]; the direction has its own event. *)
Inductive form_field :=
| Title | Description | Category | Condition | Quantity | QuantityUnit | StartingPrice | MinimumBidStep | ReservePrice | StartTime | EndTime | Details | Location | Destination | Length | Width | Height | Weight.

Inductive change := SetField (name : form_field) (value : string) | SetDirection (d : AuctionDirection).

Definition set_field (name : form_field) (v : string) (d : AuctionFormData.t) : AuctionFormData.t :=
  match d with
  | AuctionFormData.mk x0 x1 x2 x3 x4 x5 x6 x7 x8 x9 x10 x11 x12 x13 x14 x15 x16 x17 x18 =>
      match name with
      | Title => AuctionFormData.mk v x1 x2 x3 x4 x5 x6 x7 x8 x9 x10 x11 x12 x13 x14 x15 x16 x17 x18
      | Description => AuctionFormData.mk x0 v x2 x3 x4 x5 x6 x7 x8 x9 x10 x11 x12 x13 x14 x15 x16 x17 x18
      | Category => AuctionFormData.mk x0 x1 x2 v x4 x5 x6 x7 x8 x9 x10 x11 x12 x13 x14 x15 x16 x17 x18
      | Condition => AuctionFormData.mk x0 x1 x2 x3 v x5 x6 x7 x8 x9 x10 x11 x12 x13 x14 x15 x16 x17 x18
      | Quantity => AuctionFormData.mk x0 x1 x2 x3 x4 v x6 x7 x8 x9 x10 x11 x12 x13 x14 x15 x16 x17 x18
      | QuantityUnit => AuctionFormData.mk x0 x1 x2 x3 x4 x5 v x7 x8 x9 x10 x11 x12 x13 x14 x15 x16 x17 x18
      | StartingPrice => AuctionFormData.mk x0 x1 x2 x3 x4 x5 x6 v x8 x9 x10 x11 x12 x13 x14 x15 x16 x17 x18
      | MinimumBidStep => AuctionFormData.mk x0 x1 x2 x3 x4 x5 x6 x7 v x9 x10 x11 x12 x13 x14 x15 x16 x17 x18
      | ReservePrice => AuctionFormData.mk x0 x1 x2 x3 x4 x5 x6 x7 x8 v x10 x11 x12 x13 x14 x15 x16 x17 x18
      | StartTime => AuctionFormData.mk x0 x1 x2 x3 x4 x5 x6 x7 x8 x9 v x11 x12 x13 x14 x15 x16 x17 x18
      | EndTime => AuctionFormData.mk x0 x1 x2 x3 x4 x5 x6 x7 x8 x9 x10 v x12 x13 x14 x15 x16 x17 x18
      | Details => AuctionFormData.mk x0 x1 x2 x3 x4 x5 x6 x7 x8 x9 x10 x11 v x13 x14 x15 x16 x17 x18
      | Location => AuctionFormData.mk x0 x1 x2 x3 x4 x5 x6 x7 x8 x9 x10 x11 x12 v x14 x15 x16 x17 x18
      | Destination => AuctionFormData.mk x0 x1 x2 x3 x4 x5 x6 x7 x8 x9 x10 x11 x12 x13 v x15 x16 x17 x18
      | Length => AuctionFormData.mk x0 x1 x2 x3 x4 x5 x6 x7 x8 x9 x10 x11 x12 x13 x14 v x16 x17 x18
      | Width => AuctionFormData.mk x0 x1 x2 x3 x4 x5 x6 x7 x8 x9 x10 x11 x12 x13 x14 x15 v x17 x18
      | Height => AuctionFormData.mk x0 x1 x2 x3 x4 x5 x6 x7 x8 x9 x10 x11 x12 x13 x14 x15 x16 v x18
      | Weight => AuctionFormData.mk x0 x1 x2 x3 x4 x5 x6 x7 x8 x9 x10 x11 x12 x13 x14 x15 x16 x17 v
      end
  end.

Definition set_direction (k : AuctionDirection) (d : AuctionFormData.t) : AuctionFormData.t :=
  match d with
  | AuctionFormData.mk x0 x1 x2 x3 x4 x5 x6 x7 x8 x9 x10 x11 x12 x13 x14 x15 x16 x17 x18 =>
      AuctionFormData.mk x0 x1 k x3 x4 x5 x6 x7 x8 x9 x10 x11 x12 x13 x14 x15 x16 x17 x18
  end.

(** [field]. *)
Definition edit (c : change) (d : AuctionFormData.t) : AuctionFormData.t :=
  match c with SetField n v => set_field n v d | SetDirection k => set_direction k d end.

Section Form.
(** [new Date(text).getTime()] in the browser. *)
Context (date : string -> option Z).

(** [submit]: the first rule that fails is shown. *)
Definition check (now : Z) (d : AuctionFormData.t) : option string :=
  let startingPrice := Number (AuctionFormData.startingPrice d) in
  let step := Number (AuctionFormData.minimumBidStep d) in
  match date (AuctionFormData.auctionStartTime d), date (AuctionFormData.auctionEndTime d) with
  | Some st, Some en =>
      if en <=? st then Some "Auction end time must be after its start time."
      else if en - st <? 5 * 60000 then Some "Live bidding must run for at least 5 minutes."
      else if negb (is_finite startingPrice) || nle startingPrice nzero
      then Some "Starting price must be greater than zero."
      else if negb (is_finite step) || nle step nzero then Some "Minimum bid step must be greater than zero."
      else if bool_decide (AuctionFormData.auctionType d = FORWARD) &&
              negb (String.eqb (AuctionFormData.reservePrice d) EmptyString) &&
              nlt (Number (AuctionFormData.reservePrice d)) startingPrice
      then Some "A forward-auction reserve cannot be below the starting price."
      else None
  | _, _ => Some "Choose valid start and end times."
  end.

Definition trimmed_or_null (s : string) : option string := or_null (trim s).

Definition payload (now : Z) (d : AuctionFormData.t) (us : list (option string)) : result Payload :=
  let* st := toISOString (date (AuctionFormData.auctionStartTime d)) in
  let* en := toISOString (date (AuctionFormData.auctionEndTime d)) in
  Ok {|
    py_title := trim (AuctionFormData.title d);
    py_description := trim (AuctionFormData.description d);
    py_auction_type := AuctionFormData.auctionType d;
    py_item_category := Some (AuctionFormData.category d);
    py_item_condition := Some (AuctionFormData.itemCondition d);
    py_quantity := optionalNumber (AuctionFormData.quantity d);
    py_quantity_unit := trimmed_or_null (AuctionFormData.quantityUnit d);
    py_starting_price := optionalNumber (AuctionFormData.startingPrice d);
    py_minimum_bid_step := optionalNumber (AuctionFormData.minimumBidStep d);
    py_reserve_price := match AuctionFormData.auctionType d with
                        | FORWARD => optionalNumber (AuctionFormData.reservePrice d)
                        | REVERSE => None
                        end;
    py_auction_start_time := st;
    py_auction_end_time := en;
    py_pickup_terms := trimmed_or_null (AuctionFormData.detailedInformation d);
    py_origin_address := trimmed_or_null (AuctionFormData.location d);
    py_origin := (None, None);
    py_dest_address := trimmed_or_null (AuctionFormData.destination d);
    py_dest := (None, None);
    py_pickup_date := None;
    py_weight := optionalNumber (AuctionFormData.weight d);
    py_length := optionalNumber (AuctionFormData.length d);
    py_width := optionalNumber (AuctionFormData.width d);
    py_height := optionalNumber (AuctionFormData.height d);
    py_media_urls := urls_or_null us
  |}.

(** [`Auction ${id.slice(0, 8)} created successfully.`]. *)
Definition created (id : string) : string :=
  "Auction " +:+ String.substring 0 8 id +:+ " created successfully.".

Definition rules : Rules AuctionFormData.t change :=
  mkRules INITIAL_FORM edit check false true created (fun m => m).

(** [mutationFn]. *)
Definition mutationFn (reply : File -> upload_reply) (read_utc : string -> option Z) (now : Z)
    (d : AuctionFormData.t) (l : list MediaPreview.t) : result (Z * Z) :=
  publish named_failure payload reply now (create_auction read_utc) d l.

(** The component as it is mounted. *)
Definition form0 : Form AuctionFormData.t := mkForm INITIAL_FORM gallery0 EmptyString EmptyString false.

(** ** The view *)

Definition input (label kind : string) (constraints : list (string * string)) (name : form_field)
    (value : string) : node (form_event change) :=
  field label kind constraints value (fun v => Change (SetField name v)).

Definition choice (label : string) (options : list string) (name : form_field) (value : string) :
    node (form_event change) :=
  El "label" [] [Txt label;
    El "select" [Attr "value" value; Input "change" (fun v => Change (SetField name v))]
      (map (txt "option") options)].

Definition direction_buttons : node (form_event change) :=
  tag "section" [
    El "button" [Attr "type" "button"; On "click" (Change (SetDirection REVERSE))] [
      txt "span" "Reverse auction";
      txt "span" "Bids move down. Use it to buy any item, service, capacity, or contract."];
    El "button" [Attr "type" "button"; On "click" (Change (SetDirection FORWARD))] [
      txt "span" "Forward auction";
      txt "span" "Bids move up. Use it to sell any item, service, right, or asset."]].

Definition subject_section (d : AuctionFormData.t) : node (form_event change) :=
  tag "section" [
    txt "h2" "Auction subject";
    input "Title" "text" [required; min_length "3"] Title (AuctionFormData.title d);
    input "Description" "textarea" [required; min_length "5"] Description (AuctionFormData.description d);
    choice "Category" AUCTION_CATEGORIES Category (AuctionFormData.category d);
    choice "Condition" ITEM_CONDITIONS Condition (AuctionFormData.itemCondition d);
    input "Quantity" "number" [min_value "0.01"] Quantity (AuctionFormData.quantity d);
    input "Quantity unit" "text" [] QuantityUnit (AuctionFormData.quantityUnit d)].

Definition price_section (d : AuctionFormData.t) : node (form_event change) :=
  let reverse := bool_decide (AuctionFormData.auctionType d = REVERSE) in
  tag "section" [
    txt "h2" "Price rules";
    input "Starting price" "number" [required; min_value "0.01"] StartingPrice (AuctionFormData.startingPrice d);
    input "Minimum bid step" "number" [required; min_value "0.01"] MinimumBidStep (AuctionFormData.minimumBidStep d);
    El "label" [] ([Txt "Reserve price"] ++ when reverse [txt "span" "(forward only)"] ++
      [El "input" [Attr "type" "number"; Attr "min" "0"; Disabled reverse;
                   Attr "value" (AuctionFormData.reservePrice d);
                   Input "change" (fun v => Change (SetField ReservePrice v))] []])].

Definition schedule_section (d : AuctionFormData.t) : node (form_event change) :=
  tag "section" [
    txt "h2" "Schedule and fulfilment";
    input "Starts" "datetime-local" [required] StartTime (AuctionFormData.auctionStartTime d);
    input "Ends" "datetime-local" [required] EndTime (AuctionFormData.auctionEndTime d);
    input "Location / origin" "text" [] Location (AuctionFormData.location d);
    input "Destination" "text" [] Destination (AuctionFormData.destination d);
    input "Terms and detailed information" "textarea" [] Details (AuctionFormData.detailedInformation d)].

Definition media_section (l : list MediaPreview.t) : node (form_event change) :=
  tag "section" ([
    txt "button" "Add unique item images or video";
    El "input" [Attr "type" "file"; Attr "accept" "image/*,video/*"] []] ++
    when (negb (bool_decide (l = [])))
      [tag "div" (map (fun m =>
         tag "div" [
           El (match MediaPreview.type m with video => "video" | image => "img" end)
             [Attr "src" (MediaPreview.url m)] [];
           El "button" [On "click" (OnMedia (RemoveMedia (MediaPreview.id m)))] []]) l)]).

Definition view (f : Form AuctionFormData.t) : node (form_event change) :=
  let d := f_data f in
  El "form" [] (
    toast "success" (f_success f) CloseSuccess ++ toast "error" (f_error f) CloseError ++ [
    direction_buttons; subject_section d; price_section d; schedule_section d;
    media_section (media (f_gallery f));
    El "button" [Attr "type" "submit"; Disabled (f_pending f)]
      [Txt ("Create " +:+ to_lower (direction_text (AuctionFormData.auctionType d)) +:+ " auction")]]).
End Form.

(** ** Lemmas *)

(** The constraints of the view that concern numbers. *)
Lemma admin_view_valid f :
  form_valid (view f) = true ->
  let d := f_data f in
  at_least "0.01" (AuctionFormData.quantity d) = true /\
  filled (AuctionFormData.startingPrice d) = true /\
  filled (AuctionFormData.minimumBidStep d) = true.
Proof.
  intros H d. unfold view in H. fold d in H. split_valid H.
  destruct H as (_ & _ & _ & Hs & Hp & _). unfold subject_section, price_section, tag, input in Hs, Hp.
  split_valid Hs. split_valid Hp. tauto.
Qed.

(** The server's two rules for a reserve are one: with a positive starting price a
    negative reserve is below it. *)
Lemma reserve_rule s x : number_text s -> nle x nzero = false -> is_finite x = true ->
  bad_number (fun r => nlt r nzero) (optionalNumber s) ||
    match optionalNumber s with Some r => nlt r x | None => false end =
  negb (String.eqb s EmptyString) && nlt (Number s) x.
Proof.
  intros H Hx Hf. rewrite optionalNumber_text by done.
  destruct (String.eqb_spec s EmptyString) as [->|Hs]; [done|].
  destruct H as [->|H]; [done|]. simpl. rewrite H. simpl.
  destruct (nlt (Number s) nzero) eqn:E; [|done]. symmetry.
  apply (nlt_le_trans _ _ _ E), nlt_nle. by rewrite positive_rule, Hx.
Qed.

(** The check and the server's rules agree on a payload whose files have URLs. *)
Lemma admin_payload_rule date read_utc now f us :
  let d := f_data f in
  form_valid (view f) = true ->
  number_text (AuctionFormData.startingPrice d) -> number_text (AuctionFormData.minimumBidStep d) ->
  number_text (AuctionFormData.reservePrice d) -> number_text (AuctionFormData.quantity d) ->
  3 <= Z.of_nat (String.length (trim (AuctionFormData.title d))) ->
  5 <= Z.of_nat (String.length (trim (AuctionFormData.description d))) ->
  all_present us ->
  (forall t, date (AuctionFormData.auctionStartTime d) = Some t \/ date (AuctionFormData.auctionEndTime d) = Some t ->
    reads_back read_utc t) ->
  check date now d = None <->
  exists times, (let* p := payload date now d us in create_auction read_utc p) = Ok times.
Proof.
  intros d Hv Hsp Hst Hrp Hq Ht Hd Hus Hrb.
  destruct (admin_view_valid f Hv) as (Vq & Vsp & Vst). fold d in Vq, Vsp, Vst.
  destruct (filled_number _ Hsp Vsp) as [Fsp Osp]. destruct (filled_number _ Hst Vst) as [Fst Ost].
  pose proof (quantity_ok _ Hq Vq) as Bq.
  unfold check, payload. destruct (date (AuctionFormData.auctionStartTime d)) as [st|] eqn:Est;
    [|simpl; verdicts].
  destruct (date (AuctionFormData.auctionEndTime d)) as [en|] eqn:Een; [|simpl; verdicts].
  unfold toISOString at 1 2. cbn [rbind].
  unfold create_auction, create_auction_service. cbn [py_title py_description py_media_urls py_starting_price py_minimum_bid_step
    py_reserve_price py_auction_type py_quantity py_auction_start_time py_auction_end_time].
  rewrite (proj1 (Hrb _ (or_introl eq_refl))), (proj1 (Hrb _ (or_intror eq_refl))) by reflexivity.
  rewrite urls_present by done. rewrite (proj2 (Z.ltb_ge _ _) Ht), (proj2 (Z.ltb_ge _ _) Hd).
  rewrite Osp, Ost, Bq, Fsp. cbn [default negb orb andb]. rewrite Fst. cbn [negb orb].
  change (nle (of_Z 1) nzero) with false.
  set (x := Number (AuctionFormData.startingPrice d)) in *.
  set (k := Number (AuctionFormData.minimumBidStep d)) in *.
  unfold id. rewrite Fst, (positive_rule x) by done. cbn [negb orb].
  destruct (nle x nzero) eqn:Ex; [simpl; verdicts|].
  pose proof (reserve_rule _ x Hrp Ex Fsp) as Hres. revert Hres.
  destruct (AuctionFormData.auctionType d); rewrite ?bool_decide_true, ?bool_decide_false by done; cbn [negb andb].
  - intros _. verdicts.
  - intros <-. verdicts.
Qed.

(** ** Properties *)

(** C38: the whole publication: on a form that the browser lets through, with number
    inputs holding numbers, times that are read back, a title and a description long
    enough when trimmed and an upload service that answers with URLs, the form's check passes and every upload is accepted exactly when the mutation
    succeeds: the uploads, the payload and the server's rules. *)
Theorem admin_check_is_server_rule date read_utc reply now f :
  let d := f_data f in
  form_valid (view f) = true ->
  number_text (AuctionFormData.startingPrice d) -> number_text (AuctionFormData.minimumBidStep d) ->
  number_text (AuctionFormData.reservePrice d) -> number_text (AuctionFormData.quantity d) ->
  3 <= Z.of_nat (String.length (trim (AuctionFormData.title d))) ->
  5 <= Z.of_nat (String.length (trim (AuctionFormData.description d))) ->
  gives_urls reply ->
  (forall t, date (AuctionFormData.auctionStartTime d) = Some t \/ date (AuctionFormData.auctionEndTime d) = Some t ->
    reads_back read_utc t) ->
  check date now d = None /\ all_accepted reply (media (f_gallery f)) <->
  exists times, mutationFn date reply read_utc now d (media (f_gallery f)) = Ok times.
Proof.
  intros d Hv H1 H2 H3 H4 Ht Hd Hg Hr. unfold mutationFn. split.
  - intros [Hc Ha].
    apply (admin_payload_rule date read_utc now f (uploaded reply (media (f_gallery f)))) in Hc as [t Hc];
      [exists t; by apply publish_ok|try done..]. by apply uploaded_present.
  - intros [t [Ha Hp]%publish_ok]. split; [|done].
    apply (admin_payload_rule date read_utc now f (uploaded reply (media (f_gallery f)))); [try done..|by exists t].
    by apply uploaded_present.
Qed.

(** ** Witness: a forward auction on a winter morning *)
Definition sample_form : Form AuctionFormData.t :=
  mkForm (AuctionFormData.mk "Lathe" "A used lathe" FORWARD "Industrial equipment" "New" "2" "item" "100" "5" "150"
            "2030-01-07T10:00" "2030-01-07T10:30" "" "" "" "" "" "" "")
    gallery0 "" "" false.
Definition read_stamp : string -> option Z := date_parse UTC no_fallback.

Lemma admin_sample_reads_back t :
  read_stamp "2030-01-07T10:00" = Some t \/ read_stamp "2030-01-07T10:30" = Some t -> reads_back read_stamp t.
Proof.
  assert (E1 : read_stamp "2030-01-07T10:00" = Some 1894010400000) by reflexivity.
  assert (E2 : read_stamp "2030-01-07T10:30" = Some 1894012200000) by reflexivity.
  rewrite E1, E2. intros [[= <-]|[= <-]]; (split; intros s Hs; vm_compute in Hs; injection Hs as <-; vm_compute; reflexivity).
Qed.

Definition sample_reply (f : File) : upload_reply :=
  mkUpload true None (Some ("https://media/" +:+ file_name f)).
Definition with_file : Form AuctionFormData.t :=
  mkForm (f_data sample_form) (gallery_step (PickFiles [("m1", mkFile "a.png" "image/png")]) gallery0) "" "" false.

Lemma admin_check_is_server_rule_witness :
  check read_stamp 0 (f_data with_file) = None /\ length (media (f_gallery with_file)) = 1%nat /\
  exists times, mutationFn read_stamp sample_reply read_stamp 0 (f_data with_file) (media (f_gallery with_file)) = Ok times.
Proof.
  assert (H : check read_stamp 0 (f_data with_file) = None) by reflexivity.
  split; [exact H|]. split; [vm_compute; reflexivity|].
  apply (admin_check_is_server_rule read_stamp read_stamp sample_reply 0 with_file).
  - vm_compute. reflexivity.
  - right; reflexivity.
  - right; reflexivity.
  - right; reflexivity.
  - right; reflexivity.
  - discriminate.
  - discriminate.
  - intros g _. by eexists.
  - exact admin_sample_reads_back.
  - split; [exact H|]. by repeat constructor.
Defined.
