(* ===== verification/ForwardForm.v ===== *)
(** * The forward-auction form ([components/auction/NewForwardAuctionForm.tsx])

    The form that starts a forward auction at once: its fields, the check before
    submission, the payload whose start is the instant after the uploads, and the
    view. *)

From Stdlib Require Import Ascii.
From S2P Require Import Prelude Markup JSNum JSText JSDate ApiTypes Media CreateAuction.
#[local] Open Scope Z_scope.
#[local] Open Scope aqua_scope.

Definition initial : ForwardAuctionFormData.t :=
  ForwardAuctionFormData.mk EmptyString EmptyString EmptyString EmptyString EmptyString EmptyString
    EmptyString EmptyString EmptyString
    (or_ostr (head SHIPMENT_CATEGORIES) "Electronics") EmptyString.

Inductive form_field :=
| Title | Description | Length | Width | Height | Weight | Location | StartingPrice | Details | Category | EndDate.

(** [numberFields]. *)
Definition is_number_field (name : form_field) : bool :=
  match name with Weight | StartingPrice | Length | Width | Height => true | _ => false end.

Definition set_field (name : form_field) (v : string) (d : ForwardAuctionFormData.t) : ForwardAuctionFormData.t :=
  match d with
  | ForwardAuctionFormData.mk x0 x1 x2 x3 x4 x5 x6 x7 x8 x9 x10 =>
      match name with
      | Title => ForwardAuctionFormData.mk v x1 x2 x3 x4 x5 x6 x7 x8 x9 x10
      | Description => ForwardAuctionFormData.mk x0 v x2 x3 x4 x5 x6 x7 x8 x9 x10
      | Length => ForwardAuctionFormData.mk x0 x1 v x3 x4 x5 x6 x7 x8 x9 x10
      | Width => ForwardAuctionFormData.mk x0 x1 x2 v x4 x5 x6 x7 x8 x9 x10
      | Height => ForwardAuctionFormData.mk x0 x1 x2 x3 v x5 x6 x7 x8 x9 x10
      | Weight => ForwardAuctionFormData.mk x0 x1 x2 x3 x4 v x6 x7 x8 x9 x10
      | Location => ForwardAuctionFormData.mk x0 x1 x2 x3 x4 x5 v x7 x8 x9 x10
      | StartingPrice => ForwardAuctionFormData.mk x0 x1 x2 x3 x4 x5 x6 v x8 x9 x10
      | Details => ForwardAuctionFormData.mk x0 x1 x2 x3 x4 x5 x6 x7 v x9 x10
      | Category => ForwardAuctionFormData.mk x0 x1 x2 x3 x4 x5 x6 x7 x8 v x10
      | EndDate => ForwardAuctionFormData.mk x0 x1 x2 x3 x4 x5 x6 x7 x8 x9 v
      end
  end.

(** [handleChange]: a number loses its leading zeros. *)
Definition handleChange (c : form_field * string) (d : ForwardAuctionFormData.t) : ForwardAuctionFormData.t :=
  set_field c.1 (if is_number_field c.1 then strip_leading_zeros c.2 else c.2) d.

Section Form.
(** The browser's time zone. *)
Context (z : zone).

(** [handleSubmit]. *)
Definition check (now : Z) (d : ForwardAuctionFormData.t) : option string :=
  if String.eqb (ForwardAuctionFormData.auctionEndDate d) EmptyString
  then Some "Please provide an auction end date."
  else match parseLocalTime z (ForwardAuctionFormData.auctionEndDate d) with
  | None => Some "Please provide a valid auction end date."
  | Some endTime =>
      if endTime - now <? 5 * 60 * 1000 then Some "Auction duration must be at least 5 minutes." else None
  end.

(** The payload; [now] is the clock when it is made. *)
Definition payload (now : Z) (d : ForwardAuctionFormData.t) (us : list (option string)) : result Payload :=
  let* st := toISO_no_ms (time_clip now) in
  let* en := toISO_no_ms (parseLocalTime z (ForwardAuctionFormData.auctionEndDate d)) in
  Ok {|
    py_title := or_str (ForwardAuctionFormData.title d) "Untitled";
    py_description := or_str (ForwardAuctionFormData.description d) "No description";
    py_auction_type := FORWARD;
    py_item_category := or_null (ForwardAuctionFormData.category d);
    py_item_condition := None;
    py_quantity := None;
    py_quantity_unit := None;
    py_starting_price := number_or_null (ForwardAuctionFormData.startingPrice d);
    py_minimum_bid_step := Some (of_Z 1);
    py_reserve_price := None;
    py_auction_start_time := st;
    py_auction_end_time := en;
    py_pickup_terms := or_null (ForwardAuctionFormData.detailedInformation d);
    py_origin_address := Some (or_str (ForwardAuctionFormData.location d) "Unknown");
    py_origin := (Some nzero, Some nzero);
    py_dest_address := None;
    py_dest := (None, None);
    py_pickup_date := None;
    py_weight := number_or_null (ForwardAuctionFormData.weight d);
    py_length := number_or_null (ForwardAuctionFormData.length d);
    py_width := number_or_null (ForwardAuctionFormData.width d);
    py_height := number_or_null (ForwardAuctionFormData.height d);
    py_media_urls := urls_or_null us
  |}.

Definition rules : Rules ForwardAuctionFormData.t (form_field * string) :=
  mkRules initial handleChange check false false
    (fun _ => "Forward Auction Posted Successfully with media!")
    (fun m => or_str m "Error publishing auction.").

(** [mutationFn]; [now] is the clock after the uploads. *)
Definition mutationFn (reply : File -> upload_reply) (read_utc : string -> option Z) (now : Z)
    (d : ForwardAuctionFormData.t) (l : list MediaPreview.t) : result (Z * Z) :=
  publish form_failure payload reply now (create_auction read_utc) d l.

(** The component as it is mounted, and its copy of the handlers of picked files. *)
Definition form0 : Form ForwardAuctionFormData.t := mkForm initial gallery0 EmptyString EmptyString false.
Definition on_media : media_event -> Gallery -> Gallery := gallery_step.

(** ** The view *)

Definition input (label kind : string) (constraints : list (string * string)) (name : form_field)
    (value : string) : node (form_event (form_field * string)) :=
  field label kind constraints value (fun v => Change (name, v)).

Definition product_section (d : ForwardAuctionFormData.t) : node (form_event (form_field * string)) :=
  tag "section" [
    txt "h2" "Product Details";
    input "Product Title" "text" [required] Title (ForwardAuctionFormData.title d);
    El "label" [] [Txt "Category";
      El "select" [Attr "value" (ForwardAuctionFormData.category d); Input "change" (fun v => Change (Category, v))]
        (map (txt "option") SHIPMENT_CATEGORIES)];
    input "Total Weight (lbs)" "number" [required; min_value "0"] Weight (ForwardAuctionFormData.weight d);
    input "Length (ft)" "number" [required; min_value "0"] Length (ForwardAuctionFormData.length d);
    input "Width (ft)" "number" [required; min_value "0"] Width (ForwardAuctionFormData.width d);
    input "Height (ft)" "number" [required; min_value "0"] Height (ForwardAuctionFormData.height d)].

Definition setup_section (d : ForwardAuctionFormData.t) : node (form_event (form_field * string)) :=
  tag "section" [
    txt "h2" "Auction Setup";
    input "Starting Price / Reserve ($)" "number" [required; min_value "0"] StartingPrice
      (ForwardAuctionFormData.startingPrice d);
    txt "p" "Buyers will bid UP starting from this price.";
    input "Current Location (Where is the item?)" "text" [required] Location (ForwardAuctionFormData.location d);
    input "Auction End Date" "datetime-local" [required] EndDate (ForwardAuctionFormData.auctionEndDate d);
    input "Public Description" "textarea" [required] Description (ForwardAuctionFormData.description d);
    input "Additional Terms / Private Info" "textarea" [] Details (ForwardAuctionFormData.detailedInformation d)].

Definition media_section (l : list MediaPreview.t) : node (form_event (form_field * string)) :=
  tag "section" ([
    txt "h2" "Media & Attachments";
    El "input" [Attr "type" "file"; Attr "accept" "image/*,video/*"] [];
    txt "p" "Click to upload photos or videos";
    txt "p" "Drag and drop is supported. Max file size 50MB."] ++ preview_cards l).

Definition view (f : Form ForwardAuctionFormData.t) : node (form_event (form_field * string)) :=
  El "form" [] (
    toast "error" (f_error f) CloseError ++ toast "success" (f_success f) CloseSuccess ++ [
    product_section (f_data f); setup_section (f_data f); media_section (media (f_gallery f));
    submit_button (f_pending f) "Publishing..." "Publish Forward Auction"]).
End Form.

(** ** Lemmas *)
Lemma forward_view_valid f :
  form_valid (view f) = true ->
  let d := f_data f in
  filled (ForwardAuctionFormData.title d) = true /\ filled (ForwardAuctionFormData.description d) = true /\
  filled (ForwardAuctionFormData.startingPrice d) = true /\
  at_least "0" (ForwardAuctionFormData.startingPrice d) = true.
Proof.
  intros H d. unfold view in H. fold d in H. split_valid H.
  destruct H as (_ & _ & Hp & Hs & _). unfold product_section, setup_section, tag, input in Hp, Hs.
  split_valid Hp. split_valid Hs. tauto.
Qed.

(** The server's verdict on a payload whose files have URLs. *)
Lemma forward_payload_rule z read_utc pressed now f us en :
  let d := f_data f in
  form_valid (view f) = true ->
  check z pressed d = None ->
  parseLocalTime z (ForwardAuctionFormData.auctionEndDate d) = Some en ->
  number_text (ForwardAuctionFormData.startingPrice d) ->
  3 <= Z.of_nat (String.length (ForwardAuctionFormData.title d)) ->
  5 <= Z.of_nat (String.length (ForwardAuctionFormData.description d)) ->
  all_present us -> time_clip now = Some now ->
  reads_back read_utc now -> reads_back read_utc en ->
  en mod 1000 = 0 ->
  (exists times, (let* p := payload z now d us in create_auction read_utc p) = Ok times) <->
  nlt nzero (Number (ForwardAuctionFormData.startingPrice d)) = true /\ 300000 <= en - (now - now mod 1000).
Proof.
  intros d Hv Hc Hen Hsp Ht Hd Hus Hclip Hnow Hend Hmod.
  destruct (forward_view_valid f Hv) as (Vt & Vd & Vsp & Vmin). fold d in Vt, Vd, Vsp, Vmin.
  unfold payload. rewrite Hclip, Hen. unfold toISO_no_ms at 1 2. cbn [rbind].
  unfold create_auction, create_auction_service. cbn [py_title py_description py_media_urls py_starting_price py_minimum_bid_step
    py_reserve_price py_auction_type py_quantity py_auction_start_time py_auction_end_time].
  rewrite (proj2 Hnow), (proj2 Hend) by reflexivity.
  rewrite urls_present by done. rewrite !or_str_filled by done.
  rewrite (proj2 (Z.ltb_ge _ _) Ht), (proj2 (Z.ltb_ge _ _) Hd), number_or_null_positive by done.
  assert (Hf : is_finite (Number (ForwardAuctionFormData.startingPrice d)) = true).
  { destruct Hsp as [E|E]; [|done]. rewrite E in Vsp. discriminate. }
  rewrite Hmod, Z.sub_0_r. cbn [negb default bad_number].
  destruct (nlt nzero (Number (ForwardAuctionFormData.startingPrice d))) eqn:Ep; [|split; [intros [? [=]]|by intros [[=] _]]].
  rewrite Hf, Ep. cbn [negb orb andb].
  change (negb (is_finite (id (of_Z 1))) || nle (id (of_Z 1)) nzero) with false.
  rewrite andb_false_r. cbn [orb andb].
  case_tests; bool_facts; (split; [intros [? ?]; first [discriminate | split; [done|lia]]|intros [_ ?]; try lia; eauto]).
Qed.

(** ** Properties *)

(** the form judges the duration when the button is pressed and the server when
    the payload arrives, whose start is the instant after the uploads: a form that
    passed the browser and the check is published exactly when every upload is
    accepted, the price is not zero and five minutes are still left after the
    uploads, counted from the start of that second. *)
Theorem forward_form_races_its_uploads z read_utc reply pressed now f en :
  let d := f_data f in
  form_valid (view f) = true ->
  check z pressed d = None ->
  parseLocalTime z (ForwardAuctionFormData.auctionEndDate d) = Some en ->
  number_text (ForwardAuctionFormData.startingPrice d) ->
  3 <= Z.of_nat (String.length (ForwardAuctionFormData.title d)) ->
  5 <= Z.of_nat (String.length (ForwardAuctionFormData.description d)) ->
  gives_urls reply -> time_clip now = Some now ->
  reads_back read_utc now -> reads_back read_utc en ->
  en mod 1000 = 0 ->
  (exists times, mutationFn z reply read_utc now d (media (f_gallery f)) = Ok times) <->
  all_accepted reply (media (f_gallery f)) /\
  nlt nzero (Number (ForwardAuctionFormData.startingPrice d)) = true /\ 300000 <= en - (now - now mod 1000).
Proof.
  intros d Hv Hc Hen Hsp Ht Hd Hg Hclip Hnow Hend Hmod. unfold mutationFn. split.
  - intros [t [Ha Hp]%publish_ok]. split; [done|].
    apply (forward_payload_rule z read_utc pressed now f (uploaded reply (media (f_gallery f))) en);
      [try done..|by exists t]. by apply uploaded_present.
  - intros [Ha Hr].
    apply (forward_payload_rule z read_utc pressed now f (uploaded reply (media (f_gallery f))) en) in Hr as [t Hp];
      [exists t; by apply publish_ok|try done..]. by apply uploaded_present.
Qed.

(** ** Witness: fifteen seconds of uploads spend the last of the five minutes *)
Definition sample_form : Form ForwardAuctionFormData.t :=
  mkForm (ForwardAuctionFormData.mk "Lathe" "A used lathe" "1" "1" "1" "10" "Seattle" "100" "" "Other" "2030-01-07T10:05")
    gallery0 "" "" false.
Definition read_stamp : string -> option Z := date_parse UTC no_fallback.
Definition ten_oclock : Z := 1894010400000.

Lemma forward_sample_reads_back t : t = ten_oclock + 15000 \/ t = ten_oclock + 300000 -> reads_back read_stamp t.
Proof. intros [->| ->]; (split; intros s Hs; vm_compute in Hs; injection Hs as <-; vm_compute; reflexivity). Qed.

Lemma forward_form_races_its_uploads_witness :
  check UTC ten_oclock (f_data sample_form) = None /\
  ~ exists times, mutationFn UTC (fun _ => mkUpload true None (Some "u")) read_stamp (ten_oclock + 15000)
      (f_data sample_form) (media (f_gallery sample_form)) = Ok times.
Proof.
  assert (H : check UTC ten_oclock (f_data sample_form) = None) by (vm_compute; reflexivity).
  split; [exact H|]. intros Hex.
  apply (forward_form_races_its_uploads UTC read_stamp (fun _ => mkUpload true None (Some "u")) ten_oclock
    (ten_oclock + 15000) sample_form (ten_oclock + 300000)) in Hex.
  - destruct Hex as (_ & _ & Hex). revert Hex. vm_compute. intros Hex. apply Hex. reflexivity.
  - vm_compute. reflexivity.
  - exact H.
  - vm_compute. reflexivity.
  - right. vm_compute. reflexivity.
  - discriminate.
  - discriminate.
  - intros g _. by eexists.
  - reflexivity.
  - apply forward_sample_reads_back. by left.
  - apply forward_sample_reads_back. by right.
  - reflexivity.
Defined.
