(* ===== verification/ShipmentForm.v ===== *)
(** * The shipment form ([components/shipment/NewShipmentForm.tsx])

    The form that creates a reverse auction for a shipment: its fields, the places
    chosen on the map, the sections that fold, the buttons that set the duration,
    the check before submission, the payload and the view.  A folded section is not
    rendered, so the browser does not check its fields.  The map itself is left
    out; the route is requested from it and reported back by an event. *)

From Stdlib Require Import Ascii.
From S2P Require Import Prelude Markup JSNum JSText JSDate ApiTypes Media CreateAuction.
#[local] Open Scope Z_scope.
#[local] Open Scope aqua_scope.

Module ShipmentFormData.
Record t := mk {
  title : string;
  description : string;
  length : string;
  width : string;
  height : string;
  weight : string;
  origin : string;
  originLat : num;
  originLng : num;
  destination : string;
  destLat : num;
  destLng : num;
  initialAmount : string;
  detailedInformation : string;
  category : string;
  timeToDeliver : string;
  pickupDate : string;
  auctionStartTime : string;
  auctionEndTime : string
}.
End ShipmentFormData.

Definition initial : ShipmentFormData.t :=
  ShipmentFormData.mk EmptyString EmptyString EmptyString EmptyString EmptyString EmptyString EmptyString nzero nzero EmptyString nzero nzero EmptyString EmptyString (or_ostr (head SHIPMENT_CATEGORIES) "Electronics") (or_ostr (head TIME_TO_DELIVER_OPTIONS) "Same Day") EmptyString EmptyString EmptyString.

Inductive form_field :=
| Title | Description | Length | Width | Height | Weight | Origin | Destination | InitialAmount | Details | Category | TimeToDeliver | PickupDate | StartTime | EndTime.

(** [numberFields]. *)
Definition is_number_field (name : form_field) : bool :=
  match name with Weight | InitialAmount | Length | Width | Height => true | _ => false end.

Definition set_field (name : form_field) (v : string) (d : ShipmentFormData.t) : ShipmentFormData.t :=
  match d with
  | ShipmentFormData.mk x0 x1 x2 x3 x4 x5 x6 x7 x8 x9 x10 x11 x12 x13 x14 x15 x16 x17 x18 =>
      match name with
      | Title => ShipmentFormData.mk v x1 x2 x3 x4 x5 x6 x7 x8 x9 x10 x11 x12 x13 x14 x15 x16 x17 x18
      | Description => ShipmentFormData.mk x0 v x2 x3 x4 x5 x6 x7 x8 x9 x10 x11 x12 x13 x14 x15 x16 x17 x18
      | Length => ShipmentFormData.mk x0 x1 v x3 x4 x5 x6 x7 x8 x9 x10 x11 x12 x13 x14 x15 x16 x17 x18
      | Width => ShipmentFormData.mk x0 x1 x2 v x4 x5 x6 x7 x8 x9 x10 x11 x12 x13 x14 x15 x16 x17 x18
      | Height => ShipmentFormData.mk x0 x1 x2 x3 v x5 x6 x7 x8 x9 x10 x11 x12 x13 x14 x15 x16 x17 x18
      | Weight => ShipmentFormData.mk x0 x1 x2 x3 x4 v x6 x7 x8 x9 x10 x11 x12 x13 x14 x15 x16 x17 x18
      | Origin => ShipmentFormData.mk x0 x1 x2 x3 x4 x5 v x7 x8 x9 x10 x11 x12 x13 x14 x15 x16 x17 x18
      | Destination => ShipmentFormData.mk x0 x1 x2 x3 x4 x5 x6 x7 x8 v x10 x11 x12 x13 x14 x15 x16 x17 x18
      | InitialAmount => ShipmentFormData.mk x0 x1 x2 x3 x4 x5 x6 x7 x8 x9 x10 x11 v x13 x14 x15 x16 x17 x18
      | Details => ShipmentFormData.mk x0 x1 x2 x3 x4 x5 x6 x7 x8 x9 x10 x11 x12 v x14 x15 x16 x17 x18
      | Category => ShipmentFormData.mk x0 x1 x2 x3 x4 x5 x6 x7 x8 x9 x10 x11 x12 x13 v x15 x16 x17 x18
      | TimeToDeliver => ShipmentFormData.mk x0 x1 x2 x3 x4 x5 x6 x7 x8 x9 x10 x11 x12 x13 x14 v x16 x17 x18
      | PickupDate => ShipmentFormData.mk x0 x1 x2 x3 x4 x5 x6 x7 x8 x9 x10 x11 x12 x13 x14 x15 v x17 x18
      | StartTime => ShipmentFormData.mk x0 x1 x2 x3 x4 x5 x6 x7 x8 x9 x10 x11 x12 x13 x14 x15 x16 v x18
      | EndTime => ShipmentFormData.mk x0 x1 x2 x3 x4 x5 x6 x7 x8 x9 x10 x11 x12 x13 x14 x15 x16 x17 v
      end
  end.

(** [handleChange]: a number loses its leading zeros. *)
Definition handleChange (name : form_field) (value : string) (d : ShipmentFormData.t) : ShipmentFormData.t :=
  set_field name (if is_number_field name then strip_leading_zeros value else value) d.

(** A place of the search box: what the form reads of it. *)
Record Place := mkPlace {
  formatted_address : option string;
  place_name : option string;
  location : option (num * num)
}.

(** [place?.formatted_address || place?.name || '']. *)
Definition place_text (p : Place) : string :=
  or_ostr (formatted_address p) (or_ostr (place_name p) EmptyString).
Definition place_lat (p : Place) : num := match location p with Some l => or_num l.1 nzero | None => nzero end.
Definition place_lng (p : Place) : num := match location p with Some l => or_num l.2 nzero | None => nzero end.

(** [onOriginPlacesChanged] and [onDestPlacesChanged]: the first place, if any. *)
Definition onOriginPlacesChanged (places : list Place) (d : ShipmentFormData.t) : ShipmentFormData.t :=
  match places, d with
  | p :: _, ShipmentFormData.mk x0 x1 x2 x3 x4 x5 x6 x7 x8 x9 x10 x11 x12 x13 x14 x15 x16 x17 x18 =>
      ShipmentFormData.mk x0 x1 x2 x3 x4 x5 (place_text p) (place_lat p) (place_lng p) x9 x10 x11 x12 x13 x14 x15 x16 x17 x18
  | [], _ => d
  end.
Definition onDestPlacesChanged (places : list Place) (d : ShipmentFormData.t) : ShipmentFormData.t :=
  match places, d with
  | p :: _, ShipmentFormData.mk x0 x1 x2 x3 x4 x5 x6 x7 x8 x9 x10 x11 x12 x13 x14 x15 x16 x17 x18 =>
      ShipmentFormData.mk x0 x1 x2 x3 x4 x5 x6 x7 x8 (place_text p) (place_lat p) (place_lng p) x12 x13 x14 x15 x16 x17 x18
  | [], _ => d
  end.

Inductive change :=
| SetText (name : form_field) (value : string)
| OriginPlaces (places : list Place)
| DestPlaces (places : list Place)
| SetDuration (minutes : Z).

Section Form.
(** The browser's time zone, and [Date]'s reading of other texts. *)
Context (z : zone) (fallback : string -> option Z).

(** [setAuctionDuration]. *)
Definition setAuctionDuration (minutes : Z) (d : ShipmentFormData.t) : ShipmentFormData.t :=
  match parseLocalTime z (ShipmentFormData.auctionStartTime d) with
  | None => d
  | Some startDate =>
      match time_clip (startDate + minutes * 60 * 1000) with
      | Some endTime => set_field EndTime (local_iso (of_utc z endTime)) d
      | None => set_field EndTime "NaN-NaN-NaNTNaN:NaN" d
      end
  end.

Definition edit (c : change) (d : ShipmentFormData.t) : ShipmentFormData.t :=
  match c with
  | SetText n v => handleChange n v d
  | OriginPlaces l => onOriginPlacesChanged l d
  | DestPlaces l => onDestPlacesChanged l d
  | SetDuration m => setAuctionDuration m d
  end.

(** [handleSubmit]. *)
Definition check (now : Z) (d : ShipmentFormData.t) : option string :=
  if String.eqb (ShipmentFormData.pickupDate d) EmptyString then Some "Please provide a pickup date."
  else match parseLocalTime z (ShipmentFormData.auctionStartTime d), parseLocalTime z (ShipmentFormData.auctionEndTime d) with
  | Some startTime, Some endTime =>
      if startTime - now <? 3 * 60 * 1000
      then Some "Auction start time must be at least 3 minutes from now. (Cannot modify within 3 minutes of start)"
      else if endTime - startTime <? 5 * 60 * 1000 then Some "Auction duration must be at least 5 minutes."
      else if endTime <=? startTime then Some "Auction end time must be after the start time."
      else None
  | _, _ => Some "Please provide valid auction start and end times."
  end.

Definition payload (now : Z) (d : ShipmentFormData.t) (us : list (option string)) : result Payload :=
  let* pickup := toISO_no_ms (date_parse z fallback (ShipmentFormData.pickupDate d)) in
  let* st := toISO_no_ms (parseLocalTime z (ShipmentFormData.auctionStartTime d)) in
  let* en := toISO_no_ms (parseLocalTime z (ShipmentFormData.auctionEndTime d)) in
  Ok {|
    py_title := or_str (ShipmentFormData.title d) "Untitled";
    py_description := or_str (ShipmentFormData.description d) "No description";
    py_auction_type := REVERSE;
    py_item_category := or_null (ShipmentFormData.category d);
    py_item_condition := None;
    py_quantity := None;
    py_quantity_unit := None;
    py_starting_price := number_or_null (ShipmentFormData.initialAmount d);
    py_minimum_bid_step := Some (of_Z 1);
    py_reserve_price := None;
    py_auction_start_time := st;
    py_auction_end_time := en;
    py_pickup_terms := or_null (ShipmentFormData.detailedInformation d);
    py_origin_address := Some (or_str (ShipmentFormData.origin d) "Unknown");
    py_origin := (json_num (ShipmentFormData.originLat d), json_num (ShipmentFormData.originLng d));
    py_dest_address := Some (or_str (ShipmentFormData.destination d) "Unknown");
    py_dest := (json_num (ShipmentFormData.destLat d), json_num (ShipmentFormData.destLng d));
    py_pickup_date := Some pickup;
    py_weight := number_or_null (ShipmentFormData.weight d);
    py_length := number_or_null (ShipmentFormData.length d);
    py_width := number_or_null (ShipmentFormData.width d);
    py_height := number_or_null (ShipmentFormData.height d);
    py_media_urls := urls_or_null us
  |}.

Definition rules : Rules ShipmentFormData.t change :=
  mkRules initial edit check true true
    (fun _ => "Shipment Posted Successfully with media!")
    (fun m => or_str m "Error publishing shipment.").

(** [mutationFn]; [now] is the clock after the uploads. *)
Definition mutationFn (reply : File -> upload_reply) (read_utc : string -> option Z) (now : Z)
    (d : ShipmentFormData.t) (l : list MediaPreview.t) : result (Z * Z) :=
  publish form_failure payload reply now (create_auction read_utc) d l.

(** ** Sections, map and route *)
Inductive fold := freight | route | details | media_fold.

Record Page := mkPage {
  form : Form ShipmentFormData.t;
  collapsed : fold -> bool;
  isLoaded : bool;
  directions : option (string * string)
}.

Definition page0 : Page :=
  mkPage (mkForm initial gallery0 EmptyString EmptyString false) (fun _ => false) false None.

Definition same_fold (a b : fold) : bool :=
  match a, b with
  | freight, freight | route, route | details, details | media_fold, media_fold => true
  | _, _ => false
  end.

Inductive page_event :=
| OnForm (e : form_event change)
| ToggleCollapse (s : fold)
| MapLoaded
| RouteFound (distance duration : option string).

(** What an event causes: a publication, or a request for a route. *)
Inductive page_effect :=
| Publish (d : ShipmentFormData.t)
| RequestRoute (origin destination : string).

(** [isValidOrigin], [isValidDest]. *)
Definition routable (place : string) : bool :=
  negb (String.eqb place EmptyString) && negb (String.eqb place "Unknown") && (3 <? Z.of_nat (String.length place)).

(** The effect on [origin], [destination] and [isLoaded]. *)
Definition route_effect (before after : Page) : list page_effect :=
  let d := f_data (form before) in
  let d' := f_data (form after) in
  if String.eqb (ShipmentFormData.origin d) (ShipmentFormData.origin d') &&
     String.eqb (ShipmentFormData.destination d) (ShipmentFormData.destination d') &&
     Bool.eqb (isLoaded before) (isLoaded after)
  then []
  else if routable (ShipmentFormData.origin d') && routable (ShipmentFormData.destination d') && isLoaded after
  then [RequestRoute (ShipmentFormData.origin d') (ShipmentFormData.destination d')] else [].

Definition handle (e : page_event) (p : Page) : Page * list page_effect :=
  match e with
  | OnForm fe =>
      let '(f, sent) := form_step rules fe (form p) in
      (mkPage f (collapsed p) (isLoaded p)
         (match fe with Published _ => None | _ => directions p end),
       match sent with Some d => [Publish d] | None => [] end)
  | ToggleCollapse s =>
      (mkPage (form p) (fun s' => if same_fold s s' then negb (collapsed p s') else collapsed p s')
         (isLoaded p) (directions p), [])
  | MapLoaded => (mkPage (form p) (collapsed p) true (directions p), [])
  | RouteFound dist dur =>
      (mkPage (form p) (collapsed p) (isLoaded p) (Some (or_ostr dist EmptyString, or_ostr dur EmptyString)), [])
  end.

Definition page_step (e : page_event) (p : Page) : Page * list page_effect :=
  let '(p', es) := handle e p in (p', es ++ route_effect p p').

(** ** The view *)
Definition on_form (n : node (form_event change)) : node page_event := map_node OnForm n.

Definition input (label kind : string) (constraints : list (string * string)) (name : form_field)
    (value : string) : node page_event :=
  field label kind constraints value (fun v => OnForm (Change (SetText name v))).

Definition choice (label : string) (options : list string) (name : form_field) (value : string) : node page_event :=
  El "label" [] [Txt label;
    El "select" [Attr "value" value; Input "change" (fun v => OnForm (Change (SetText name v)))]
      (map (txt "option") options)].

(** A section with its heading; its content is rendered while it is open. *)
Definition folding (s : fold) (p : Page) (heading : string) (content : list (node page_event)) : node page_event :=
  tag "section" (
    El "button" [Attr "type" "button"; On "click" (ToggleCollapse s)] [txt "h2" heading] ::
    when (negb (collapsed p s)) [tag "div" content]).

Definition freight_section (p : Page) : node page_event :=
  let d := f_data (form p) in
  folding freight p "Freight / Load Details" [
    input "Shipment Title / Short Description" "text" [required; min_length "3"] Title (ShipmentFormData.title d);
    choice "Shipment Category" SHIPMENT_CATEGORIES Category (ShipmentFormData.category d);
    input "Total Weight (lbs)" "number" [required; min_value "0"] Weight (ShipmentFormData.weight d);
    input "Length (ft)" "number" [required; min_value "0"] Length (ShipmentFormData.length d);
    input "Width (ft)" "number" [required; min_value "0"] Width (ShipmentFormData.width d);
    input "Height (ft)" "number" [required; min_value "0"] Height (ShipmentFormData.height d)].

(** A place's input is disabled while the map loads. *)
Definition place_input (label : string) (name : form_field) (value : string) (p : Page) : node page_event :=
  El "label" [] [Txt label;
    El "input" [Attr "type" "text"; Attr "required" EmptyString; Disabled (negb (isLoaded p)); Attr "value" value;
                Input "change" (fun v => OnForm (Change (SetText name v)))] []].

Definition duration_button (minutes : Z) : node page_event :=
  El "button" [Attr "type" "button"; On "click" (OnForm (Change (SetDuration minutes)))]
    [Txt (string_of_Z minutes +:+ " Min")].

Definition no_map : node page_event :=
  tag "div" [txt "p" "Map Preview Disabled";
    txt "p" "Select both Origin and Destination to calculate route distance and estimated time."].

Definition map_panel (p : Page) : node page_event :=
  match directions p with
  | Some (distance, duration) =>
      if isLoaded p
      then tag "div" [txt "div" "Route Connected"; txt "p" "Total Distance"; txt "p" distance;
                      txt "p" "Est. Travel Time"; txt "p" duration; txt "p" "Traffic Delay"; txt "p" "Normal"]
      else no_map
  | None => no_map
  end.

Definition route_section (p : Page) : node page_event :=
  let d := f_data (form p) in
  folding route p "Route & Logistics" [
    place_input "Origin (Place A)" Origin (ShipmentFormData.origin d) p;
    place_input "Destination (Place B)" Destination (ShipmentFormData.destination d) p;
    input "Target Pickup Date" "date" [required] PickupDate (ShipmentFormData.pickupDate d);
    choice "Time to Deliver" TIME_TO_DELIVER_OPTIONS TimeToDeliver (ShipmentFormData.timeToDeliver d);
    input "Auction Start Time" "datetime-local" [required] StartTime (ShipmentFormData.auctionStartTime d);
    input "Auction End Time" "datetime-local" [required] EndTime (ShipmentFormData.auctionEndTime d);
    duration_button 10; duration_button 15; duration_button 20;
    map_panel p].

Definition details_section (p : Page) : node page_event :=
  let d := f_data (form p) in
  folding details p "Shipment Details & Pricing" [
    input "Initial Starting Amount ($)" "number" [required; min_value "0"] InitialAmount (ShipmentFormData.initialAmount d);
    txt "p" "This is the maximum amount you are willing to pay. Carriers will bid down from this amount.";
    input "Public Description" "textarea" [required; min_length "5"] Description (ShipmentFormData.description d);
    input "Detailed Information (Private to bidders)" "textarea" [] Details (ShipmentFormData.detailedInformation d)].

Definition media_section (p : Page) : node page_event :=
  folding media_fold p "Media & Attachments" ([
    El "input" [Attr "type" "file"; Attr "accept" "image/*,video/*"] [];
    txt "p" "Click to upload photos or videos";
    txt "p" "Drag and drop is supported. Max file size 50MB."] ++
    map on_form (preview_cards (media (f_gallery (form p))))).

Definition view (p : Page) : node page_event :=
  let f := form p in
  El "form" [] (
    map on_form (toast "error" (f_error f) CloseError) ++ map on_form (toast "success" (f_success f) CloseSuccess) ++ [
    freight_section p; route_section p; details_section p; media_section p;
    on_form (submit_button (f_pending f) "Publishing..." "Publish Reverse Auction")]).
End Form.

(** ** Lemmas *)

(** What the form reads is a whole minute of the local clock. *)
Lemma parse_minutes off s st :
  parseLocalTime (fixed_zone off) s = Some st -> (st + off) mod 60000 = 0.
Proof.
  unfold parseLocalTime, date_of_parts, time_clip, MS_DAY.
  destruct (js_split "T" s) as [|[|a r] [|[|b q] l]]; try discriminate.
  repeat match goal with |- context [match ?x with Some _ => _ | None => _ end] => destruct x; try discriminate end.
  case_tests; intros [= <-]; simpl; Z.div_mod_to_equations; lia.
Qed.

Lemma set_end_time v d :
  ShipmentFormData.auctionEndTime (set_field EndTime v d) = v /\
  ShipmentFormData.auctionStartTime (set_field EndTime v d) = ShipmentFormData.auctionStartTime d /\
  ShipmentFormData.pickupDate (set_field EndTime v d) = ShipmentFormData.pickupDate d.
Proof. by destruct d. Qed.

Lemma folding_valid s p h c :
  form_valid (folding s p h c) = true -> collapsed p s = false -> forallb form_valid c = true.
Proof.
  intros H Hc. unfold folding, tag in H. rewrite Hc in H. simpl in H. by rewrite !andb_true_r in H.
Qed.

Lemma shipment_view_valid p :
  form_valid (view p) = true -> collapsed p freight = false -> collapsed p details = false ->
  let d := f_data (form p) in
  filled (ShipmentFormData.title d) = true /\ as_long_as "3" (ShipmentFormData.title d) = true /\
  filled (ShipmentFormData.description d) = true /\ as_long_as "5" (ShipmentFormData.description d) = true /\
  filled (ShipmentFormData.initialAmount d) = true /\ at_least "0" (ShipmentFormData.initialAmount d) = true.
Proof.
  intros H Hf Hd d. unfold view in H. split_valid H.
  destruct H as (_ & _ & Hs & _ & Hx & _).
  apply folding_valid in Hs; [|done]. apply folding_valid in Hx; [|done].
  fold d in Hs, Hx. unfold input in Hs, Hx. split_valid Hs. split_valid Hx. tauto.
Qed.

Lemma title_length v : filled v = true -> as_long_as "3" v = true -> 3 <= Z.of_nat (String.length v).
Proof. apply long_enough; vm_compute; reflexivity. Qed.

Lemma description_length v : filled v = true -> as_long_as "5" v = true -> 5 <= Z.of_nat (String.length v).
Proof. apply long_enough; vm_compute; reflexivity. Qed.

(** ** Properties *)

(** the quick buttons set what they say: when the start is a time, the button
    for [m] minutes writes an end that is read back exactly [m] minutes later
    (years 1970 to 2999, a zone with a constant offset), so from five minutes on
    the form's check is left with the pickup date and the lead time only. *)
Theorem quick_duration_is_exact off m d st now :
  let z := fixed_zone off in
  let d' := setAuctionDuration z m d in
  let '(y, _, _, _, _) := fields_of (st + m * 60 * 1000 + off) in
  parseLocalTime z (ShipmentFormData.auctionStartTime d) = Some st ->
  time_clip (st + m * 60 * 1000) = Some (st + m * 60 * 1000) -> 1970 <= y <= 2999 ->
  parseLocalTime z (ShipmentFormData.auctionEndTime d') = Some (st + m * 60 * 1000) /\
  (5 <= m -> ShipmentFormData.pickupDate d <> EmptyString ->
   (check z now d' = None <-> 3 * 60 * 1000 <= st - now)).
Proof.
  intros z d'. destruct (fields_of (st + m * 60 * 1000 + off)) as [[[[y mo] dd] h] mi] eqn:F.
  intros Hst Hclip Hy.
  assert (Hd : d' = set_field EndTime (local_iso (st + m * 60 * 1000 + off)) d).
  { unfold d', setAuctionDuration. by rewrite Hst, Hclip. }
  destruct (set_end_time (local_iso (st + m * 60 * 1000 + off)) d) as (E1 & E2 & E3). rewrite <-Hd in E1, E2, E3.
  assert (He : parseLocalTime z (ShipmentFormData.auctionEndTime d') = Some (st + m * 60 * 1000)).
  { rewrite E1, (parse_local_iso z _ y mo dd h mi F Hy).
    assert ((st + m * 60 * 1000 + off) mod 60000 = 0) as ->.
    { replace (st + m * 60 * 1000 + off) with (st + off + m * 60000) by ring.
      rewrite Z.mod_add by lia. by apply parse_minutes in Hst. }
    unfold z. simpl. by replace (st + m * 60 * 1000 + off - 0 - off) with (st + m * 60 * 1000) by ring. }
  split; [done|]. intros Hm Hp. unfold check. rewrite He, E2, E3, Hst.
  destruct (String.eqb_spec (ShipmentFormData.pickupDate d) EmptyString); [done|]. case_tests; bool_facts; intuition (done || lia).
Qed.

(** The server's verdict on a payload whose files have URLs. *)
Lemma shipment_payload_rule z fb read_utc pressed now p us st en pk :
  let d := f_data (form p) in
  form_valid (view p) = true -> collapsed p freight = false -> collapsed p details = false ->
  check z pressed d = None ->
  parseLocalTime z (ShipmentFormData.auctionStartTime d) = Some st ->
  parseLocalTime z (ShipmentFormData.auctionEndTime d) = Some en ->
  date_parse z fb (ShipmentFormData.pickupDate d) = Some pk ->
  number_text (ShipmentFormData.initialAmount d) -> all_present us ->
  reads_back read_utc st -> reads_back read_utc en -> st mod 1000 = 0 -> en mod 1000 = 0 ->
  (exists times, (let* q := payload z fb now d us in create_auction read_utc q) = Ok times) <->
  nlt nzero (Number (ShipmentFormData.initialAmount d)) = true.
Proof.
  intros d Hv Hf Hd Hc Hst Hen Hpk Hn Hus Rs Re Ms Me.
  destruct (shipment_view_valid p Hv Hf Hd) as (Vt & Lt & Vd & Ld & Va & Ma). fold d in Vt, Lt, Vd, Ld, Va, Ma.
  assert (Hdur : 5 * 60 * 1000 <= en - st).
  { unfold check in Hc. rewrite Hst, Hen in Hc. revert Hc. case_tests; bool_facts; done. }
  unfold payload. rewrite Hpk, Hst, Hen. unfold toISO_no_ms at 1 2 3. cbn [rbind].
  unfold create_auction, create_auction_service. cbn [py_title py_description py_media_urls py_starting_price py_minimum_bid_step
    py_reserve_price py_auction_type py_quantity py_auction_start_time py_auction_end_time].
  rewrite (proj2 Rs), (proj2 Re), Ms, Me, !Z.sub_0_r by reflexivity.
  rewrite urls_present by done. rewrite !or_str_filled by done.
  rewrite (proj2 (Z.ltb_ge _ _) (title_length _ Vt Lt)), (proj2 (Z.ltb_ge _ _) (description_length _ Vd Ld)),
    number_or_null_positive by done.
  assert (Hfin : is_finite (Number (ShipmentFormData.initialAmount d)) = true).
  { destruct Hn as [E|E]; [|done]. rewrite E in Va. discriminate. }
  cbn [negb default bad_number].
  destruct (nlt nzero (Number (ShipmentFormData.initialAmount d))) eqn:Ep; [|split; [intros [? [=]]|done]].
  rewrite Hfin, Ep. cbn [negb orb andb].
  change (negb (is_finite (id (of_Z 1))) || nle (id (of_Z 1)) nzero) with false.
  rewrite andb_false_r. cbn [orb andb].
  rewrite (proj2 (Z.leb_gt _ _)), (proj2 (Z.ltb_ge _ _)) by lia. split; [done|eauto].
Qed.

(** C39: a form filled in with its freight and details sections open, passed by the
    browser and the check, with number inputs that hold numbers, times to the second
    that are read back and an upload service that answers with URLs, is published
    exactly when every upload is accepted and its amount is not zero: the browser's
    minimum is 0, the form sends 0 as [null], and the server asks for more.  A folded
    section is not checked ([folded_title_is_published_untitled]). *)
Theorem open_form_is_accepted_unless_zero z fb read_utc reply pressed now p st en pk :
  let d := f_data (form p) in
  form_valid (view p) = true -> collapsed p freight = false -> collapsed p details = false ->
  check z pressed d = None ->
  parseLocalTime z (ShipmentFormData.auctionStartTime d) = Some st ->
  parseLocalTime z (ShipmentFormData.auctionEndTime d) = Some en ->
  date_parse z fb (ShipmentFormData.pickupDate d) = Some pk ->
  number_text (ShipmentFormData.initialAmount d) -> gives_urls reply ->
  reads_back read_utc st -> reads_back read_utc en -> st mod 1000 = 0 -> en mod 1000 = 0 ->
  (exists times, mutationFn z fb reply read_utc now d (media (f_gallery (form p))) = Ok times) <->
  all_accepted reply (media (f_gallery (form p))) /\
  nlt nzero (Number (ShipmentFormData.initialAmount d)) = true.
Proof.
  intros d Hv Hf Hd Hc Hst Hen Hpk Hn Hg Rs Re Ms Me. unfold mutationFn. split.
  - intros [t [Ha Hp]%publish_ok]. split; [done|].
    apply (shipment_payload_rule z fb read_utc pressed now p (uploaded reply (media (f_gallery (form p)))) st en pk);
      [try done..|by exists t]. by apply uploaded_present.
  - intros [Ha Hr].
    apply (shipment_payload_rule z fb read_utc pressed now p (uploaded reply (media (f_gallery (form p)))) st en pk)
      in Hr as [t Hp]; [exists t; by apply publish_ok|try done..]. by apply uploaded_present.
Qed.

(** the last rule of the check never speaks: whatever it says of a form, it is
    not that the end comes before the start, because such a form already fails the
    rule on the duration. *)
Theorem end_before_start_is_never_reported z now d :
  check z now d <> Some "Auction end time must be after the start time.".
Proof. unfold check. case_tests; repeat case_match; bool_facts; try discriminate; lia. Qed.

(** a folded section is not checked: with "Freight / Load Details" folded, a
    form that passes the browser and the check still passes them with its title
    removed, and is then published as "Untitled". *)
Theorem folded_title_is_published_untitled z fb p now us q :
  collapsed p freight = true ->
  form_valid (view p) = true -> check z now (f_data (form p)) = None ->
  let f := form p in
  let p' := mkPage (mkForm (set_field Title EmptyString (f_data f)) (f_gallery f) (f_error f) (f_success f) (f_pending f))
              (collapsed p) (isLoaded p) (directions p) in
  payload z fb now (f_data f) us = Ok q ->
  form_valid (view p') = true /\ check z now (f_data (form p')) = None /\
  exists q', payload z fb now (f_data (form p')) us = Ok q' /\ py_title q' = "Untitled".
Proof.
  intros Hc Hv Hk f p' Hq. subst p'. cbn [form f_data].
  assert (Hk' : check z now (set_field Title EmptyString (f_data f)) = check z now (f_data (form p)))
    by (unfold f, check; by destruct (f_data (form p))).
  split; [|split; [by rewrite Hk'|]].
  - rewrite <-Hv. unfold f. f_equal. revert Hc. clear. destruct p as [[d g e s b] col il dir].
    unfold view, freight_section, folding. cbn [collapsed form f_data f_error f_success f_pending].
    intros ->. destruct d. reflexivity.
  - revert Hq. unfold f, payload. destruct (f_data (form p)). cbn [set_field ShipmentFormData.pickupDate
      ShipmentFormData.auctionStartTime ShipmentFormData.auctionEndTime].
    destruct (toISO_no_ms (date_parse z fb pickupDate)); [|discriminate]. cbn [rbind].
    destruct (toISO_no_ms (parseLocalTime z auctionStartTime)); [|discriminate]. cbn [rbind].
    destruct (toISO_no_ms (parseLocalTime z auctionEndTime)); [|discriminate]. cbn [rbind].
    intros _. eexists. split; reflexivity.
Qed.

(** ** Witnesses: a winter morning, the page read at 9:50 *)
Definition sample_data : ShipmentFormData.t :=
  ShipmentFormData.mk "Crates" "Four crates" "1" "1" "1" "10" "Seattle" nzero nzero "Miami" nzero nzero "500" ""
    "Other" "Flexible" "2030-01-09" "2030-01-07T10:00" "2030-01-07T10:30".
Definition sample_page (folded : bool) : Page :=
  mkPage (mkForm sample_data gallery0 "" "" false)
    (fun s => match s with freight => folded | _ => false end) true None.
Definition read_stamp : string -> option Z := date_parse UTC no_fallback.
Definition ten_oclock : Z := 1894010400000.

Lemma shipment_sample_reads_back t : t = ten_oclock \/ t = ten_oclock + 1800000 -> reads_back read_stamp t.
Proof. intros [->| ->]; (split; intros s Hs; vm_compute in Hs; injection Hs as <-; vm_compute; reflexivity). Qed.

Lemma quick_duration_is_exact_witness :
  parseLocalTime (fixed_zone 3600000)
    (ShipmentFormData.auctionEndTime (setAuctionDuration (fixed_zone 3600000) 20 sample_data)) =
  Some (ten_oclock - 3600000 + 20 * 60 * 1000).
Proof.
  apply (quick_duration_is_exact 3600000 20 sample_data (ten_oclock - 3600000) 0).
  - vm_compute; reflexivity.
  - vm_compute; reflexivity.
  - vm_compute; split; discriminate.
Defined.

Lemma open_form_is_accepted_unless_zero_witness :
  exists times,
    mutationFn UTC no_fallback (fun _ => mkUpload true None (Some "u")) read_stamp (ten_oclock - 600000)
      (f_data (form (sample_page false))) (media (f_gallery (form (sample_page false)))) = Ok times.
Proof.
  apply (open_form_is_accepted_unless_zero UTC no_fallback read_stamp (fun _ => mkUpload true None (Some "u"))
    (ten_oclock - 600000) (ten_oclock - 600000) (sample_page false) ten_oclock (ten_oclock + 1800000) (ten_oclock + 2 * 86400000 - 36000000)).
  - vm_compute; reflexivity.
  - reflexivity.
  - reflexivity.
  - vm_compute; reflexivity.
  - vm_compute; reflexivity.
  - vm_compute; reflexivity.
  - vm_compute; reflexivity.
  - right; vm_compute; reflexivity.
  - intros g _. by eexists.
  - apply shipment_sample_reads_back. by left.
  - apply shipment_sample_reads_back. by right.
  - reflexivity.
  - reflexivity.
  - split; [by repeat constructor|vm_compute; reflexivity].
Defined.

Lemma folded_title_is_published_untitled_witness :
  exists q', payload UTC no_fallback 0 (set_field Title "" sample_data) [] = Ok q' /\ py_title q' = "Untitled".
Proof.
  destruct (payload UTC no_fallback 0 sample_data []) as [q|e] eqn:E; [|vm_compute in E; discriminate].
  apply (folded_title_is_published_untitled UTC no_fallback (sample_page true) 0 [] q).
  - reflexivity.
  - vm_compute; reflexivity.
  - vm_compute; reflexivity.
  - exact E.
Defined.
