(* ===== verification/Listings.v ===== *)
(** * The life of a seller's listing

    [apps/http-server/src/services/listing.rs] with the role checks of its routes
    and the validation of its handlers: a seller submits and revises a listing, an
    administrator reviews and schedules it.  Reviewing reads the old status before
    its transaction and scheduling waits for the creation of the auction, so both
    are tasks that other requests can overtake; the queries of one step are taken
    as atomic and the database as available.  The seller's and the administrator's
    pages are in [SellerPages]. *)

From Stdlib Require Import Ascii.
From S2P Require Import Prelude JSNum JSText JSDate ApiTypes CreateAuction.
#[local] Open Scope Z_scope.
#[local] Open Scope aqua_scope.

(** ** Data *)

(** The columns of [auction_listings] that the seller fills. *)
Record Details := mkDetails {
  dt_auction_type : AuctionDirection;
  dt_title : string;
  dt_description : string;
  dt_item_category : option string;
  dt_item_condition : option string;
  dt_quantity : option num;
  dt_quantity_unit : option string;
  dt_starting_price : num;
  dt_minimum_bid_step : num;
  dt_reserve_price : option num;
  dt_origin_address : option string;
  dt_pickup_terms : option string;
  dt_availability_start : option Z;
  dt_availability_end : option Z;
  dt_media_urls : list (option string)
}.

(** [Listing]: a row, without its key. *)
Record Row := mkRow {
  rw_seller : string;
  rw_auction : option string;
  rw_status : ListingStatus;
  rw_details : Details;
  rw_feedback : option string;
  rw_reviewed_by : option string;
  rw_submitted_at : Z;
  rw_reviewed_at : option Z;
  rw_created_at : Z;
  rw_updated_at : Z
}.

(** [ListingHistory]. *)
Record History := mkHistory {
  h_listing : string;
  h_from : option ListingStatus;
  h_to : ListingStatus;
  h_actor : string;
  h_note : option string;
  h_at : Z
}.

(** [CreateListingPayload] as the client builds it. *)
Record ListingPayload := mkListing {
  lp_title : string;
  lp_description : string;
  lp_auction_type : string;
  lp_item_category : option string;
  lp_item_condition : option string;
  lp_quantity : option num;
  lp_quantity_unit : option string;
  lp_starting_price : option num;
  lp_minimum_bid_step : option num;
  lp_reserve_price : option num;
  lp_origin_address : option string;
  lp_pickup_terms : option string;
  lp_availability_start : option string;
  lp_availability_end : option string;
  lp_media_urls : list string
}.

(** An auction made from a listing: its key, its listing, its payload, its customer. *)
Record Made := mkMade { md_auction : string; md_listing : string; md_payload : Payload; md_customer : string }.

(** A request in progress: a review between its two queries, a scheduling before
    and after the creation of the auction. *)
Inductive Task :=
| ReviewTask (id admin : string) (status : ListingStatus) (feedback : option string) (now : Z) (old : ListingStatus)
| ScheduleTask (id admin start fin : string) (listing : Row)
| ScheduledTask (id admin auction : string).

Record Server := mkServer {
  sv_rows : gmap string Row;
  sv_history : list History;
  sv_made : list Made;
  sv_tasks : list Task
}.
Definition server0 : Server := mkServer ∅ [] [] [].

Definition set_row (id : string) (r : Row) (h : History) (sv : Server) : Server :=
  mkServer (<[id := r]> (sv_rows sv)) (sv_history sv ++ [h]) (sv_made sv) (sv_tasks sv).

Definition with_tasks (l : list Task) (sv : Server) : Server :=
  mkServer (sv_rows sv) (sv_history sv) (sv_made sv) l.

(** ** Validation *)

(** The match on [payload.auction_type]. *)
Definition parse_direction (s : string) : result AuctionDirection :=
  let u := to_upper s in
  if String.eqb u "FORWARD" then Ok FORWARD
  else if String.eqb u "REVERSE" then Ok REVERSE
  else Throw "auction_type must be FORWARD or REVERSE".

(** The match on the decision of a review. *)
Definition parse_decision (s : string) : result ListingStatus :=
  let u := to_upper s in
  if String.eqb u "APPROVE" then Ok APPROVED
  else if String.eqb u "REQUEST_CHANGES" then Ok CHANGES_REQUESTED
  else if String.eqb u "REJECT" then Ok REJECTED
  else Throw "decision must be APPROVE, REQUEST_CHANGES, or REJECT".

(** [require_customer] and [require_admin]. *)
Definition require_customer (r : UserRole) : result unit :=
  match r with CARRIER => Throw "Access denied: Customers only" | _ => Ok tt end.
Definition require_admin (r : UserRole) : result unit :=
  match r with ADMIN => Ok tt | _ => Throw "Access denied: Administrators only" end.

(** The validation rules of [CreateListingPayload]. *)
Definition validate (p : ListingPayload) : result unit :=
  if (Z.of_nat (String.length (lp_title p)) <? 3) then Throw "Validation failed: title"
  else if (Z.of_nat (String.length (lp_description p)) <? 10) then Throw "Validation failed: description"
  else Ok tt.

Definition editable (s : ListingStatus) : bool :=
  bool_decide (s ∈ [DRAFT; CHANGES_REQUESTED]).
Definition reviewable (s : ListingStatus) : bool :=
  bool_decide (s ∈ [SUBMITTED; UNDER_REVIEW; CHANGES_REQUESTED]).

(** A number field through JSON: what JSON cannot write arrives as [null]. *)
Definition json_field (x : option num) : option num := x ≫= json_num.

Section Listings.
(** [chrono]'s reading of a UTC timestamp. *)
Context (read_utc : string -> option Z).

Definition parse_time (value : option string) : result (option Z) :=
  match value with
  | None => Ok None
  | Some s => match read_utc s with
              | Some t => Ok (Some t)
              | None => Throw "Availability must be a valid ISO date"
              end
  end.

(** The checks that [create_listing] and [update_listing] share, and the columns
    they write. *)
Definition details_of (p : ListingPayload) : result Details :=
  match json_field (lp_starting_price p), json_field (lp_minimum_bid_step p) with
  | Some price, Some step =>
      if nle price nzero || nle step nzero then Throw "Price and bid step must be greater than zero"
      else
        let* k := parse_direction (lp_auction_type p) in
        let* from := parse_time (lp_availability_start p) in
        let* until := parse_time (lp_availability_end p) in
        Ok (mkDetails k (lp_title p) (lp_description p) (lp_item_category p) (lp_item_condition p)
              (json_field (lp_quantity p)) (lp_quantity_unit p) price step (json_field (lp_reserve_price p)) (lp_origin_address p)
              (lp_pickup_terms p) from until (Some <$> lp_media_urls p))
  | _, _ => Throw "invalid type: null, expected f64"
  end.

(** ** Operations *)

(** [create] and [create_listing]; [id] is the new key. *)
Definition create_listing (id seller : string) (now : Z) (p : ListingPayload) (sv : Server) : result Server :=
  let* _ := validate p in
  let* d := details_of p in
  match sv_rows sv !! id with
  | Some _ => Throw "Failed to submit listing"
  | None =>
      Ok (set_row id (mkRow seller None SUBMITTED d None None now None now now)
            (mkHistory id None SUBMITTED seller (Some "Listing submitted") now) sv)
  end.

(** [update] and [update_listing]. *)
Definition update_listing (id seller : string) (now : Z) (p : ListingPayload) (sv : Server) : result Server :=
  let* _ := validate p in
  let* d := details_of p in
  match sv_rows sv !! id with
  | Some r =>
      if String.eqb (rw_seller r) seller && editable (rw_status r) then
        Ok (set_row id (mkRow (rw_seller r) (rw_auction r) (rw_status r) d (rw_feedback r) (rw_reviewed_by r)
                          (rw_submitted_at r) (rw_reviewed_at r) (rw_created_at r) now)
              (mkHistory id (Some (rw_status r)) (rw_status r) seller (Some "Listing details updated") now) sv)
      else Throw "Only your drafts or change-requested listings can be edited"
  | None => Throw "Only your drafts or change-requested listings can be edited"
  end.

(** [resubmit_listing]. *)
Definition resubmit_listing (id seller : string) (now : Z) (sv : Server) : result Server :=
  match sv_rows sv !! id with
  | Some r =>
      if String.eqb (rw_seller r) seller && editable (rw_status r) then
        Ok (set_row id (mkRow (rw_seller r) (rw_auction r) SUBMITTED (rw_details r) None (rw_reviewed_by r)
                          now (rw_reviewed_at r) (rw_created_at r) now)
              (mkHistory id (Some CHANGES_REQUESTED) SUBMITTED seller (Some "Listing resubmitted") now) sv)
      else Throw "Only drafts or change-requested listings can be resubmitted"
  | None => Throw "Only drafts or change-requested listings can be resubmitted"
  end.

(** [review_listing] up to its transaction: the decision, the feedback, the old
    status. *)
Definition review_start (id admin decision : string) (feedback : option string) (now : Z) (sv : Server) : result Task :=
  let* status := parse_decision decision in
  if negb (bool_decide (status = APPROVED)) && String.eqb (trim (default EmptyString feedback)) EmptyString
  then Throw "Feedback is required for changes or rejection"
  else match sv_rows sv !! id with
       | Some r => Ok (ReviewTask id admin status feedback now (rw_status r))
       | None => Throw "Listing is not available for review"
       end.

(** Its transaction. *)
Definition review_finish (id admin : string) (status : ListingStatus) (feedback : option string) (now : Z)
    (old : ListingStatus) (sv : Server) : result Server :=
  match sv_rows sv !! id with
  | Some r =>
      if reviewable (rw_status r) then
        Ok (set_row id (mkRow (rw_seller r) (rw_auction r) status (rw_details r) feedback (Some admin)
                          (rw_submitted_at r) (Some now) (rw_created_at r) now)
              (mkHistory id (Some old) status admin feedback now) sv)
      else Throw "Listing is not available for review"
  | None => Throw "Listing is not available for review"
  end.

(** [schedule_listing] up to the creation of the auction. *)
Definition schedule_start (id admin start fin : string) (sv : Server) : result Task :=
  match sv_rows sv !! id with
  | Some r =>
      if bool_decide (rw_status r = APPROVED) then Ok (ScheduleTask id admin start fin r)
      else Throw "Only approved listings can be scheduled"
  | None => Throw "Only approved listings can be scheduled"
  end.

(** The payload made from the listing as it was read. *)
Definition schedule_payload (start fin : string) (d : Details) : Payload := {|
  py_title := dt_title d;
  py_description := dt_description d;
  py_auction_type := dt_auction_type d;
  py_item_category := dt_item_category d;
  py_item_condition := dt_item_condition d;
  py_quantity := dt_quantity d;
  py_quantity_unit := dt_quantity_unit d;
  py_starting_price := Some (dt_starting_price d);
  py_minimum_bid_step := Some (dt_minimum_bid_step d);
  py_reserve_price := dt_reserve_price d;
  py_auction_start_time := start;
  py_auction_end_time := fin;
  py_pickup_terms := dt_pickup_terms d;
  py_origin_address := dt_origin_address d;
  py_origin := (None, None);
  py_dest_address := None;
  py_dest := (None, None);
  py_pickup_date := None;
  py_weight := None;
  py_length := None;
  py_width := None;
  py_height := None;
  py_media_urls := Some (filter is_Some (dt_media_urls d))
|}.

(** The creation of the auction, under the key [auction]. *)
Definition schedule_create (id admin start fin : string) (r : Row) (auction : string) (sv : Server) :
    result (Server * Task) :=
  let p := schedule_payload start fin (rw_details r) in
  let* _ := create_auction_service read_utc p in
  Ok (mkServer (sv_rows sv) (sv_history sv) (sv_made sv ++ [mkMade auction id p (rw_seller r)]) (sv_tasks sv),
      ScheduledTask id admin auction).

(** What follows it; the status is not looked at again. *)
Definition schedule_finish (id admin auction : string) (now : Z) (sv : Server) : result Server :=
  match sv_rows sv !! id with
  | Some r =>
      Ok (set_row id (mkRow (rw_seller r) (Some auction) SCHEDULED (rw_details r) (rw_feedback r)
                        (rw_reviewed_by r) (rw_submitted_at r) (rw_reviewed_at r) (rw_created_at r) now)
            (mkHistory id (Some APPROVED) SCHEDULED admin (Some "Auction scheduled") now) sv)
  | None => Throw "Auction created but listing update failed"
  end.

(** ** Requests *)

(** A request with the user's identity and role, or the next step of the [k]th task;
    [key] is the identifier that a creation generates. *)
Inductive request :=
| CreateListing (user : string) (role : UserRole) (key : string) (p : ListingPayload)
| UpdateListing (user : string) (role : UserRole) (id : string) (p : ListingPayload)
| ResubmitListing (user : string) (role : UserRole) (id : string)
| ReviewListing (user : string) (role : UserRole) (id decision : string) (feedback : option string)
| ScheduleListing (user : string) (role : UserRole) (id start fin : string)
| Proceed (k : nat) (key : string).

(** A request that fails leaves the state as it was. *)
Definition settle (sv : Server) (r : result Server) : Server * result unit :=
  match r with Ok sv' => (sv', Ok tt) | Throw e => (sv, Throw e) end.

(** A request that continues as a task. *)
Definition spawn (sv : Server) (r : result Task) : Server * result unit :=
  settle sv (let* t := r in Ok (with_tasks (sv_tasks sv ++ [t]) sv)).

(** The next step of a task, which was taken off the list. *)
Definition proceed (now : Z) (key : string) (t : Task) (sv : Server) : result Server :=
  match t with
  | ReviewTask id admin status feedback at_ old => review_finish id admin status feedback at_ old sv
  | ScheduleTask id admin start fin r =>
      let* x := schedule_create id admin start fin r key sv in
      Ok (with_tasks (sv_tasks (fst x) ++ [snd x]) (fst x))
  | ScheduledTask id admin auction => schedule_finish id admin auction now sv
  end.

Definition server_step (now : Z) (e : request) (sv : Server) : Server * result unit :=
  match e with
  | CreateListing user role key p =>
      settle sv (let* _ := require_customer role in create_listing key user now p sv)
  | UpdateListing user role id p =>
      settle sv (let* _ := require_customer role in update_listing id user now p sv)
  | ResubmitListing user role id =>
      settle sv (let* _ := require_customer role in resubmit_listing id user now sv)
  | ReviewListing user role id decision feedback =>
      spawn sv (let* _ := require_admin role in review_start id user decision feedback now sv)
  | ScheduleListing user role id start fin =>
      spawn sv (let* _ := require_admin role in schedule_start id user start fin sv)
  | Proceed k key =>
      match sv_tasks sv !! k with
      | Some t => let sv' := with_tasks (delete k (sv_tasks sv)) sv in settle sv' (proceed now key t sv')
      | None => (sv, Ok tt)
      end
  end.

Definition server_run (es : list (Z * request)) (sv : Server) : Server :=
  fold_left (fun sv e => (server_step (fst e) (snd e) sv).1) es sv.

(** [listing_history]: the events of a listing, oldest first, for its seller and the
    administrators; the database may order events of the same instant otherwise. *)
Definition listing_history (id user : string) (is_admin : bool) (sv : Server) : result (list History) :=
  match sv_rows sv !! id with
  | Some r =>
      if is_admin || String.eqb (rw_seller r) user
      then Ok (js_sort (fun a b => h_at a <=? h_at b) (js_filter (fun h => String.eqb (h_listing h) id) (sv_history sv)))
      else Throw "You cannot view this listing history"
  | None => Throw "You cannot view this listing history"
  end.

(** ** Invariant *)

Definition frozen (s : ListingStatus) : bool := bool_decide (s ∈ [APPROVED; SCHEDULED]).

(** What a later row of a listing keeps of an earlier one. *)
Definition advances (a b : Row) : Prop :=
  rw_seller b = rw_seller a /\
  (frozen (rw_status a) = true -> frozen (rw_status b) = true) /\
  (rw_status a = SCHEDULED -> rw_status b = SCHEDULED) /\
  (rw_status a = REJECTED -> rw_status b = REJECTED) /\
  (frozen (rw_status a) = true \/ rw_status a = REJECTED -> rw_details b = rw_details a).

Definition advances_all (sv sv' : Server) : Prop :=
  forall id a, sv_rows sv !! id = Some a -> exists b, sv_rows sv' !! id = Some b /\ advances a b.

Definition json_number (x : option num) : Prop := match x with Some v => is_finite v = true | None => True end.

(** The columns that creation and update write. *)
Definition details_ok (d : Details) : Prop :=
  is_finite (dt_starting_price d) = true /\ nlt nzero (dt_starting_price d) = true /\
  is_finite (dt_minimum_bid_step d) = true /\ nle (dt_minimum_bid_step d) nzero = false /\
  json_number (dt_reserve_price d) /\ json_number (dt_quantity d) /\
  3 <= Z.of_nat (String.length (dt_title d)) /\ 10 <= Z.of_nat (String.length (dt_description d)).

(** The rules of [create_auction_service] that a listing has not been checked for. *)
Definition schedulable (d : Details) : bool :=
  negb (bad_number (fun r => nlt r nzero) (dt_reserve_price d)) &&
  negb (bool_decide (dt_auction_type d = FORWARD) &&
        match dt_reserve_price d with Some r => nlt r (dt_starting_price d) | None => false end) &&
  negb (bad_number (fun q => nle q nzero) (dt_quantity d)).

Definition times_ok (start fin : string) : Prop :=
  exists st en, read_utc start = Some st /\ read_utc fin = Some en /\ 5 * 60000 <= en - st.

Definition last_status (id : string) (l : list History) : option ListingStatus :=
  h_to <$> last (js_filter (fun h => String.eqb (h_listing h) id) l).

Definition made_for (sv : Server) (id auction : string) : Prop :=
  exists m, m ∈ sv_made sv /\ md_listing m = id /\ md_auction m = auction.

Record row_ok (sv : Server) (id : string) (r : Row) : Prop := {
  ro_status : rw_status r ∈ [SUBMITTED; CHANGES_REQUESTED; APPROVED; REJECTED; SCHEDULED];
  ro_details : details_ok (rw_details r);
  ro_history : last_status id (sv_history sv) = Some (rw_status r);
  ro_auction : match rw_auction r with
               | Some a => rw_status r = SCHEDULED /\ made_for sv id a
               | None => rw_status r <> SCHEDULED
               end
}.

(** The listing is decided and its columns are [d]. *)
Definition decided (sv : Server) (id seller : string) (d : Details) : Prop :=
  exists r, sv_rows sv !! id = Some r /\ frozen (rw_status r) = true /\ rw_seller r = seller /\ rw_details r = d.

Definition task_ok (sv : Server) (t : Task) : Prop :=
  match t with
  | ReviewTask _ _ st _ _ _ => st ∈ [APPROVED; CHANGES_REQUESTED; REJECTED]
  | ScheduleTask id _ _ _ r => decided sv id (rw_seller r) (rw_details r)
  | ScheduledTask id _ a => made_for sv id a
  end.

Definition made_ok (sv : Server) (m : Made) : Prop :=
  exists d start fin, decided sv (md_listing m) (md_customer m) d /\
    md_payload m = schedule_payload start fin d /\ schedulable d = true /\ times_ok start fin.

Record server_inv (sv : Server) : Prop := {
  si_rows : forall id r, sv_rows sv !! id = Some r -> row_ok sv id r;
  si_tasks : Forall (task_ok sv) (sv_tasks sv);
  si_made : Forall (made_ok sv) (sv_made sv)
}.

(** ** Lemmas *)

(** For the payload of a checked listing, the rules that remain. *)
Lemma schedule_accepted start fin d :
  details_ok d ->
  (exists t, create_auction_service read_utc (schedule_payload start fin d) = Ok t) <->
  schedulable d = true /\ times_ok start fin.
Proof.
  intros (F1 & P1 & F2 & P2 & _). unfold schedulable, times_ok.
  rewrite !andb_true_iff, !negb_true_iff. setoid_rewrite create_auction_service_ok. simpl. split.
  - intros (t & pr & [= <-] & _ & _ & _ & _ & H1 & H2 & H3 & H4 & H5 & H6). eauto 10.
  - intros (((H1 & H2) & H3) & st & en & H4 & H5 & H6). exists (st, en), (dt_starting_price d). simpl. done.
Qed.

Lemma advances_refl r : advances r r.
Proof. done. Qed.

Lemma advances_trans a b c : advances a b -> advances b c -> advances a c.
Proof.
  intros (S1 & F1 & C1 & R1 & D1) (S2 & F2 & C2 & R2 & D2). split; [congruence|]. split; [auto|].
  split; [auto|]. split; [auto|]. intros H. rewrite D2, D1; [done|done|]. destruct H; auto.
Qed.

Lemma advances_all_trans a b c : advances_all a b -> advances_all b c -> advances_all a c.
Proof.
  intros H1 H2 id x Hx. destruct (H1 id x Hx) as (y & Hy & A). destruct (H2 id y Hy) as (z & Hz & B).
  exists z. eauto using advances_trans.
Qed.

Lemma decided_advances sv sv' id seller d :
  advances_all sv sv' -> decided sv id seller d -> decided sv' id seller d.
Proof.
  intros A (r & Hr & Hf & Hs & Hd). destruct (A id r Hr) as (r' & Hr' & S & F & _ & _ & D).
  exists r'. repeat split; [done|auto|congruence|]. rewrite D; auto.
Qed.

Lemma last_status_snoc id l h :
  last_status id (l ++ [h]) = if String.eqb (h_listing h) id then Some (h_to h) else last_status id l.
Proof.
  unfold last_status, js_filter. rewrite List.filter_app. simpl.
  destruct (String.eqb (h_listing h) id); [by rewrite last_snoc|by rewrite app_nil_r].
Qed.

Lemma task_ok_advances sv sv' t :
  advances_all sv sv' -> sv_made sv ⊆ sv_made sv' -> task_ok sv t -> task_ok sv' t.
Proof.
  intros A M. destruct t; simpl; [done|by apply decided_advances|].
  intros (m & Hm & H). exists m. split; [by apply M|done].
Qed.

Lemma made_ok_advances sv sv' m : advances_all sv sv' -> made_ok sv m -> made_ok sv' m.
Proof.
  intros A (d & st & en & H & ?). exists d, st, en. split; [by apply (decided_advances sv)|done].
Qed.

(** A write of one row with its event keeps the invariant. *)
Lemma inv_set_row id r h sv :
  server_inv sv -> h_listing h = id -> h_to h = rw_status r ->
  rw_status r ∈ [SUBMITTED; CHANGES_REQUESTED; APPROVED; REJECTED; SCHEDULED] ->
  details_ok (rw_details r) ->
  match rw_auction r with
  | Some a => rw_status r = SCHEDULED /\ made_for sv id a
  | None => rw_status r <> SCHEDULED
  end ->
  (forall a, sv_rows sv !! id = Some a -> advances a r) ->
  server_inv (set_row id r h sv) /\ advances_all sv (set_row id r h sv).
Proof.
  intros [R T M] Hl Ht Hs Hd Ha Hadv.
  assert (A : advances_all sv (set_row id r h sv)).
  { intros k a Hk. simpl. destruct (decide (k = id)) as [->|Hne].
    - exists r. by rewrite lookup_insert_eq; auto.
    - exists a. by rewrite lookup_insert_ne. }
  split; [|done]. split.
  - intros k a. simpl. destruct (decide (k = id)) as [->|Hne].
    + rewrite lookup_insert_eq. intros [= <-]. split; [done|done| |done].
      simpl. by rewrite last_status_snoc, Hl, String.eqb_refl, Ht.
    + rewrite lookup_insert_ne by done. intros Hk. destruct (R k a Hk) as [? ? Hh ?]. split; [done|done| |done].
      simpl. rewrite last_status_snoc, Hl. by apply not_eq_sym, String.eqb_neq in Hne as ->.
  - simpl. eapply Forall_impl; [exact T|]. intros t. by apply task_ok_advances.
  - simpl. eapply Forall_impl; [exact M|]. intros m. by apply made_ok_advances.
Qed.

Lemma listings_with_tasks l sv : server_inv sv -> Forall (task_ok sv) l -> server_inv (with_tasks l sv).
Proof.
  intros [R T M] H. split; simpl; [|eapply Forall_impl; [exact H|by intros []]|exact M].
  intros id r Hr. by destruct (R id r Hr).
Qed.

Lemma validate_ok p :
  validate p = Ok tt <->
  3 <= Z.of_nat (String.length (lp_title p)) /\ 10 <= Z.of_nat (String.length (lp_description p)).
Proof. unfold validate. case_tests; bool_facts; split; try done; lia. Qed.

(** The columns of a request that passed. *)
Lemma details_of_ok p d : (let* _ := validate p in details_of p) = Ok d -> details_ok d.
Proof.
  destruct (validate p) as [[]|] eqn:V; [|done]. apply validate_ok in V. simpl.
  unfold details_of, json_field, json_num.
  destruct (lp_starting_price p) as [x|]; [|done]. destruct (lp_minimum_bid_step p) as [y|]; simpl; [|by case_tests].
  destruct (is_finite x) eqn:Fx; [|done]. destruct (is_finite y) eqn:Fy; [|done].
  destruct (nle x nzero) eqn:Px; [done|]. destruct (nle y nzero) eqn:Py; [done|].
  destruct (parse_direction _); [|done]. destruct (parse_time _); [|done]. destruct (parse_time _); [|done].
  intros [= <-]. split; [done|]. split; [simpl; by rewrite positive_rule, Px|]. repeat split; try apply V; try done; simpl.
  - destruct (lp_reserve_price p) as [v|]; simpl; [|done]. by destruct (is_finite v) eqn:E.
  - destruct (lp_quantity p) as [v|]; simpl; [|done]. by destruct (is_finite v) eqn:E.
Qed.

Definition good_step (sv sv' : Server) : Prop := server_inv sv' /\ advances_all sv sv'.

Lemma good_refl sv : server_inv sv -> good_step sv sv.
Proof. intros H. split; [done|]. intros id a Ha. by exists a. Qed.

Lemma good_settle sv (m : result Server) :
  server_inv sv -> (forall sv', m = Ok sv' -> good_step sv sv') -> good_step sv (settle sv m).1.
Proof. intros H Hm. destruct m as [sv'|e]; simpl; [by apply Hm|by apply good_refl]. Qed.

Lemma good_spawn sv (m : result Task) :
  server_inv sv -> (forall t, m = Ok t -> task_ok sv t) -> good_step sv (spawn sv m).1.
Proof.
  intros H Hm. unfold spawn. apply good_settle; [done|]. intros sv'. destruct m as [t|e]; simpl; [|done].
  intros [= <-]. split; [|by intros id a Ha; exists a].
  apply listings_with_tasks; [done|]. apply Forall_app. split; [apply H|]. repeat constructor. by apply Hm.
Qed.

Lemma role_ok (role : result unit) {A} (m : result A) (x : A) :
  (let* _ := role in m) = Ok x -> m = Ok x.
Proof. by destruct role. Qed.

Lemma status_not_scheduled sv id r :
  row_ok sv id r -> rw_status r <> SCHEDULED -> rw_auction r = None.
Proof. intros [_ _ _ H] Hn. destruct (rw_auction r); [naive_solver|done]. Qed.

Lemma create_good id seller now p sv sv' :
  server_inv sv -> create_listing id seller now p sv = Ok sv' -> good_step sv sv'.
Proof.
  intros I H. unfold create_listing in H. pose proof (details_of_ok p) as Hd.
  destruct (validate p) as [u|]; [|done]. simpl in H, Hd.
  destruct (details_of p) as [d|]; [|done]. simpl in H. specialize (Hd d eq_refl).
  destruct (sv_rows sv !! id) eqn:E; [done|]. injection H as <-.
  apply inv_set_row; simpl; try done; [by left|congruence].
Qed.

(** The rows that a seller may change. *)
Lemma editable_row sv id r seller :
  server_inv sv -> sv_rows sv !! id = Some r -> String.eqb (rw_seller r) seller && editable (rw_status r) = true ->
  rw_status r = CHANGES_REQUESTED /\ rw_auction r = None /\ details_ok (rw_details r).
Proof.
  intros I Hr [_ He]%andb_true_iff. pose proof (si_rows _ I _ _ Hr) as O. apply bool_decide_eq_true in He.
  assert (S : rw_status r = CHANGES_REQUESTED).
  { pose proof (ro_status _ _ _ O) as S. list_in. }
  split; [done|]. split; [|apply O]. apply (status_not_scheduled sv id r O). by rewrite S.
Qed.

Lemma update_good id seller now p sv sv' :
  server_inv sv -> update_listing id seller now p sv = Ok sv' -> good_step sv sv'.
Proof.
  intros I H. unfold update_listing in H. pose proof (details_of_ok p) as Hd.
  destruct (validate p) as [u|]; [|done]. simpl in H, Hd.
  destruct (details_of p) as [d|]; [|done]. simpl in H. specialize (Hd d eq_refl).
  destruct (sv_rows sv !! id) as [r|] eqn:E; [|done].
  destruct (String.eqb _ _ && _) eqn:G; [|done]. injection H as <-.
  destruct (editable_row sv id r seller I E G) as (S & A & _).
  apply inv_set_row; simpl; rewrite ?A, ?S; try done; [list_in|].
  rewrite E. intros a [= <-]. unfold advances. simpl. rewrite S. naive_solver.
Qed.

Lemma resubmit_good id seller now sv sv' :
  server_inv sv -> resubmit_listing id seller now sv = Ok sv' -> good_step sv sv'.
Proof.
  intros I H. unfold resubmit_listing in H.
  destruct (sv_rows sv !! id) as [r|] eqn:E; [|done].
  destruct (String.eqb _ _ && _) eqn:G; [|done]. injection H as <-.
  destruct (editable_row sv id r seller I E G) as (S & A & D).
  apply inv_set_row; simpl; rewrite ?A; try done; [list_in|].
  rewrite E. intros a [= <-]. unfold advances. simpl. rewrite S. naive_solver.
Qed.

Lemma review_start_ok id admin decision feedback now sv t :
  review_start id admin decision feedback now sv = Ok t -> task_ok sv t.
Proof.
  unfold review_start, parse_decision. intros H. case_tests; simpl in *; case_tests; try done;
    destruct (sv_rows sv !! id); try done; injection H as <-; simpl; list_in.
Qed.

Lemma review_good id admin st feedback now old sv sv' :
  server_inv sv -> st ∈ [APPROVED; CHANGES_REQUESTED; REJECTED] ->
  review_finish id admin st feedback now old sv = Ok sv' -> good_step sv sv'.
Proof.
  intros I Hs H. unfold review_finish in H.
  destruct (sv_rows sv !! id) as [r|] eqn:E; [|done].
  destruct (reviewable (rw_status r)) eqn:G; [|done]. injection H as <-. apply bool_decide_eq_true in G.
  pose proof (si_rows _ I _ _ E) as O.
  assert (N : rw_status r <> SCHEDULED /\ frozen (rw_status r) = false /\ rw_status r <> REJECTED).
  { split_and!; [|apply bool_decide_eq_false|]; list_in. }
  destruct N as (N1 & N2 & N3). pose proof (status_not_scheduled sv id r O N1) as A.
  apply inv_set_row; simpl; rewrite ?A; try done; [list_in|apply O|list_in|].
  rewrite E. intros a [= <-]. unfold advances. simpl. rewrite N2. naive_solver.
Qed.

Lemma schedule_start_ok id admin start fin sv t :
  schedule_start id admin start fin sv = Ok t -> task_ok sv t.
Proof.
  unfold schedule_start. destruct (sv_rows sv !! id) as [r|] eqn:E; [|done].
  case_bool_decide as S; [|done]. intros [= <-]. simpl. exists r. by rewrite S.
Qed.

Lemma schedule_create_good id admin start fin r auction sv x :
  server_inv sv -> decided sv id (rw_seller r) (rw_details r) ->
  schedule_create id admin start fin r auction sv = Ok x ->
  good_step sv (with_tasks (sv_tasks (fst x) ++ [snd x]) (fst x)).
Proof.
  intros I D H. unfold schedule_create in H.
  destruct (create_auction_service read_utc _) as [t|] eqn:C; [|done]. injection H as <-. simpl.
  set (m := mkMade _ _ _ _).
  assert (A : advances_all sv (mkServer (sv_rows sv) (sv_history sv) (sv_made sv ++ [m]) (sv_tasks sv)))
    by (intros k a Ha; by exists a).
  destruct D as (r' & Hr & Hf & Hs & Hd). pose proof (ro_details _ _ _ (si_rows _ I _ _ Hr)) as Ok_. rewrite Hd in Ok_.
  destruct (proj1 (schedule_accepted start fin _ Ok_) (ex_intro _ t C)) as [Sc Ti].
  split; [|by intros k a Ha; exists a]. destruct I as [R T M]. split; simpl.
  - intros k a Ha. destruct (R k a Ha) as [O1 O2 O3 O4]. split; [done|done|done|].
    destruct (rw_auction a); [|done]. destruct O4 as [? (m' & Hm & ?)]. split; [done|]. exists m'.
    split; [simpl; rewrite elem_of_app; by left|done].
  - apply Forall_app. split.
    + eapply Forall_impl; [exact T|]. intros u. apply task_ok_advances; [exact A|]. simpl. set_solver.
    + repeat constructor. exists m. split; [simpl; set_solver|done].
  - apply Forall_app. split; [eapply Forall_impl; [exact M|]; intros u; by apply made_ok_advances|].
    repeat constructor. exists (rw_details r), start, fin. split; [|done]. by exists r'.
Qed.

Lemma schedule_finish_good id admin auction now sv sv' :
  server_inv sv -> made_for sv id auction ->
  schedule_finish id admin auction now sv = Ok sv' -> good_step sv sv'.
Proof.
  intros I Hm H. unfold schedule_finish in H.
  destruct (sv_rows sv !! id) as [r|] eqn:E; [|done]. injection H as <-.
  pose proof (si_rows _ I _ _ E) as O.
  assert (F : frozen (rw_status r) = true).
  { destruct Hm as (m & Hm & <- & _). pose proof (si_made _ I) as M. rewrite Forall_forall in M.
    rewrite list_elem_of_In in Hm.
    destruct (M m ltac:(by rewrite list_elem_of_In)) as (d & st & en & (r' & Hr & Hf & _) & _). congruence. }
  apply inv_set_row; simpl; try done; [list_in|apply O|].
  rewrite E. intros a [= <-]. unfold advances. simpl. repeat split; try done.
  intros R. by rewrite R in F.
Qed.

Lemma good_trans a b c : good_step a b -> good_step b c -> good_step a c.
Proof. intros [_ A] [I B]. split; [done|]. by apply advances_all_trans with b. Qed.

Lemma proceed_good now key t sv sv' :
  server_inv sv -> task_ok sv t -> proceed now key t sv = Ok sv' -> good_step sv sv'.
Proof.
  intros I Ht H. destruct t as [id admin st fb at_ old|id admin start fin r|id admin auction]; simpl in *.
  - by eapply review_good.
  - destruct (schedule_create _ _ _ _ _ _ _) as [x|] eqn:C; [|done]. injection H as <-.
    by eapply schedule_create_good.
  - by eapply schedule_finish_good.
Qed.

Lemma step_good now e sv : server_inv sv -> good_step sv (server_step now e sv).1.
Proof.
  intros I. destruct e; simpl.
  - apply good_settle; [done|]. intros sv' H%role_ok. by eapply create_good.
  - apply good_settle; [done|]. intros sv' H%role_ok. by eapply update_good.
  - apply good_settle; [done|]. intros sv' H%role_ok. by eapply resubmit_good.
  - apply good_spawn; [done|]. intros t H%role_ok. by eapply review_start_ok.
  - apply good_spawn; [done|]. intros t H%role_ok. by eapply schedule_start_ok.
  - destruct (sv_tasks sv !! k) as [t|] eqn:K; [|by apply good_refl].
    pose proof (si_tasks _ I) as T. rewrite Forall_lookup in T. pose proof (T k t K) as Ht.
    assert (I' : server_inv (with_tasks (delete k (sv_tasks sv)) sv))
      by (apply listings_with_tasks; [done|apply Forall_delete, (si_tasks _ I)]).
    apply good_trans with (with_tasks (delete k (sv_tasks sv)) sv); [split; [done|by intros i a Ha; exists a]|].
    apply good_settle; [done|]. intros sv' H. 
    apply (proceed_good now key t _ sv' I'); [by destruct t|done].
Qed.

Lemma run_good es sv : server_inv sv -> good_step sv (server_run es sv).
Proof.
  unfold server_run. revert sv. induction es as [|e es IH]; intros sv I; [by apply good_refl|].
  simpl. destruct (step_good (fst e) (snd e) sv I) as [I' A].
  apply good_trans with (server_step (fst e) (snd e) sv).1; [done|by apply IH].
Qed.

Lemma server0_inv : server_inv server0.
Proof. split; [done|by constructor|by constructor]. Qed.

(** The states that requests lead to. *)
Definition reachable (sv : Server) : Prop := exists es, sv = server_run es server0.

Lemma reachable_inv sv : reachable sv -> server_inv sv.
Proof. intros [es ->]. apply run_good, server0_inv. Qed.

Lemma create_made id admin start fin r auction sv :
  details_ok (rw_details r) -> schedulable (rw_details r) = true -> times_ok start fin ->
  schedule_create id admin start fin r auction sv =
  Ok (mkServer (sv_rows sv) (sv_history sv)
        (sv_made sv ++ [mkMade auction id (schedule_payload start fin (rw_details r)) (rw_seller r)]) (sv_tasks sv),
      ScheduledTask id admin auction).
Proof.
  intros D S T. destruct (proj2 (schedule_accepted start fin _ D) (conj S T)) as [t Ht].
  unfold schedule_create. by rewrite Ht.
Qed.

(** The three steps of a scheduling. *)
Lemma step_start sv id r admin start fin now :
  sv_rows sv !! id = Some r -> rw_status r = APPROVED ->
  server_step now (ScheduleListing admin ADMIN id start fin) sv =
  (with_tasks (sv_tasks sv ++ [ScheduleTask id admin start fin r]) sv, Ok tt).
Proof. intros Hr Hs. simpl. unfold schedule_start. by rewrite Hr, Hs. Qed.

Lemma step_create sv k id r admin start fin key now :
  details_ok (rw_details r) -> schedulable (rw_details r) = true -> times_ok start fin ->
  sv_tasks sv !! k = Some (ScheduleTask id admin start fin r) ->
  server_step now (Proceed k key) sv =
  (mkServer (sv_rows sv) (sv_history sv)
     (sv_made sv ++ [mkMade key id (schedule_payload start fin (rw_details r)) (rw_seller r)])
     (delete k (sv_tasks sv) ++ [ScheduledTask id admin key]), Ok tt).
Proof. intros D S T Hk. simpl. rewrite Hk. simpl. by rewrite create_made. Qed.

Definition scheduled_row (auction : string) (now : Z) (r : Row) : Row :=
  mkRow (rw_seller r) (Some auction) SCHEDULED (rw_details r) (rw_feedback r)
    (rw_reviewed_by r) (rw_submitted_at r) (rw_reviewed_at r) (rw_created_at r) now.

Lemma step_finish sv k id r admin auction key now :
  sv_rows sv !! id = Some r -> sv_tasks sv !! k = Some (ScheduledTask id admin auction) ->
  server_step now (Proceed k key) sv =
  (set_row id (scheduled_row auction now r) (mkHistory id (Some APPROVED) SCHEDULED admin (Some "Auction scheduled") now)
     (with_tasks (delete k (sv_tasks sv)) sv), Ok tt).
Proof. intros Hr Hk. simpl. rewrite Hk. simpl. unfold schedule_finish. simpl. by rewrite Hr. Qed.

Lemma run_cons e es sv : server_run (e :: es) sv = server_run es (server_step (fst e) (snd e) sv).1.
Proof. done. Qed.

Lemma tasks_end {A} (l : list A) x : (l ++ [x]) !! length l = Some x /\ delete (length l) (l ++ [x]) = l.
Proof. split; [by rewrite lookup_app_r, Nat.sub_diag by lia|]. by rewrite delete_middle, app_nil_r. Qed.

(** The next event of a run, by a lemma about its step. *)
Tactic Notation "next_step" uconstr(H) :=
  rewrite run_cons; cbn [fst snd sv_tasks with_tasks]; rewrite H by (done || (simpl; by rewrite lookup_insert_eq)).

(** ** Properties *)

(** C33: whatever the order and the overlap of the requests, a decision is final: a
    rejected listing stays rejected with its columns, an approved one stays
    approved or becomes scheduled, a scheduled one stays scheduled, neither changes
    its columns any more, and no listing changes its seller. *)
Theorem listing_decisions_are_final sv es id r :
  reachable sv -> sv_rows sv !! id = Some r ->
  exists r', sv_rows (server_run es sv) !! id = Some r' /\ rw_seller r' = rw_seller r /\
    match rw_status r with
    | REJECTED => rw_status r' = REJECTED /\ rw_details r' = rw_details r
    | APPROVED => (rw_status r' = APPROVED \/ rw_status r' = SCHEDULED) /\ rw_details r' = rw_details r
    | SCHEDULED => rw_status r' = SCHEDULED /\ rw_details r' = rw_details r
    | _ => True
    end.
Proof.
  intros R Hr. destruct (run_good es sv (reachable_inv sv R)) as [_ A].
  destruct (A id r Hr) as (r' & Hr' & S & F & C & J & D). exists r'. split; [done|]. split; [done|].
  destruct (rw_status r); try done; (split; [|apply D; auto]); auto.
  assert (F' : frozen (rw_status r') = true) by by apply F. apply bool_decide_eq_true in F'. list_in.
Qed.

(** whatever the order and the overlap of the requests, a listing's status is
    the one its latest event records and one of the five that the operations write
    (no listing is a draft, under review or cancelled), and a listing is scheduled
    exactly when it names an auction, which was created for it. *)
Theorem listing_record_is_consistent es id r :
  let sv := server_run es server0 in
  sv_rows sv !! id = Some r ->
  last_status id (sv_history sv) = Some (rw_status r) /\
  rw_status r ∈ [SUBMITTED; CHANGES_REQUESTED; APPROVED; REJECTED; SCHEDULED] /\
  (rw_status r = SCHEDULED <-> exists a, rw_auction r = Some a /\ made_for sv id a).
Proof.
  intros sv Hr. destruct (si_rows _ (reachable_inv sv (ex_intro _ es eq_refl)) _ _ Hr) as [S _ H A].
  split; [done|]. split; [done|]. destruct (rw_auction r) as [a|].
  - destruct A as [-> A]. split; [by eauto|done].
  - split; [done|]. by intros (a & Ha & _).
Qed.

(** C34: an approved listing can be scheduled if and only if it passes the rules on
    the reserve and the quantity that submission and review do not check: one that
    fails them is neither scheduled, nor editable, nor rejected, by any requests;
    one that passes them is scheduled by an administrator's request with any five
    minutes. *)
Theorem listing_can_be_scheduled_iff sv id r (admin start fin key : string) :
  reachable sv -> sv_rows sv !! id = Some r -> rw_status r = APPROVED -> times_ok start fin ->
  (exists es r', sv_rows (server_run es sv) !! id = Some r' /\ rw_status r' <> APPROVED) <->
  schedulable (rw_details r) = true.
Proof.
  intros R Hr Hs T. pose proof (reachable_inv sv R) as I. pose proof (si_rows _ I _ _ Hr) as O. split.
  - intros (es & r' & Hr' & N). destruct (run_good es sv I) as [I' A].
    destruct (A id r Hr) as (r1 & Hr1 & _ & F & _ & _ & D). rewrite Hr1 in Hr'. injection Hr' as ->.
    rewrite Hs in F, D. specialize (F eq_refl). specialize (D (or_introl eq_refl)).
    pose proof (si_rows _ I' _ _ Hr1) as [_ _ _ O']. apply bool_decide_eq_true in F.
    destruct (rw_auction r') as [a|]; [|exfalso; list_in].
    destruct O' as [_ (m & Hm & Hid & _)]. pose proof (si_made _ I') as M. rewrite Forall_forall in M.
    rewrite list_elem_of_In in Hm.
    destruct (M m ltac:(by rewrite list_elem_of_In)) as (d & st & en & (r2 & Hr2 & _ & _ & <-) & _ & S & _).
    rewrite Hid in Hr2. congruence.
  - intros S. set (k := length (sv_tasks sv)).
    exists [(0, ScheduleListing admin ADMIN id start fin); (0, Proceed k key); (0, Proceed k key)],
      (scheduled_row key 0 r).
    pose proof (tasks_end (sv_tasks sv)) as E.
    rewrite run_cons. cbn [fst snd]. rewrite (step_start sv id r) by done.
    rewrite run_cons. cbn [fst snd]. rewrite (step_create _ k id r admin start fin) by (done || apply O || apply E).
    rewrite run_cons. cbn [fst snd sv_tasks with_tasks]. unfold k. rewrite (proj2 (E _)).
    rewrite (step_finish _ _ id r admin key) by (done || apply E).
    simpl. by rewrite lookup_insert_eq.
Qed.

(** the status is checked only when a scheduling starts: two administrators'
    requests for one approved listing that overlap create two auctions, of which the
    listing names the second; when the first has finished before, the second is
    refused and creates nothing. *)
Theorem overlapping_schedules_publish_twice sv id r (a1 a2 start fin k1 k2 : string) :
  reachable sv -> sv_tasks sv = [] -> sv_rows sv !! id = Some r -> rw_status r = APPROVED ->
  schedulable (rw_details r) = true -> times_ok start fin ->
  let made key := mkMade key id (schedule_payload start fin (rw_details r)) (rw_seller r) in
  let both := server_run [(0, ScheduleListing a1 ADMIN id start fin); (0, ScheduleListing a2 ADMIN id start fin);
                          (0, Proceed 0 k1); (0, Proceed 0 k2); (0, Proceed 0 k1); (0, Proceed 0 k2)] sv in
  let one := server_run [(0, ScheduleListing a1 ADMIN id start fin); (0, Proceed 0 k1); (0, Proceed 0 k1)] sv in
  (sv_made both = sv_made sv ++ [made k1; made k2] /\
   exists r', sv_rows both !! id = Some r' /\ rw_auction r' = Some k2) /\
  sv_made one = sv_made sv ++ [made k1] /\
  server_step 0 (ScheduleListing a2 ADMIN id start fin) one = (one, Throw "Only approved listings can be scheduled").
Proof.
  intros R T0 Hr Hs S T made both one.
  pose proof (ro_details _ _ _ (si_rows _ (reachable_inv sv R) _ _ Hr)) as D.
  split.
  - unfold both. next_step (step_start sv id r). rewrite T0. next_step (step_start _ id r).
    next_step (step_create _ 0 id r a1 start fin). next_step (step_create _ 0 id r a2 start fin).
    next_step (step_finish _ 0 id r a1 k1). next_step (step_finish _ 0 id (scheduled_row k1 0 r) a2 k2).
    simpl. split; [by rewrite <-app_assoc|]. eexists. by rewrite lookup_insert_eq.
  - unfold one. next_step (step_start sv id r). rewrite T0. next_step (step_create _ 0 id r a1 start fin).
    next_step (step_finish _ 0 id r a1 k1). split; [done|].
    simpl. unfold schedule_start. simpl. by rewrite lookup_insert_eq.
Qed.
End Listings.

(** ** Witnesses *)
Definition utc_stamp : string -> option Z := date_parse UTC no_fallback.

(** A forward listing from 100 with reserve [r], submitted and approved. *)
Definition sample_listing (r : Z) : ListingPayload :=
  mkListing "Pallet of tiles" "Forty boxes of tiles" "FORWARD" (Some "Materials") None None None
    (Some (of_Z 100)) (Some (of_Z 5)) (Some (of_Z r)) None None None None ["u"].
Definition sample_events (r : Z) : list (Z * request) :=
  [(1, CreateListing "s" CUSTOMER "L" (sample_listing r)); (2, ReviewListing "a" ADMIN "L" "approve" None);
   (3, Proceed 0 EmptyString)].
Definition sample_server (r : Z) : Server := server_run utc_stamp (sample_events r) server0.
Definition sample_row (r : Z) : Row :=
  mkRow "s" None APPROVED
    (mkDetails FORWARD "Pallet of tiles" "Forty boxes of tiles" (Some "Materials") None None None
       (of_Z 100) (of_Z 5) (Some (of_Z r)) None None None None [Some "u"])
    None (Some "a") 1 (Some 2) 1 2.

Lemma sample_server_row r : r = 50 \/ r = 150 -> sv_rows (sample_server r) !! "L" = Some (sample_row r).
Proof. intros [-> | ->]; vm_compute; reflexivity. Qed.
Lemma sample_reachable r : reachable utc_stamp (sample_server r).
Proof. by exists (sample_events r). Qed.
Lemma sample_times : times_ok utc_stamp "2030-01-07T10:00Z" "2030-01-07T10:05Z".
Proof. exists 1894010400000, 1894010700000. done. Qed.

Lemma listing_decisions_are_final_witness :
  exists r', sv_rows (server_run utc_stamp [(9, ResubmitListing "s" CUSTOMER "L")] (sample_server 50)) !! "L" = Some r' /\
    rw_seller r' = "s" /\ (rw_status r' = APPROVED \/ rw_status r' = SCHEDULED) /\
    rw_details r' = rw_details (sample_row 50).
Proof.
  apply (listing_decisions_are_final utc_stamp (sample_server 50) _ "L" (sample_row 50)).
  - apply sample_reachable.
  - apply sample_server_row. by left.
Defined.

Lemma listing_record_is_consistent_witness :
  last_status "L" (sv_history (sample_server 150)) = Some APPROVED /\
  APPROVED ∈ [SUBMITTED; CHANGES_REQUESTED; APPROVED; REJECTED; SCHEDULED] /\
  (APPROVED = SCHEDULED <-> exists a, @None string = Some a /\ made_for (sample_server 150) "L" a).
Proof.
  apply (listing_record_is_consistent utc_stamp (sample_events 150) "L" (sample_row 150)).
  apply sample_server_row. by right.
Defined.

Lemma listing_can_be_scheduled_iff_witness :
  ((exists es r', sv_rows (server_run utc_stamp es (sample_server 50)) !! "L" = Some r' /\ rw_status r' <> APPROVED) <->
   false = true) /\
  ((exists es r', sv_rows (server_run utc_stamp es (sample_server 150)) !! "L" = Some r' /\ rw_status r' <> APPROVED) <->
   true = true).
Proof.
  split.
  - apply (listing_can_be_scheduled_iff utc_stamp (sample_server 50) "L" (sample_row 50) "a"
      "2030-01-07T10:00Z" "2030-01-07T10:05Z" "k"); [apply sample_reachable|apply sample_server_row; by left|done|exact sample_times].
  - apply (listing_can_be_scheduled_iff utc_stamp (sample_server 150) "L" (sample_row 150) "a"
      "2030-01-07T10:00Z" "2030-01-07T10:05Z" "k"); [apply sample_reachable|apply sample_server_row; by right|done|exact sample_times].
Defined.

Lemma overlapping_schedules_publish_twice_witness :
  let id := "L" in let start := "2030-01-07T10:00Z" in let fin := "2030-01-07T10:05Z" in
  let sv := sample_server 150 in
  let made key := mkMade key id (schedule_payload start fin (rw_details (sample_row 150))) "s" in
  let both := server_run utc_stamp
                [(0, ScheduleListing "a" ADMIN id start fin); (0, ScheduleListing "b" ADMIN id start fin);
                 (0, Proceed 0 "k1"); (0, Proceed 0 "k2"); (0, Proceed 0 "k1"); (0, Proceed 0 "k2")] sv in
  let one := server_run utc_stamp [(0, ScheduleListing "a" ADMIN id start fin); (0, Proceed 0 "k1"); (0, Proceed 0 "k1")] sv in
  (sv_made both = sv_made sv ++ [made "k1"; made "k2"] /\
   exists r', sv_rows both !! id = Some r' /\ rw_auction r' = Some "k2") /\
  sv_made one = sv_made sv ++ [made "k1"] /\
  server_step utc_stamp 0 (ScheduleListing "b" ADMIN id start fin) one =
    (one, Throw "Only approved listings can be scheduled").
Proof.
  apply (overlapping_schedules_publish_twice utc_stamp (sample_server 150) "L" (sample_row 150) "a" "b"
    "2030-01-07T10:00Z" "2030-01-07T10:05Z" "k1" "k2").
  - apply sample_reachable.
  - done.
  - apply sample_server_row. by right.
  - done.
  - done.
  - exact sample_times.
Defined.
