(* ===== verification/SellForms.v ===== *)
(** * The seller's forms

    [app/sell/new/page.tsx] submits a listing, [app/sell/[id]/edit/page.tsx] revises
    one: their state and handlers, the payload each sends to the operations of
    [Listings], and their views with the browser's constraints. *)

From Stdlib Require Import Ascii.
From S2P Require Import Prelude Markup JSNum JSText JSDate ApiTypes Media CreateAuction Listings.
#[local] Open Scope Z_scope.
#[local] Open Scope aqua_scope.

(** ** Submitting a listing ([app/sell/new/page.tsx]) *)

(** The named fields of the form, as [FormData] reads them. *)
Record ListingValues := mkValues {
  lv_title : string;
  lv_description : string;
  lv_category : string;
  lv_condition : string;
  lv_quantity : string;
  lv_quantity_unit : string;
  lv_starting_price : string;
  lv_minimum_bid_step : string;
  lv_reserve_price : string;
  lv_location : string;
  lv_details : string;
  lv_availability_start : string;
  lv_availability_end : string
}.

Definition values0 : ListingValues :=
  mkValues EmptyString EmptyString (default EmptyString (head AUCTION_CATEGORIES))
    (default EmptyString (head ITEM_CONDITIONS)) EmptyString EmptyString EmptyString "1" EmptyString
    EmptyString EmptyString EmptyString EmptyString.

Inductive listing_field :=
| LTitle | LDescription | LCategory | LCondition | LQuantity | LQuantityUnit | LStartingPrice | LMinimumBidStep
| LReservePrice | LLocation | LDetails | LAvailabilityStart | LAvailabilityEnd.

Definition set_value (f : listing_field) (v : string) (x : ListingValues) : ListingValues :=
  let '(mkValues x0 x1 x2 x3 x4 x5 x6 x7 x8 x9 x10 x11 x12) := x in
  match f with
  | LTitle => mkValues v x1 x2 x3 x4 x5 x6 x7 x8 x9 x10 x11 x12
  | LDescription => mkValues x0 v x2 x3 x4 x5 x6 x7 x8 x9 x10 x11 x12
  | LCategory => mkValues x0 x1 v x3 x4 x5 x6 x7 x8 x9 x10 x11 x12
  | LCondition => mkValues x0 x1 x2 v x4 x5 x6 x7 x8 x9 x10 x11 x12
  | LQuantity => mkValues x0 x1 x2 x3 v x5 x6 x7 x8 x9 x10 x11 x12
  | LQuantityUnit => mkValues x0 x1 x2 x3 x4 v x6 x7 x8 x9 x10 x11 x12
  | LStartingPrice => mkValues x0 x1 x2 x3 x4 x5 v x7 x8 x9 x10 x11 x12
  | LMinimumBidStep => mkValues x0 x1 x2 x3 x4 x5 x6 v x8 x9 x10 x11 x12
  | LReservePrice => mkValues x0 x1 x2 x3 x4 x5 x6 x7 v x9 x10 x11 x12
  | LLocation => mkValues x0 x1 x2 x3 x4 x5 x6 x7 x8 v x10 x11 x12
  | LDetails => mkValues x0 x1 x2 x3 x4 x5 x6 x7 x8 x9 v x11 x12
  | LAvailabilityStart => mkValues x0 x1 x2 x3 x4 x5 x6 x7 x8 x9 x10 v x12
  | LAvailabilityEnd => mkValues x0 x1 x2 x3 x4 x5 x6 x7 x8 x9 x10 x11 v
  end.

Record NewListing := mkNewListing {
  nl_direction : AuctionDirection;
  nl_values : ListingValues;
  nl_gallery : Gallery;
  nl_error : string;
  nl_pending : bool
}.
Definition new_listing0 : NewListing := mkNewListing FORWARD values0 gallery0 EmptyString false.

Inductive new_listing_event :=
| Direction (d : AuctionDirection)
| Fill (f : listing_field) (v : string)
| Previews (e : media_event + nat)
| SubmitListing
| Submitted (r : result unit).

(** The reserve is an input of a forward listing only: it loses its value with the
    element. *)
Definition new_listing_step (e : new_listing_event) (s : NewListing) : NewListing :=
  let '(mkNewListing d v g err p) := s in
  match e with
  | Direction k => mkNewListing k (match k with REVERSE => set_value LReservePrice EmptyString v | FORWARD => v end) g err p
  | Fill f x => mkNewListing d (set_value f x v) g err p
  | Previews m => mkNewListing d v (seller_step m g) err p
  | SubmitListing => mkNewListing d v g EmptyString true
  | Submitted (Ok _) => mkNewListing d v g err false
  | Submitted (Throw m) => mkNewListing d v g m false
  end.

(** Where a finished submission leads. *)
Definition submitted_to (r : result unit) : option string :=
  match r with Ok _ => Some "/seller/dashboard?submitted=1" | Throw _ => None end.

Section NewListingForm.
(** [new Date(text).getTime()] in the browser. *)
Context (date : string -> option Z).

(** [iso]. *)
Definition iso_or_null (v : string) : result (option string) :=
  match v with
  | EmptyString => Ok None
  | _ => let* s := toISOString (date v) in Ok (Some s)
  end.

(** The body sent: the direction is the one of the submission, the fields are read
    from the form [s] after the uploads. *)
Definition listing_payload (d : AuctionDirection) (s : NewListing) (uploaded : list string) : result ListingPayload :=
  let v := nl_values s in
  let* from := iso_or_null (lv_availability_start v) in
  let* until := iso_or_null (lv_availability_end v) in
  Ok (mkListing (lv_title v) (lv_description v) (direction_text d) (Some (lv_category v)) (Some (lv_condition v))
        (optionalNumber (lv_quantity v)) (or_null (lv_quantity_unit v)) (Some (Number (lv_starting_price v)))
        (Some (Number (lv_minimum_bid_step v)))
        (match nl_direction s with FORWARD => optionalNumber (lv_reserve_price v) | REVERSE => None end)
        (or_null (lv_location v)) (or_null (lv_details v)) from until uploaded).

(** The mutation: the uploads of the files picked at the submission, then the body
    from the form as it is then, then the server. *)
Definition submit_listing (reply : File -> upload_reply) (server : ListingPayload -> result Server)
    (d : AuctionDirection) (files : list MediaPreview.t) (later : NewListing) : result Server :=
  let* us := seller_upload reply files in
  let* p := listing_payload d later us in
  server p.
End NewListingForm.

(** ** The view *)

Definition listing_input (label kind : string) (constraints : list (string * string)) (f : listing_field)
    (value : string) : node new_listing_event :=
  field label kind constraints value (Fill f).

Definition listing_choice (label : string) (options : list string) (f : listing_field) (value : string) :
    node new_listing_event :=
  El "label" [] [Txt label;
    El "select" [Attr "value" value; Input "change" (Fill f)] (map (txt "option") options)].

Definition direction_choice (d : AuctionDirection) : node new_listing_event :=
  El "button" [Attr "type" "button"; On "click" (Direction d)] [
    txt "strong" (match d with FORWARD => "Forward auction" | REVERSE => "Reverse auction" end);
    txt "span" (match d with FORWARD => "Sell to the highest bidder."
                           | REVERSE => "Source from the lowest qualified bidder." end)].

Definition details_section (d : AuctionDirection) (v : ListingValues) : node new_listing_event :=
  tag "section" ([
    txt "h2" "Listing details";
    listing_input "Title" "text" [required] LTitle (lv_title v);
    listing_input "Description" "textarea" [required; min_length "10"] LDescription (lv_description v);
    listing_choice "Category" AUCTION_CATEGORIES LCategory (lv_category v);
    listing_choice "Condition" ITEM_CONDITIONS LCondition (lv_condition v);
    listing_input "Quantity" "number" [min_value "0.01"] LQuantity (lv_quantity v);
    listing_input "Unit" "text" [] LQuantityUnit (lv_quantity_unit v);
    listing_input "Starting price" "number" [required; min_value "0.01"] LStartingPrice (lv_starting_price v);
    listing_input "Minimum bid step" "number" [required; min_value "0.01"] LMinimumBidStep (lv_minimum_bid_step v)] ++
    when (bool_decide (d = FORWARD))
      [listing_input "Reserve price" "number" [min_value "0.01"] LReservePrice (lv_reserve_price v)] ++ [
    listing_input "Product location" "text" [] LLocation (lv_location v);
    listing_input "Details and fulfilment terms" "textarea" [] LDetails (lv_details v)]).

Definition availability_section (v : ListingValues) : node new_listing_event :=
  tag "section" [
    txt "h2" "Availability";
    txt "p" "These are preferences; the administrator sets the final auction time.";
    listing_input "Available from" "datetime-local" [] LAvailabilityStart (lv_availability_start v);
    listing_input "Available until" "datetime-local" [] LAvailabilityEnd (lv_availability_end v)].

Definition previews_section (l : list MediaPreview.t) : node new_listing_event :=
  tag "section" ([
    txt "button" "Add photos or videos";
    El "input" [Attr "type" "file"; Attr "accept" "image/*,video/*"] []] ++
    when (negb (bool_decide (l = [])))
      [tag "div" (imap (fun i m =>
         tag "div" [
           match MediaPreview.type m with
           | image => El "img" [Attr "src" (MediaPreview.url m); Attr "alt" "Listing preview"] []
           | video => El "video" [Attr "src" (MediaPreview.url m)] []
           end;
           El "button" [Attr "type" "button"; On "click" (Previews (inr i))] []]) l)]).

Definition new_listing_view (s : NewListing) : node new_listing_event :=
  tag "main" [
    tag "header" [txt "p" "Seller workspace"; txt "h1" "Submit an auction listing";
      txt "p" "Provide the product details and your availability. An administrator will review and schedule the auction."];
    El "form" [On "submit" SubmitListing] ([
      tag "section" [direction_choice FORWARD; direction_choice REVERSE];
      details_section (nl_direction s) (nl_values s);
      availability_section (nl_values s);
      previews_section (media (nl_gallery s))] ++
      when (truthy_str (Some (nl_error s))) [txt "p" (nl_error s)] ++
      [El "button" [Disabled (nl_pending s)] [Txt "Submit for admin review"]])].

(** ** Revising a listing ([app/sell/[id]/edit/page.tsx]) *)

Record EditListing := mkEdit {
  el_listing : option Listing.t;
  el_error : string;
  el_pending : bool
}.
Definition edit0 : EditListing := mkEdit None EmptyString false.

(** The calls of [set], one per input; a number input gives [null] when empty. *)
Inductive edit_change :=
| SetTitle (v : string) | SetDescription (v : string) | SetAuctionType (d : AuctionDirection)
| SetCategory (v : string) | SetCondition (v : string) | SetQuantity (v : string) | SetUnit (v : string)
| SetStartingPrice (v : string) | SetStep (v : string) | SetReserve (v : string)
| SetLocation (v : string) | SetTerms (v : string).

(** [EditNumber]'s handler. *)
Definition edit_number (v : string) : option num :=
  match v with EmptyString => None | _ => Some (Number v) end.

(** [value || 0]. *)
Definition or_zero (x : option num) : num := match x with Some v => if truthy_num v then v else nzero | None => nzero end.

Definition set_listing (c : edit_change) (l : Listing.t) : Listing.t :=
  let '(Listing.mk x0 x1 x2 x3 x4 x5 x6 x7 x8 x9 x10 x11 x12 x13 x14 x15 x16 x17 x18 x19 x20 x21 x22 x23 x24) := l in
  match c with
  | SetTitle v => Listing.mk x0 x1 x2 x3 x4 v x6 x7 x8 x9 x10 x11 x12 x13 x14 x15 x16 x17 x18 x19 x20 x21 x22 x23 x24
  | SetDescription v => Listing.mk x0 x1 x2 x3 x4 x5 v x7 x8 x9 x10 x11 x12 x13 x14 x15 x16 x17 x18 x19 x20 x21 x22 x23 x24
  | SetAuctionType d => Listing.mk x0 x1 x2 x3 d x5 x6 x7 x8 x9 x10 x11 x12 x13 x14 x15 x16 x17 x18 x19 x20 x21 x22 x23 x24
  | SetCategory v => Listing.mk x0 x1 x2 x3 x4 x5 x6 (Some v) x8 x9 x10 x11 x12 x13 x14 x15 x16 x17 x18 x19 x20 x21 x22 x23 x24
  | SetCondition v => Listing.mk x0 x1 x2 x3 x4 x5 x6 x7 (Some v) x9 x10 x11 x12 x13 x14 x15 x16 x17 x18 x19 x20 x21 x22 x23 x24
  | SetQuantity v => Listing.mk x0 x1 x2 x3 x4 x5 x6 x7 x8 (edit_number v) x10 x11 x12 x13 x14 x15 x16 x17 x18 x19 x20 x21 x22 x23 x24
  | SetUnit v => Listing.mk x0 x1 x2 x3 x4 x5 x6 x7 x8 x9 (Some v) x11 x12 x13 x14 x15 x16 x17 x18 x19 x20 x21 x22 x23 x24
  | SetStartingPrice v => Listing.mk x0 x1 x2 x3 x4 x5 x6 x7 x8 x9 x10 (or_zero (edit_number v)) x12 x13 x14 x15 x16 x17 x18 x19 x20 x21 x22 x23 x24
  | SetStep v => Listing.mk x0 x1 x2 x3 x4 x5 x6 x7 x8 x9 x10 x11 (or_zero (edit_number v)) x13 x14 x15 x16 x17 x18 x19 x20 x21 x22 x23 x24
  | SetReserve v => Listing.mk x0 x1 x2 x3 x4 x5 x6 x7 x8 x9 x10 x11 x12 (edit_number v) x14 x15 x16 x17 x18 x19 x20 x21 x22 x23 x24
  | SetLocation v => Listing.mk x0 x1 x2 x3 x4 x5 x6 x7 x8 x9 x10 x11 x12 x13 (Some v) x15 x16 x17 x18 x19 x20 x21 x22 x23 x24
  | SetTerms v => Listing.mk x0 x1 x2 x3 x4 x5 x6 x7 x8 x9 x10 x11 x12 x13 x14 (Some v) x16 x17 x18 x19 x20 x21 x22 x23 x24
  end.

Inductive edit_event :=
| Loaded (data : list Listing.t)
| Edit (c : edit_change)
| Save (resubmit : bool)
| Saved (r : result unit).

(** [id] is the address's listing; new data replaces what was edited. *)
Definition edit_step (id : string) (e : edit_event) (s : EditListing) : EditListing :=
  match e with
  | Loaded data =>
      match js_find (fun item => String.eqb (Listing.id item) id) data with
      | Some l => mkEdit (Some l) (el_error s) (el_pending s)
      | None => s
      end
  | Edit c => mkEdit (set_listing c <$> el_listing s) (el_error s) (el_pending s)
  | Save _ => mkEdit (el_listing s) (el_error s) true
  | Saved (Ok _) => mkEdit (el_listing s) (el_error s) false
  | Saved (Throw m) => mkEdit (el_listing s) m false
  end.

Section EditForm.
Context (date : string -> option Z).

(** [listing.availability ? new Date(..).toISOString() : null]. *)
Definition iso_date_or_null (v : option string) : result (option string) :=
  if truthy_str v then let* s := toISOString (date (default EmptyString v)) in Ok (Some s) else Ok None.

(** The body of the update: the listing itself, whose other properties the server
    ignores, without missing media. *)
Definition edit_payload (l : Listing.t) : result ListingPayload :=
  let* from := iso_date_or_null (Listing.availability_start l) in
  let* until := iso_date_or_null (Listing.availability_end l) in
  Ok (mkListing (Listing.title l) (Listing.description l) (direction_text (Listing.auction_type l))
        (Listing.item_category l) (Listing.item_condition l) (Listing.quantity l) (Listing.quantity_unit l)
        (Some (Listing.starting_price l)) (Some (Listing.minimum_bid_step l)) (Listing.reserve_price l)
        (Listing.origin_address l) (Listing.pickup_terms l) from until
        (omap (fun u => if truthy_str u then u else None) (Listing.media_urls l))).

(** The mutation: the update, then, if asked for, the resubmission. *)
Definition save (read_utc : string -> option Z) (now : Z) (user : string) (role : UserRole) (id : string)
    (l : option Listing.t) (resubmit : bool) (sv : Server) : Server * result unit :=
  match l with
  | None => (sv, Ok tt)
  | Some l =>
      match edit_payload l with
      | Throw m => (sv, Throw m)
      | Ok p =>
          match server_step read_utc now (UpdateListing user role id p) sv with
          | (sv', Ok _) =>
              if resubmit then server_step read_utc now (ResubmitListing user role id) sv' else (sv', Ok tt)
          | (sv', Throw m) => (sv', Throw m)
          end
      end
  end.
End EditForm.

Definition number_value (x : option num) : string :=
  match x with Some v => num_to_string v | None => EmptyString end.

Definition edit_input (label kind : string) (constraints : list (string * string)) (f : string -> edit_change)
    (value : string) : node edit_event :=
  field label kind constraints value (fun v => Edit (f v)).

Definition edit_choice (label : string) (options : list string) (f : string -> edit_change) (value : string) :
    node edit_event :=
  El "label" [] [Txt label;
    El "select" [Attr "value" value; Input "change" (fun v => Edit (f v))] (map (txt "option") options)].

(** [e.target.value as AuctionListing['auction_type']]. *)
Definition as_direction (v : string) : AuctionDirection := if String.eqb v "FORWARD" then FORWARD else REVERSE.

Definition edit_fields (l : Listing.t) : node edit_event :=
  tag "section" [
    edit_input "Title" "text" [required] SetTitle (Listing.title l);
    edit_input "Description" "textarea" [required; min_length "10"] SetDescription (Listing.description l);
    edit_choice "Auction type" ["FORWARD"; "REVERSE"] (fun v => SetAuctionType (as_direction v))
      (direction_text (Listing.auction_type l));
    edit_choice "Category" AUCTION_CATEGORIES SetCategory (or_ostr (Listing.item_category l) EmptyString);
    edit_choice "Condition" ITEM_CONDITIONS SetCondition (or_ostr (Listing.item_condition l) EmptyString);
    edit_input "Quantity" "number" [min_value "0.01"] SetQuantity (number_value (Listing.quantity l));
    edit_input "Unit" "text" [] SetUnit (or_ostr (Listing.quantity_unit l) EmptyString);
    edit_input "Starting price" "number" [required; min_value "0.01"] SetStartingPrice
      (num_to_string (Listing.starting_price l));
    edit_input "Minimum bid step" "number" [required; min_value "0.01"] SetStep
      (num_to_string (Listing.minimum_bid_step l));
    edit_input "Reserve price" "number" [min_value "0.01"] SetReserve (number_value (Listing.reserve_price l));
    edit_input "Location" "text" [] SetLocation (or_ostr (Listing.origin_address l) EmptyString);
    edit_input "Terms" "textarea" [] SetTerms (or_ostr (Listing.pickup_terms l) EmptyString)].

Definition edit_view (loading : bool) (s : EditListing) : node edit_event :=
  match el_listing s with
  | Some l =>
      if loading then tag "main" [txt "Loader2" EmptyString]
      else if negb (editable (Listing.status l)) then
        tag "main" [txt "h1" "This listing cannot be edited";
                    txt "p" "Only drafts and change-requested listings are editable."]
      else
        tag "main" [El "form" [On "submit" (Save true)] ([
          tag "header" ([txt "p" "Seller workspace"; txt "h1" "Revise listing";
            txt "p" "Address the review feedback, save your changes, and send it back to the queue."] ++
            when (truthy_str (Listing.admin_feedback l))
              [txt "p" ("Admin feedback: " +:+ default EmptyString (Listing.admin_feedback l))]);
          edit_fields l] ++
          when (truthy_str (Some (el_error s))) [txt "p" (el_error s)] ++ [
          El "button" [Attr "type" "button"; Disabled (el_pending s); On "click" (Save false)] [Txt "Save changes"];
          El "button" [Disabled (el_pending s)] [Txt "Save and resubmit"]])]
  | None => tag "main" [txt "Loader2" EmptyString]
  end.

(** A listing as the server sends it to its seller: times without a zone. *)
Definition wire_listing (id : string) (r : Row) : Listing.t :=
  let d := rw_details r in
  Listing.mk id (rw_seller r) (rw_auction r) (rw_status r) (dt_auction_type d) (dt_title d) (dt_description d)
    (dt_item_category d) (dt_item_condition d) (dt_quantity d) (dt_quantity_unit d) (dt_starting_price d)
    (dt_minimum_bid_step d) (dt_reserve_price d) (dt_origin_address d) (dt_pickup_terms d)
    (naive_text <$> dt_availability_start d) (naive_text <$> dt_availability_end d) (dt_media_urls d)
    (rw_feedback r) (naive_text (rw_submitted_at r)) (naive_text (rw_updated_at r)) None None None.

(** ** Lemmas *)

Lemma new_listing_valid s :
  form_valid (new_listing_view s) = true ->
  let v := nl_values s in
  (filled (lv_description v) = true /\ as_long_as "10" (lv_description v) = true) /\
  (filled (lv_starting_price v) = true /\ at_least "0.01" (lv_starting_price v) = true) /\
  (filled (lv_minimum_bid_step v) = true /\ at_least "0.01" (lv_minimum_bid_step v) = true).
Proof.
  intros H v. unfold new_listing_view in H. unfold tag in H. split_valid H. destruct H as (_ & H & _).
  change (form_valid (El "form" _ ?k)) with (forallb form_valid k) in H. split_valid H.
  destruct H as ((_ & Hd & _) & _). unfold details_section, tag, listing_input in Hd. fold v in Hd.
  split_valid Hd. tauto.
Qed.

Lemma listing_description_length v :
  filled v = true -> as_long_as "10" v = true -> 10 <= Z.of_nat (String.length v).
Proof. apply long_enough; vm_compute; reflexivity. Qed.

Lemma parse_direction_text d : parse_direction (direction_text d) = Ok d.
Proof. by destruct d. Qed.

(** A date that is empty or a time that the server reads back. *)
Definition sendable (date read_utc : string -> option Z) (v : string) : Prop :=
  v = EmptyString \/ exists t, date v = Some t /\ reads_back read_utc t.

Lemma iso_sent date read_utc v : sendable date read_utc v ->
  exists x, iso_or_null date v = Ok x /\ exists t, parse_time read_utc x = Ok t.
Proof.
  intros [->|(t & Ht & Hr & _)]; [by exists None; eauto|].
  destruct v as [|c v]; [by exists None; eauto|]. unfold iso_or_null. rewrite Ht. simpl. eexists. split; [done|].
  simpl. rewrite (Hr _ eq_refl). eauto.
Qed.

Lemma price_sent v : number_text v -> filled v = true -> at_least "0.01" v = true ->
  json_field (Some (Number v)) = Some (Number v) /\ nle (Number v) nzero = false.
Proof.
  intros N F L. pose proof (cent_positive v N F L) as P. destruct (filled_number v N F) as [Fin _].
  unfold json_field, json_num. simpl. rewrite Fin. split; [done|]. rewrite positive_rule in P by done.
  by apply negb_true_iff in P.
Qed.

Lemma naive_text_truthy t : in_years t -> truthy_str (Some (naive_text t)) = true.
Proof.
  intros H. unfold naive_text, iso_seconds. unfold in_years in H.
  destruct (fields_of t) as [[[[y m] d] h] mi]. rewrite !str_app_assoc.
  match goal with |- context [iso_year y +:+ ?r] => pose proof (year_int y r H) as E; destruct (iso_year y +:+ r) end;
    [discriminate|done].
Qed.

Lemma media_sent l : Forall (fun u => truthy_str u = true) l ->
  Some <$> omap (fun u => if truthy_str u then u else None) l = l.
Proof. induction 1 as [|u l Hu Hl IH]; [done|]. simpl. rewrite Hu. destruct u; [|done]. by csimpl; f_equal. Qed.

Lemma json_number_sent x : json_number x -> json_field x = x.
Proof. destruct x as [v|]; [|done]. unfold json_field, json_num, json_number. simpl. by intros ->. Qed.

(** A time that the browser and the server can read in each other's texts. *)
Definition exchanged (z : zone) (read_utc : string -> option Z) (t : option Z) : Prop :=
  match t with
  | Some t => in_years t /\ time_clip (to_utc z t) = Some (to_utc z t) /\ reads_back read_utc (to_utc z t)
  | None => True
  end.

Lemma date_sent z fallback read_utc t : exchanged z read_utc t ->
  exists x, iso_date_or_null (date_parse z fallback) (naive_text <$> t) = Ok x /\
    parse_time read_utc x = Ok (to_utc z <$> t).
Proof.
  destruct t as [t|]; [|by exists None]. intros (Hy & Hc & Hr & _). unfold iso_date_or_null.
  change (naive_text <$> Some t) with (Some (naive_text t)).
  change (default EmptyString (Some (naive_text t))) with (naive_text t).
  rewrite (naive_text_truthy t Hy), (parse_naive_text z fallback t Hy), Hc. simpl.
  eexists. split; [done|]. simpl. by rewrite (Hr _ eq_refl).
Qed.

(** The columns with the availability moved. *)
Definition moved (f : Z -> Z) (d : Details) : Details :=
  mkDetails (dt_auction_type d) (dt_title d) (dt_description d) (dt_item_category d) (dt_item_condition d)
    (dt_quantity d) (dt_quantity_unit d) (dt_starting_price d) (dt_minimum_bid_step d) (dt_reserve_price d)
    (dt_origin_address d) (dt_pickup_terms d) (f <$> dt_availability_start d) (f <$> dt_availability_end d)
    (dt_media_urls d).

(** What the server makes of an unedited listing. *)
Lemma edit_sent z fallback read_utc id r :
  details_ok (rw_details r) -> Forall (fun u => truthy_str u = true) (dt_media_urls (rw_details r)) ->
  exchanged z read_utc (dt_availability_start (rw_details r)) ->
  exchanged z read_utc (dt_availability_end (rw_details r)) ->
  exists p, edit_payload (date_parse z fallback) (wire_listing id r) = Ok p /\ validate p = Ok tt /\
    details_of read_utc p = Ok (moved (to_utc z) (rw_details r)).
Proof.
  intros (F1 & P1 & F2 & P2 & J1 & J2 & L1 & L2) M A B.
  destruct (date_sent z fallback read_utc _ A) as (x & Hx & Tx). destruct (date_sent z fallback read_utc _ B) as (y & Hy & Ty).
  unfold edit_payload. simpl. rewrite Hx, Hy. simpl. eexists. split; [done|].
  split; [by apply validate_ok|]. unfold details_of. cbn [lp_starting_price lp_minimum_bid_step lp_auction_type
    lp_availability_start lp_availability_end lp_quantity lp_reserve_price lp_media_urls lp_title lp_description
    lp_item_category lp_item_condition lp_quantity_unit lp_origin_address lp_pickup_terms].
  assert (Hp : nle (dt_starting_price (rw_details r)) nzero = false).
  { rewrite positive_rule in P1 by done. by apply negb_true_iff in P1. }
  rewrite (json_number_sent (Some (dt_starting_price _)) F1), (json_number_sent (Some (dt_minimum_bid_step _)) F2).
  rewrite Hp, P2, parse_direction_text, Tx, Ty, !json_number_sent by done. cbn [orb rbind].
  by rewrite media_sent.
Qed.

(** ** Properties *)

(** the browser's constraints are the server's rules but for one: a form that
    the browser lets through, with its numbers and dates, is accepted and recorded
    as submitted by its seller exactly when the title has three characters; the
    form asks only for some title. *)
Theorem new_listing_refused_for_title_only date read_utc s d us id seller now sv :
  form_valid (new_listing_view s) = true ->
  let v := nl_values s in
  number_text (lv_starting_price v) -> number_text (lv_minimum_bid_step v) ->
  sendable date read_utc (lv_availability_start v) -> sendable date read_utc (lv_availability_end v) ->
  sv_rows sv !! id = None ->
  (exists sv' r, (let* p := listing_payload date d s us in create_listing read_utc id seller now p sv) = Ok sv' /\
     sv_rows sv' !! id = Some r /\ rw_status r = SUBMITTED /\ rw_seller r = seller /\
     dt_auction_type (rw_details r) = d /\ dt_starting_price (rw_details r) = Number (lv_starting_price v)) <->
  3 <= Z.of_nat (String.length (lv_title v)).
Proof.
  intros Hv v Np Ns Ds De Hid. pose proof (new_listing_valid s Hv) as H. cbv zeta in H. fold v in H.
  destruct H as ((Fd & Ld) & (Fp & Lp) & (Fs & Ls)).
  destruct (iso_sent _ _ _ Ds) as (x & Hx & t & Ht). destruct (iso_sent _ _ _ De) as (y & Hy & u & Hu).
  destruct (price_sent _ Np Fp Lp) as [Jp Pp]. destruct (price_sent _ Ns Fs Ls) as [Js Ps].
  pose proof (listing_description_length _ Fd Ld) as Hd.
  unfold listing_payload. fold v. rewrite Hx, Hy. cbn [rbind]. unfold create_listing.
  match goal with |- context [validate ?q] => pose proof (validate_ok q) as V; set (p := q) in * end.
  cbn [lp_title lp_description p] in V. unfold details_of. cbn [lp_starting_price lp_minimum_bid_step lp_auction_type
    lp_availability_start lp_availability_end p]. rewrite Jp, Js, Pp, Ps, parse_direction_text, Ht, Hu, Hid. cbn [orb rbind].
  split.
  - intros (sv' & r & H & _). apply V. by destruct (validate p) as [[]|].
  - intros H. rewrite (proj2 V) by done. cbn [rbind]. eexists _, _. split; [done|]. simpl. by rewrite lookup_insert_eq.
Qed.

(** C36: the seller is sent times without a zone, which the browser reads as local
    times and sends back as universal ones: saving a listing that was not edited,
    whose media links are not empty and whose times are read back, keeps every column but the availability, which moves by the browser's zone, at
    every save; with [resubmit] the listing also returns to the queue. *)
Theorem unchanged_save_moves_availability z fallback read_utc now role id r resubmit sv :
  reachable read_utc sv -> sv_rows sv !! id = Some r -> rw_status r = CHANGES_REQUESTED -> role <> CARRIER ->
  let d := rw_details r in
  Forall (fun u => truthy_str u = true) (dt_media_urls d) ->
  exchanged z read_utc (dt_availability_start d) -> exchanged z read_utc (dt_availability_end d) ->
  exists sv' r',
    save (date_parse z fallback) read_utc now (rw_seller r) role id (Some (wire_listing id r)) resubmit sv = (sv', Ok tt) /\
    sv_rows sv' !! id = Some r' /\ rw_details r' = moved (to_utc z) d /\
    rw_status r' = (if resubmit then SUBMITTED else CHANGES_REQUESTED).
Proof.
  intros R Hr Hs Hrole d M A B.
  pose proof (ro_details _ _ _ (si_rows _ _ (reachable_inv read_utc sv R) _ _ Hr)) as D.
  destruct (edit_sent z fallback read_utc id r D M A B) as (p & Hp & V & E).
  unfold save. rewrite Hp. simpl.
  assert (Rc : require_customer role = Ok tt) by by destruct role. rewrite Rc. simpl.
  unfold update_listing. rewrite V, E. simpl. rewrite Hr, String.eqb_refl, Hs. simpl.
  destruct resubmit.
  - unfold resubmit_listing. simpl. rewrite lookup_insert_eq. simpl. rewrite String.eqb_refl. simpl.
    eexists _, _. split; [done|]. simpl. rewrite lookup_insert_eq. done.
  - eexists _, _. split; [done|]. simpl. by rewrite lookup_insert_eq.
Qed.

(** ** Witnesses *)
Definition browser : zone := fixed_zone 19800000.
Definition sample_new (title : string) : NewListing :=
  mkNewListing FORWARD
    (mkValues title "Forty boxes of tiles" "Other" "New" EmptyString EmptyString "100" "5" "120" EmptyString
       EmptyString "2030-01-07T10:00" EmptyString)
    gallery0 EmptyString false.

Lemma sample_sendable : sendable (date_parse browser no_fallback) utc_stamp "2030-01-07T10:00".
Proof. right. exists 1893990600000. split; [vm_compute; reflexivity|]. apply date_parse_reads_back; [vm_compute; done|vm_compute; reflexivity|vm_compute; reflexivity]. Qed.

Lemma number_100 : number_text "100".
Proof. right. vm_compute. reflexivity. Qed.
Lemma number_5 : number_text "5".
Proof. right. vm_compute. reflexivity. Qed.

Lemma new_listing_refused_for_title_only_witness :
  let date := date_parse browser no_fallback in
  let sent title := let* p := listing_payload date FORWARD (sample_new title) ["u"] in
                    create_listing utc_stamp "L" "s" 1 p server0 in
  (exists sv' r, sent "Tiles" = Ok sv' /\ sv_rows sv' !! "L" = Some r /\ rw_status r = SUBMITTED /\
     rw_seller r = "s" /\ dt_auction_type (rw_details r) = FORWARD /\
     dt_starting_price (rw_details r) = Number "100") /\
  ~ (exists sv' r, sent "Ti" = Ok sv' /\ sv_rows sv' !! "L" = Some r /\ rw_status r = SUBMITTED /\
     rw_seller r = "s" /\ dt_auction_type (rw_details r) = FORWARD /\
     dt_starting_price (rw_details r) = Number "100").
Proof.
  pose proof (fun title V => new_listing_refused_for_title_only (date_parse browser no_fallback) utc_stamp (sample_new title)
    FORWARD ["u"] "L" "s" 1 server0 V number_100 number_5 sample_sendable (or_introl eq_refl) eq_refl) as T.
  split.
  - apply (T "Tiles"); [vm_compute; reflexivity|vm_compute; discriminate].
  - intros H. apply (T "Ti") in H; [|vm_compute; reflexivity]. by vm_compute in H.
Defined.

Definition returned_row : Row :=
  mkRow "s" None CHANGES_REQUESTED
    (mkDetails FORWARD "Pallet of tiles" "Forty boxes of tiles" None None None None (of_Z 100) (of_Z 5) None None None
       (Some 1893990600000) None [Some "u"])
    (Some "Add a photo") (Some "a") 1 (Some 2) 1 2.
Definition returned_events : list (Z * request) :=
  [(1, CreateListing "s" CUSTOMER "L"
         (mkListing "Pallet of tiles" "Forty boxes of tiles" "FORWARD" None None None None (Some (of_Z 100))
            (Some (of_Z 5)) None None None (Some "2030-01-07T04:30:00.000Z") None ["u"]));
   (2, ReviewListing "a" ADMIN "L" "REQUEST_CHANGES" (Some "Add a photo")); (3, Proceed 0 EmptyString)].
Definition returned_server : Server := server_run utc_stamp returned_events server0.

Lemma returned_server_row : sv_rows returned_server !! "L" = Some returned_row.
Proof. vm_compute. reflexivity. Qed.

Lemma unchanged_save_moves_availability_witness :
  exists sv' r',
    save (date_parse browser no_fallback) utc_stamp 9 "s" CUSTOMER "L" (Some (wire_listing "L" returned_row)) true
      returned_server = (sv', Ok tt) /\
    sv_rows sv' !! "L" = Some r' /\
    rw_details r' = moved (fun t => t - 19800000) (rw_details returned_row) /\ rw_status r' = SUBMITTED.
Proof.
  apply (unchanged_save_moves_availability browser no_fallback utc_stamp 9 CUSTOMER "L" returned_row true returned_server).
  - by exists returned_events.
  - exact returned_server_row.
  - done.
  - done.
  - by repeat constructor.
  - split; [vm_compute; done|]. split; [done|]. apply date_parse_reads_back; [vm_compute; done|vm_compute; reflexivity|vm_compute; reflexivity].
  - exact I.
Defined.
