(* ===== verification/ListingViews.v ===== *)
(** * The listing pages of the administrator and the seller

    [components/admin/ListingReviewQueue.tsx], [app/seller/dashboard/page.tsx] and
    [app/admin/page.tsx]: what they show of the listings and auctions, the actions
    they offer, and the requests the actions send to the operations of
    [Listings]. *)

From Stdlib Require Import Ascii.
From S2P Require Import Prelude Markup JSNum JSText JSDate ApiTypes AuctionSlice Schedule CreateAuction Listings SellForms.
#[local] Open Scope Z_scope.
#[local] Open Scope aqua_scope.

(** [s.replaceAll('_', ' ')]. *)
Fixpoint spaced (s : string) : string :=
  match s with
  | EmptyString => EmptyString
  | String c r => String (if Ascii.eqb c "_"%char then " "%char else c) (spaced r)
  end.

Definition status_label (s : ListingStatus) : string := spaced (listing_status_text s).

Definition count_if {A} (p : A -> bool) (l : list A) : Z := Z.of_nat (length (js_filter p l)).

(** ** The review queue ([components/admin/ListingReviewQueue.tsx]) *)

Record Queue := mkQueue {
  q_listings : list Listing.t;
  q_loading : bool;
  q_feedback : gmap string string;
  q_schedule : gmap string (string * string);
  q_review_error : option string;
  q_schedule_error : option string
}.
Definition queue0 : Queue := mkQueue [] true ∅ ∅ None None.

Inductive queue_event :=
| Queued (data : list Listing.t)
| Feedback (id v : string)
| Decide (id decision : string)
| StartAt (id v : string)
| FinishAt (id v : string)
| ScheduleIt (id : string)
| Reviewed (r : result unit)
| ScheduleSaved (r : result unit).

Definition error_of {A} (r : result A) : option string := match r with Ok _ => None | Throw m => Some m end.

Definition queue_step (e : queue_event) (q : Queue) : Queue :=
  let '(mkQueue l b f s re se) := q in
  match e with
  | Queued data => mkQueue data false f s re se
  | Feedback id v => mkQueue l b (<[id := v]> f) s re se
  | StartAt id v => mkQueue l b f (<[id := (v, default EmptyString (snd <$> s !! id))]> s) re se
  | FinishAt id v => mkQueue l b f (<[id := (default EmptyString (fst <$> s !! id), v)]> s) re se
  | Decide _ _ => mkQueue l b f s None se
  | ScheduleIt _ => mkQueue l b f s re None
  | Reviewed r => mkQueue l b f s (error_of r) se
  | ScheduleSaved r => mkQueue l b f s re (error_of r)
  end.

(** What [review] and [scheduleAuction] send, for the administrator [user]; the
    second refuses by itself when a time is missing. *)
Definition review_request (user : string) (q : Queue) (id decision : string) : request :=
  ReviewListing user ADMIN id decision (or_null (default EmptyString (q_feedback q !! id))).

Definition schedule_request (date : string -> option Z) (user : string) (q : Queue) (id : string) : result request :=
  match q_schedule q !! id with
  | Some (String a s, String b e) =>
      let* st := toISOString (date (String a s)) in
      let* en := toISOString (date (String b e)) in
      Ok (ScheduleListing user ADMIN id st en)
  | _ => Throw "Choose the auction start and end times"
  end.

Definition is_video (url : string) : bool := has_extension ["mp4"; "webm"; "mov"; "m4v"] url.

(** [Detail]. *)
Definition detail {A} (name value : string) : node A := tag "div" [txt "dt" name; txt "dd" value].

Section Views.
(** The locale's texts of numbers and dates, and [new Date(text).getTime()]. *)
Context (money : num -> string) (toLocaleString toLocaleDateString : option Z -> string).
Context (date : string -> option Z).

Definition dollars (x : num) : string := "$" +:+ money x.

(** [{x ? f(x) : otherwise}] on numbers and texts that may be missing. *)
Definition if_number (x : option num) (f : num -> string) (otherwise : string) : string :=
  match x with Some v => if truthy_num v then f v else otherwise | None => otherwise end.
Definition if_text (x : option string) (f : string -> string) (otherwise : string) : string :=
  match x with Some (String c r) => f (String c r) | _ => otherwise end.

Definition shown_media (l : list (option string)) : list string :=
  omap (fun u => if truthy_str u then u else None) l.

Definition listing_facts {A} (item : Listing.t) : node A :=
  tag "div" ([
    tag "div" [txt "h3" (Listing.title item); txt "span" (status_label (Listing.status item));
               txt "span" (direction_text (Listing.auction_type item))];
    txt "p" (default EmptyString (Listing.seller_name item) +:+ " " +:+
             if_text (Listing.seller_company item) (fun c => "· " +:+ c) EmptyString);
    txt "p" (default EmptyString (Listing.seller_email item));
    txt "p" (Listing.description item);
    tag "dl" [detail "Category" (or_ostr (Listing.item_category item) "General");
              detail "Condition" (or_ostr (Listing.item_condition item) "Not specified");
              detail "Starting price" (dollars (Listing.starting_price item));
              detail "Bid step" (dollars (Listing.minimum_bid_step item))]] ++
    when (negb (bool_decide (shown_media (Listing.media_urls item) = [])))
      [tag "div" (map (fun url => El (if is_video url then "video" else "img") [Attr "src" url] [])
                    (shown_media (Listing.media_urls item)))]).

Definition availability_text (item : Listing.t) : string :=
  if_text (Listing.availability_start item)
    (fun s => toLocaleDateString (date s) +:+
              if_text (Listing.availability_end item) (fun e => " – " +:+ toLocaleDateString (date e)) EmptyString)
    "Flexible".

Definition more_facts {A} (item : Listing.t) : list (node A) :=
  [tag "div" [
    detail "Quantity" (if_number (Listing.quantity item)
      (fun n => num_to_string n +:+ " " +:+ or_ostr (Listing.quantity_unit item) EmptyString) "Not specified");
    detail "Location" (or_ostr (Listing.origin_address item) "Not specified");
    detail "Reserve" (if_number (Listing.reserve_price item) dollars "None");
    detail "Availability" (availability_text item)]] ++
  when (truthy_str (Listing.pickup_terms item))
    [txt "p" ("Terms: " +:+ default EmptyString (Listing.pickup_terms item))].

Definition review_form (q : Queue) (id : string) : node queue_event :=
  tag "div" [
    El "textarea" [Attr "value" (default EmptyString (q_feedback q !! id)); Input "change" (Feedback id);
                   Attr "placeholder" "Feedback for the seller"] [];
    button (Decide id "APPROVE") false "Approve";
    button (Decide id "REQUEST_CHANGES") false "Changes";
    button (Decide id "REJECT") false "Reject"].

Definition schedule_form (id : string) : node queue_event :=
  tag "div" [
    txt "p" "Set the final auction schedule";
    txt "p" "This overrides the seller’s availability preference. Users see these final times and registration closes five minutes before the start time.";
    El "label" [] [Txt "Final start"; El "input" [Attr "type" "datetime-local"; Input "change" (StartAt id)] []];
    El "label" [] [Txt "Final end"; El "input" [Attr "type" "datetime-local"; Input "change" (FinishAt id)] []];
    button (ScheduleIt id) false "Schedule auction"].

Definition item_view (q : Queue) (item : Listing.t) : node queue_event :=
  tag "article" [
    listing_facts item;
    tag "div" (more_facts item ++
      when (reviewable (Listing.status item)) [review_form q (Listing.id item)] ++
      when (bool_decide (Listing.status item = APPROVED)) [schedule_form (Listing.id item)] ++
      when (truthy_str (Listing.admin_feedback item))
        [txt "p" ("Latest feedback: " +:+ default EmptyString (Listing.admin_feedback item))])].

Definition queue_view (q : Queue) : node queue_event :=
  let error := match q_review_error q with Some m => Some m | None => q_schedule_error q end in
  tag "section" ([
    txt "h2" "Seller review queue";
    txt "p" "Review full listing details, provide feedback, and schedule approved auctions.";
    tag "div" (map (item_view q) (q_listings q) ++
      when (q_loading q) [txt "p" "Loading review queue..."] ++
      when (negb (q_loading q) && bool_decide (q_listings q = [])) [txt "p" "No seller submissions yet."])] ++
    match error with Some m => [txt "p" m] | None => [] end).

(** ** The seller's dashboard ([app/seller/dashboard/page.tsx]) *)

(** [ListingHistoryEvent]. *)
Record HistoryEvent := mkHistoryEvent { he_to : string; he_note : option string; he_at : string }.

Definition metric {A} (label : string) (value : Z) : node A :=
  tag "div" [txt "p" (string_of_Z value); txt "p" label].

Definition pending_review (s : ListingStatus) : bool := bool_decide (s ∈ [SUBMITTED; UNDER_REVIEW]).

(** The status shown of a listing: the phase of its auction when there is one. *)
Definition row_status (now1 now2 : Z) (item : Listing.t) (auction : option Auction.t) : string :=
  match auction with
  | Some a => operationalStatus (date (Auction.auction_start_time a)) (date (Auction.auction_end_time a)) now1 now2
  | None => listing_status_text (Listing.status item)
  end.

Definition auction_line (status : string) (a : Auction.t) : string :=
  let st := date (Auction.auction_start_time a) in
  let en := date (Auction.auction_end_time a) in
  if String.eqb status "COMPLETED" then
    if_text (Auction.winner_id a) (fun w => "Winner " +:+ String.substring 0 8 w) "Completed without a winner"
  else if String.eqb status "LIVE" then "Bidding is live · ends " +:+ toLocaleString en
  else "Final schedule: " +:+ toLocaleString st +:+ " – " +:+ toLocaleString en.

Inductive row_event := ToggleHistory (id : string).

Definition history_item (e : HistoryEvent) : node row_event :=
  tag "li" ([txt "strong" (spaced (he_to e)); txt "span" (toLocaleString (date (he_at e)))] ++
    when (truthy_str (he_note e)) [txt "p" (default EmptyString (he_note e))]).

Definition row_view (now1 now2 : Z) (item : Listing.t) (auction : option Auction.t) (open : bool)
    (history : list HistoryEvent) : node row_event :=
  let status := row_status now1 now2 item auction in
  tag "article" ([
    tag "div" ([
      txt "strong" (Listing.title item);
      txt "p" (or_ostr (Listing.item_category item) "General" +:+ " · submitted " +:+
               toLocaleDateString (date (Listing.submitted_at item)))] ++
      match auction with
      | Some a => [txt "p" (auction_line status a);
                   txt "p" ("Registration closes " +:+ toLocaleString (minus (date (Auction.auction_start_time a)) FIVE_MINUTES))]
      | None => []
      end);
    txt "span" (direction_text (Listing.auction_type item));
    txt "span" (spaced status);
    txt "p" (or_ostr (Listing.admin_feedback item) "No feedback yet");
    tag "div" (
      match auction with
      | Some a => [link ((if String.eqb status "COMPLETED" then "/auction/bidinfo/" else "/shipment/") +:+ Auction.id a) "View"]
      | None => []
      end ++
      when (editable (Listing.status item))
        [El "a" [Attr "href" ("/sell/" +:+ Listing.id item +:+ "/edit");
                 Attr "aria-label" ("Edit " +:+ Listing.title item)] []] ++
      [El "button" [On "click" (ToggleHistory (Listing.id item));
                    Attr "aria-label" ("Show status history for " +:+ Listing.title item)] []])] ++
    when open [tag "ol" (map history_item history)]).

(** [open] and [histories] are the rows' own states. *)
Definition seller_view (now1 now2 : Z) (loading : bool) (data : list Listing.t) (auctions : list Auction.t)
    (open : string -> bool) (histories : string -> list HistoryEvent) : node row_event :=
  tag "main" [
    tag "header" [txt "p" "Seller workspace"; txt "h1" "Your auction listings";
      txt "p" "Track review feedback, scheduling, and live auction status."; link "/sell/new" "New listing"];
    tag "section" [
      metric "Total listings" (Z.of_nat (length data));
      metric "In review" (count_if (fun i => pending_review (Listing.status i)) data);
      metric "Changes requested" (count_if (fun i => bool_decide (Listing.status i = CHANGES_REQUESTED)) data)];
    tag "section" (
      map (fun item =>
        row_view now1 now2 item
          (js_find (fun a => bool_decide (Some (Auction.id a) = Listing.auction_id item)) auctions)
          (open (Listing.id item)) (histories (Listing.id item))) data ++
      when (negb loading && bool_decide (data = [])) [txt "p" "No listings yet. Submit your first product for review."] ++
      when loading [txt "p" "Loading listings..."])].

(** A page for sellers only: where a visitor without that role is sent. *)
Definition seller_redirect (loading : bool) (role : option UserRole) : option string :=
  if negb loading && negb (bool_decide (role = Some CUSTOMER)) then Some "/dashboard" else None.

(** ** The administrator's page ([app/admin/page.tsx]) *)

Record Metrics := mkMetrics { m_live : Z; m_scheduled : Z; m_forward : Z; m_reverse : Z; m_participants : Z }.

(** [auctionStatus], with the clock read for this auction. *)
Definition auctionStatus (now : Z) (a : Auction.t) : string :=
  admin_status (date (Auction.auction_start_time a)) (date (Auction.auction_end_time a)) now.

Definition metrics (now : Z) (l : list Auction.t) : Metrics := {|
  m_live := count_if (fun a => String.eqb (auctionStatus now a) "Live") l;
  m_scheduled := count_if (fun a => String.eqb (auctionStatus now a) "Scheduled") l;
  m_forward := count_if (fun a => bool_decide (Auction.auction_type a = FORWARD)) l;
  m_reverse := count_if (fun a => bool_decide (Auction.auction_type a = REVERSE)) l;
  m_participants := fold_left (fun total a => total + default 0 (Auction.participants_count a)) l 0
|}.

Definition auction_row (now : Z) (a : Auction.t) : node queue_event :=
  tag "tr" [
    tag "td" [link ("/shipment/" +:+ Auction.id a) (Auction.title a); txt "p" (String.substring 0 8 (Auction.id a))];
    txt "td" (direction_text (Auction.auction_type a));
    txt "td" (or_ostr (Auction.item_category a) "General");
    txt "td" (toLocaleString (date (Auction.auction_start_time a)));
    txt "td" (string_of_Z (default 0 (Auction.participants_count a)));
    txt "td" (auctionStatus now a)].

(** [memo] is the clock of the last change of the list, [now] of this rendering. *)
Definition admin_view (session_loading : bool) (role : option UserRole) (loading : bool) (memo now : Z)
    (auctions : list Auction.t) (q : Queue) : node queue_event :=
  if negb session_loading && negb (bool_decide (role = Some ADMIN)) then
    tag "div" [txt "h1" "Admin access required";
      txt "p" "This operations console is available only to platform administrators.";
      link "/admin/login" "Admin sign in"]
  else
    let m := metrics memo auctions in
    tag "div" [
      El "Sidebar" [] [];
      tag "main" [
        tag "header" [txt "p" "Operations"; txt "h1" "Auction control center";
          txt "p" "Monitor marketplace direction, participation, and event readiness.";
          link "/auction/new" "Create auction"];
        tag "section" [metric "Live now" (m_live m); metric "Scheduled" (m_scheduled m); metric "Forward" (m_forward m);
          metric "Reverse" (m_reverse m); metric "Participants" (m_participants m)];
        queue_view q;
        tag "section" [
          txt "h2" "Auction operations"; txt "p" "Current and upcoming events";
          txt "span" (string_of_Z (Z.of_nat (length auctions)) +:+ " total");
          tag "table" [
            tag "tr" (map (txt "th") ["Auction"; "Direction"; "Category"; "Starts"; "Participants"; "Status"]);
            tag "tbody" (map (auction_row now) auctions ++
              when (negb loading && bool_decide (auctions = [])) [txt "td" "No auctions available."] ++
              when loading [txt "td" "Loading operations…"])]]]].
End Views.

(** ** Lemmas *)
Section Offers.
Context (money : num -> string) (toLocaleDateString : option Z -> string) (date : string -> option Z).

Lemma facts_offer_nothing item : offered (listing_facts (A := queue_event) money item) = [].
Proof.
  unfold listing_facts. destruct (negb _); [|done]. simpl. rewrite app_nil_r. by induction (shown_media (Listing.media_urls item)).
Qed.

Lemma more_facts_offer_nothing item :
  flat_map offered (more_facts (A := queue_event) money toLocaleDateString date item) = [].
Proof. unfold more_facts. rewrite flat_map_app. by destruct (truthy_str _). Qed.

(** The events of an item of the queue. *)
Lemma item_offers q item :
  offered (item_view money toLocaleDateString date q item) =
  (if reviewable (Listing.status item)
   then [Decide (Listing.id item) "APPROVE"; Decide (Listing.id item) "REQUEST_CHANGES"; Decide (Listing.id item) "REJECT"]
   else []) ++
  (if bool_decide (Listing.status item = APPROVED) then [ScheduleIt (Listing.id item)] else []).
Proof.
  unfold item_view, tag. cbn [offered is_disabled existsb own_events omap list_omap flat_map app].
  rewrite facts_offer_nothing, !flat_map_app, more_facts_offer_nothing, !app_nil_r. cbn [app].
  destruct (reviewable _), (bool_decide _), (truthy_str _); reflexivity.
Qed.

Lemma row_links toLocaleString now1 now2 item auction open history :
  links (row_view toLocaleString toLocaleDateString date now1 now2 item auction open history) =
  match auction with
  | Some a => [(if String.eqb (row_status date now1 now2 item auction) "COMPLETED" then "/auction/bidinfo/" else "/shipment/")
                 +:+ Auction.id a]
  | None => []
  end ++ (if editable (Listing.status item) then ["/sell/" +:+ Listing.id item +:+ "/edit"] else []).
Proof.
  assert (E : flat_map links (when open [tag "ol" (map (history_item toLocaleString date) history)]) = []).
  { destruct open; [|done]. cbn. rewrite app_nil_r. induction history as [|e l IH]; [done|].
    cbn [map flat_map]. rewrite IH. unfold history_item. by destruct (truthy_str _). }
  unfold row_view. unfold tag at 1. cbn [links own_links omap list_omap flat_map app].
  rewrite E, app_nil_r.
  destruct auction as [a|]; simpl; destruct (editable _); reflexivity.
Qed.
End Offers.

(** What the browser sends of a review is refused for the lack of a text only. *)
Lemma review_accepted read_utc sv id r user decision text now key :
  sv_rows sv !! id = Some r -> decision ∈ ["APPROVE"; "REQUEST_CHANGES"; "REJECT"] ->
  (exists t sv', review_start id user decision (or_null text) now sv = Ok t /\ proceed read_utc now key t sv = Ok sv') <->
  reviewable (rw_status r) = true /\ (decision = "APPROVE" \/ trim text <> EmptyString).
Proof.
  intros Hr Hd. unfold review_start.
  assert (P : exists st, parse_decision decision = Ok st /\ (st = APPROVED <-> decision = "APPROVE")).
  { list_in; subst; eexists; (split; [reflexivity|]); split; done. }
  destruct P as (st & -> & Hst). simpl. rewrite Hr.
  assert (T : default EmptyString (or_null text) = text) by by destruct text. rewrite T.
  assert (F : forall t, ReviewTask id user st (or_null text) now (rw_status r) = t ->
    (exists sv', proceed read_utc now key t sv = Ok sv') <-> reviewable (rw_status r) = true).
  { intros t <-. simpl. unfold review_finish. rewrite Hr. destruct (reviewable _); split; try done; [eauto|by intros []]. }
  case_bool_decide as E; simpl; [|destruct (String.eqb_spec (trim text) EmptyString) as [E'|E']].
  - split.
    + intros (t & sv' & [= <-] & H). split; [apply (F _ eq_refl); eauto|]. left. by apply Hst.
    + intros [H _]. apply (F _ eq_refl) in H as [sv' H]. eauto.
  - split; [by intros (? & ? & [=] & _)|]. intros [_ [H|H]]; [by apply Hst in H|done].
  - split.
    + intros (t & sv' & [= <-] & H). split; [apply (F _ eq_refl); eauto|by right].
    + intros [H _]. apply (F _ eq_refl) in H as [sv' H]. eauto.
Qed.

(** ** Properties *)

(** the pages offer what the server accepts: for every listing, a decision can
    be clicked in the queue exactly when the server takes it, given a feedback that
    is not blank unless the decision is to approve; the scheduling form is there
    exactly when a scheduling can start; and the seller's row links to the editor
    exactly when the seller's resubmission would be accepted. *)
Theorem pages_offer_what_server_accepts money toLocaleString toLocaleDateString date read_utc
    sv id r q user now key decision start fin now1 now2 auction open history :
  sv_rows sv !! id = Some r -> decision ∈ ["APPROVE"; "REQUEST_CHANGES"; "REJECT"] ->
  let item := wire_listing id r in
  let events := offered (item_view money toLocaleDateString date q item) in
  let text := default EmptyString (q_feedback q !! id) in
  ((exists t sv', review_start id user decision (or_null text) now sv = Ok t /\ proceed read_utc now key t sv = Ok sv') <->
   Decide id decision ∈ events /\ (decision = "APPROVE" \/ trim text <> EmptyString)) /\
  ((exists t, schedule_start id user start fin sv = Ok t) <-> ScheduleIt id ∈ events) /\
  ((exists sv', resubmit_listing id (rw_seller r) now sv = Ok sv') <->
   "/sell/" +:+ id +:+ "/edit" ∈
     links (row_view toLocaleString toLocaleDateString date now1 now2 item auction open history)).
Proof.
  intros Hr Hd item events text. unfold events. rewrite item_offers. cbn [Listing.status Listing.id item wire_listing].
  split; [|split].
  - rewrite (review_accepted read_utc sv id r user decision text now key Hr Hd), elem_of_app.
    destruct (reviewable (rw_status r)), (bool_decide (rw_status r = APPROVED)); list_in.
  - unfold schedule_start. rewrite Hr, elem_of_app.
    destruct (reviewable (rw_status r)), (bool_decide (rw_status r = APPROVED)); split;
      try (by intros [? [=]]); list_in.
  - rewrite row_links. unfold resubmit_listing. rewrite Hr, String.eqb_refl, elem_of_app. cbn [andb Listing.status Listing.id item wire_listing].
    destruct (editable (rw_status r)).
    + split; [intros _; right; by left|eauto].
    + split; [by intros [? [=]]|]. intros [H|H]; [|by apply not_elem_of_nil in H].
      destruct auction as [a|]; [|by apply not_elem_of_nil in H].
      apply list_elem_of_singleton in H. by destruct (String.eqb _ _).
Qed.

(** Of the administrator's counters, the two directions add up to the number of
    auctions, and with dates that can be read so do the phases with the closed ones. *)
Theorem metrics_partition date now l :
  let m := metrics date now l in
  m_forward m + m_reverse m = Z.of_nat (length l) /\
  m_live m + m_scheduled m + count_if (fun a => String.eqb (auctionStatus date now a) "Closed") l = Z.of_nat (length l).
Proof.
  simpl. unfold count_if. rewrite <-!Nat2Z.inj_add, <-!length_app. split; f_equal; apply Permutation_length.
  - apply js_filter_split. intros a _. by destruct (Auction.auction_type a).
  - induction l as [|a l IH]; [done|]. rewrite <-app_assoc in *. cbn [js_filter List.filter] in *.
    assert (C : auctionStatus date now a = "Scheduled" \/ auctionStatus date now a = "Live" \/
                auctionStatus date now a = "Closed")
      by (unfold auctionStatus, admin_status; case_tests; auto).
    destruct C as [->|[->| ->]]; simpl; rewrite <-?Permutation_middle; by constructor.
Qed.

(** ** Witnesses *)
Lemma pages_offer_what_server_accepts_witness :
  let date := date_parse UTC no_fallback in
  let q := queue_step (Feedback "L" "no photo") queue0 in
  let item := wire_listing "L" returned_row in
  let events := offered (item_view (fun _ => EmptyString) (fun _ => EmptyString) date q item) in
  let text := default EmptyString (q_feedback q !! "L") in
  ((exists t sv', review_start "L" "a" "REJECT" (or_null text) 5 returned_server = Ok t /\
      proceed utc_stamp 5 "k" t returned_server = Ok sv') <->
   Decide "L" "REJECT" ∈ events /\ ("REJECT" = "APPROVE" \/ trim text <> EmptyString)) /\
  ((exists t, schedule_start "L" "a" "s" "f" returned_server = Ok t) <-> ScheduleIt "L" ∈ events) /\
  ((exists sv', resubmit_listing "L" "s" 5 returned_server = Ok sv') <->
   "/sell/" +:+ "L" +:+ "/edit" ∈
     links (row_view (fun _ => EmptyString) (fun _ => EmptyString) date 0 0 item None false [])).
Proof.
  apply (pages_offer_what_server_accepts (fun _ => EmptyString) (fun _ => EmptyString) (fun _ => EmptyString)
    (date_parse UTC no_fallback) utc_stamp returned_server "L" returned_row).
  - exact returned_server_row.
  - right. right. left.
Defined.
