(* ===== verification/BiddingConsole.v ===== *)
(** * The bidding console ([components/auction/BiddingConsole.tsx])

    The next valid amount, the two adjusting buttons, the submission of a bid and
    the status line.  The theorems compare the console's check with the engine's
    rule and say what the status line can show. *)

From Stdlib Require Import Ascii.
From S2P Require Import Prelude JSNum JSRound ApiTypes AuctionSlice SocketContext Engine.
#[local] Open Scope Z_scope.

(** The literal [0.01]. *)
Definition cent : num := ndiv (of_Z 1) (of_Z 100).

Definition You : string := "You (Optimistic)".

(** [nextValid]; [Math.max(0.01, x)]. *)
Definition nextValid (s : AuctionState) : option num :=
  match currentPrice s with
  | None => None
  | Some p =>
      Some (match auctionType s with
            | REVERSE => js_max [cent; nsub p (minimumBidStep s)]
            | FORWARD => nadd p (minimumBidStep s)
            end)
  end.

Definition canBid (s : AuctionState) : bool :=
  bool_decide (auctionStatus s = active) && AuctionSlice.isConnected s && isParticipant s.

Inductive toast_type := ToastError | ToastSuccess | ToastInfo.

(** The component's own state. *)
Record Console := mkConsole {
  bidAmount : string;
  toast : option (string * toast_type)
}.

Definition console0 : Console := mkConsole EmptyString None.

(** A socket error: a text is shown as it is. *)
Definition on_socket_error (value : option string) (c : Console) : Console :=
  mkConsole (bidAmount c)
    (Some (default "The bid could not be processed." value, ToastError)).

(** [Number(bidAmount) || nextValid || minimumBidStep]. *)
Definition adjust_base (s : AuctionState) (c : Console) : num :=
  or_num (Number (bidAmount c))
    (match nextValid s with
     | Some x => or_num x (minimumBidStep s)
     | None => minimumBidStep s
     end).

(** [direction] is [1] or [-1]. *)
Definition adjust (direction : Z) (s : AuctionState) (c : Console) : Console :=
  mkConsole
    (to_fixed2 (js_max [cent; nadd (adjust_base s c) (nmul (of_Z direction) (minimumBidStep s))]))
    (toast c).

(** The step rule: [amount > nextValid] (reverse) or [amount < nextValid]. *)
Definition breaks_step (s : AuctionState) (amount : num) : bool :=
  match nextValid s with
  | None => false
  | Some n => match auctionType s with REVERSE => nlt n amount | FORWARD => nlt amount n end
  end.

Definition bad_amount (amount : num) : bool := negb (is_finite amount) || nle amount nzero.

Definition step_message (s : AuctionState) : string :=
  "Your bid must be " +:+ (match auctionType s with REVERSE => "at most" | FORWARD => "at least" end)
  +:+ " $" +:+ (match nextValid s with Some n => to_fixed2 n | None => EmptyString end) +:+ ".".

(** What the submission reads from the browser. *)
Record Browser := mkBrowser {
  br_uuid : string;
  br_now1 : Z;
  br_now2 : Z;
  br_userId : option string;
  br_userName : option string
}.

Inductive console_effect :=
| Store (a : action)
| EmitBid (auctionId : string) (m : ClientEvent).

(** [localStorage.getItem(k) || d] for a username that may stay undefined. *)
Definition stored_name (n : option string) : option string :=
  if truthy_str n then n else None.

Definition submit (b : Browser) (s : AuctionState) (c : Console) : Console * list console_effect :=
  match canBid s, (if truthy_str (auctionId s) then auctionId s else None) with
  | true, Some a =>
      let amount := Number (bidAmount c) in
      if bad_amount amount
      then (mkConsole (bidAmount c) (Some ("Enter a valid amount greater than zero.", ToastError)), [])
      else if breaks_step s amount
      then (mkConsole (bidAmount c) (Some (step_message s, ToastError)), [])
      else
        (mkConsole EmptyString (toast c),
         [Store (AddOptimisticBid (mkBid (br_uuid b) amount You (br_now1 b) pending));
          EmitBid a (place_bid (BidRequestPayload.mk a (or_ostr (br_userId b) "AnonymousUser")
            (stored_name (br_userName b)) amount (br_now2 b)))])
  | _, _ => (c, [])
  end.

(** The badge of the header. *)
Definition state_label (s : AuctionState) : string :=
  if negb (AuctionSlice.isConnected s) then "Reconnecting"
  else if negb (isParticipant s) then "Registration required"
  else match auctionStatus s with
       | waiting => "Waiting to start"
       | ended => "Auction ended"
       | active => "Live and connected"
       end.

(** The submit button. *)
Definition button_label (s : AuctionState) : string :=
  match auctionStatus s with
  | ended => "Auction ended"
  | _ => if AuctionSlice.isConnected s then "Submit bid" else "Reconnecting…"
  end.

(** [bids.find(bid => bid.bidder === 'You (Optimistic)')]. *)
Definition latest (s : AuctionState) : option Bid :=
  js_find (fun b => bool_decide (bid_bidder b = You)) (bids s).

(** The line under the form. *)
Definition status_line (s : AuctionState) : option string :=
  match latest s with
  | None => None
  | Some b =>
      match bid_status b with
      | pending => Some "Bid submitted, awaiting confirmation…"
      | confirmed => Some "Bid accepted and synchronized."
      | rejected => Some "Bid rejected. Review the valid bid amount."
      end
  end.

(** ** Lemmas *)

Lemma submit_effects b s c :
  (submit b s c).2 <> [] <->
  canBid s = true /\ truthy_str (auctionId s) = true /\
  bad_amount (Number (bidAmount c)) = false /\ breaks_step s (Number (bidAmount c)) = false.
Proof.
  unfold submit. destruct (canBid s); [|split; [done|by intros []]].
  destruct (truthy_str (auctionId s)) eqn:Et; [|split; [done|by intros (_ & ? & _)]].
  destruct (auctionId s) as [a|]; [|done].
  destruct (bad_amount _); [split; [done|by intros (_ & _ & ? & _)]|].
  destruct (breaks_step _ _); split; try done. by intros (_ & _ & _ & ?).
Qed.

Lemma js_max_cent b : is_nan b = false -> js_max [cent; b] = if nlt cent b then b else cent.
Proof.
  intros Hb. change (js_max [cent; b]) with (max_step cent b). unfold max_step. rewrite Hb.
  change (is_nan cent) with false. change (is_neg_zero cent) with false. simpl.
  by rewrite andb_false_r.
Qed.

Lemma bad_amount_false x : bad_amount x = false <-> is_finite x = true /\ nlt nzero x = true.
Proof.
  unfold bad_amount. rewrite orb_false_iff, negb_false_iff. split; intros [F H]; split; auto; num_order.
Qed.

(** The engine's rule when its numbers are in order. *)
Lemma is_better_bid_ok ty cur amount step :
  is_finite cur = true -> is_finite step = true -> nlt nzero step = true ->
  is_better_bid ty cur amount step =
  negb (bad_amount amount) &&
  match ty with
  | REVERSE => nle amount (nsub cur step)
  | FORWARD => nle (nadd cur step) amount
  end.
Proof.
  intros Fc Fs Ps. unfold is_better_bid, bad_amount. rewrite Fc, Fs.
  assert (E : nle step nzero = false) by num_order. rewrite E, !orb_false_r.
  by destruct (negb (is_finite amount) || nle amount nzero).
Qed.

Lemma nlt_nle_dual x y : is_nan x = false -> is_nan y = false -> negb (nlt x y) = nle y x.
Proof.
  intros Hx Hy. destruct (nlt x y) eqn:E; simpl; symmetry; num_order.
Qed.

(** The check the console makes before it sends a bid. *)
Definition console_accepts (s : AuctionState) (amount : num) : bool :=
  negb (bad_amount amount) && negb (breaks_step s amount).

Lemma cap_nle c b x :
  is_nan b = false -> is_nan x = false -> nle c b = true ->
  negb (nlt (if nlt c b then b else c) x) = nle x b.
Proof.
  intros Hb Hx Hc. destruct (nle_nan _ _ Hc) as [Hn _]. destruct (nlt c b) eqn:E.
  - by apply nlt_nle_dual.
  - rewrite nlt_nle_dual by done. destruct (nle x b) eqn:E2; num_order.
Qed.

Lemma floor_nle b x :
  is_nan b = false -> is_nan x = false -> nle cent b = true ->
  negb (nlt (js_max [cent; b]) x) = nle x b.
Proof. intros Hb Hx Hc. rewrite js_max_cent by done. by apply cap_nle. Qed.

Lemma nlt_asym c b : nlt b c = true -> nlt c b = false /\ nle c b = false.
Proof. intros H. destruct (nlt_nan _ _ H) as [Hb Hc]. split; num_order. Qed.

Lemma console_accepts_reverse s cur amount :
  auctionType s = REVERSE -> currentPrice s = Some cur -> is_nan amount = false ->
  nle cent (nsub cur (minimumBidStep s)) = true ->
  console_accepts s amount =
  negb (bad_amount amount) && nle amount (nsub cur (minimumBidStep s)).
Proof.
  intros Ht Hc Ha Hn. unfold console_accepts, breaks_step, nextValid. rewrite Hc, Ht.
  destruct (nle_nan _ _ Hn) as [_ Hb]. by rewrite floor_nle.
Qed.

Lemma console_accepts_forward s cur amount :
  auctionType s = FORWARD -> currentPrice s = Some cur -> is_nan amount = false ->
  is_nan (nadd cur (minimumBidStep s)) = false ->
  console_accepts s amount =
  negb (bad_amount amount) && nle (nadd cur (minimumBidStep s)) amount.
Proof.
  intros Ht Hc Ha Hn. unfold console_accepts, breaks_step, nextValid. rewrite Hc, Ht.
  by rewrite nlt_nle_dual.
Qed.

(** Bids under the name of the page's own pending bids are pending. *)
Definition own_pending (s : AuctionState) : Prop :=
  Forall (fun b => bid_bidder b = You -> bid_status b = pending) (bids s).

Lemma own_pending_step now fresh s a :
  (forall p, a = ReconcileBid p -> rp_bidder p <> You) ->
  (forall b, a = AddOptimisticBid b -> bid_status b = pending) ->
  own_pending s -> own_pending (reducer now fresh s a).
Proof.
  intros Hr Ha Hi. destruct a as [p| |b|z|b|p|]; simpl; try done.
  - constructor.
  - unfold updateAuctionStatus. by repeat case_match.
  - constructor; [intros _; by apply Ha|done].
  - apply reconcile_bids_Forall; [done|]. intros i Hb. by destruct (Hr p eq_refl).
Qed.

Lemma js_find_elem {A} (f : A -> bool) l x : js_find f l = Some x -> x ∈ l /\ f x = true.
Proof.
  induction l as [|y l IH]; simpl; [done|]. destruct (f y) eqn:E.
  - intros [= ->]. split; [left|done].
  - intros H. destruct (IH H). split; [by right|done].
Qed.

(** ** Properties *)

(** the console sends a bid exactly when the page can bid in an identified
    auction and the typed amount passes the console's check; then the pending bid
    and the message to the server carry that amount, and the field is cleared. *)
Theorem submit_sends_checked_bid b s c :
  let amount := Number (bidAmount c) in
  let '(c', effects) := submit b s c in
  if canBid s && truthy_str (auctionId s) && console_accepts s amount
  then exists a, auctionId s = Some a /\ bidAmount c' = EmptyString /\
    effects =
      [Store (AddOptimisticBid (mkBid (br_uuid b) amount You (br_now1 b) pending));
       EmitBid a (place_bid (BidRequestPayload.mk a (or_ostr (br_userId b) "AnonymousUser")
         (stored_name (br_userName b)) amount (br_now2 b)))]
  else effects = [] /\ bidAmount c' = bidAmount c.
Proof.
  cbv zeta. unfold submit, console_accepts. destruct (canBid s); [|done]. simpl.
  destruct (truthy_str (auctionId s)) eqn:Et; [|done].
  destruct (auctionId s) as [a|] eqn:Ea; [|done].
  destruct (bad_amount (Number (bidAmount c))); [done|].
  destruct (breaks_step s (Number (bidAmount c))); simpl; [done|]. by exists a.
Qed.

(** C13: the console's check is the engine's rule, bit for bit, at the price the
    page shows (finite and not negative), with a finite positive step and an amount
    that is a number: for a forward auction always, and for a reverse auction as long
    as a step below the price is at least a cent ([floor_bid_is_refused_by_engine]
    shows what happens below). *)
Theorem console_check_is_engine_rule s cur amount :
  currentPrice s = Some cur -> price_ok cur ->
  valid (minimumBidStep s) = true -> is_finite (minimumBidStep s) = true ->
  nlt nzero (minimumBidStep s) = true -> is_nan amount = false ->
  (auctionType s = REVERSE -> nle cent (nsub cur (minimumBidStep s)) = true) ->
  console_accepts s amount = is_better_bid (auctionType s) cur amount (minimumBidStep s).
Proof.
  intros Hc [Vc Fc Nc] Vs Fs Ps Ha Hr. rewrite is_better_bid_ok by done.
  destruct (auctionType s) eqn:Ht.
  - apply console_accepts_reverse; auto.
  - apply console_accepts_forward; [done|done|done|].
    by destruct (nle_nan _ _ (nadd_above cur (minimumBidStep s) Vc Vs Fc Nc Ps)).
Qed.

(** when a step below the price is less than a cent, the floor of one cent
    takes over: the console tells the bidder that a cent is valid and sends it,
    and the engine rejects it. *)
Theorem floor_bid_is_refused_by_engine s cur :
  auctionType s = REVERSE -> currentPrice s = Some cur ->
  nlt (nsub cur (minimumBidStep s)) cent = true ->
  nextValid s = Some cent /\ console_accepts s cent = true /\
  is_better_bid REVERSE cur cent (minimumBidStep s) = false.
Proof.
  intros Ht Hc Hn. destruct (nlt_nan _ _ Hn) as [Hb _]. destruct (nlt_asym _ _ Hn) as [H1 H2].
  assert (E : nextValid s = Some cent).
  { unfold nextValid. by rewrite Hc, Ht, js_max_cent, H1. }
  split; [done|]. split.
  - unfold console_accepts, breaks_step. rewrite E, Ht. reflexivity.
  - unfold is_better_bid. by destruct (_ || _).
Qed.

(** the amounts the page shows are rounded to cents, the check is not: at
    0.30 with a step of 0.10 the console says that at most 0.20 is valid and
    refuses 0.20 with the message that the bid must be at most 0.20. *)
Theorem shown_amount_is_refused s :
  auctionType s = REVERSE -> currentPrice s = Some (Number "0.3") ->
  minimumBidStep s = Number "0.1" ->
  (exists n, nextValid s = Some n /\ to_fixed2 n = "0.20") /\
  console_accepts s (Number "0.20") = false /\
  step_message s = "Your bid must be at most $0.20.".
Proof.
  intros Ht Hc Hm. unfold console_accepts, breaks_step, step_message, nextValid.
  rewrite Hc, Ht, Hm. split; [eexists; split; [reflexivity|]|split]; vm_compute; reflexivity.
Qed.

(** what the engine answers replaces the name under which the page keeps its
    own bid, so from a state without own bids the status line can only say that a
    bid awaits confirmation, never that it was accepted or rejected. *)
Theorem status_line_never_settles acts s :
  Forall (fun na : Z * action =>
    (forall p, na.2 = ReconcileBid p -> rp_bidder p <> You) /\
    (forall b, na.2 = AddOptimisticBid b -> bid_status b = pending)) acts ->
  own_pending s ->
  let s' := fold_left (fun s na => reducer na.1 EmptyString s na.2) acts s in
  status_line s' = None \/ status_line s' = Some "Bid submitted, awaiting confirmation…".
Proof.
  intros Ha Hi s'.
  assert (H : own_pending s').
  { unfold s'. revert Ha Hi. apply fold_left_inv. intros s1 na [H1 H2]. by apply own_pending_step. }
  unfold status_line, latest. destruct (js_find _ _) as [b|] eqn:E; [|by left].
  apply js_find_elem in E as [Hb Hy]. apply bool_decide_eq_true in Hy.
  unfold own_pending in H. rewrite Forall_forall in H. rewrite (H b Hb Hy). by right.
Qed.

(** ** Witnesses *)
Definition console_state (ty : AuctionDirection) (price step : Z) : AuctionState :=
  mkState (Some "a1") [] (Some (of_Z price)) (Some (of_Z price)) ty (of_Z step) true 0 (Some 1)
    (Some 1000) active true.

Lemma console_check_is_engine_rule_witness :
  console_accepts (console_state REVERSE 100 5) (of_Z 95) =
  is_better_bid REVERSE (of_Z 100) (of_Z 95) (of_Z 5) /\
  console_accepts (console_state REVERSE 100 5) (of_Z 95) = true.
Proof.
  split; [|reflexivity].
  by apply (console_check_is_engine_rule (console_state REVERSE 100 5) (of_Z 100) (of_Z 95)).
Defined.

Lemma floor_bid_is_refused_by_engine_witness :
  console_accepts (console_state REVERSE 1 1) cent = true /\
  is_better_bid REVERSE (of_Z 1) cent (of_Z 1) = false.
Proof.
  by apply (floor_bid_is_refused_by_engine (console_state REVERSE 1 1) (of_Z 1)).
Defined.

Lemma shown_amount_is_refused_witness :
  exists s, console_accepts s (Number "0.20") = false /\ auctionStatus s = active.
Proof.
  set (s := mkState (Some "a1") [] (Some (Number "0.3")) None REVERSE (Number "0.1") true 0 None None active true).
  exists s. split; [|reflexivity].
  by apply (shown_amount_is_refused s).
Defined.

Lemma status_line_never_settles_witness :
  let acts := [(5, AddOptimisticBid (mkBid "x" (of_Z 95) You 5 pending));
               (6, ReconcileBid (mkRec (Some "u16") true (of_Z 95) "u1" 6))] in
  let s' := fold_left (fun s na => reducer na.1 EmptyString s na.2) acts (console_state REVERSE 100 5) in
  length (bids s') = 1%nat /\
  (status_line s' = None \/ status_line s' = Some "Bid submitted, awaiting confirmation…").
Proof.
  split; [reflexivity|].
  apply (status_line_never_settles
    [(5, AddOptimisticBid (mkBid "x" (of_Z 95) You 5 pending));
     (6, ReconcileBid (mkRec (Some "u16") true (of_Z 95) "u1" 6))] (console_state REVERSE 100 5)).
  - repeat constructor; simpl; intros; by simplify_eq/=.
  - constructor.
Defined.
