(* ===== verification/LiveViews.v ===== *)
(** * The views of the live page ([components/auction/])

    What [Leaderboard], [WinnerModal], [AuditLedger] and [BidHistoryGraph] compute
    from the slice.  The formatting of amounts and times by the locale and by the
    date library are arguments of the views. *)

From Stdlib Require Import Ascii.
From stdpp Require Import sorting.
From S2P Require Import Prelude JSNum JSText ApiTypes AuctionSlice SocketContext AuctionSocket Engine BiddingConsole.
#[local] Open Scope Z_scope.

(** ** Objects used as maps

    The properties of an object literal in insertion order; reading a name that
    [Object.prototype] has finds the inherited value, which is truthy. *)
Definition inherited : list string :=
  ["constructor"; "__defineGetter__"; "__defineSetter__"; "hasOwnProperty"; "__lookupGetter__";
   "__lookupSetter__"; "isPrototypeOf"; "propertyIsEnumerable"; "toString"; "valueOf";
   "__proto__"; "toLocaleString"].

Definition is_inherited (k : string) : bool := bool_decide (k ∈ inherited).

Definition entries (A : Type) : Type := list (string * A).

Fixpoint get_own {A} (k : string) (o : entries A) : option A :=
  match o with
  | [] => None
  | (k', v) :: o' => if bool_decide (k' = k) then Some v else get_own k o'
  end.

Fixpoint set_own {A} (k : string) (v : A) (o : entries A) : entries A :=
  match o with
  | [] => [(k, v)]
  | (k', v') :: o' => if bool_decide (k' = k) then (k, v) :: o' else (k', v') :: set_own k v o'
  end.

(** A property name that is an array index: it comes first, in numeric order. *)
Definition array_index (k : string) : option Z :=
  let '(n, _, rest) := span_digits 0 0 k in
  if bool_decide (rest = EmptyString) && bool_decide (string_of_Z n = k) && (n <? 4294967295)
  then Some n else None.

Definition index_le {A} (a b : Z * A) : bool := a.1 <=? b.1.

(** [Object.values]. *)
Definition object_values {A} (o : entries A) : list A :=
  map snd (js_sort index_le (omap (fun kv => (fun n => (n, kv.2)) <$> array_index kv.1) o)) ++
  map snd (js_filter (fun kv => negb (bool_decide (is_Some (array_index kv.1)))) o).

(** ** Leaderboard *)

(** One step of the reduction over the bids: the bidder's entry is replaced when
    the new bid is strictly better; an inherited value is not [undefined] and has
    no amount to compare with. *)
Definition keep_best (d : AuctionDirection) (acc : entries Bid) (b : Bid) : entries Bid :=
  if not_rejected b then
    match get_own (bid_bidder b) acc with
    | Some existing =>
        if better d (bid_amount b) (bid_amount existing) then set_own (bid_bidder b) b acc else acc
    | None => if is_inherited (bid_bidder b) then acc else set_own (bid_bidder b) b acc
    end
  else acc.

Definition best_by_bidder (d : AuctionDirection) (l : list Bid) : entries Bid :=
  fold_left (keep_best d) l [].

(** [a.amount - b.amount] or [b.amount - a.amount]. *)
Definition board_le (d : AuctionDirection) (a b : Bid) : bool :=
  match d with
  | REVERSE => sub_le (bid_amount a) (bid_amount b)
  | FORWARD => sub_le (bid_amount b) (bid_amount a)
  end.

Definition bestBids (s : AuctionState) : list Bid :=
  take 5 (js_sort (board_le (auctionType s)) (object_values (best_by_bidder (auctionType s) (bids s)))).

(** The name a view shows for a bidder. *)
Definition shown_name (own other : string) : string := if bool_decide (other = You) then own else other.

Inductive board_row :=
| BoardRow (rank : Z) (name amount : string)
| NoCompetitors.

Definition leaderboard (locale : num -> string) (s : AuctionState) : list board_row :=
  match bestBids s with
  | [] => [NoCompetitors]
  | l => imap (fun i b => BoardRow (Z.of_nat i + 1) (shown_name "You" (bid_bidder b))
                            (locale (bid_amount b))) l
  end.

(** ** WinnerModal *)

Definition pick (d : AuctionDirection) (prev curr : Bid) : Bid :=
  if better d (bid_amount prev) (bid_amount curr) then prev else curr.

(** [reduce] without an initial value. *)
Definition winner (s : AuctionState) : option Bid :=
  match js_filter not_rejected (bids s) with
  | [] => None
  | b :: l => Some (fold_left (pick (auctionType s)) l b)
  end.

(** The modal's own state: whether it is shown and whether its timer is running. *)
Record Modal := mkModal { show : bool; opening : bool }.
Definition modal0 : Modal := mkModal false false.

Inductive modal_event := StatusEffect | TimerDone | Acknowledge.

(** [StatusEffect] is the effect, run when the status has changed (its cleanup
    cancels the timer). *)
Definition modal_step (s : AuctionState) (e : modal_event) (m : Modal) : Modal :=
  match e with
  | StatusEffect =>
      if bool_decide (auctionStatus s = ended) then mkModal (show m) true else mkModal false false
  | TimerDone => if opening m then mkModal true false else m
  | Acknowledge => mkModal false (opening m)
  end.

Inductive modal_view :=
| Winner (name amount : string)
| NoBids.

Definition winner_modal (locale : num -> string) (s : AuctionState) (m : Modal) : option modal_view :=
  if show m then
    Some (match winner s with
          | Some w => Winner (shown_name "You" (bid_bidder w)) ("$" +:+ locale (bid_amount w))
          | None => NoBids
          end)
  else None.

(** ** AuditLedger *)
Definition ledger_status (locale : num -> string) (b : Bid) : string :=
  match bid_status b with
  | rejected => "(REJECTED: Conflict)"
  | confirmed => "($" +:+ locale (bid_amount b) +:+ ") [CONFIRMED]"
  | pending => "($" +:+ locale (bid_amount b) +:+ ")"
  end.

(** One row: its time, its bidder, its status. *)
Definition ledger_row (locale : num -> string) (format : Z -> string -> string) (b : Bid) :
    string * string * string :=
  ("[" +:+ format (bid_timestamp b) "HH:mm:ss" +:+ "]",
   shown_name "User_Lambda" (bid_bidder b), ledger_status locale b).

(** The rows of the indexes that the virtualizer asks for; an index past the end
    has no row.  The second component is the text of an empty ledger. *)
Definition audit_ledger (locale : num -> string) (format : Z -> string -> string)
    (virtual : list nat) (s : AuctionState) : list (string * string * string) * option string :=
  (omap (fun i => ledger_row locale format <$> bids s !! i) virtual,
   match bids s with [] => Some "No events in the ledger yet..." | _ => None end).

(** ** BidHistoryGraph *)
Module BidData.
Record t := mk { time : string; amount : num; bidder : string }.
End BidData.

(** [x?.amount || 0]. *)
Definition amount_or_zero (b : option BidData.t) : num :=
  match b with Some d => or_num (BidData.amount d) nzero | None => nzero end.

Definition startBid (data : list BidData.t) : num := amount_or_zero (head data).
Definition finalBid (data : list BidData.t) : num := amount_or_zero (last data).
Definition savings (data : list BidData.t) : num := nsub (startBid data) (finalBid data).
Definition savingsPercent (data : list BidData.t) : string :=
  if nlt nzero (startBid data)
  then to_fixed 1 (nmul (ndiv (savings data) (startBid data)) (of_Z 100)) else "0".

(** The line under the title: savings and number of bids. *)
Definition graph_stats (locale : num -> string) (data : list BidData.t) : string * Z :=
  ("$" +:+ locale (savings data) +:+ " (" +:+ savingsPercent data +:+ "%)", Z.of_nat (length data)).

(** ** Lemmas *)

Lemma get_set_own {A} k k' (v : A) o :
  get_own k' (set_own k v o) = if bool_decide (k = k') then Some v else get_own k' o.
Proof.
  induction o as [|[k0 v0] o IH]; simpl; [done|].
  destruct (bool_decide (k0 = k)) eqn:E; simpl; bool_facts.
  - apply bool_decide_eq_true in E. subst. by destruct (bool_decide (k = k')).
  - apply bool_decide_eq_false in E. rewrite IH.
    destruct (bool_decide (k0 = k')) eqn:E'; [|done]. apply bool_decide_eq_true in E'. subst.
    rewrite bool_decide_eq_false_2; congruence.
Qed.

Definition keys {A} (o : entries A) : list string := map fst o.

Lemma keys_set_own {A} k (v : A) o : NoDup (keys o) -> NoDup (keys (set_own k v o)) /\
  (forall x, x ∈ keys (set_own k v o) <-> x = k \/ x ∈ keys o).
Proof.
  induction o as [|[k0 v0] o IH]; simpl; intros Hn.
  - split; [apply NoDup_singleton|]. intros x. rewrite list_elem_of_singleton, elem_of_nil. tauto.
  - apply NoDup_cons in Hn as [H0 Hn]. destruct (IH Hn) as [IH1 IH2].
    destruct (bool_decide (k0 = k)) eqn:E; simpl.
    + apply bool_decide_eq_true in E. subst. split; [by constructor|].
      intros x. rewrite elem_of_cons. tauto.
    + apply bool_decide_eq_false in E. split.
      * constructor; [|done]. intros [->|Hx]%IH2; [by destruct E|by apply H0].
      * intros x. rewrite !elem_of_cons, IH2. tauto.
Qed.

Lemma get_own_elem {A} (o : entries A) k v : NoDup (keys o) -> (k, v) ∈ o <-> get_own k o = Some v.
Proof.
  induction o as [|[k0 v0] o IH]; simpl; intros Hn; [by rewrite elem_of_nil|].
  apply NoDup_cons in Hn as [H0 Hn]. rewrite elem_of_cons, (IH Hn).
  destruct (bool_decide (k0 = k)) eqn:E.
  - apply bool_decide_eq_true in E. subst. split; [|intros [= ->]; by left].
    intros [[= ->]|Hg]; [done|]. exfalso. apply H0, list_elem_of_fmap. exists (k, v).
    split; [done|]. by apply IH.
  - apply bool_decide_eq_false in E. split; [intros [[= -> ->]|Hg]; congruence|by right].
Qed.

Lemma get_own_key {A} k (o : entries A) v : get_own k o = Some v -> exists v', (k, v') ∈ o.
Proof.
  induction o as [|[k0 v0] o IH]; simpl; [done|]. destruct (bool_decide (k0 = k)) eqn:E.
  - apply bool_decide_eq_true in E. subst. intros _. exists v0. left.
  - intros H. destruct (IH H) as [v' Hv]. exists v'. by right.
Qed.

(** [Object.values] lists each value once. *)
Lemma object_values_perm {A} (o : entries A) : Permutation (object_values o) (map snd o).
Proof.
  unfold object_values. rewrite js_sort_perm.
  induction o as [|[k v] o IH]; simpl; [done|].
  destruct (array_index k) as [n|] eqn:E; simpl.
  - apply perm_skip, IH.
  - rewrite <-Permutation_middle. apply perm_skip, IH.
Qed.

(** What the reduction keeps: for every bidder whose name is not inherited, a bid
    of the list that counts and that no other of the bidder's beats. *)
Definition counts (l : list Bid) (b : Bid) : Prop := b ∈ l /\ not_rejected b = true.

Definition plain_names (l : list Bid) : Prop := Forall (fun b => is_inherited (bid_bidder b) = false) l.

Record board_inv (d : AuctionDirection) (l : list Bid) (acc : entries Bid) : Prop := {
  bi_keys : NoDup (keys acc);
  bi_from : forall k b, (k, b) ∈ acc -> counts l b /\ bid_bidder b = k;
  bi_best : forall b, counts l b -> exists b', (bid_bidder b, b') ∈ acc /\
    better d (bid_amount b) (bid_amount b') = false
}.

(** The bidder's entry is set: it was absent or is beaten. *)
Lemma board_inv_set d l acc b :
  finite_bids (l ++ [b]) -> not_rejected b = true -> board_inv d l acc ->
  (forall old, get_own (bid_bidder b) acc = Some old ->
     better d (bid_amount b) (bid_amount old) = true) ->
  board_inv d (l ++ [b]) (set_own (bid_bidder b) b acc).
Proof.
  intros Hf Er [I1 I2 I3] Hold. unfold finite_bids in Hf. rewrite Forall_forall in Hf.
  assert (Hb : b ∈ l ++ [b]) by (apply elem_of_app; right; apply list_elem_of_here).
  assert (Hl : forall x, x ∈ l -> x ∈ l ++ [b]) by (intros; apply elem_of_app; by left).
  destruct (keys_set_own (bid_bidder b) b acc I1) as [K1 K2]. split; [done| |].
  - intros k x Hx. apply get_own_elem in Hx; [|done]. rewrite get_set_own in Hx.
    destruct (bool_decide (bid_bidder b = k)) eqn:E.
    + simplify_eq. apply bool_decide_eq_true in E. by repeat split.
    + apply get_own_elem in Hx; [|done]. destruct (I2 k x Hx) as [[? ?] ?]. repeat split; auto.
  - intros x [Hx Hr]. destruct (decide (bid_bidder b = bid_bidder x)) as [E|E].
    + exists b. split; [apply get_own_elem; [done|]; by rewrite get_set_own, bool_decide_eq_true_2|].
      apply elem_of_app in Hx as [Hx| ->%list_elem_of_singleton];
        [|destruct d; simpl; specialize (Hf b Hb); num_order].
      destruct (I3 x (conj Hx Hr)) as (x' & Hin & Hbx). rewrite <-E in Hin.
      pose proof Hin as Hin'. apply get_own_elem in Hin'; [|done]. specialize (Hold x' Hin').
      destruct (I2 _ _ Hin) as [[Hx'l _] _].
      pose proof (Hf x (Hl _ Hx)). pose proof (Hf b Hb). pose proof (Hf x' (Hl _ Hx'l)).
      destruct d; simpl in *; num_order.
    + apply elem_of_app in Hx as [Hx| ->%list_elem_of_singleton]; [|done].
      destruct (I3 x (conj Hx Hr)) as (x' & Hin & Hbx). exists x'. split; [|done].
      apply get_own_elem; [done|]. rewrite get_set_own, bool_decide_eq_false_2 by done.
      by apply get_own_elem.
Qed.

Lemma keep_best_inv d l acc b :
  finite_bids (l ++ [b]) -> is_inherited (bid_bidder b) = false ->
  board_inv d l acc -> board_inv d (l ++ [b]) (keep_best d acc b).
Proof.
  intros Hf Hn Hi.
  assert (Hkeep : (not_rejected b = true -> exists b', (bid_bidder b, b') ∈ acc /\
      better d (bid_amount b) (bid_amount b') = false) -> board_inv d (l ++ [b]) acc).
  { intros Hk. destruct Hi as [I1 I2 I3]. split; [done| |].
    - intros k x Hx. destruct (I2 k x Hx) as [[? ?] ?]. repeat split; auto. apply elem_of_app; by left.
    - intros x [Hx Hr]. apply elem_of_app in Hx as [Hx| ->%list_elem_of_singleton]; [|auto].
      by apply I3. }
  unfold keep_best. destruct (not_rejected b) eqn:Er; [|by apply Hkeep]. rewrite Hn.
  destruct (get_own (bid_bidder b) acc) as [old|] eqn:Eg.
  - destruct (better d (bid_amount b) (bid_amount old)) eqn:Eb.
    + apply board_inv_set; [done|done|done|]. intros o. rewrite Eg. by intros [= <-].
    + apply Hkeep. intros _. exists old. split; [|done]. apply get_own_elem; [apply Hi|done].
  - apply board_inv_set; [done|done|done|]. intros o. by rewrite Eg.
Qed.

Lemma best_by_bidder_inv d l :
  finite_bids l -> plain_names l -> board_inv d l (best_by_bidder d l).
Proof.
  intros Hf Hn. unfold best_by_bidder.
  induction l as [|b l IH] using rev_ind.
  - split; [constructor| |].
    + intros k b Hb. by apply not_elem_of_nil in Hb.
    + intros b [Hb _]. by apply not_elem_of_nil in Hb.
  - rewrite fold_left_app. simpl. unfold plain_names, finite_bids in *.
    pose proof Hf as Hf'. apply Forall_app in Hf' as [Hf1 _]. apply Forall_app in Hn as [Hn1 Hn2].
    apply keep_best_inv; [done|by inversion Hn2|by apply IH].
Qed.

(** ** The board's order *)
Definition board_ok (b : Bid) : Prop := valid (bid_amount b) = true /\ is_finite (bid_amount b) = true.

Lemma board_le_better d a b :
  board_ok a -> board_ok b -> board_le d a b = true <-> better d (bid_amount b) (bid_amount a) = false.
Proof.
  intros [Va Fa] [Vb Fb]. pose proof (finite_not_nan _ Fa). pose proof (finite_not_nan _ Fb).
  destruct d; simpl; rewrite sub_le_nle by done; split; intros; num_order.
Qed.

Lemma board_le_total d a b : board_ok a -> board_ok b -> board_le d a b = true \/ board_le d b a = true.
Proof.
  intros Ha Hb. rewrite !board_le_better by done. destruct Ha as [_ Fa], Hb as [_ Fb].
  destruct d; simpl; [destruct (nlt (bid_amount b) (bid_amount a)) eqn:E|
    destruct (nlt (bid_amount a) (bid_amount b)) eqn:E]; [right|by left|right|by left]; num_order.
Qed.

Lemma board_le_trans d a b c : board_ok a -> board_ok b -> board_ok c ->
  board_le d a b = true -> board_le d b c = true -> board_le d a c = true.
Proof.
  intros Ha Hb Hc. rewrite !board_le_better by done. destruct Ha as [_ Fa], Hb as [_ Fb], Hc as [_ Fc].
  destruct d; simpl; intros; num_order.
Qed.

Section Board.
Context (s : AuctionState) (Hok : Forall board_ok (bids s)) (Hn : plain_names (bids s)).

Let d := auctionType s.
Let acc := best_by_bidder d (bids s).
Let sorted := js_sort (board_le d) (object_values acc).

Lemma board_finite : finite_bids (bids s).
Proof. eapply Forall_impl; [exact Hok|]. by intros b [_ ?]. Qed.

Lemma board_acc : board_inv d (bids s) acc.
Proof. apply best_by_bidder_inv; [apply board_finite|done]. Qed.

Lemma board_elem b : b ∈ sorted <-> (bid_bidder b, b) ∈ acc.
Proof.
  unfold sorted. rewrite js_sort_elem_of, object_values_perm. rewrite list_elem_of_fmap. split.
  - intros ([k x] & -> & Hx). simpl. destruct (bi_from _ _ _ board_acc k x Hx) as [_ ->]. done.
  - intros Hb. by exists (bid_bidder b, b).
Qed.

Lemma board_counts b : b ∈ sorted -> counts (bids s) b.
Proof. intros Hb%board_elem. by apply (bi_from _ _ _ board_acc) in Hb as [? _]. Qed.

Lemma board_values_ok : Forall board_ok (object_values acc).
Proof.
  apply Forall_forall. intros b Hb. rewrite <-(js_sort_elem_of (board_le d)) in Hb.
  apply board_counts in Hb as [Hb _]. rewrite Forall_forall in Hok. by apply Hok.
Qed.

Lemma board_sorted : StronglySorted (fun a b => better d (bid_amount b) (bid_amount a) = false) sorted.
Proof.
  pose proof (js_sort_sorted (board_le d) board_ok (board_le_total d) (board_le_trans d) _
    board_values_ok) as Hs. fold sorted in Hs.
  assert (Hv : Forall board_ok sorted) by (by apply js_sort_Forall, board_values_ok).
  induction Hs as [|x l Hs IH Hx]; [constructor|]. inversion Hv as [|? ? Vx Vl]; subst.
  constructor; [by apply IH|]. rewrite Forall_forall in Hx, Vl |- *.
  intros y Hy. apply board_le_better; auto. by apply Hx.
Qed.

Lemma board_bidders : NoDup (map bid_bidder sorted).
Proof.
  assert (E : Permutation (map bid_bidder sorted) (keys acc)).
  { unfold sorted. rewrite js_sort_perm, object_values_perm. rewrite map_map. unfold keys.
    apply reflexive_eq, map_ext_in. intros [k b] Hb%list_elem_of_In. simpl.
    by destruct (bi_from _ _ _ board_acc k b Hb) as [_ ->]. }
  rewrite E. apply board_acc.
Qed.
End Board.

(** ** The winner *)
Lemma pick_fold d l b :
  Forall (fun x => is_finite (bid_amount x) = true) (b :: l) ->
  let w := fold_left (pick d) l b in
  w ∈ b :: l /\ forall x, x ∈ b :: l -> better d (bid_amount x) (bid_amount w) = false.
Proof.
  revert b; induction l as [|c l IH]; intros b Hf; simpl.
  - split; [left|]. intros x ->%list_elem_of_singleton. apply Forall_cons in Hf as [Hf _].
    destruct d; simpl; num_order.
  - apply Forall_cons in Hf as [Fb Hf]. pose proof Hf as Hf'. apply Forall_cons in Hf' as [Fc Fl].
    assert (Hp : pick d b c = b \/ pick d b c = c) by (unfold pick; case_match; auto).
    assert (Fp : is_finite (bid_amount (pick d b c)) = true) by (by destruct Hp as [-> | ->]).
    destruct (IH (pick d b c)) as [W1 W2]; [by constructor|].
    set (w := fold_left (pick d) l (pick d b c)) in *. split.
    + apply elem_of_cons in W1 as [->|W1]; [|by do 2 right].
      destruct Hp as [-> | ->]; [left|right; left].
    + intros x Hx. specialize (W2 (pick d b c) (list_elem_of_here _ _)) as Wp.
      assert (Fw : is_finite (bid_amount w) = true).
      { apply elem_of_cons in W1 as [->|W1]; [done|]. rewrite Forall_forall in Fl. by apply Fl. }
      rewrite !elem_of_cons in Hx. destruct Hx as [->|[->|Hx]]; [| |apply W2; by right].
      * unfold pick in *. destruct (better d (bid_amount b) (bid_amount c)) eqn:E; [done|].
        destruct d; simpl in *; num_order.
      * unfold pick in *. destruct (better d (bid_amount b) (bid_amount c)) eqn:E; [|done].
        destruct d; simpl in *; num_order.
Qed.

Lemma winner_leads s : finite_bids (bids s) ->
  match winner s with
  | Some w => leads (auctionType s) (bids s) w
  | None => Forall (fun b => not_rejected b = false) (bids s)
  end.
Proof.
  intros Hf. unfold winner. destruct (js_filter not_rejected (bids s)) as [|b l] eqn:E.
  - apply Forall_forall. intros b Hb. destruct (not_rejected b) eqn:N; [|done].
    assert (H : b ∈ js_filter not_rejected (bids s)) by (by apply js_filter_elem).
    rewrite E in H. by apply not_elem_of_nil in H.
  - assert (Hv : Forall (fun x => is_finite (bid_amount x) = true) (b :: l)).
    { apply Forall_forall. intros x Hx. rewrite <-E in Hx. apply js_filter_elem in Hx as [_ Hx].
      unfold finite_bids in Hf. rewrite Forall_forall in Hf. auto. }
    destruct (pick_fold (auctionType s) l b Hv) as [W1 W2]. rewrite <-E in W1.
    apply js_filter_elem in W1 as [N W1]. repeat split; auto.
    intros x Hx Nx. apply W2. rewrite <-E. by apply js_filter_elem.
Qed.

(** The head of the board leads the auction. *)
Lemma leaderboard_head s :
  Forall board_ok (bids s) -> plain_names (bids s) ->
  match bestBids s with
  | r :: _ => leads (auctionType s) (bids s) r
  | [] => Forall (fun b => not_rejected b = false) (bids s)
  end.
Proof.
  intros Hok Hn. pose proof (board_sorted s Hok Hn) as Hs. pose proof (board_elem s Hok Hn) as He.
  pose proof (board_acc s Hok Hn) as [K1 K2 K3]. unfold bestBids.
  set (d := auctionType s) in *. set (acc := best_by_bidder d (bids s)) in *.
  set (all := js_sort (board_le d) (object_values acc)) in *.
  assert (Hall : forall b, counts (bids s) b -> exists b', b' ∈ all /\ better d (bid_amount b) (bid_amount b') = false).
  { intros b Hb. destruct (K3 b Hb) as (b' & Hin & Hbb). exists b'. split; [|done].
    apply He. by destruct (K2 _ _ Hin) as [_ ->]. }
  destruct all as [|r others] eqn:E; simpl.
  - apply Forall_forall. intros b Hb. destruct (not_rejected b) eqn:N; [|done].
    destruct (Hall b (conj Hb N)) as (b' & Hin & _). by apply not_elem_of_nil in Hin.
  - assert (Hr : counts (bids s) r) by (apply (board_counts s Hok Hn); change (r ∈ all); rewrite E; left).
    destruct Hr as [Hr1 Hr2]. split; [done|]. split; [done|]. intros b Hb N.
    destruct (Hall b (conj Hb N)) as (b' & Hin & Hbb).
    apply elem_of_cons in Hin as [->|Hin]; [done|].
    inversion Hs as [|? ? Hs' Hx]; subst. rewrite Forall_forall in Hx. specialize (Hx b' Hin).
    assert (Hb' : b' ∈ bids s) by (apply (board_counts s Hok Hn); change (b' ∈ all); rewrite E; by right).
    rewrite Forall_forall in Hok.
    destruct (Hok r Hr1) as [_ F1], (Hok b Hb) as [_ F2], (Hok b' Hb') as [_ F3].
    destruct d; simpl in *; num_order.
Qed.

(** The names under which the reduction files bids. *)
Lemma best_by_bidder_names d l :
  Forall (fun kb : string * Bid => bid_bidder kb.2 = kb.1 /\ is_inherited kb.1 = false) (best_by_bidder d l).
Proof.
  unfold best_by_bidder. induction l as [|b l IH] using rev_ind; [constructor|].
  rewrite fold_left_app. simpl. set (acc := fold_left (keep_best d) l []) in *. unfold keep_best.
  assert (H : is_inherited (bid_bidder b) = false ->
    Forall (fun kb : string * Bid => bid_bidder kb.2 = kb.1 /\ is_inherited kb.1 = false)
      (set_own (bid_bidder b) b acc)).
  { intros Hi. clear -IH Hi. induction IH as [|[k x] acc Hx Ht IH]; simpl; [constructor; auto|].
    case_match; constructor; simpl; auto. }
  destruct (not_rejected b); [|done].
  destruct (get_own (bid_bidder b) acc) as [old|] eqn:E.
  - destruct (better _ _ _); [|done]. apply H. apply get_own_key in E as (v & Hv).
    rewrite Forall_forall in IH. by destruct (IH _ Hv) as [_ ?].
  - by destruct (is_inherited (bid_bidder b)); auto.
Qed.

(** ** Properties *)

(** the leaderboard has at most five rows, one per bidder, in order; each row
    is a best bid of its bidder among those that count, and a bidder is left out
    only when five others are at least as good. *)
Theorem leaderboard_is_best_five s :
  Forall board_ok (bids s) -> plain_names (bids s) ->
  let rows := bestBids s in
  let d := auctionType s in
  (length rows <= 5)%nat /\ NoDup (map bid_bidder rows) /\
  StronglySorted (fun a b => better d (bid_amount b) (bid_amount a) = false) rows /\
  (forall r b, r ∈ rows -> counts (bids s) b -> bid_bidder b = bid_bidder r ->
     better d (bid_amount b) (bid_amount r) = false) /\
  (forall b, counts (bids s) b -> bid_bidder b ∉ map bid_bidder rows ->
     length rows = 5%nat /\ forall r, r ∈ rows -> better d (bid_amount b) (bid_amount r) = false).
Proof.
  intros Hok Hn rows d. pose proof (board_sorted s Hok Hn) as Hs. pose proof (board_bidders s Hok Hn) as Hd.
  pose proof (board_elem s Hok Hn) as He. pose proof (board_acc s Hok Hn) as [K1 K2 K3].
  fold d in Hs, Hd, He, K1, K2, K3.
  set (acc := best_by_bidder d (bids s)) in *. set (all := js_sort (board_le d) (object_values acc)) in *.
  change rows with (take 5 all).
  assert (Hsplit : take 5 all ++ drop 5 all = all) by apply take_drop.
  split; [rewrite length_take; lia|]. split; [|split; [|split]].
  - rewrite <-Hsplit, map_app in Hd. by apply NoDup_app in Hd as [? _].
  - rewrite <-Hsplit in Hs. by apply StronglySorted_app_1_l in Hs.
  - intros r b Hr Hb E. destruct (K3 b Hb) as (b' & Hin & Hbb). rewrite E in Hin.
    assert (Hr' : r ∈ all) by (rewrite <-Hsplit; apply elem_of_app; by left).
    apply He in Hr'. apply get_own_elem in Hin, Hr'; [|done|done]. congruence.
  - intros b Hb Hout. destruct (K3 b Hb) as (b' & Hin & Hbb).
    destruct (K2 _ _ Hin) as [Hb' Ebb]. rewrite <-Ebb in Hin, Hout. apply He in Hin.
    rewrite <-Hsplit in Hin. apply elem_of_app in Hin as [Hin|Hin].
    { destruct Hout. apply list_elem_of_fmap. by exists b'. }
    split.
    + assert (0 < length (drop 5 all))%nat by (destruct (drop 5 all); simpl; [by apply not_elem_of_nil in Hin|lia]).
      rewrite length_drop in *. rewrite length_take. lia.
    + intros r Hr. rewrite <-Hsplit in Hs. pose proof (StronglySorted_app_1_elem_of _ _ _ _ _ Hs Hr Hin) as Hrb.
      simpl in Hrb. rewrite Forall_forall in Hok.
      assert (Hra : r ∈ all) by (rewrite <-Hsplit; apply elem_of_app; by left).
      apply He, K2 in Hra as [[Hr1 _] _]. destruct Hb as [Hb1 _], Hb' as [Hb2 _].
      destruct (Hok r Hr1) as [_ F1], (Hok b Hb1) as [_ F2], (Hok b' Hb2) as [_ F3].
      destruct d; simpl in *; num_order.
Qed.

(** the modal's winner, the top of the leaderboard and the leading price
    agree on the amount after any server event. *)
Theorem winner_agrees_with_board_and_price fresh p s :
  let s' := reconcileBid fresh p s in
  Forall board_ok (bids s') -> plain_names (bids s') ->
  match winner s' with
  | None => bestBids s' = [] /\ currentPrice s' = startingPrice s'
  | Some w => exists r rest, bestBids s' = r :: rest /\
      neq (bid_amount r) (bid_amount w) = true /\ price_eq (currentPrice s') (Some (bid_amount w))
  end.
Proof.
  intros s' Hok Hn. pose proof (board_finite s' Hok) as Hf.
  pose proof (winner_leads s' Hf) as Hw. pose proof (leading_price_spec s' (bids s') Hf) as Hl.
  change (leading_price s' (bids s')) with (currentPrice s') in Hl.
  pose proof (leaderboard_head s' Hok Hn) as Hb.
  destruct (winner s') as [w|]; destruct Hl as [[Hr Hp]|(b & Hb' & Hp)].
  - exfalso. destruct Hw as (Hin & Hnr & _). rewrite Forall_forall in Hr. rewrite (Hr w Hin) in Hnr. done.
  - destruct (bestBids s') as [|r rest].
    + exfalso. destruct Hw as (Hin & Hnr & _). rewrite Forall_forall in Hb. rewrite (Hb w Hin) in Hnr. done.
    + exists r, rest. split; [done|]. rewrite Hp. split; by eapply leads_unique.
  - split; [|done]. destruct (bestBids s') as [|r rest]; [done|]. exfalso.
    destruct Hb as (Hin & Hnr & _). rewrite Forall_forall in Hw. rewrite (Hw r Hin) in Hnr. done.
  - exfalso. destruct Hb' as (Hin & Hnr & _). rewrite Forall_forall in Hw. rewrite (Hw b Hin) in Hnr. done.
Qed.

(** a bidder whose user name is a property of every object ("constructor",
    "toString") never appears on the leaderboard, whatever it bids. *)
Theorem inherited_name_is_left_out s who :
  who ∈ inherited -> who ∉ map bid_bidder (bestBids s).
Proof.
  intros Hw (r & E & Hr)%list_elem_of_fmap. unfold bestBids in Hr.
  apply elem_of_take in Hr as (i & Hr & _). apply list_elem_of_lookup_2 in Hr.
  rewrite js_sort_elem_of, object_values_perm in Hr.
  apply list_elem_of_fmap in Hr as ([k b] & Eb & Hk). simpl in Eb. subst b.
  pose proof (best_by_bidder_names (auctionType s) (bids s)) as Ha. rewrite Forall_forall in Ha.
  destruct (Ha (k, r) Hk) as [Ek Hi]. simpl in *. rewrite <-Ek in Hi. rewrite <-E in Hi.
  unfold is_inherited in Hi. by rewrite bool_decide_eq_true_2 in Hi.
Qed.

(** in a forward auction whose reserve is not reached the engine closes
    without a winner, and the modal of a page that got the same bid announces
    one: it ignores the reserve, which the closing message reports. *)
Theorem modal_ignores_reserve zfirst locale d reserve l s m :
  zset l = [d] -> zfirst FORWARD [d] = Some d ->
  nlt (d_amount d) reserve = true ->
  bids s = [ev_entry (event_of d)] -> d_executed d = true -> auctionType s = FORWARD ->
  close_winner zfirst true FORWARD (Some reserve) l = None /\
  winner_modal locale s (modal_step s TimerDone (mkModal m true)) =
    Some (Winner (shown_name "You" (bid_bidder (ev_entry (event_of d)))) ("$" +:+ locale (d_amount d))).
Proof.
  intros Hz Hf Hr Hb Hx Ht. split.
  - unfold close_winner. rewrite Hz, Hf. unfold d_amount in Hr. by rewrite Hr.
  - unfold winner_modal, modal_step. simpl. unfold winner, js_filter. rewrite Hb. simpl.
    unfold ev_entry at 1. rewrite not_rejected_bid_of. simpl. by rewrite Hx.
Qed.

(** ** Witnesses *)
Definition board_state : AuctionState :=
  mkState (Some "a1")
    [sample_bid "b4" 90 "bob" 40 confirmed; sample_bid "a3" 80 "toString" 30 confirmed;
     sample_bid "a2" 95 "ann" 20 confirmed; sample_bid "b1" 100 "bob" 10 confirmed]
    (Some (of_Z 80)) (Some (of_Z 120)) REVERSE (of_Z 5) true 0 (Some 1) (Some 1000) active true.

Definition plain_state : AuctionState :=
  set_bids [sample_bid "b4" 90 "bob" 40 confirmed; sample_bid "c3" 70 "cid" 30 rejected;
     sample_bid "a2" 95 "ann" 20 confirmed; sample_bid "b1" 100 "bob" 10 confirmed]
    (Some (of_Z 90)) board_state.

Lemma leaderboard_is_best_five_witness :
  map (fun b => (bid_bidder b, bid_id b)) (bestBids plain_state) = [("bob", "b4"); ("ann", "a2")] /\
  (length (bestBids plain_state) <= 5)%nat.
Proof.
  split; [vm_compute; reflexivity|].
  apply (leaderboard_is_best_five plain_state); by repeat constructor.
Defined.

Lemma winner_agrees_with_board_and_price_witness :
  let s' := reconcileBid "x" (sample_event "c5" true 85 "cid" 50) plain_state in
  exists r rest, bestBids s' = r :: rest /\ price_eq (currentPrice s') (Some (of_Z 85)).
Proof.
  pose proof (winner_agrees_with_board_and_price "x" (sample_event "c5" true 85 "cid" 50) plain_state
    ltac:(by repeat constructor) ltac:(by repeat constructor)) as H.
  cbv zeta in *.
  destruct (winner (reconcileBid "x" (sample_event "c5" true 85 "cid" 50) plain_state)) as [w|] eqn:E;
    vm_compute in E; [|discriminate E].
  destruct H as (r & rest & H1 & _ & H3). exists r, rest. split; [exact H1|].
  injection E as <-. exact H3.
Defined.

Lemma inherited_name_is_left_out_witness :
  ("toString" ∉ map bid_bidder (bestBids board_state)) /\ winner board_state <> None.
Proof. split; [apply inherited_name_is_left_out; by_decide|discriminate]. Defined.

Lemma modal_ignores_reserve_witness :
  let d := decision (sample_task "r1" "u1" 100 10) true (of_Z 90) in
  let l := mkLedger ∅ [d] [d] [d] [d] in
  let s := mkState None [ev_entry (event_of d)] None None FORWARD (of_Z 5) true 0 None None ended true in
  close_winner (fun _ l => head l) true FORWARD (Some (of_Z 150)) l = None /\
  is_Some (winner_modal (to_fixed 2) s (modal_step s TimerDone (mkModal false true))).
Proof.
  intros d l s.
  destruct (modal_ignores_reserve (fun _ l => head l) (to_fixed 2) d (of_Z 150) l s false
    eq_refl eq_refl eq_refl eq_refl eq_refl eq_refl) as [H1 H2].
  split; [exact H1|]. rewrite H2. by eexists.
Defined.
