(* ===== verification/Report.v ===== *)
(** * The audit report ([app/auction/bidinfo/[id]/page.tsx])

    The page that shows a finished auction: the audit log as the server pages it
    ([services/auction.rs]: [get_bid_audit_service]; the archive is written by
    [apps/notification-worker/src/main.rs]), the figures drawn from it, the graph
    ([components/auction/BidHistoryGraph.tsx]) and the winner's map
    ([components/shipment/ShipmentMap.tsx]).  The last section joins the report to
    the engine. *)

From Stdlib Require Import Ascii.
From S2P Require Import Prelude Markup JSNum JSRound JSText ApiTypes AuctionSlice SocketContext AuctionSocket Engine LiveViews.
#[local] Open Scope Z_scope.
#[local] Open Scope aqua_scope.

(** ** The audit log *)

(** [BidAuditEvent]. *)
Record AuditEvent := mkAudit {
  ae_request_id : string;
  ae_bidder_id : string;
  ae_username : option string;
  ae_amount : num;
  ae_accepted : bool;
  ae_rejection_reason : option string;
  ae_previous_price : num;
  ae_resulting_price : num;
  ae_submitted_at : string;
  ae_processed_at : string;
  ae_partition : Z;
  ae_offset : Z
}.

(** The archive keeps the first row of a request. *)
Definition insert_event (l : list AuditEvent) (e : AuditEvent) : list AuditEvent :=
  if existsb (fun x => String.eqb (ae_request_id x) (ae_request_id e)) l then l else l ++ [e].
Definition archive (l : list AuditEvent) : list AuditEvent := fold_left insert_event l [].

(** [normalize_audit_page]. *)
Definition normalize_audit_page (limit offset : option Z) : Z * Z :=
  (Z.max 1 (Z.min 500 (default 100 limit)), Z.max 0 (default 0 offset)).

(** The order of the log: by partition, then by offset; two rows of one topic do not
    share both. *)
Definition position_le (a b : AuditEvent) : bool :=
  (ae_partition a <? ae_partition b) || ((ae_partition a =? ae_partition b) && (ae_offset a <=? ae_offset b)).

(** [get_bid_audit_service] for a user who may see the log. *)
Definition audit_page (limit offset : option Z) (rows : list AuditEvent) : list AuditEvent :=
  let '(l, o) := normalize_audit_page limit offset in
  take (Z.to_nat l) (drop (Z.to_nat o) (js_sort position_le rows)).

(** Who may: the owner and the participants. *)
Definition audit_access (owner : option string) (participants : list string) (user : string) : result unit :=
  match owner with
  | None => Throw "Auction not found"
  | Some o =>
      if negb (String.eqb o user) && negb (bool_decide (user ∈ participants))
      then Throw "Only the auction owner or a participant can view bid audit history"
      else Ok tt
  end.

(** What the page asks for. *)
Definition report_rows (rows : list AuditEvent) : list AuditEvent := audit_page (Some 500) (Some 0) rows.

(** ** The report *)

(** [useAuction]. *)
Definition find_auction (id : string) (data : option (list Auction.t)) : option Auction.t :=
  match data with Some l => js_find (fun a => String.eqb (Auction.id a) id) l | None => None end.

Definition acceptedEvents (events : list AuditEvent) : list AuditEvent := js_filter ae_accepted events.

Definition graphData (events : list AuditEvent) : list BidData.t :=
  map (fun e => BidData.mk (ae_submitted_at e) (ae_amount e) (ae_bidder_id e)) (acceptedEvents events).

Definition winningAmount (events : list AuditEvent) : option num := ae_amount <$> last (acceptedEvents events).

(** [auction.is_closed && auction.winner_id === myUserId], where a missing winner
    and a missing identity are both [null]. *)
Definition isWinner (a : Auction.t) (myUserId : option string) : bool :=
  bool_decide (Auction.is_closed a = Some true) && bool_decide (Auction.winner_id a = myUserId).

(** The page's own state: it knows the visitor after its first effect. *)
Record ReportState := mkReport { rp_user : option string; rp_generated : string }.
Definition report0 : ReportState := mkReport None EmptyString.
Definition report_effect (stored : option string) (now_text : string) (_ : ReportState) : ReportState :=
  mkReport stored now_text.

Section Views.
(** The locale's texts, [new Date(text).getTime()], and d3: minimum and maximum,
    the value of a linear scale, the path of a line through points, the ticks. *)
Context (locale : num -> string) (toLocaleString : option Z -> string) (date : string -> option Z).
Context (d3_min d3_max : list num -> option num) (scale : num * num -> num * num -> num -> num).
Context (line : list (num * num) -> option string) (ticks : num -> num -> Z -> list num).

(** *** The graph *)

Definition amounts (data : list BidData.t) : list num := map BidData.amount data.

(** [d3.min(data, d => d.amount) || 0]. *)
Definition bound (x : option num) : num := match x with Some v => or_num v nzero | None => nzero end.

(** The scales of the path and of the points; [i] is an index. *)
Definition x_scale (width : num) (data : list BidData.t) (i : Z) : num :=
  scale (nzero, of_Z (Z.of_nat (length data) - 1)) (nzero, width) (of_Z i).
Definition y_scale (height : num) (low high : num) (v : num) : num :=
  scale (nmul low (Number "0.9"), nmul high (Number "1.1")) (height, nzero) v.

Definition points (width height low high : num) (data : list BidData.t) : list (num * num) :=
  imap (fun i d => (x_scale width data (Z.of_nat i), y_scale height low high (BidData.amount d))) data.

(** The state of the graph: the path and the measured width; the height is 250. *)
Record Graph := mkGraph { g_path : string; g_width : num }.
Definition graph0 : Graph := mkGraph EmptyString nzero.

Definition resized (width : num) (g : Graph) : Graph := mkGraph (g_path g) width.

(** The effect on the data and the dimensions. *)
Definition draw (data : list BidData.t) (g : Graph) : Graph :=
  if neq (g_width g) nzero || bool_decide (data = []) then g
  else
    let width := nsub (nsub (g_width g) (of_Z 60)) (of_Z 20) in
    match line (points width (of_Z 200) (bound (d3_min (amounts data))) (bound (d3_max (amounts data))) data) with
    | Some (String c r) => mkGraph (String c r) (g_width g)
    | _ => g
    end.

Definition coordinate (n : num) : string := num_to_string n.

Definition translate (x y : string) : string := "translate(" +:+ x +:+ ", " +:+ y +:+ ")".

Definition tick_line {A} (width : num) (data : list BidData.t) (tick : num) : node A :=
  let low := default nzero (d3_min (amounts data)) in
  let high := default nzero (d3_max (amounts data)) in
  El "g" [Attr "transform" (translate "0" (coordinate (y_scale (of_Z 200) low high tick)))] [
    El "line" [Attr "x2" (coordinate (nsub width (of_Z 80)))] [];
    txt "text" ("$" +:+ locale tick)].

Definition chart {A} (data : list BidData.t) (g : Graph) : node A :=
  let low := d3_min (amounts data) in
  let high := d3_max (amounts data) in
  let width := nsub (g_width g) (of_Z 80) in
  El "svg" [Attr "width" (coordinate (g_width g)); Attr "height" "250"] [
    El "g" [Attr "transform" "translate(60, 20)"] (
      map (tick_line (g_width g) data) (ticks (bound low) (bound high) 5) ++
      when (truthy_str (Some (g_path g)))
        (El "path" [Attr "d" (g_path g)] [] ::
         map (fun p => El "circle" [Attr "cx" (coordinate p.1); Attr "cy" (coordinate p.2)] [])
           (points width (of_Z 200) (default nzero low) (default nzero high) data)))].

Definition graph_view {A} (data : list BidData.t) (g : Graph) : node A :=
  let '(saved, bids) := graph_stats locale data in
  tag "div" ([
    txt "h4" "Bid Timeline Analysis";
    txt "p" "Visualization of competitive bidding driving down the contract price.";
    tag "div" [txt "span" "Total Savings"; txt "span" saved];
    tag "div" [txt "span" "Total Bids"; txt "span" (string_of_Z bids)]] ++
    when (nlt nzero (g_width g)) [chart data g]).

(** *** The map *)

Record Route := mkRoute { rt_distance_text : option string; rt_duration_text : option string }.

Record MapState := mkMap { mp_route : option Route; mp_distance : string; mp_duration : string }.
Definition map0 : MapState := mkMap None EmptyString EmptyString.

(** Whether the effect asks the map service for a route. *)
Definition asks_route (o_lat o_lng d_lat d_lng : num) (isLoaded : bool) : bool :=
  (negb (neq o_lat nzero) || negb (neq o_lng nzero)) && (negb (neq d_lat nzero) || negb (neq d_lng nzero)) && isLoaded.

(** The service's answer: [None] unless its status is OK. *)
Definition route_answer (r : option Route) (s : MapState) : MapState :=
  match r with
  | None => s
  | Some r => mkMap (Some r) (or_ostr (rt_distance_text r) (mp_distance s)) (or_ostr (rt_duration_text r) (mp_duration s))
  end.

Definition place {A} (lat lng : num) : node A :=
  El "Marker" [Attr "lat" (num_to_string lat); Attr "lng" (num_to_string lng)] [].

Definition map_view {A} (isLoaded : bool) (o_lat o_lng d_lat d_lng : num) (o_addr d_addr : option string)
    (s : MapState) : node A :=
  tag "div" ([txt "h3" "Live Route"] ++
    when (truthy_str o_addr || truthy_str d_addr)
      [txt "span" (or_ostr o_addr "Origin"); txt "span" (or_ostr d_addr "Destination")] ++
    (if isLoaded then
       [El "GoogleMap" [Attr "lat" (num_to_string (ndiv (nadd o_lat d_lat) (of_Z 2)));
                        Attr "lng" (num_to_string (ndiv (nadd o_lng d_lng) (of_Z 2)))]
          match mp_route s with
          | Some _ => [El "DirectionsRenderer" [] []]
          | None => [place o_lat o_lng; place d_lat d_lng]
          end]
     else [txt "div" "Loading Map..."]) ++
    when (bool_decide (is_Some (mp_route s)) && truthy_str (Some (mp_distance s)) && truthy_str (Some (mp_duration s)))
      [txt "p" "Total Distance"; txt "p" (mp_distance s); txt "p" "Est. Travel Time"; txt "p" (mp_duration s);
       txt "p" "Traffic Delay"; txt "p" "Normal"]).

(** *** The page *)

Definition item_details {A} (a : Auction.t) : node A :=
  tag "div" [
    txt "h2" "Auction Item Details";
    txt "span" "Title"; txt "span" (Auction.title a);
    txt "span" "Origin"; txt "span" (or_ostr (Auction.origin_address a) "Not specified");
    txt "span" "Destination"; txt "span" (or_ostr (Auction.dest_address a) "Not specified");
    txt "span" "Pickup Date";
    txt "span" (match Auction.pickup_date a with
                | Some d => or_str (default EmptyString (head (js_split "T"%char d))) "Not specified"
                | None => "Not specified"
                end);
    txt "span" "Total Weight";
    txt "span" (match Auction.weight a with
                | Some w => if truthy_num w then num_to_string w else "N/A"
                | None => "N/A"
                end +:+ " lbs")].

Definition summary {A} (a : Auction.t) (events : list AuditEvent) : node A :=
  tag "div" [
    txt "h2" "Auction Summary";
    txt "span" "Status"; txt "span" (if bool_decide (Auction.is_closed a = Some true) then "Completed" else "Active");
    txt "span" "Total Bids";
    txt "span" (string_of_Z (Z.of_nat (length events)) +:+ " attempts · " +:+
                string_of_Z (Z.of_nat (length (acceptedEvents events))) +:+ " accepted");
    txt "span" "Winning Bid";
    txt "span" (match winningAmount events with Some x => "$" +:+ num_to_string x | None => "N/A" end);
    txt "span" "Winner ID"; txt "span" (or_ostr (Auction.winner_id a) "Pending");
    txt "span" "Seller ID"; txt "span" "System Verified Corporate"].

Definition event_row {A} (e : AuditEvent) : node A :=
  tag "tr" [
    txt "td" (toLocaleString (date (ae_processed_at e)));
    tag "td" [txt "span" (or_ostr (ae_username e) "Bidder"); txt "span" (ae_bidder_id e)];
    txt "td" ("$" +:+ locale (ae_amount e));
    txt "td" ("$" +:+ locale (ae_resulting_price e));
    txt "td" (if ae_accepted e then "Accepted" else or_ostr (ae_rejection_reason e) "Rejected");
    txt "td" ("p" +:+ string_of_Z (ae_partition e) +:+ " · o" +:+ string_of_Z (ae_offset e))].

Definition audit_table {A} (events : list AuditEvent) : node A :=
  tag "div" [
    txt "h2" "Processed Bid Audit";
    txt "p" "Accepted and rejected decisions archived from Kafka to the append-only PostgreSQL audit ledger.";
    tag "tr" (map (txt "th") ["Processed"; "Bidder"; "Amount"; "Price after"; "Decision"; "Kafka position"]);
    tag "tbody" (map event_row events ++
      when (bool_decide (events = [])) [txt "td" "No processed bid decisions were recorded."])].

Inductive report_event := Print.

Definition or_number (x : option num) (d : string) : num := match x with Some v => or_num v (Number d) | None => Number d end.

Definition winner_map (isLoaded : bool) (a : Auction.t) (m : MapState) : node report_event :=
  tag "div" [txt "h2" "Live Route Trace";
    map_view isLoaded (or_number (Auction.origin_lat a) "34.05") (or_number (Auction.origin_lng a) "-118.24")
      (or_number (Auction.dest_lat a) "51.50") (or_number (Auction.dest_lng a) "-0.12")
      (Auction.origin_address a) (Auction.dest_address a) m].

Definition bid_timeline {A} (events : list AuditEvent) (g : Graph) : node A :=
  tag "div" [txt "h2" "Bid Timeline";
    match graphData events with
    | [] => txt "div" "No bids recorded."
    | data => graph_view data g
    end].

Definition report_view (auction : option Auction.t) (events : list AuditEvent) (s : ReportState) (g : Graph)
    (isLoaded : bool) (m : MapState) : node report_event :=
  match auction with
  | None => tag "div" [txt "p" "Loading auction details..."]
  | Some a =>
      tag "main" ([
        tag "div" [link "/history" "Back to History"; txt "h1" "Auction Audit Report";
          txt "p" ("Ref ID: " +:+ Auction.id a); button Print false "Download PDF Report"];
        tag "div" [txt "h1" "Auction Audit Report"; txt "p" ("ID: " +:+ Auction.id a);
          txt "p" ("Generated: " +:+ rp_generated s)]] ++
        when (isWinner a (rp_user s))
          [tag "div" [txt "h3" "Congratulations, you won this auction!";
                      txt "p" "You are the confirmed winner for this auction."]] ++ [
        item_details a; summary a events; audit_table events;
        bid_timeline events g] ++
        when (isWinner a (rp_user s)) [winner_map isLoaded a m])
  end.
End Views.

(** ** Lemmas *)

Lemma insert_new l e :
  Forall (fun x => ae_request_id x <> ae_request_id e) l -> insert_event l e = l ++ [e].
Proof.
  intros H. unfold insert_event. destruct (existsb _ l) eqn:E; [|done].
  apply existsb_exists in E as (x & Hx & Hid). apply String.eqb_eq in Hid.
  rewrite Forall_forall in H. by destruct (H x (proj2 (list_elem_of_In _ _) Hx)).
Qed.

(** Rows of different requests are all archived, in their order. *)
Lemma archive_distinct l : NoDup (ae_request_id <$> l) -> archive l = l.
Proof.
  assert (G : forall l acc, NoDup (ae_request_id <$> (acc ++ l)) -> fold_left insert_event l acc = acc ++ l).
  { clear l. induction l as [|e l IH]; intros acc H; [by rewrite app_nil_r|]. simpl.
    rewrite insert_new; [by rewrite IH; rewrite <-app_assoc|].
    apply Forall_forall. intros x Hx Hid. rewrite fmap_app, fmap_cons in H.
    apply NoDup_app in H as (_ & Hd & _). apply (Hd (ae_request_id x)); [|rewrite Hid; by left].
    apply list_elem_of_In. rewrite <-list_elem_of_In in *. apply list_elem_of_fmap. by exists x. }
  intros H. by apply (G l []).
Qed.

Lemma audit_page_sorted l :
  StronglySorted (leP position_le) l -> report_rows l = take 500 l.
Proof. intros H. unfold report_rows, audit_page. simpl. by rewrite js_sort_id, drop_0. Qed.

(** *** The engine's log *)

(** The state of an actor that took every request once and lost no reply. *)
Record log_inv (p0 : num) (ids : list string) (a : Actor) : Prop := {
  li_live : js_filter d_executed (pending_stream (ledger a)) = live_stream (ledger a);
  li_ids : forall d, d ∈ pending_stream (ledger a) -> d_request d ∈ ids;
  li_nodup : NoDup (d_request <$> pending_stream (ledger a));
  li_processed : forall k, is_Some (processed (ledger a) !! k) -> k ∈ ids;
  li_price : match last (live_stream (ledger a)) with
             | Some d => d_amount d = rt_price (runtime a)
             | None => rt_price (runtime a) = p0
             end
}.

Definition lands (o : RedisOutcome) : bool := match o with Served | Unannounced => true | _ => false end.

Definition served_ids (queue : list (Z * RedisOutcome * AuctionTask)) : list string :=
  omap (fun q => if lands q.1.2 then Some (request_id q.2) else None) queue.

(** A served task adds its decision to the log. *)
Lemma log_inv_served p0 ids a task b price pub :
  log_inv p0 ids a -> request_id task ∉ ids ->
  let d := decision task b (rt_price (runtime a)) in
  let l := ledger a in
  price = (if b then BidRequestPayload.amount (task_bid task) else rt_price (runtime a)) ->
  log_inv p0 (ids ++ [request_id task])
    (mkActor (set_price price (runtime a))
      (mkLedger (if b then <[request_id task := d]> (processed l) else processed l)
         (if b then live_stream l ++ [d] else live_stream l) (if b then zset l ++ [d] else zset l)
         (pending_stream l ++ [d]) pub)).
Proof.
  intros [I1 I2 I3 I4 I5] Hn d l Hp. split; cbn [ledger runtime pending_stream live_stream processed rt_price set_price].
  - unfold js_filter, l in *. rewrite List.filter_app, I1. simpl. by destruct b; rewrite ?app_nil_r.
  - intros x [H| ->%list_elem_of_singleton]%elem_of_app; apply elem_of_app; [left; by apply I2|right; by left].
  - rewrite fmap_app. apply NoDup_app. split; [done|]. split; [|apply NoDup_singleton].
    intros k Hk Hk'. apply list_elem_of_fmap in Hk as (x & E & Hx). apply list_elem_of_singleton in Hk'.
    apply Hn. change (request_id task) with (d_request d). rewrite <-Hk', E. by apply I2.
  - intros k Hk. apply elem_of_app. destruct b; [|left; by apply I4].
    destruct (decide (request_id task = k)) as [<-|Hne]; [right; by left|]. left. apply I4. by simplify_map_eq.
  - destruct b; rewrite Hp; [by rewrite last_snoc|done].
Qed.

Lemma log_inv_weaken p0 ids ids' a : log_inv p0 ids a -> ids ⊆ ids' -> log_inv p0 ids' a.
Proof. intros [I1 I2 I3 I4 I5] H. split; [done| |done| |done]; intros; apply H; auto. Qed.

Lemma log_inv_step p0 ids a id o task :
  o <> ReplyLost -> (lands o = true -> request_id task ∉ ids) -> log_inv p0 ids a ->
  log_inv p0 (ids ++ if lands o then [request_id task] else []) (process_task id o task a).1.1.
Proof.
  intros Ho Hn I. unfold process_task. destruct (negb _).
  { apply (log_inv_weaken _ _ _ _ I). set_solver. }
  cbv zeta. set (b := is_better_bid _ _ _ _).
  assert (G : lands o = true -> forall pub, log_inv p0 (ids ++ [request_id task]) (mkActor
    (set_price (if b then BidRequestPayload.amount (task_bid task) else rt_price (runtime a)) (runtime a))
    (mkLedger (if b then <[request_id task := decision task b (rt_price (runtime a))]> (processed (ledger a))
               else processed (ledger a))
      (if b then live_stream (ledger a) ++ [decision task b (rt_price (runtime a))] else live_stream (ledger a))
      (if b then zset (ledger a) ++ [decision task b (rt_price (runtime a))] else zset (ledger a))
      (pending_stream (ledger a) ++ [decision task b (rt_price (runtime a))]) pub)) /\
    processed (ledger a) !! request_id task = None).
  { intros Hl pub. split; [by apply (log_inv_served p0 ids a task b _ pub I (Hn Hl))|].
    apply eq_None_not_Some. intros E. by apply (Hn Hl), (li_processed _ _ _ I). }
  unfold write_bid. destruct o; try done; cbn [lands].
  - destruct (G eq_refl (published (ledger a) ++ [decision task b (rt_price (runtime a))])) as [G1 ->].
    by destruct b, a as [[] []].
  - rewrite app_nil_r. by destruct b, a.
  - destruct (G eq_refl (published (ledger a))) as [G1 ->]. by destruct b, a as [[] []].
Qed.

Lemma log_inv_run p0 id queue ids a :
  Forall (fun q => q.1.2 <> ReplyLost) queue -> NoDup (ids ++ served_ids queue) -> log_inv p0 ids a ->
  log_inv p0 (ids ++ served_ids queue) (run_actor_loop id queue a).1.
Proof.
  revert ids a. induction queue as [|[[now o] task] queue IH]; intros ids a Hq Hd I; [by rewrite app_nil_r|].
  inversion Hq as [|? ? Ho Hq']; subst. simpl in Ho. cbn [run_actor_loop].
  destruct (rt_end _ <=? now); [apply (log_inv_weaken _ _ _ _ I); set_solver|].
  assert (Hs : served_ids ((now, o, task) :: queue) =
               (if lands o then [request_id task] else []) ++ served_ids queue) by by destruct o.
  rewrite Hs, app_assoc in Hd |- *.
  pose proof (log_inv_step p0 ids a id o task Ho) as St.
  destruct (process_task id o task a) as [[a1 res] w]. simpl in St.
  specialize (IH (ids ++ (if lands o then [request_id task] else [])) a1 Hq' Hd).
  destruct (run_actor_loop id queue a1) as [a2 rs]. simpl in *. apply IH, St; [|done].
  intros E. rewrite E in Hd. apply NoDup_app in Hd as [Hd _]. apply NoDup_app in Hd as (_ & Hd & _).
  intros Hin. apply (Hd _ Hin). by left.
Qed.

Section Joined.
(** What the decision's row gets besides the decision: its place in the bid topic,
    the texts of its times, the reason of a rejection. *)
Context (place : Decision -> Z * Z) (submitted processed_at : Decision -> string) (reason : Decision -> option string).

(** [to_new_bid_audit_event]. *)
Definition audit_row (d : Decision) : AuditEvent :=
  let b := d_bid d in
  mkAudit (d_request d) (BidRequestPayload.bidder_id b) (BidRequestPayload.username b) (BidRequestPayload.amount b)
    (d_executed d) (reason d) (d_previous d) (d_resulting d) (submitted d) (processed_at d) (place d).1 (place d).2.

(** The log of an actor's decisions. *)
Definition audit_log (a : Actor) : list AuditEvent := archive (audit_row <$> pending_stream (ledger a)).

Lemma accepted_rows l : acceptedEvents (audit_row <$> l) = audit_row <$> js_filter d_executed l.
Proof.
  unfold acceptedEvents, js_filter. induction l as [|d l IH]; [done|]. csimpl.
  rewrite IH. by destruct (d_executed d).
Qed.

(** ** Properties *)

End Joined.

(** of a longer log the report reads the first 500 decisions only: whatever was
    decided after them, the winning bid, the counts and the graph stay as they were. *)
Theorem report_stops_at_500 before after :
  StronglySorted (leP position_le) (before ++ after) -> length before = 500%nat ->
  report_rows (before ++ after) = before /\
  winningAmount (report_rows (before ++ after)) = winningAmount before /\
  graphData (report_rows (before ++ after)) = graphData before.
Proof.
  intros Hs Hl. rewrite audit_page_sorted by done. by rewrite take_app_le, take_ge by lia.
Qed.

(** The visitor's identity is unknown until the first effect, and a missing winner
    equals a missing identity: every closed auction without a winner congratulates
    the visitor first. *)
Theorem no_winner_congratulates a stored now_text :
  Auction.is_closed a = Some true -> Auction.winner_id a = None ->
  isWinner a (rp_user report0) = true /\
  isWinner a (rp_user (report_effect stored now_text report0)) = bool_decide (stored = None).
Proof.
  intros Hc Hw. unfold isWinner. rewrite Hc, Hw. split; [done|]. simpl.
  apply bool_decide_ext. split; intros; congruence.
Qed.

(** Coordinates that are missing or zero are replaced, so the map of a report always
    has a route to ask for. *)
Theorem report_always_asks_route isLoaded a :
  asks_route (or_number (Auction.origin_lat a) "34.05") (or_number (Auction.origin_lng a) "-118.24")
    (or_number (Auction.dest_lat a) "51.50") (or_number (Auction.dest_lng a) "-0.12") isLoaded = isLoaded.
Proof.
  assert (T : forall v, truthy_num v = true -> neq v nzero = false) by (by intros [[]|[]| |[] m e]).
  assert (H : forall x d, truthy_num (Number d) = true -> neq (or_number x d) nzero = false).
  { intros [v|] d Hd; simpl; [|by apply T]. unfold or_num. destruct (truthy_num v) eqn:E; by apply T. }
  unfold asks_route. by rewrite !H by (vm_compute; reflexivity).
Qed.

(** ** Witnesses *)
Definition sample_place (d : Decision) : Z * Z := (0, BidRequestPayload.timestamp (d_bid d)).
Definition no_text (_ : Decision) : string := EmptyString.
Definition no_reason (_ : Decision) : option string := None.


Definition row_at (k : Z) (amount : Z) : AuditEvent :=
  mkAudit (string_of_Z k) "u" None (of_Z amount) true None (of_Z 0) (of_Z amount) EmptyString EmptyString 0 k.

Lemma report_stops_at_500_witness :
  let before := map (fun k => row_at (Z.of_nat k) (1000 - Z.of_nat k)) (seq 0 500) in
  winningAmount (report_rows (before ++ [row_at 500 1])) = winningAmount before /\
  winningAmount before = Some (of_Z 501).
Proof.
  split; [|vm_compute; reflexivity].
  apply (report_stops_at_500 (map (fun k => row_at (Z.of_nat k) (1000 - Z.of_nat k)) (seq 0 500)) [row_at 500 1]).
  - apply sorted_check. vm_compute. reflexivity.
  - reflexivity.
Defined.
