(* ===== verification/BidPath.v ===== *)
(** * The way of a bid ([ws-server], [grpc], [auction-engine/src/consumer.rs])

    What happens to a bid between the console that sends it and the page that is
    told the outcome: the connection's authorization, the ingestion service with
    its checks, the partition worker that retries until the actor has answered,
    and the broadcast back.  The theorems follow one bid around this circle, and
    say what is left on the page when the circle is broken. *)

From S2P Require Import Prelude JSNum JSRound ApiTypes AuctionSlice SocketContext AuctionSocket Engine BiddingConsole.
#[local] Open Scope Z_scope.
#[local] Open Scope aqua_scope.

(** ** The connection ([auth.rs], [main.rs]) *)

Record BidSession := mkBidSession {
  bs_auction_id : string;
  bs_user_id : string;
  bs_token_expires_at_ms : Z;
  bs_is_participant : bool;
  bs_is_completed : bool;
  bs_starts_at_ms : Z;
  bs_ends_at_ms : Z
}.

Definition authorize (b : BidSession) (auction_id bidder_id : string) (now_ms : Z) : result unit :=
  if String.eqb (bs_user_id b) EmptyString || (bs_token_expires_at_ms b <=? now_ms)
  then Throw "Authentication expired. Reconnect before bidding."
  else if negb (String.eqb auction_id (bs_auction_id b)) || negb (String.eqb bidder_id (bs_user_id b))
  then Throw "Bid identity does not match this auction connection."
  else if negb (bs_is_participant b) then Throw "You are not a participant in this auction."
  else if bs_is_completed b || (bs_ends_at_ms b <=? 0) || (bs_ends_at_ms b <=? now_ms)
  then Throw "Auction has ended."
  else if now_ms <? bs_starts_at_ms b then Throw "Auction has not started."
  else Ok tt.

(** The request of the ingestion service; an empty text is an absent one. *)
Record PlaceBidRequest := mkPlace {
  pb_auction_id : string;
  pb_user_id : string;
  pb_username : string;
  pb_bid : num;
  pb_bid_time : Z;
  pb_request_id : string
}.

Definition i64_max : Z := 9223372036854775807.

(** Seconds are recognised by their size. *)
Definition bid_timestamp_ms (now bid_time : Z) : Z :=
  if bid_time <=? 0 then now
  else if bid_time <? 1000000000000 then Z.min i64_max (bid_time * 1000)
  else bid_time.

(** What the socket is told. *)
Inductive socket_reply :=
| ErrorReply (msg : string)
| QueuedReply (amount : num).

(** How the call to the ingestion service ends. *)
Inductive GrpcCall := Unreachable | ReplyMissing (arrived : bool) | Answered.

Definition pipeline_error : string := "Failed to contact gRPC publisher pipeline.".

Section Ingestion.
(** [Uuid::parse_str] followed by [to_string]: the canonical text of an
    identifier, or the parser's message. *)
Context (uuid : string -> result string).

Definition named (prefix : string) (r : result string) : result string :=
  match r with Ok x => Ok x | Throw e => Throw (prefix +:+ e) end.

(** [publish_bid]; [kafka] is the broker's answer, [fresh] a new identifier. *)
Definition publish_bid (now : Z) (fresh : string) (kafka : result unit) (req : PlaceBidRequest) :
    result AuctionTask :=
  if String.eqb (pb_auction_id req) EmptyString then Throw "Auction ID cannot be empty"
  else if String.eqb (pb_user_id req) EmptyString then Throw "User ID cannot be empty"
  else if negb (is_finite (pb_bid req)) || nle (pb_bid req) nzero
  then Throw "Bid amount must be finite and greater than zero"
  else
    let* auction_uuid := named "Invalid auction UUID format: " (uuid (pb_auction_id req)) in
    let* bidder_uuid := named "Invalid user UUID format: " (uuid (pb_user_id req)) in
    let* request_id :=
      (if String.eqb (pb_request_id req) EmptyString then Ok fresh
       else named "Invalid request UUID format: " (uuid (pb_request_id req))) in
    match kafka with
    | Throw e => Throw ("Kafka publish failed: " +:+ e)
    | Ok _ =>
        Ok (mkTask request_id
              (BidRequestPayload.mk auction_uuid bidder_uuid (or_null (pb_username req)) (pb_bid req)
                 (bid_timestamp_ms now (pb_bid_time req))))
    end.

(** The handler of [place_bid]: what reaches the broker, and the reply.  [t1] and
    [t2] are the readings of the clock; the page sends no request identifier. *)
Definition on_place_bid (session : BidSession) (t1 t2 : Z) (fresh fresh' : string) (call : GrpcCall)
    (kafka : result unit) (inbound : BidRequestPayload.t) : option AuctionTask * socket_reply :=
  match authorize session (BidRequestPayload.auction_id inbound) (BidRequestPayload.bidder_id inbound) t1 with
  | Throw e => (None, ErrorReply e)
  | Ok _ =>
      let req := mkPlace (BidRequestPayload.auction_id inbound) (BidRequestPayload.bidder_id inbound)
                   (default EmptyString (BidRequestPayload.username inbound))
                   (BidRequestPayload.amount inbound) t2 fresh in
      let published := publish_bid t2 fresh' kafka req in
      match call with
      | Unreachable => (None, ErrorReply pipeline_error)
      | ReplyMissing arrived =>
          (match published with Ok task => if arrived then Some task else None | Throw _ => None end,
           ErrorReply pipeline_error)
      | Answered =>
          match published with
          | Ok task => (Some task, QueuedReply (BidRequestPayload.amount inbound))
          | Throw e => (None, ErrorReply ("Bid rejected: " +:+ e))
          end
      end
  end.
End Ingestion.

(** ** The partition worker ([consumer.rs])

    A task is given to the actor until it is committed or rejected; [outcomes] is
    how Redis serves the attempts, [None] as a result means that it is still
    being retried. *)
Fixpoint deliver (auction_id : string) (outcomes : list RedisOutcome) (task : AuctionTask) (a : Actor) :
    Actor * option AuctionTaskResult :=
  match outcomes with
  | [] => (a, None)
  | o :: rest =>
      let '(a1, res, _) := process_task auction_id o task a in
      match res with
      | Retryable => deliver auction_id rest task a1
      | _ => (a1, Some res)
      end
  end.

(** An amount that is not a price goes to the dead-letter topic instead. *)
Definition worker (auction_id : string) (outcomes : list RedisOutcome) (task : AuctionTask) (a : Actor) :
    Actor * option AuctionTaskResult :=
  let amount := BidRequestPayload.amount (task_bid task) in
  if is_finite amount && nlt nzero amount then deliver auction_id outcomes task a
  else (a, Some (TaskRejected "INVALID_BID_AMOUNT")).

(** ** The page's end *)

(** What a submission dispatches and sends. *)
Definition stored (now : Z) (effects : list console_effect) (s : AuctionState) : AuctionState :=
  dispatch_all now (omap (fun e => match e with Store a => Some a | EmitBid _ _ => None end) effects) s.

Definition emitted (effects : list console_effect) : list (string * BidRequestPayload.t) :=
  omap (fun e => match e with EmitBid a (place_bid m) => Some (a, m) | Store _ => None end) effects.

(** The console hears an error; [info] is only logged. *)
Definition on_reply (r : socket_reply) (c : Console) : Console :=
  match r with ErrorReply msg => on_socket_error (Some msg) c | QueuedReply _ => c end.

(** ** Lemmas *)

Lemma authorize_ok b auction_id bidder_id now :
  authorize b auction_id bidder_id now = Ok tt <->
  bs_user_id b <> EmptyString /\ now < bs_token_expires_at_ms b /\
  auction_id = bs_auction_id b /\ bidder_id = bs_user_id b /\ bs_is_participant b = true /\
  bs_is_completed b = false /\ 0 < bs_ends_at_ms b /\ bs_starts_at_ms b <= now < bs_ends_at_ms b.
Proof.
  unfold authorize.
  destruct (String.eqb_spec (bs_user_id b) EmptyString), (String.eqb_spec auction_id (bs_auction_id b)),
    (String.eqb_spec bidder_id (bs_user_id b)), (bs_is_participant b), (bs_is_completed b);
    simpl; case_tests; bool_facts; split; intros Hb; try done; intuition (congruence || lia || auto).
Qed.

(** Redis refuses some attempts and then serves one: the refusals leave no trace. *)
Lemma deliver_refused id n rest task a :
  BidRequestPayload.auction_id (task_bid task) = id ->
  deliver id (replicate n Refused ++ rest) task a = deliver id rest task a.
Proof.
  intros Hid. induction n as [|n IH]; [done|]. simpl. unfold process_task at 1.
  rewrite bool_decide_eq_true_2 by done. simpl. rewrite <-IH. by destruct a.
Qed.

(** A new request that Redis serves: it is decided once, and the pages are told. *)
Lemma deliver_served id task a :
  BidRequestPayload.auction_id (task_bid task) = id ->
  processed (ledger a) !! request_id task = None ->
  let r := runtime a in
  let amount := BidRequestPayload.amount (task_bid task) in
  let ok := is_better_bid (rt_type r) (rt_price r) amount (rt_step r) in
  let '(a', res) := deliver id [Served] task a in
  res = Some Committed /\ runtime a' = (if ok then set_price amount r else r) /\
  published (ledger a') = published (ledger a) ++ [decision task ok (rt_price r)].
Proof.
  intros Hid Hn r amount ok. unfold deliver, process_task. rewrite bool_decide_eq_true_2 by done.
  simpl. fold r. fold amount. fold ok. unfold write_bid. rewrite Hn. by destruct ok.
Qed.

(** The leading price once an accepted bid has joined a list of bids whose leading
    price was [cur]. *)
Lemma accepted_leads s b l cur :
  finite_bids l -> is_finite cur = true -> is_finite (bid_amount b) = true -> not_rejected b = true ->
  price_eq (leading_price s l) (Some cur) -> better (auctionType s) cur (bid_amount b) = false ->
  price_eq (leading_price s (b :: l)) (Some (bid_amount b)).
Proof.
  intros Hf Fc Fb Hn He Hb.
  assert (Hf' : finite_bids (b :: l)) by (by constructor).
  destruct (leading_price_spec s (b :: l) Hf') as [[Hr _]|(x & Hx & ->)].
  { inversion Hr; subst. congruence. }
  simpl. apply (leads_unique (auctionType s) (b :: l)); [done|done|].
  split; [left|]. split; [done|].
  intros y [->|Hy]%elem_of_cons Hny; [by apply better_irrefl|].
  destruct (leading_price_spec s l Hf) as [[Hr _]|(z & (Hz & Hnz & Hbest) & Ez)].
  { rewrite Forall_forall in Hr. by rewrite (Hr y Hy) in Hny. }
  rewrite Ez in He. simpl in He.
  assert (Fz : is_finite (bid_amount z) = true) by (by eapply (proj1 (Forall_forall _ _) Hf)).
  assert (Fy : is_finite (bid_amount y) = true) by (by eapply (proj1 (Forall_forall _ _) Hf)).
  eapply better_trans; [exact Fy|exact Fc|exact Fb| |done].
  eapply better_trans; [exact Fy|exact Fz|exact Fc|by apply Hbest|].
  destruct (auctionType s); simpl; num_order.
Qed.

(** The page and the engine agree on an auction, and the page waits for nothing. *)
Record in_agreement (id : string) (s : AuctionState) (a : Actor) : Prop := {
  ag_id : auctionId s = Some id;
  ag_named : id <> EmptyString;
  ag_type : auctionType s = rt_type (runtime a);
  ag_step : minimumBidStep s = rt_step (runtime a);
  ag_price : price_eq (currentPrice s) (Some (rt_price (runtime a)));
  ag_leading : price_eq (leading_price s (bids s)) (Some (rt_price (runtime a)));
  ag_settled : no_pending (bids s);
  ag_wf : wf s;
  ag_price_ok : price_ok (rt_price (runtime a));
  ag_step_ok : valid (rt_step (runtime a)) = true
}.

Section OneBid.
Context (id : string) (s : AuctionState) (a a' : Actor) (b : Bid) (p : ReconcilePayload).
Let ok := is_better_bid (rt_type (runtime a)) (rt_price (runtime a)) (bid_amount b) (rt_step (runtime a)).
Context (Hag : in_agreement id s a) (Hb : is_pending b = true) (Hf : is_finite (bid_amount b) = true)
  (Hv : valid (bid_amount b) = true)
  (Hi : bid_id b ∉ ids (bids s)) (Hp : rp_amount p = bid_amount b) (Hok : rp_accepted p = ok)
  (Hk : rp_key p ∉ ids (b :: bids s)) (Ht : truthy_str (rp_id p) = true)
  (Hr : runtime a' = if ok then set_price (bid_amount b) (runtime a) else runtime a).

(** The engine's answer to the page's own bid restores the agreement. *)
Lemma agreement_restored fresh :
  let s' := reconcileBid fresh p (addOptimisticBid b s) in
  in_agreement id s' a' /\
  ledger_of (bids s') = <[bid_id b := bid_of (bid_id b) p]> (ledger_of (bids s)).
Proof.
  intros s'. destruct Hag as [A1 A2 A3 A4 A5 A6 A7 [Wn Wf Wc Ws] A8 A9].
  assert (Hneq : neq (bid_amount b) (rp_amount p) = true) by (rewrite Hp; eauto with aqua).
  pose proof (settled_bids fresh b p s Hb Hneq Hk Ht) as P. fold s' in P.
  assert (W' : wf s').
  { apply wf_reconcile; [|by rewrite Hp|by apply fresh_ok_truthy].
    split; simpl; [by constructor|by constructor| |done].
    destruct (currentPrice s) as [q|]; [|done]. by destruct (better _ _ _). }
  assert (L : price_eq (leading_price s' (bids s')) (Some (rt_price (runtime a')))).
  { transitivity (leading_price s (bid_of (bid_id b) p :: bids s)).
    { apply leading_price_perm; [done|done|done|apply W'|done]. }
    rewrite Hr. destruct ok eqn:E; subst ok.
    - rewrite <-Hp. apply (accepted_leads s (bid_of (bid_id b) p) (bids s) (rt_price (runtime a))).
      + done.
      + apply A8.
      + simpl. by rewrite Hp.
      + by rewrite not_rejected_bid_of, Hok.
      + done.
      + simpl. rewrite Hp, A3. by eapply accepted_improves.
    - rewrite leading_price_drop; [done|by rewrite not_rejected_bid_of, Hok]. }
  split.
  - split; try done; try (rewrite Hr; by destruct ok).
    + unfold no_pending. rewrite P. constructor; [apply is_pending_bid_of|done].
    + rewrite Hr. destruct ok eqn:E; [|done]. subst ok. simpl.
      pose proof (accepted_finite _ _ _ _ E) as (_ & Pa & _). split; [done|done|num_order].
  - rewrite (ledger_perm _ _ (wf_ids _ W') P). done.
Qed.
End OneBid.

(** An authorized bid with identifiers that are canonical reaches the broker. *)
Lemma place_bid_arrives uuid session t1 t2 fresh fresh' id user name amount stamp :
  authorize session id user t1 = Ok tt -> id <> EmptyString -> fresh <> EmptyString ->
  uuid id = Ok id -> uuid user = Ok user -> uuid fresh = Ok fresh ->
  is_finite amount = true -> nlt nzero amount = true ->
  on_place_bid uuid session t1 t2 fresh fresh' Answered (Ok tt)
    (BidRequestPayload.mk id user (stored_name name) amount stamp) =
  (Some (mkTask fresh (BidRequestPayload.mk id user (stored_name name) amount (bid_timestamp_ms t2 t2))),
   QueuedReply amount).
Proof.
  intros Ha Hid Hfr Ui Uu Uf Ff Pf. unfold on_place_bid. simpl. rewrite Ha.
  pose proof (proj1 (authorize_ok _ _ _ _) Ha) as (Hne & _ & _ & -> & _).
  unfold publish_bid. simpl. rewrite !(proj2 (String.eqb_neq _ _)) by done. simpl. rewrite Ff.
  assert (E : nle amount nzero = false) by num_order. rewrite E, Ui, Uu, Uf. simpl.
  by destruct name as [[|c n]|].
Qed.

(** *** A bid that nothing answers *)

(** The actions that do not concern a bid: no new snapshot, no event under its
    identifier or with its amount. *)
Definition unrelated (b : Bid) (a : action) : Prop :=
  match a with
  | InitAuction _ => False
  | ReconcileBid p =>
      is_finite (rp_amount p) = true /\ rp_key p <> bid_id b /\ neq (bid_amount b) (rp_amount p) = false
  | AddOptimisticBid b' => is_finite (bid_amount b') = true
  | _ => True
  end.

(** The bid still waits in the list, and the price is at least as good. *)
Record waits_in (b : Bid) (s : AuctionState) : Prop := {
  wi_in : b ∈ bids s;
  wi_finite : finite_bids (bids s);
  wi_price : exists q, currentPrice s = Some q /\ is_finite q = true /\ better (auctionType s) (bid_amount b) q = false
}.

Lemma elem_insert_other {A} (x y old : A) (l : list A) i :
  x ∈ l -> l !! i = Some old -> x <> old -> x ∈ <[i := y]> l.
Proof.
  intros [j Hj]%list_elem_of_lookup Hi Hne. apply list_elem_of_lookup. exists j.
  rewrite list_lookup_insert_ne; [done|]. intros ->. congruence.
Qed.

Lemma apply_event_keeps fresh p b l :
  b ∈ l -> rp_key p <> bid_id b -> neq (bid_amount b) (rp_amount p) = false -> b ∈ apply_event fresh p l.
Proof.
  intros Hb Hk Ha. unfold apply_event. destruct (match_index p l) as [i|] eqn:E; [|by right].
  destruct (l !! i) as [old|] eqn:Eo; [|done]. apply (elem_insert_other b _ old); [done|done|].
  intros <-. unfold match_index in E.
  destruct (if truthy_str (rp_id p) then _ else None) as [j|] eqn:Ej.
  - destruct (truthy_str (rp_id p)); [|done]. apply find_index_Some in Ej as (x & Hx & Hp & _).
    injection E as ->. assert (x = b) as -> by congruence. apply bool_decide_eq_true in Hp. apply Hk. unfold rp_key. rewrite <-Hp. simpl.
    by destruct (bid_id b).
  - apply find_index_Some in E as (x & Hx & Hp & _). assert (x = b) as -> by congruence. rewrite Ha, andb_false_r in Hp. done.
Qed.

Lemma waits_step now fresh b s a :
  not_rejected b = true -> is_finite (bid_amount b) = true -> unrelated b a -> waits_in b s ->
  waits_in b (reducer now fresh s a).
Proof.
  intros Hn Hf Hu [Hi Hfin (q & Hq & Fq & Hb)]. destruct a as [p| |x|z|b'|p|]; simpl in *; try done;
    try (split; simpl; by eauto).
  - unfold updateAuctionStatus. destruct (truthy_time _); [|by split; eauto].
    destruct (truthy_time _); split; simpl; eauto.
  - split; simpl; [by right|by constructor|]. rewrite Hq. destruct (better _ (bid_amount b') q) eqn:E; [|eauto].
    exists (bid_amount b'). split; [done|]. split; [done|].
    destruct (auctionType s); simpl in *; num_order.
  - destruct Hu as (Fp & Hk & Ha).
    assert (Hl : finite_bids (bids (reconcileBid fresh p s))) by (by apply reconcile_bids_Forall).
    assert (Hin : b ∈ bids (reconcileBid fresh p s))
      by (rewrite reconcile_bids_perm; by apply apply_event_keeps).
    split; [done|done|].
    change (currentPrice (reconcileBid fresh p s)) with (leading_price s (bids (reconcileBid fresh p s))).
    destruct (leading_price_spec s _ Hl) as [[Hr _]|(x & (Hx & _ & Hbest) & ->)].
    + rewrite Forall_forall in Hr. by rewrite (Hr b Hin) in Hn.
    + exists (bid_amount x). split; [done|]. split; [|by apply Hbest].
      by eapply (proj1 (Forall_forall _ _) Hl).
Qed.

(** The slice after dispatches with their clock readings and random texts. *)
Definition slice_run (acts : list (Z * string * action)) (s : AuctionState) : AuctionState :=
  fold_left (fun s x => reducer x.1.1 x.1.2 s x.2) acts s.

Lemma waits_run b acts s :
  not_rejected b = true -> is_finite (bid_amount b) = true -> Forall (fun x => unrelated b x.2) acts ->
  waits_in b s -> waits_in b (slice_run acts s).
Proof.
  intros Hn Hf. apply fold_left_inv. intros s' x Hu. by apply waits_step.
Qed.

Lemma waits_now b s : finite_bids (bids s) -> finite_price (currentPrice s) ->
  is_finite (bid_amount b) = true -> waits_in b (addOptimisticBid b s).
Proof.
  intros Hf Hc Hb. split; simpl; [left|by constructor|].
  destruct (currentPrice s) as [p|]; simpl in *.
  - destruct (better _ _ p) eqn:E; eexists; repeat split; eauto. by apply better_irrefl.
  - eexists. split; [done|]. split; [done|]. by apply better_irrefl.
Qed.

(** ** Properties *)


(** C37: a bid that does not reach the broker, because the connection refuses it
    or the ingestion service does, is answered by an error.  The page shows the
    error and nothing else: until the auction is sent anew, or a decision with
    that very amount arrives, the bid stays in the list as pending and the price
    shown is the refused amount or a better one. *)
Theorem refused_bid_keeps_leading uuid session t1 t2 fresh fresh' call kafka b s c now id m acts :
  wf s -> emitted (submit b s c).2 = [(id, m)] ->
  (on_place_bid uuid session t1 t2 fresh fresh' call kafka m).1 = None ->
  let bid := mkBid (br_uuid b) (Number (bidAmount c)) You (br_now1 b) pending in
  Forall (fun x => unrelated bid x.2) acts ->
  let '(c', effects) := submit b s c in
  let s' := slice_run acts (stored now effects s) in
  (exists msg, on_reply (on_place_bid uuid session t1 t2 fresh fresh' call kafka m).2 c' =
               mkConsole EmptyString (Some (msg, ToastError))) /\
  bid ∈ bids s' /\
  exists price, currentPrice s' = Some price /\ better (auctionType s') (bid_amount bid) price = false.
Proof.
  intros W He Hn bid Hu.
  assert (Hsub : submit b s c = (mkConsole EmptyString (toast c),
    [Store (AddOptimisticBid bid); EmitBid id (place_bid m)]) /\ is_finite (bid_amount bid) = true).
  { revert He. unfold submit. destruct (canBid s); [|done]. destruct (if truthy_str _ then _ else _); [|done].
    destruct (bad_amount _) eqn:Hb; [done|]. apply bad_amount_false in Hb as [Hf _].
    destruct (breaks_step _ _); [done|]. simpl. by intros [= -> ->]. }
  destruct Hsub as [-> Hf].
  assert (Hw : waits_in bid (slice_run acts (stored now [Store (AddOptimisticBid bid); EmitBid id (place_bid m)] s))).
  { apply waits_run; [done|done|done|]. apply waits_now; [apply W..|done]. }
  destruct Hw as [Hi _ (q & Hq & _ & Hb)]. split; [|eauto].
  unfold on_place_bid in *. destruct (authorize _ _ _ _); [|eexists; reflexivity].
  destruct call as [|[]|]; try (eexists; reflexivity).
  destruct (publish_bid _ _ _ _ _); [done|eexists; reflexivity].
Qed.

(** ** Witnesses: the reverse auction of the engine's witnesses, after its opening *)
Definition parse_same (s : string) : result string := Ok s.
Definition sample_session (who : string) : BidSession := mkBidSession "a1" who 9000 true false 1 1000.
Definition sample_page : AuctionState :=
  mkState (Some "a1") [] (Some (of_Z 120)) (Some (of_Z 120)) REVERSE (of_Z 5) true 0 (Some 1) (Some 1000) active true.
Definition sample_browser (who : option string) : Browser := mkBrowser "c1" 50 51 who (Some "Ann").
Definition typed (text : string) : Console := mkConsole text None.

Lemma sample_agreement : in_agreement "a1" sample_page sample_actor.
Proof. split; try done; by repeat constructor. Qed.


(** A browser without a stored user: the console sends "AnonymousUser", which no
    connection is for. *)
Lemma refused_bid_keeps_leading_witness :
  let '(c', effects) := submit (sample_browser None) sample_page (typed "110") in
  let s' := slice_run [(60, "x", UpdateAuctionStatus);
                       (70, "y", ReconcileBid (mkRec (Some "e1") true (of_Z 115) "Bob" 65))] (stored 60 effects sample_page) in
  (exists b, b ∈ bids s' /\ bid_status b = pending) /\ exists price, currentPrice s' = Some price.
Proof.
  assert (W : wf sample_page) by (by repeat constructor).
  pose proof (refused_bid_keeps_leading parse_same (sample_session "u1") 52 53 "r1" "r2" Answered (Ok tt)
    (sample_browser None) sample_page (typed "110") 60 "a1"
    (BidRequestPayload.mk "a1" "AnonymousUser" (Some "Ann") (of_Z 110) 51)
    [(60, "x", UpdateAuctionStatus); (70, "y", ReconcileBid (mkRec (Some "e1") true (of_Z 115) "Bob" 65))]
    W ltac:(vm_compute; reflexivity) ltac:(vm_compute; reflexivity)
    ltac:(repeat constructor; try done; vm_compute; reflexivity)) as H.
  destruct (submit _ _ _) as [c' effects]. destruct H as (_ & Hin & price & Hp & _).
  split; [by eexists|by exists price].
Defined.
