(* ===== verification/EngineLife.v ===== *)
(** * The engine around its loop ([auction-engine/src/actor], [ws-server/src/auth.rs])

    What the actor of an auction is started from and restarted from, what the
    socket server tells a page from the same document, how an auction is closed,
    and the publisher that moves the decisions to the audit topic.  The readings of
    a start and of a close may fail, as the source lets them: a failed one is taken
    for an empty one.  The theorems: a restart that can read the bids recovers the
    best price whatever Redis did before it; a close that can read them announces the
    best; the publisher of a living actor comes to rest with everything archived once,
    as long as no reply was lost, and the end of the actor takes it away. *)

From Stdlib Require Import SpecFloat.
From S2P Require Import Prelude JSNum JSRound JSText ApiTypes AuctionSlice SocketContext AuctionSocket.
From S2P Require Import Engine BiddingConsole BidPath Report.
#[local] Open Scope Z_scope.

(** ** The document of an auction

    The parts of the JSON document that the two servers read; a field that is
    missing or of another type is [None]. *)
Record StateRecord := mkStateRecord {
  sr_starting_price : option num;
  sr_start_time : option string;
  sr_end_time : option string;
  sr_auction_type : option string;
  sr_minimum_bid_step : option num;
  sr_reserve_price : option num;
  sr_status : option string
}.

Record StateDoc := mkStateDoc {
  sd_auction : option StateRecord;
  sd_shipment : option StateRecord;
  sd_config : option StateRecord;
  sd_schedule_start : option string;
  sd_winner : option Decision
}.

Definition or_else {A} (x y : option A) : option A := match x with Some _ => x | None => y end.

(** [and_then]. *)
Definition also {A B} (x : option A) (f : A -> option B) : option B :=
  match x with Some v => f v | None => None end.

Definition keep {A} (p : A -> bool) (x : option A) : option A :=
  match x with Some v => if p v then x else None | None => None end.

(** [to_ascii_uppercase() == "FORWARD"]. *)
Definition is_forward (t : option string) : bool := String.eqb (to_upper (default "REVERSE" t)) "FORWARD".

Definition step_of (c : StateRecord) : num :=
  default (of_Z 1) (keep (fun v => is_finite v && nlt nzero v) (sr_minimum_bid_step c)).

(** [state.get("config").or_else(|| state.get("auction").filter(...))]. *)
Definition config_of (d : StateDoc) : option StateRecord :=
  or_else (sd_config d) (keep (fun a => bool_decide (is_Some (sr_auction_type a))) (sd_auction d)).

Section Hydration.
(** The timestamp parser of the time library, after the trailing [Z] was cut. *)
Context (read_time : string -> option Z).
(** Redis' first member in the auction's order. *)
Context (zfirst : AuctionDirection -> list Decision -> option Decision).

(** [f64::MAX]. *)
Definition f64_max : num := S754_finite false 9007199254740991 971.

Definition direction_of (c : option StateRecord) : AuctionDirection :=
  match c with Some c => if is_forward (sr_auction_type c) then FORWARD else REVERSE | None => REVERSE end.

(** Which of the three readings of a start Redis answers: the auction's own key, the
    common hash, the first member of the sorted set.  A reading that failed is taken
    for an empty answer; without a connection the start panics, and is tried again. *)
Record StartReads := mkReads { own_read : bool; shared_read : bool; best_read : bool }.

(** The document that a start finds: [own] is the one under the auction's own key,
    [shared] the one in the common hash. *)
Definition state_read (rd : StartReads) (own shared : option StateDoc) : option StateDoc :=
  or_else (if own_read rd then own else None) (if shared_read rd then shared else None).

Definition load_runtime (now : Z) (rd : StartReads) (own shared : option StateDoc) (l : Ledger) : AuctionRuntime :=
  let state := state_read rd own shared in
  let record := also state (fun d => or_else (sd_auction d) (sd_shipment d)) in
  let config := also state (fun d => or_else (config_of d) record) in
  let ty := direction_of config in
  let start := default f64_max (also record sr_starting_price) in
  mkRuntime ty
    (match (if best_read rd then zfirst ty (zset l) else None) with
     | Some d => BidRequestPayload.amount (d_bid d)
     | None => start
     end)
    (match config with Some c => step_of c | None => of_Z 1 end)
    (also config (fun c => keep (fun v => is_finite v && nle nzero v) (sr_reserve_price c)))
    (default (now + 180000) (also (also record sr_end_time) read_time)).

(** A panic loses the actor's runtime; the supervisor starts it again from Redis. *)
Definition restart (now : Z) (rd : StartReads) (own shared : option StateDoc) (a : Actor) : Actor :=
  mkActor (load_runtime now rd own shared (ledger a)) (ledger a).

Inductive life_event := Task (o : RedisOutcome) (task : AuctionTask) | Crash (now : Z) (rd : StartReads).

Definition life_step (id : string) (doc : StateDoc) (a : Actor) (e : life_event) : Actor :=
  match e with
  | Task o task => (process_task id o task a).1.1
  | Crash now rd => restart now rd (Some doc) (Some doc) a
  end.

Definition life_run (id : string) (doc : StateDoc) (es : list life_event) (a : Actor) : Actor :=
  fold_left (life_step id doc) es a.

(** ** What the socket server reads ([validate_auction_state]) *)
Record Validation := mkValidation {
  va_is_completed : bool;
  va_start_ms : Z;
  va_end_ms : Z;
  va_starting_price : option num;
  va_auction_type : string;
  va_minimum_bid_step : num;
  va_winner : option Decision
}.

Definition validate_auction_state (now : Z) (state : option StateDoc) : result Validation :=
  match state with
  | None => Throw "Auction has ended or does not exist"
  | Some d =>
      let record := or_else (sd_auction d) (sd_shipment d) in
      let fin := also (also record sr_end_time) read_time in
      Ok (mkValidation
        (bool_decide (also record sr_status = Some "Completed") ||
         match fin with Some t => t <=? now | None => false end)
        (default (default 0 (also (sd_schedule_start d) read_time)) (also (also record sr_start_time) read_time))
        (default 0 fin)
        (also record sr_starting_price)
        (match config_of d with Some c => to_upper (default "REVERSE" (sr_auction_type c)) | None => "REVERSE" end)
        (match config_of d with Some c => step_of c | None => of_Z 1 end)
        (sd_winner d))
  end.

(** The session a connection is given. *)
Definition session_of (id user : string) (expires : Z) (participant : bool) (v : Validation) : BidSession :=
  mkBidSession id user expires participant (va_is_completed v) (va_start_ms v) (va_end_ms v).

(** The snapshot it sends; [leaders] and [recent] come from Redis. *)
Definition auction_init_of (id : string) (v : Validation) (leaders recent : list BidEventPayload.t)
    (participant : bool) : AuctionInitPayload.t :=
  AuctionInitPayload.mk id
    (Some (if String.eqb (va_auction_type v) "FORWARD" then FORWARD else REVERSE))
    (Some (va_minimum_bid_step v)) (Some (map Some leaders)) (Some (map Some leaders)) (Some (map Some recent))
    (va_start_ms v) (va_end_ms v) (va_starting_price v) (va_starting_price v) participant.

(** ** Closing ([ledger::close_auction]) *)
Definition complete (r : StateRecord) : StateRecord :=
  mkStateRecord (sr_starting_price r) (sr_start_time r) (sr_end_time r) (sr_auction_type r)
    (sr_minimum_bid_step r) (sr_reserve_price r) (Some "Completed").

(** The winner and the document that is written back: none when there is none.  The
    two readings may fail: a failed [ZRANGE] is taken for no bid, a failed [HGET] for
    no document. *)
Definition close_auction (bids_read doc_read : bool) (rt : AuctionRuntime) (l : Ledger) (doc : option StateDoc) :
    option Decision * option StateDoc :=
  let w := close_winner zfirst bids_read (rt_type rt) (rt_reserve rt) l in
  (w, (fun d =>
     mkStateDoc
       (complete <$> sd_auction d)
       (match sd_auction d with Some _ => sd_shipment d | None => complete <$> sd_shipment d end)
       (sd_config d) (sd_schedule_start d) (or_else w (sd_winner d))) <$> (if doc_read then doc else None)).
End Hydration.

(** ** The publisher ([publisher.rs])

    Entries of the pending stream are numbered in the order they were added; the
    log is what the audit topic has received.  The publisher reads the whole
    stream, publishes entry after entry (it retries until the broker has it), and
    deletes each, which may fail; when it has found the stream empty it waits for
    [notify], which returns at once when a permit was left.  An entry may be added
    between the reading and the waiting. *)
Inductive publisher_phase := Working | SawEmpty | Parked.

#[export] Instance publisher_phase_eq_dec : EqDecision publisher_phase.
Proof. solve_decision. Defined.

Record Publisher := mkPublisher {
  history : list Decision;
  pending_ids : list nat;
  batch : list nat;
  log : list nat;
  phase : publisher_phase;
  permit : bool
}.
Definition publisher0 : Publisher := mkPublisher [] [] [] [] Working false.

Inductive publisher_step :=
| Append (d : Decision) (woken : bool)
| Read
| Await
| Publish (deleted : bool)
| Restart.

(** [notify_one] wakes a waiting publisher or leaves a permit. *)
Definition wake (p : Publisher) : Publisher :=
  match phase p with
  | Parked => mkPublisher (history p) (pending_ids p) (batch p) (log p) Working (permit p)
  | ph => mkPublisher (history p) (pending_ids p) (batch p) (log p) ph true
  end.

Definition publish_step (s : publisher_step) (p : Publisher) : Publisher :=
  match s with
  | Append d woken =>
      let p' := mkPublisher (history p ++ [d]) (pending_ids p ++ [length (history p)]) (batch p) (log p)
                  (phase p) (permit p) in
      if woken then wake p' else p'
  | Read =>
      match phase p, batch p, pending_ids p with
      | Working, [], [] => mkPublisher (history p) [] [] (log p) SawEmpty (permit p)
      | Working, [], l => mkPublisher (history p) l l (log p) Working (permit p)
      | _, _, _ => p
      end
  | Await =>
      match phase p with
      | SawEmpty =>
          mkPublisher (history p) (pending_ids p) (batch p) (log p) (if permit p then Working else Parked) false
      | _ => p
      end
  | Publish deleted =>
      match batch p with
      | [] => p
      | i :: rest =>
          mkPublisher (history p)
            (if deleted then js_filter (fun j => negb (Nat.eqb j i)) (pending_ids p) else pending_ids p)
            rest (log p ++ [i]) (phase p) (permit p)
      end
  | Restart => mkPublisher (history p) (pending_ids p) [] (log p) Working false
  end.

Definition publish_run (ss : list publisher_step) (p : Publisher) : Publisher :=
  fold_left (fun p s => publish_step s p) ss p.

(** The decisions of the log. *)
Definition logged (p : Publisher) : list Decision := omap (fun i => history p !! i) (log p).

(** What the publisher does next when nothing interferes. *)
Definition turn (p : Publisher) : Publisher :=
  publish_step (match phase p, batch p with
                | SawEmpty, _ => Await
                | _, [] => Read
                | _, _ => Publish true
                end) p.

(** ** The actor and its publisher under one supervisor ([supervisor.rs])

    A panic of either restarts both; the end of the actor drops the publisher with
    it. *)
Record System := mkSystem { sy_actor : Actor; sy_publisher : Publisher; sy_open : bool }.

Inductive system_event :=
| Take (o : RedisOutcome) (task : AuctionTask)
| ReadPending
| AwaitNotify
| PublishNext (deleted : bool)
| Panic (now : Z) (rd : StartReads)
| Ends.

Section Supervised.
Context (zfirst : AuctionDirection -> list Decision -> option Decision) (read_time : string -> option Z).

Definition system_step (id : string) (doc : StateDoc) (s : System) (e : system_event) : System :=
  if negb (sy_open s) then s
  else
    let a := sy_actor s in
    let p := sy_publisher s in
    match e with
    | Take o task =>
        let '(a', _, woken) := process_task id o task a in
        let added := drop (length (pending_stream (ledger a))) (pending_stream (ledger a')) in
        mkSystem a' (publish_run (map (fun d => Append d woken) added) p) true
    | ReadPending => mkSystem a (publish_step Read p) true
    | AwaitNotify => mkSystem a (publish_step Await p) true
    | PublishNext deleted => mkSystem a (publish_step (Publish deleted) p) true
    | Panic now rd => mkSystem (restart read_time zfirst now rd (Some doc) (Some doc) a) (publish_step Restart p) true
    | Ends => mkSystem a p false
    end.

Definition system_run (id : string) (doc : StateDoc) (es : list system_event) (s : System) : System :=
  fold_left (system_step id doc) es s.

Definition system0 (a : Actor) : System := mkSystem a publisher0 true.

(** The system left alone: a turn of the publisher, unless the actor has ended and
    dropped it. *)
Definition system_turn (s : System) : System :=
  if sy_open s then mkSystem (sy_actor s) (turn (sy_publisher s)) true else s.
End Supervised.

(** ** Lemmas *)

(** What Redis promises of the first member of a sorted set: the engine's theorems
    are proved against it. *)
Class FirstMember (zfirst : AuctionDirection -> list Decision -> option Decision) : Prop :=
  first_member : forall ty l, Forall (fun d => is_finite (d_amount d) = true) l ->
    match zfirst ty l with
    | None => l = []
    | Some d => d ∈ l /\ forall d', d' ∈ l -> better ty (d_amount d') (d_amount d) = false
    end.

Section Recovery.
Context (zfirst : AuctionDirection -> list Decision -> option Decision) (read_time : string -> option Z).

(** One document under both keys is found as soon as one reading works. *)
Lemma state_read_same rd doc : own_read rd || shared_read rd = true -> state_read rd (Some doc) (Some doc) = Some doc.
Proof. unfold state_read. by destruct (own_read rd), (shared_read rd). Qed.

Record life_inv (a : Actor) : Prop := {
  lv_sets : zset (ledger a) = live_stream (ledger a);
  lv_finite : Forall (fun d => is_finite (d_amount d) = true) (live_stream (ledger a))
}.

Lemma life_inv_task id o task a : life_inv a -> life_inv (process_task id o task a).1.1.
Proof.
  intros [H1 H2]. unfold process_task. destruct (negb _); [done|]. cbv zeta.
  destruct (is_better_bid _ _ _ _) eqn:E; unfold write_bid;
    destruct o, (processed (ledger a) !! request_id task); simpl; try done.
  all: pose proof (accepted_finite _ _ _ _ E) as (F & _); split; simpl;
    [by rewrite H1|apply Forall_app; split; [done|by apply Forall_singleton]].
Qed.

Lemma life_inv_run id doc es a : life_inv a -> life_inv (life_run read_time zfirst id doc es a).
Proof.
  apply (fold_left_inv _ _ (fun _ => True)); [|by apply Forall_true].
  intros a' [o task|now rd] _ H; [by apply life_inv_task|]. destruct H. by split.
Qed.
End Recovery.

(** *** The publisher's invariant *)

Lemma archive_snoc l e : archive (l ++ [e]) = insert_event (archive l) e.
Proof. unfold archive. by rewrite fold_left_app. Qed.

Lemma insert_known l e : ae_request_id e ∈ ae_request_id <$> l -> insert_event l e = l.
Proof.
  intros (x & E & Hx)%list_elem_of_fmap. unfold insert_event.
  assert (H : existsb (fun x => String.eqb (ae_request_id x) (ae_request_id e)) l = true).
  { apply existsb_exists. exists x. rewrite <-list_elem_of_In. split; [done|]. by rewrite E, String.eqb_refl. }
  by rewrite H.
Qed.

Lemma archive_requests l k : k ∈ ae_request_id <$> archive l <-> k ∈ ae_request_id <$> l.
Proof.
  induction l as [|e l IH] using rev_ind; [done|].
  rewrite archive_snoc, fmap_app, elem_of_app, <-IH. unfold insert_event.
  destruct (existsb _ (archive l)) eqn:E.
  - apply existsb_exists in E as (x & Hx & Hid). apply String.eqb_eq in Hid. split; [by left|].
    intros [H|H]; [done|]. apply list_elem_of_singleton in H. subst k.
    apply list_elem_of_fmap. exists x. by rewrite list_elem_of_In.
  - by rewrite fmap_app, elem_of_app.
Qed.

Lemma archive_again l e : ae_request_id e ∈ ae_request_id <$> l -> archive (l ++ [e]) = archive l.
Proof. intros H. rewrite archive_snoc. apply insert_known. by apply archive_requests. Qed.

Section Publishing.
Context (place : Decision -> Z * Z) (submitted processed_at : Decision -> string) (reason : Decision -> option string).
Let row := audit_row place submitted processed_at reason.

Definition known (d : Decision) (l : list Decision) : Prop := d_request d ∈ d_request <$> l.

Lemma known_row d l : known d l -> ae_request_id (row d) ∈ ae_request_id <$> (row <$> l).
Proof. unfold known. by rewrite <-list_fmap_compose. Qed.

(** Nothing wakes the publisher but a new notification. *)
Definition asleep (p : Publisher) : Prop := phase p = Parked \/ phase p = SawEmpty /\ permit p = false.

(** [k] entries have been published at least once. *)
Record publisher_inv (k : nat) (p : Publisher) : Prop := {
  pi_k : (k <= length (history p))%nat;
  pi_archive : archive (row <$> logged p) = archive (row <$> take k (history p));
  pi_log : Forall (fun i => i < k)%nat (log p);
  pi_sorted : StronglySorted lt (pending_ids p);
  pi_range : Forall (fun i => i < length (history p))%nat (pending_ids p);
  pi_kept : forall j, (k <= j < length (history p))%nat -> j ∈ pending_ids p;
  pi_batch_sorted : StronglySorted lt (batch p);
  pi_batch : exists m, (m <= length (history p))%nat /\ Forall (fun i => i < m)%nat (batch p) /\
    forall j, (k <= j < m)%nat -> j ∈ batch p;
  pi_idle : phase p <> Working -> batch p = [];
  pi_parked : asleep p -> forall j d, (k <= j)%nat -> history p !! j = Some d -> known d (take j (history p))
}.

Lemma logged_grow (h h' : list Decision) l : Forall (fun i => i < length h)%nat l ->
  omap (fun i => (h ++ h') !! i) l = omap (fun i => h !! i) l.
Proof.
  induction 1 as [|i l Hi _ IH]; [done|]. csimpl. by rewrite lookup_app_l, IH.
Qed.

Lemma logged_snoc (h : list Decision) l i d : h !! i = Some d -> omap (fun i => h !! i) (l ++ [i]) = omap (fun i => h !! i) l ++ [d].
Proof. intros H. rewrite omap_app. csimpl. by rewrite H. Qed.

Lemma take_known k i (h : list Decision) d : h !! i = Some d -> (i < k)%nat -> known d (take k h).
Proof.
  intros H Hi. apply list_elem_of_fmap. exists d. split; [done|].
  apply list_elem_of_lookup. exists i. by rewrite lookup_take_lt.
Qed.

Lemma sorted_snoc l n : StronglySorted lt l -> Forall (fun i => i < n)%nat l -> StronglySorted lt (l ++ [n]).
Proof.
  induction 1 as [|x l Hs IH Hx]; intros Hn; [by repeat constructor|].
  inversion Hn; subst. simpl. constructor; [by apply IH|]. apply Forall_app. split; [done|by constructor].
Qed.

Lemma sorted_filter (f : nat -> bool) l : StronglySorted lt l -> StronglySorted lt (js_filter f l).
Proof.
  induction 1 as [|x l Hs IH Hx]; [constructor|]. unfold js_filter in *. simpl.
  destruct (f x); [|done]. constructor; [done|]. rewrite Forall_forall in *. intros y Hy. apply Hx.
  apply list_elem_of_In in Hy. apply filter_In in Hy as [Hy _]. by apply list_elem_of_In.
Qed.

Lemma filter_forall (P : nat -> Prop) (f : nat -> bool) l : Forall P l -> Forall P (js_filter f l).
Proof.
  intros H. rewrite Forall_forall in *. intros y Hy. apply H.
  unfold js_filter in Hy. apply list_elem_of_In in Hy. apply filter_In in Hy as [Hy _]. by apply list_elem_of_In.
Qed.

Lemma filter_other i j l : j ∈ l -> j <> i -> j ∈ js_filter (fun x => negb (Nat.eqb x i)) l.
Proof.
  intros Hj Hne. unfold js_filter. rewrite list_elem_of_In in *. apply filter_In. split; [done|].
  apply negb_true_iff. by apply Nat.eqb_neq.
Qed.
Lemma append_inv k p d woken :
  (woken = false -> known d (history p)) -> publisher_inv k p ->
  publisher_inv k (publish_step (Append d woken) p).
Proof.
  intros Hw [I1 I2 I3 I4 I5 I6 I7 (m & Hm & Hb & Hc) I9 I10].
  set (p' := publish_step (Append d woken) p).
  assert (H1 : history p' = history p ++ [d] /\ pending_ids p' = pending_ids p ++ [length (history p)] /\
    log p' = log p /\ batch p' = batch p /\ (asleep p' -> asleep p /\ woken = false) /\
    (phase p' <> Working -> phase p <> Working)).
  { unfold p', publish_step, wake, asleep. destruct woken; simpl; [|by repeat split].
    destruct (phase p); simpl; repeat split; try done; try (by right); intros; by intuition. }
  destruct H1 as (E1 & E2 & E3 & E4 & E5 & E6). clearbody p'.
  assert (Hlen : length (history p') = S (length (history p))) by (rewrite E1, length_app; simpl; lia).
  assert (Hlt : Forall (fun i => i < length (history p))%nat (log p))
    by (eapply Forall_impl; [exact I3|simpl; lia]).
  split; rewrite ?Hlen, ?E2, ?E3, ?E4; try done; try lia.
  - unfold logged. rewrite E1, E3, logged_grow by done. unfold logged in I2. rewrite I2.
    by rewrite take_app_le by lia.
  - by apply sorted_snoc.
  - apply Forall_app. split; [eapply Forall_impl; [exact I5|simpl; lia]|by repeat constructor].
  - intros j Hj. apply elem_of_app. destruct (decide (j = length (history p))) as [->|]; [right; left|].
    left. apply I6. lia.
  - exists m. split; [lia|done].
  - intros H. by apply I9, E6.
  - intros Hp j x Hj Hx. destruct (E5 Hp) as [Hp' Hwk]. rewrite E1 in Hx |- *.
    apply lookup_app_Some in Hx as [Hx|[Hl Hx]].
    + assert (j < length (history p))%nat by (by eapply lookup_lt_Some).
      rewrite take_app_le by lia. by apply I10.
    + destruct (j - length (history p))%nat eqn:Ej; [|done]. injection Hx as <-.
      replace j with (length (history p)) by lia. rewrite take_app_length. by apply Hw.
Qed.

Lemma read_inv k p : publisher_inv k p -> publisher_inv k (publish_step Read p).
Proof.
  intros I. unfold publish_step. destruct (phase p) eqn:Ep; [|exact I..].
  destruct (batch p) as [|i rest] eqn:Eb; [|exact I].
  destruct I as [I1 I2 I3 I4 I5 I6 I7 I8 I9 I10].
  destruct (pending_ids p) as [|j l] eqn:El.
  - assert (Hk : k = length (history p)).
    { destruct (decide (k = length (history p))); [done|]. specialize (I6 k ltac:(lia)).
      by apply not_elem_of_nil in I6. }
    assert (Hb : exists m, (m <= length (history p))%nat /\ Forall (fun i => i < m)%nat [] /\
      forall j, (k <= j < m)%nat -> j ∈ (@nil nat)) by (exists 0%nat; split; [lia|split; [constructor|lia]]).
    split; simpl; try done. intros _ x d Hx Hl. apply lookup_lt_Some in Hl. lia.
  - split; simpl; try done; [exists (length (history p)); split; [lia|by split]|].
    by intros [[=]|[[=] _]].
Qed.

Lemma await_inv k p : publisher_inv k p -> publisher_inv k (publish_step Await p).
Proof.
  intros I. unfold publish_step. destruct (phase p) eqn:Ep; [exact I| |exact I].
  destruct I as [I1 I2 I3 I4 I5 I6 I7 I8 I9 I10].
  destruct (permit p) eqn:Em; split; simpl; try done; try (intros _; by apply I9; rewrite Ep).
  - by intros [[=]|[[=] _]].
  - intros _. apply I10. by right.
Qed.

Lemma restart_inv k p : publisher_inv k p -> publisher_inv k (publish_step Restart p).
Proof.
  intros [I1 I2 I3 I4 I5 I6 I7 I8 I9 I10]. split; simpl; try done; [constructor| |by intros [[=]|[[=] _]]].
  exists 0%nat. split; [lia|]. split; [constructor|lia].
Qed.

Lemma publish_inv k p deleted : publisher_inv k p -> exists k', publisher_inv k' (publish_step (Publish deleted) p).
Proof.
  intros I. unfold publish_step. destruct (batch p) as [|i rest] eqn:Eb; [by exists k|].
  destruct I as [I1 I2 I3 I4 I5 I6 I7 (m & Hm & Hb & Hc) I9 I10]. rewrite Eb in *.
  assert (Ew : phase p = Working) by (destruct (decide (phase p = Working)) as [|N]; [done|by specialize (I9 N)]).
  inversion I7 as [|? ? Hs Hall]; subst. inversion Hb as [|? ? Him Hrest]; subst.
  destruct (history p !! i) as [d|] eqn:Ed; [|apply lookup_ge_None in Ed; lia].
  set (pend := if deleted then _ else _).
  assert (P1 : StronglySorted lt pend) by (unfold pend; destruct deleted; [by apply sorted_filter|done]).
  assert (P2 : Forall (fun i => i < length (history p))%nat pend)
    by (unfold pend; destruct deleted; [by apply filter_forall|done]).
  assert (P3 : forall j, j ∈ pending_ids p -> j <> i -> j ∈ pend)
    by (intros j Hj Hne; unfold pend; destruct deleted; [by apply filter_other|done]).
  assert (Hlog : archive (row <$> omap (fun i => history p !! i) (log p ++ [i])) =
                 archive ((row <$> take k (history p)) ++ [row d])).
  { rewrite logged_snoc with (d := d) by done. rewrite fmap_app. csimpl. rewrite !archive_snoc.
    unfold logged in I2. by rewrite I2. }
  destruct (decide (i < k)%nat) as [Hik|Hik].
  - exists k. split; simpl; try done.
    + unfold logged. simpl. rewrite Hlog. apply archive_again, known_row. by eapply take_known.
    + apply Forall_app. split; [done|by constructor].
    + intros j Hj. apply P3; [by apply I6|lia].
    + exists m. split; [done|]. split; [done|]. intros j Hj. specialize (Hc j Hj).
      apply elem_of_cons in Hc as [->|Hc]; [lia|done].
  - assert (i = k) as ->.
    { specialize (Hc k ltac:(lia)). apply elem_of_cons in Hc as [->|Hc]; [done|].
      rewrite Forall_forall in Hall. specialize (Hall k Hc). lia. }
    exists (S k). split; simpl; try done.
    + lia.
    + unfold logged. simpl. rewrite Hlog. by rewrite (take_S_r _ _ _ Ed), fmap_app.
    + apply Forall_app. split; [eapply Forall_impl; [exact I3|simpl; lia]|by constructor; [lia|]].
    + intros j Hj. apply P3; [apply I6; lia|lia].
    + exists m. split; [done|]. split; [done|]. intros j Hj. specialize (Hc j ltac:(lia)).
      apply elem_of_cons in Hc as [->|Hc]; [lia|done].
    + unfold asleep. simpl. rewrite Ew. by intros [[=]|[[=] _]].
Qed.

Lemma archive_replays h k m : (k <= m <= length h)%nat ->
  (forall j d, (k <= j)%nat -> h !! j = Some d -> known d (take j h)) ->
  archive (row <$> take m h) = archive (row <$> take k h).
Proof.
  intros Hm Hr. induction m as [|m IH]; [by replace k with 0%nat by lia|].
  destruct (decide (k = S m)) as [->|]; [done|].
  destruct (h !! m) as [d|] eqn:E; [|apply lookup_ge_None in E; lia].
  rewrite (take_S_r _ _ _ E), fmap_app. csimpl. rewrite archive_again; [apply IH; lia|].
  apply known_row, Hr; [lia|done].
Qed.
End Publishing.


(** *** The publisher comes to rest *)

Definition outside (l : list nat) (j : nat) : bool := negb (existsb (Nat.eqb j) l).

Lemma filter_nothing (l : list nat) : js_filter (outside l) l = [].
Proof.
  assert (H : forall m, (forall x, x ∈ m -> x ∈ l) -> js_filter (outside l) m = []); [|by apply H].
  unfold js_filter. induction m as [|x m IH]; intros Hm; [done|]. simpl.
  assert (E : outside l x = false).
  { unfold outside. apply negb_false_iff, existsb_exists. exists x. rewrite Nat.eqb_refl.
    split; [|done]. apply list_elem_of_In, Hm. by left. }
  rewrite E. apply IH. intros y Hy. apply Hm. by right.
Qed.

Lemma filter_twice (f g : nat -> bool) l : js_filter f (js_filter g l) = js_filter (fun x => g x && f x) l.
Proof.
  unfold js_filter. induction l as [|x l IH]; [done|]. simpl. destruct (g x); simpl; [|done].
  destruct (f x); by rewrite IH.
Qed.

Lemma filter_shorter (f : nat -> bool) l : (length (js_filter f l) <= length l)%nat.
Proof. apply filter_length_le. Qed.

Lemma turns_batch l : forall p, batch p = l -> phase p = Working ->
  Nat.iter (length l) turn p =
  mkPublisher (history p) (js_filter (outside l) (pending_ids p)) [] (log p ++ l) Working (permit p).
Proof.
  induction l as [|i l IH]; intros p Hb Hw.
  - destruct p. simpl in *. subst. rewrite app_nil_r. f_equal. unfold js_filter, outside. simpl.
    induction pending_ids0 as [|x m IHm]; [done|]. simpl. by f_equal.
  - change (length (i :: l)) with (S (length l)). rewrite Nat.iter_succ_r.
    unfold turn at 2. rewrite Hb, Hw. unfold publish_step. rewrite Hb, Hw. rewrite IH by done. cbn.
    rewrite filter_twice, <-app_assoc. f_equal. unfold js_filter. apply filter_ext. intros x.
    unfold outside. simpl. by rewrite negb_orb.
Qed.

Lemma turns_parked n p : phase p = Parked -> batch p = [] -> Nat.iter n turn p = p.
Proof.
  intros Hp Hb. induction n as [|n IH]; [done|]. simpl. rewrite IH. unfold turn. rewrite Hb, Hp.
  unfold publish_step. by rewrite Hp.
Qed.

Lemma turns_more n m p : phase (Nat.iter m turn p) = Parked -> batch (Nat.iter m turn p) = [] ->
  (m <= n)%nat -> phase (Nat.iter n turn p) = Parked.
Proof.
  intros Hp Hb Hm. replace n with ((n - m) + m)%nat by lia. rewrite Nat.iter_add. by rewrite turns_parked.
Qed.

Lemma turns_empty p : batch p = [] -> pending_ids p = [] -> phase p = Working ->
  phase (Nat.iter 4 turn p) = Parked /\ batch (Nat.iter 4 turn p) = [].
Proof.
  intros Hb Hp Hw. destruct p as [h ids b lg ph pm]. simpl in *. subst. unfold turn. simpl. by destruct pm.
Qed.

(** From work to rest: the batch, a reading, what was pending, and two looks at the
    empty stream. *)
Lemma turns_work p : phase p = Working ->
  exists m, (m <= length (batch p) + length (pending_ids p) + 5)%nat /\
    phase (Nat.iter m turn p) = Parked /\ batch (Nat.iter m turn p) = [].
Proof.
  intros Hw. pose proof (turns_batch _ p eq_refl Hw) as H1.
  destruct (js_filter (outside (batch p)) (pending_ids p)) as [|j l] eqn:El.
  - exists (4 + length (batch p))%nat. rewrite Nat.iter_add. split; [lia|]. rewrite H1. by apply turns_empty.
  - pose proof (filter_shorter (outside (batch p)) (pending_ids p)) as Hlen. rewrite El in Hlen.
    exists (4 + (length (j :: l) + S (length (batch p))))%nat. split; [lia|].
    rewrite !Nat.iter_add. change (Nat.iter (S (length (batch p))) turn p)
      with (turn (Nat.iter (length (batch p)) turn p)). rewrite H1.
    rewrite (turns_batch (j :: l) (turn _)) by done. cbn [turn publish_step phase batch history pending_ids log permit].
    rewrite filter_nothing. by apply turns_empty.
Qed.

(** Turns enough from any state: one more when it is about to wait. *)
Definition turns_left (p : Publisher) : nat := (length (batch p) + length (pending_ids p) + 6)%nat.

Lemma turns_rest n p : (turns_left p <= n)%nat -> (phase p <> Working -> batch p = []) ->
  phase (Nat.iter n turn p) = Parked.
Proof.
  intros Hn Hk. unfold turns_left in Hn. destruct (phase p) eqn:Ep.
  - destruct (turns_work p Ep) as (m & Hm & Hp & Hb). apply (turns_more _ m); [done|done|lia].
  - assert (Hb : batch p = []) by (by apply Hk).
    assert (E : turn p = mkPublisher (history p) (pending_ids p) [] (log p) (if permit p then Working else Parked) false)
      by (unfold turn, publish_step; by rewrite Ep, Hb).
    destruct (permit p).
    + destruct (turns_work (turn p)) as (m & Hm & Hp & Hb'); [by rewrite E|].
      rewrite E in Hm. simpl in Hm. rewrite <-Nat.iter_succ_r in Hp, Hb'.
      apply (turns_more _ (S m)); [done|done|lia].
    + apply (turns_more _ 1); simpl; [by rewrite E..|lia].
  - by rewrite turns_parked by auto.
Qed.

Lemma turns_history n p : history (Nat.iter n turn p) = history p.
Proof.
  induction n as [|n IH]; [done|]. simpl. rewrite <-IH. generalize (Nat.iter n turn p). intros q.
  unfold turn, publish_step. by destruct (phase q) eqn:Ep, (batch q) eqn:Eb, (pending_ids q) eqn:El; rewrite ?Ep.
Qed.

(** *** What the actor appends *)

Definition remembers (a : Actor) : Prop :=
  forall r d, processed (ledger a) !! r = Some d -> d ∈ pending_stream (ledger a).

Lemma task_appends id o task a : o <> ReplyLost -> remembers a ->
  let '(a', _, woken) := process_task id o task a in
  exists added, pending_stream (ledger a') = pending_stream (ledger a) ++ added /\ remembers a' /\
    (woken = false -> Forall (fun d => known d (pending_stream (ledger a))) added) /\ (length added <= 1)%nat.
Proof.
  intros Ho Hr.
  assert (K : forall r d, processed (ledger a) !! r = Some d -> known d (pending_stream (ledger a)))
    by (intros r d Hd; apply list_elem_of_fmap; exists d; split; [done|by eapply Hr]).
  assert (Same : exists added, pending_stream (ledger a) = pending_stream (ledger a) ++ added /\ remembers a /\
    (forall woken : bool, woken = false -> Forall (fun d => known d (pending_stream (ledger a))) added) /\
    (length added <= 1)%nat) by (exists []; rewrite app_nil_r; repeat split; [done|constructor|simpl; lia]).
  unfold process_task. destruct (negb _); [destruct Same as (l & ? & ? & ? & ?); eauto 6|]. cbv zeta.
  destruct (is_better_bid _ _ _ _) eqn:E; unfold write_bid;
    destruct o, (processed (ledger a) !! request_id task) as [d|] eqn:Ed; try done;
    try (exists []; rewrite app_nil_r; repeat split; try done; simpl; lia).
  all: eexists [_]; split; [reflexivity|]; split; [|split; [try done|simpl; lia]].
  all: try (intros _; constructor; [by eapply K|constructor]).
  all: intros r x Hx; simpl in *; apply elem_of_app; try (left; by eapply Hr).
  all: apply lookup_insert_Some in Hx as [[_ <-]|[_ Hx]]; [right; by left|left; by eapply Hr].
Qed.

(** ** Properties *)

(** C17: the price of an actor that starts from Redis.  Whatever Redis did before,
    however often the actor was restarted and whichever readings of the starts
    failed: the actor takes its direction from the document that its last start has
    read (reverse when none was read); if that start has also read the sorted set,
    the price is the best accepted amount in that direction, so a price that a lost
    reply left stale does not outlive it, or, when nothing was accepted, the starting
    price of the document read ([f64::MAX] without one); if the sorted set could not
    be read the price is that starting price whatever was accepted. *)
Theorem restart_recovers_price `{FirstMember zfirst} read_time id doc es now rd a0 :
  ledger a0 = ledger0 ->
  let a := life_run read_time zfirst id doc (es ++ [Crash now rd]) a0 in
  let live := live_stream (ledger a) in
  let price := rt_price (runtime a) in
  let read := state_read rd (Some doc) (Some doc) in
  let record := also read (fun d => or_else (sd_auction d) (sd_shipment d)) in
  let start := default f64_max (also record sr_starting_price) in
  rt_type (runtime a) = direction_of (also read (fun d => or_else (config_of d) record)) /\
  if best_read rd then
    (live = [] /\ price = start) \/
    exists d, d ∈ live /\ d_amount d = price /\
      forall d', d' ∈ live -> better (rt_type (runtime a)) (d_amount d') price = false
  else price = start.
Proof.
  intros H0 a live price read record start.
  assert (Hi : life_inv (life_run read_time zfirst id doc es a0))
    by (apply life_inv_run; split; rewrite H0; [done|constructor]).
  set (b := life_run read_time zfirst id doc es a0) in *.
  assert (Ea : a = restart read_time zfirst now rd (Some doc) (Some doc) b)
    by (unfold a, life_run; by rewrite fold_left_app).
  destruct Hi as [Hs Hf]. unfold live, price. rewrite Ea. clear Ea a live price.
  unfold restart, load_runtime. cbn [ledger runtime rt_price rt_type]. fold read. fold record. fold start.
  split; [done|]. destruct (best_read rd); [|done].
  set (ty := direction_of _). pose proof (first_member ty _ Hf) as Hz. rewrite Hs. destruct (zfirst ty (live_stream (ledger b))) as [d|].
  - right. exists d. split; [apply Hz|]. split; [done|]. apply Hz.
  - left. by split.
Qed.

(** A page that opens with the auction agrees with the engine: the socket
    server and the engine read the same document, and as long as it holds a
    configuration they read the same direction, step and price out of it. *)
Lemma opening_agrees `{FirstMember zfirst} read_time id doc v p0 now now' started rd participant s a0 :
  ledger a0 = ledger0 -> id <> EmptyString -> own_read rd || shared_read rd = true ->
  is_Some (config_of doc) ->
  validate_auction_state read_time now (Some doc) = Ok v -> va_starting_price v = Some p0 -> price_ok p0 ->
  Forall (fun c => valid (step_of c) = true) (option_list (config_of doc)) ->
  in_agreement id
    (receive now' (MInit (auction_init_of id v [] [] participant)) s)
    (restart read_time zfirst started rd (Some doc) (Some doc) a0).
Proof.
  intros H0 Hid Hrd%(state_read_same rd doc) [c Hc] Hv Hp Hok Hst. rewrite Hc in Hst. simpl in Hst. rewrite Forall_singleton in Hst.
  unfold validate_auction_state in Hv. rewrite Hc in Hv. injection Hv as <-. cbn [va_starting_price] in Hp.
  assert (Ez : forall ty, zfirst ty (zset (ledger a0)) = None).
  { intros ty. rewrite H0. pose proof (first_member ty [] ltac:(constructor)) as Hz. simpl in *.
    destruct (zfirst ty []) as [d|]; [|done]. destruct Hz as [Hd _]. by apply not_elem_of_nil in Hd. }
  assert (Hstep : or_num (step_of c) (of_Z 1) = step_of c).
  { unfold step_of. destruct (sr_minimum_bid_step c) as [x|]; simpl; [|done].
    destruct (is_finite x && nlt nzero x) eqn:E; [|done]. apply andb_true_iff in E as [Fx Px].
    simpl. unfold or_num. destruct (truthy_num x) eqn:Et; [done|]. exfalso.
    unfold truthy_num in Et. destruct x as [| | |]; try done. }
  rewrite receive_init. change (snapshot_events _) with (@nil BidEventPayload.t). cbn [map fold_left].
  assert (Ez' : forall ty, (if best_read rd then zfirst ty (zset (ledger a0)) else None) = None)
    by (intros ty; rewrite Ez; by destruct (best_read rd)).
  assert (Hpr : price_ok (rt_price (load_runtime read_time zfirst started rd (Some doc) (Some doc) (ledger a0)))).
  { unfold load_runtime. rewrite Hrd. cbn [rt_price]. rewrite Ez'. cbn [also or_else]. by rewrite Hp. }
  split.
  - done.
  - done.
  - unfold restart, load_runtime. rewrite Hrd. cbn. by rewrite Hc.
  - unfold restart, load_runtime. rewrite Hrd. cbn. rewrite Hc. exact Hstep.
  - unfold restart, load_runtime. rewrite Hrd. cbn. rewrite Ez', Hp. apply (price_eq_refl (Some p0)), Hok.
  - unfold restart, load_runtime. rewrite Hrd. cbn. rewrite Ez', Hp. apply (price_eq_refl (Some p0)), Hok.
  - constructor.
  - split; cbn; [constructor|constructor| |]; rewrite Hp; apply Hok.
  - exact Hpr.
  - unfold restart, load_runtime. rewrite Hrd. cbn. rewrite Hc. exact Hst.
Qed.

Section Rest.
Context (zfirst : AuctionDirection -> list Decision -> option Decision) (read_time : string -> option Z).
Context (place : Decision -> Z * Z) (submitted processed_at : Decision -> string) (reason : Decision -> option string).
Let inv := publisher_inv place submitted processed_at reason.

Record system_inv (s : System) : Prop := {
  sv_publisher : exists k, inv k (sy_publisher s);
  sv_history : history (sy_publisher s) = pending_stream (ledger (sy_actor s));
  sv_actor : remembers (sy_actor s)
}.

Definition reply_kept (e : system_event) : Prop := match e with Take o _ => o <> ReplyLost | _ => True end.

Lemma system_inv_step id doc e s : reply_kept e -> system_inv s ->
  system_inv (system_step zfirst read_time id doc s e).
Proof.
  intros He [(k & Hk) Hh Hr]. unfold system_step. destruct (sy_open s); [|by split; eauto]. cbn [negb]. cbv zeta.
  destruct e as [o task| | |deleted|now rd|].
  - pose proof (task_appends id o task (sy_actor s) He Hr) as T.
    destruct (process_task id o task (sy_actor s)) as [[a' res] woken].
    destruct T as (added & Ha & Hr' & Hw & Hl). rewrite Ha, drop_app_length. split; cbn; [..|done].
    + destruct added as [|d [|]]; [by exists k| |simpl in Hl; lia]. exists k. cbn. apply append_inv; [|done].
      intros E. rewrite Hh. specialize (Hw E). by inversion Hw.
    + rewrite Ha, <-Hh. destruct added as [|d [|]]; [by rewrite app_nil_r| |simpl in Hl; lia].
      cbn. unfold wake. by destruct woken; [destruct (phase (sy_publisher s))|].
  - split; cbn; [exists k; by apply read_inv| |done]. rewrite <-Hh.
    by destruct (phase (sy_publisher s)), (batch (sy_publisher s)), (pending_ids (sy_publisher s)).
  - split; cbn; [exists k; by apply await_inv| |done]. rewrite <-Hh. by destruct (phase (sy_publisher s)).
  - split; cbn [sy_publisher sy_actor]; [by eapply publish_inv| |done]. rewrite <-Hh. cbn.
    by destruct (batch (sy_publisher s)).
  - split; [exists k; by apply restart_inv|done|done].
  - split; [by exists k|done|done].
Qed.

Lemma system_inv_run id doc es s : Forall reply_kept es -> system_inv s ->
  system_inv (system_run zfirst read_time id doc es s).
Proof.
  apply fold_left_inv. intros s' e He. by apply system_inv_step.
Qed.

Lemma parked_archive k p : inv k p -> phase p = Parked ->
  archive (audit_row place submitted processed_at reason <$> logged p) =
  archive (audit_row place submitted processed_at reason <$> history p).
Proof.
  intros I Hp. rewrite (pi_archive _ _ _ _ _ _ I). symmetry.
  rewrite <-(firstn_all (history p)) at 1. apply archive_replays; [split; [apply I|done]|].
  apply (pi_parked _ _ _ _ _ _ I). by left.
Qed.

Lemma turns_inv n k p : inv k p -> exists k', inv k' (Nat.iter n turn p).
Proof.
  intros I. induction n as [|n [k' IH]]; [by exists k|]. simpl. unfold turn at 1.
  generalize dependent (Nat.iter n turn p). intros q IH.
  destruct (phase q), (batch q);
    solve [exists k'; by apply read_inv|exists k'; by apply await_inv|by eapply publish_inv].
Qed.

Lemma system_turns n s : sy_open s = true ->
  Nat.iter n system_turn s = mkSystem (sy_actor s) (Nat.iter n turn (sy_publisher s)) true.
Proof.
  intros Hs. induction n as [|n IH]; simpl; [destruct s; simpl in *; by subst|]. by rewrite IH.
Qed.

Lemma system_turns_closed n s : sy_open s = false -> Nat.iter n system_turn s = s.
Proof. intros Hs. induction n as [|n IH]; simpl; [done|]. rewrite IH. unfold system_turn. by rewrite Hs. Qed.

End Rest.

(** C18: the close announces the best bid when it can read the bids.  After any
    history of bids, lost replies and restarts (with failing readings or not), in the
    direction and with the reserve that the actor runs with: a close whose reading of
    the sorted set is answered names a best accepted bid, unless a forward auction's
    best bid stays below its reserve, and names nobody only then or when nothing was
    accepted; a close whose reading fails names nobody, whatever was accepted. *)
Theorem close_announces_best `{FirstMember zfirst} read_time id doc es read doc_read shared a0 :
  ledger a0 = ledger0 ->
  let a := life_run read_time zfirst id doc es a0 in
  let live := live_stream (ledger a) in
  let ty := rt_type (runtime a) in
  match (close_auction zfirst read doc_read (runtime a) (ledger a) shared).1 with
  | Some d => read = true /\ d ∈ live /\ (forall d', d' ∈ live -> better ty (d_amount d') (d_amount d) = false) /\
      (ty = FORWARD -> forall r, rt_reserve (runtime a) = Some r -> nlt (d_amount d) r = false)
  | None => read = false \/ live = [] \/ ty = FORWARD /\ exists r, rt_reserve (runtime a) = Some r /\
      forall d', d' ∈ live -> nlt (d_amount d') r = true
  end.
Proof.
  intros H0 a live ty. unfold close_auction. cbn [fst].
  destruct read; [|unfold close_winner; by destruct (rt_type _), (rt_reserve _); left].
  assert (Hi : life_inv a) by (apply life_inv_run; split; rewrite H0; [done|constructor]).
  destruct Hi as [Hs Hf]. pose proof (first_member ty _ Hf) as Hz. unfold close_winner. rewrite Hs.
  fold live in Hz, Hf |- *. change (rt_type (runtime a)) with ty. clearbody ty. destruct (zfirst ty live) as [d|] eqn:E.
  - destruct Hz as [Hin Hb]. destruct ty; [done|].
    destruct (rt_reserve (runtime a)) as [r|]; [|done].
    destruct (nlt _ r) eqn:El; [|split; [done|split; [done|split; [done|by intros _ r' [= <-]]]]].
    right. right. split; [done|]. exists r. split; [done|]. intros d' Hd'. specialize (Hb d' Hd').
    rewrite Forall_forall in Hf. pose proof (Hf d Hin). pose proof (Hf d' Hd'). unfold d_amount in *. simpl in *. num_order.
  - destruct ty, (rt_reserve (runtime a)); by right; left.
Qed.

(** a closed auction stays closed: no session that is opened after the close
    lets a bid through, whatever the times in the document; the document names the
    winner that the close announced, and a second close that reads the same, after a
    restart or a redelivery, changes nothing. *)
Theorem closed_auction_takes_no_bid zfirst read_time rt l doc read r now v id user expires participant a u t :
  or_else (sd_auction doc) (sd_shipment doc) = Some r ->
  let w := close_winner zfirst read (rt_type rt) (rt_reserve rt) l in
  let doc' := (close_auction zfirst read true rt l (Some doc)).2 in
  validate_auction_state read_time now doc' = Ok v ->
  authorize (session_of id user expires participant v) a u t <> Ok tt /\
  va_winner v = or_else w (sd_winner doc) /\
  close_auction zfirst read true rt l doc' = (w, doc').
Proof.
  intros Hr w doc' Hv. assert (E : doc' = Some (mkStateDoc (complete <$> sd_auction doc)
    (match sd_auction doc with Some _ => sd_shipment doc | None => complete <$> sd_shipment doc end)
    (sd_config doc) (sd_schedule_start doc) (or_else w (sd_winner doc)))) by done.
  rewrite E in Hv |- *. clearbody doc'. clear E. unfold validate_auction_state in Hv. injection Hv as <-.
  split; [|split; [done|]].
  - intros H%authorize_ok. destruct H as (_ & _ & _ & _ & _ & Hc & _). revert Hc. simpl.
    destruct (sd_auction doc) as [x|]; [done|]. simpl in *. by rewrite Hr.
  - unfold close_auction. fold w. f_equal. simpl. f_equal. f_equal.
    + by destruct (sd_auction doc).
    + destruct (sd_auction doc); [done|]. by destruct (sd_shipment doc).
    + by destruct w.
Qed.

(** *** What is left behind *)

(** The two documents of a legacy shipment: a type that only the shipment's record
    carries is read by the engine and not by the socket server. *)
Theorem legacy_direction_differs zfirst read_time now now' rd l d r v :
  own_read rd || shared_read rd = true ->
  sd_auction d = None -> sd_config d = None -> sd_shipment d = Some r ->
  validate_auction_state read_time now (Some d) = Ok v ->
  va_auction_type v = "REVERSE" /\ va_minimum_bid_step v = of_Z 1 /\
  rt_type (load_runtime read_time zfirst now' rd (Some d) (Some d) l) =
    (if is_forward (sr_auction_type r) then FORWARD else REVERSE) /\
  rt_step (load_runtime read_time zfirst now' rd (Some d) (Some d) l) = step_of r.
Proof.
  intros Hrd%(state_read_same rd d) Ha Hc Hs. unfold validate_auction_state, load_runtime, config_of. rewrite Hrd. cbn [or_else also].
  rewrite Ha, Hc, Hs. intros [= <-]. done.
Qed.

(** ** Witnesses *)

(** A sorted set that is read from its end. *)
Fixpoint sample_first (ty : AuctionDirection) (l : list Decision) : option Decision :=
  match l with
  | [] => None
  | d :: rest =>
      match sample_first ty rest with
      | Some e => if better ty (d_amount e) (d_amount d) then Some e else Some d
      | None => Some d
      end
  end.

#[export] Instance sample_first_law : FirstMember sample_first.
Proof.
  intros ty l H. induction H as [|d l Hd Hl IH]; [done|]. simpl.
  destruct (sample_first ty l) as [e|].
  - destruct IH as [He Hb]. pose proof (proj1 (Forall_forall _ _) Hl) as Hf.
    destruct (better ty (d_amount e) (d_amount d)) eqn:E; (split; [by (left || right)|]); intros x [->|Hx]%elem_of_cons.
    + pose proof (Hf e He) as Fe. simpl in *. destruct ty; simpl in *; num_order.
    + by apply Hb.
    + by apply better_irrefl.
    + apply (better_trans ty _ (d_amount e)); auto.
  - subst l. split; [by left|]. intros x ->%list_elem_of_singleton. by apply better_irrefl.
Qed.

Definition sample_time (s : string) : option Z := if String.eqb s "end" then Some 1000 else Some 1.
Definition sample_doc : StateDoc :=
  mkStateDoc (Some (mkStateRecord (Some (of_Z 120)) (Some "start") (Some "end") (Some "reverse") (Some (of_Z 5)) None None))
    None None None None.
Definition all_read : StartReads := mkReads true true true.
Definition sample_start : Actor := restart sample_time sample_first 0 all_read (Some sample_doc) (Some sample_doc) sample_actor.

(** The reply to the second bid is lost and the first restart cannot read the sorted
    set; the second finds the amount. *)
Lemma restart_recovers_price_witness :
  let es := [Task Served (sample_task "r1" "u1" 100 10); Task ReplyLost (sample_task "r2" "u2" 90 20)] in
  let unread := Crash 29 (mkReads false true false) in
  rt_price (runtime (life_run sample_time sample_first "a1" sample_doc es sample_start)) = of_Z 100 /\
  rt_price (runtime (life_run sample_time sample_first "a1" sample_doc (es ++ [unread]) sample_start)) = of_Z 120 /\
  rt_price (runtime (life_run sample_time sample_first "a1" sample_doc ((es ++ [unread]) ++ [Crash 30 all_read]) sample_start)) = of_Z 90.
Proof.
  intros es unread.
  destruct (restart_recovers_price sample_time "a1" sample_doc (es ++ [unread]) 30 all_read sample_start eq_refl) as [_ H].
  split; [by vm_compute|].
  split; [exact (proj2 (restart_recovers_price sample_time "a1" sample_doc es 29 (mkReads false true false) sample_start eq_refl))|].
  destruct H as [[H _]|(d & Hd & Hp & _)]; [vm_compute in H; done|].
  vm_compute. reflexivity.
Defined.

(** Two bids, a failed deletion, a panic and a replay of the first bid. *)
Definition sample_events : list system_event :=
  [ReadPending; Take Served (sample_task "r1" "u1" 100 10); AwaitNotify; ReadPending; PublishNext false; Take Unannounced (sample_task "r2" "u2" 90 20);
   Panic 30 (mkReads true true false); ReadPending; PublishNext true; Take Served (sample_task "r1" "u1" 100 10)].


Lemma close_announces_best_witness :
  let a := life_run sample_time sample_first "a1" sample_doc
    [Task Served (sample_task "r1" "u1" 100 10); Task Served (sample_task "r2" "u2" 90 20); Crash 30 all_read] sample_start in
  exists d, (close_auction sample_first true true (runtime a) (ledger a) (Some sample_doc)).1 = Some d /\
  d_request d = "r2" /\ forall d', d' ∈ live_stream (ledger a) -> better (rt_type (runtime a)) (d_amount d') (d_amount d) = false.
Proof.
  pose proof (close_announces_best sample_time "a1" sample_doc
    [Task Served (sample_task "r1" "u1" 100 10); Task Served (sample_task "r2" "u2" 90 20); Crash 30 all_read]
    true true (Some sample_doc) sample_start eq_refl) as H.
  cbv zeta in H |- *.
  destruct (close_auction sample_first true true _ _ _).1 as [d|] eqn:E; [|vm_compute in E; discriminate].
  exists d. split; [reflexivity|]. destruct H as (_ & _ & Hb & _). split; [vm_compute in E; by injection E as <-|exact Hb].
Defined.

Lemma closed_auction_takes_no_bid_witness :
  let a := life_run sample_time sample_first "a1" sample_doc [Task Served (sample_task "r1" "u1" 100 10)] sample_start in
  exists v, validate_auction_state sample_time 20 (close_auction sample_first true true (runtime a) (ledger a) (Some sample_doc)).2 = Ok v /\
  d_request <$> va_winner v = Some "r1" /\
  authorize (session_of "a1" "u2" 5000 true v) "a1" "u2" 30 <> Ok tt.
Proof.
  intros a. eexists. split; [reflexivity|]. split; [by vm_compute|].
  by apply (closed_auction_takes_no_bid sample_first sample_time (runtime a) (ledger a) sample_doc true
    (mkStateRecord (Some (of_Z 120)) (Some "start") (Some "end") (Some "reverse") (Some (of_Z 5)) None None) 20).
Defined.

(** A better bid whose reply was lost finds the publisher asleep, and its own
    redelivery, which Redis then calls a duplicate, wakes nobody. *)
Lemma lost_reply_is_not_archived :
  let es := [ReadPending; AwaitNotify; Take ReplyLost (sample_task "r1" "u1" 100 10); Take Served (sample_task "r1" "u1" 100 10)] in
  let s := system_run sample_first sample_time "a1" sample_doc es (system0 sample_start) in
  phase (sy_publisher s) = Parked /\ logged (sy_publisher s) = [] /\
  d_request <$> live_stream (ledger (sy_actor s)) = ["r1"] /\
  forall n, Nat.iter n turn (sy_publisher s) = sy_publisher s.
Proof.
  intros es s. split; [by vm_compute|]. split; [by vm_compute|]. split; [by vm_compute|].
  intros n. by apply turns_parked; vm_compute.
Qed.

(** The end of the auction drops the publisher with what it has not published. *)
Lemma end_strands_pending es' :
  let es := [Take Served (sample_task "r1" "u1" 100 10); ReadPending; Ends] in
  let s := system_run sample_first sample_time "a1" sample_doc (es ++ es') (system0 sample_start) in
  logged (sy_publisher s) = [] /\ d_request <$> live_stream (ledger (sy_actor s)) = ["r1"].
Proof.
  intros es s.
  set (s1 := system_run sample_first sample_time "a1" sample_doc es (system0 sample_start)).
  assert (E : s = s1).
  { unfold s, system_run. rewrite fold_left_app. fold (system_run sample_first sample_time "a1" sample_doc es (system0 sample_start)).
    fold s1. assert (Hc : sy_open s1 = false) by (by vm_compute). clearbody s1. clear s.
    induction es' as [|e es' IH]; [done|]. simpl. unfold system_step at 2. by rewrite Hc. }
  rewrite E. split; by vm_compute.
Qed.
