(* ===== verification/Gateway.v ===== *)
(** * The gateway ([apps/gateway-keeper])

    Every request of the web client goes through it: the rate limiter with its
    fallback ([throttle.rs]), the circuit breaker of each service
    ([circuit_breaker.rs]), the caller's identity ([auth.rs]) and the headers that
    tell it to the services ([internal_identity.rs]), the single-use tickets of the
    live connections ([websocket_proxy.rs], [auction_access.rs]) and the two
    handlers that forward ([proxy.rs]).  Times are milliseconds. *)

From Stdlib Require Import Ascii.
From S2P Require Import Prelude JSNum JSText.
#[local] Open Scope Z_scope.
#[local] Open Scope aqua_scope.

(** ** Errors ([error.rs]) *)
Record GatewayError := mkGatewayError {
  ge_status : Z;
  ge_code : string;
  ge_message : string;
  ge_retry_after : option Z
}.

Definition unauthorized (message : string) : GatewayError := mkGatewayError 401 "UNAUTHORIZED" message None.
Definition unavailable (service : string) : GatewayError :=
  mkGatewayError 503 "CIRCUIT_OPEN" (service +:+ " is temporarily unavailable") (Some 5).

(** [Result]; the errors are values, as the handlers return them. *)
Definition outcome (A : Type) : Type := GatewayError + A.

(** ** The circuit breaker *)
Record CircuitBreaker := mkBreaker { cb_name : string; cb_threshold : Z; cb_open_for : Z }.

(** [CircuitBreaker::new]; the threshold is a [u32]. *)
Definition new_breaker (name : string) (threshold open_for : Z) : CircuitBreaker :=
  mkBreaker name (Z.max 1 threshold) open_for.

Record CircuitState := mkCircuit { failures : Z; open_until : option Z; probe_in_flight : bool }.
Definition circuit0 : CircuitState := mkCircuit 0 None false.

Definition u32_max : Z := 4294967295.
Definition saturating_add1 (n : Z) : Z := Z.min u32_max (n + 1).

Definition allow_request (now : Z) (s : CircuitState) : bool * CircuitState :=
  match open_until s with
  | None => (true, s)
  | Some until =>
      if now <? until then (false, s)
      else if probe_in_flight s then (false, s)
      else (true, mkCircuit (failures s) (open_until s) true)
  end.

Definition record_success (s : CircuitState) : CircuitState := mkCircuit 0 None false.

Definition record_failure (b : CircuitBreaker) (now : Z) (s : CircuitState) : CircuitState :=
  let f := saturating_add1 (failures s) in
  mkCircuit f
    (if (cb_threshold b <=? f) || probe_in_flight s then Some (now + cb_open_for b) else open_until s)
    false.

(** A service behind its breaker: requests arrive, those admitted are answered in
    any order, or dropped when their client goes away before the answer: then
    nothing is recorded. *)
Inductive breaker_event := Arrives | Answers (ok : bool) | Dropped.

Record Guarded := mkGuarded { gd_circuit : CircuitState; gd_in_flight : nat; gd_admitted : nat }.
Definition guarded0 : Guarded := mkGuarded circuit0 0 0.

Definition breaker_step (b : CircuitBreaker) (g : Guarded) (te : Z * breaker_event) : Guarded :=
  let '(now, e) := te in
  match e with
  | Arrives =>
      let '(ok, s) := allow_request now (gd_circuit g) in
      if ok then mkGuarded s (S (gd_in_flight g)) (S (gd_admitted g))
      else mkGuarded s (gd_in_flight g) (gd_admitted g)
  | Answers ok =>
      match gd_in_flight g with
      | O => g
      | S n => mkGuarded (if ok then record_success (gd_circuit g) else record_failure b now (gd_circuit g))
                 n (gd_admitted g)
      end
  | Dropped =>
      match gd_in_flight g with
      | O => g
      | S n => mkGuarded (gd_circuit g) n (gd_admitted g)
      end
  end.

Definition breaker_run (b : CircuitBreaker) (es : list (Z * breaker_event)) (g : Guarded) : Guarded :=
  fold_left (breaker_step b) es g.

(** ** The rate limiter *)
Record LocalWindow := mkWindow { lw_count : Z; lw_resets_at : Z }.

(** The counts in Redis (a key lives until its expiry) and the fallback's. *)
Record Limiter := mkLimiter { lm_redis : gmap string LocalWindow; lm_fallback : gmap string LocalWindow }.
Definition limiter0 : Limiter := mkLimiter ∅ ∅.

Definition as_secs (window : Z) : Z := window / 1000.

(** The script: [INCR], and [EXPIRE] for a new key. *)
Definition redis_incr (key : string) (seconds now : Z) (m : gmap string LocalWindow) :
    Z * gmap string LocalWindow :=
  let w := match m !! key with
           | Some w => if now <? lw_resets_at w then mkWindow (lw_count w + 1) (lw_resets_at w)
                       else mkWindow 1 (now + 1000 * seconds)
           | None => mkWindow 1 (now + 1000 * seconds)
           end in
  (lw_count w, <[key := w]> m).

Definition fallback_incr (key : string) (window now : Z) (m : gmap string LocalWindow) :
    Z * gmap string LocalWindow :=
  let entry := default (mkWindow 0 (now + window)) (m !! key) in
  let entry := if lw_resets_at entry <=? now then mkWindow 0 (now + window) else entry in
  (lw_count entry + 1, <[key := mkWindow (lw_count entry + 1) (lw_resets_at entry)]> m).

Definition rate_decision (count limit window : Z) : outcome unit :=
  if count <=? limit then inr tt
  else inl (mkGatewayError 429 "RATE_LIMITED" "Too many requests" (Some (Z.max 1 (as_secs window)))).

(** [check]; [served] says whether Redis answers. *)
Definition check_rate (served : bool) (now : Z) (key : string) (limit window : Z) (lm : Limiter) :
    outcome unit * Limiter :=
  if served then
    let '(count, m) := redis_incr ("gateway:rate:" +:+ key) (Z.max 1 (as_secs window)) now (lm_redis lm) in
    (rate_decision count limit window, mkLimiter m (lm_fallback lm))
  else
    let '(count, m) := fallback_incr key window now (lm_fallback lm) in
    (rate_decision count limit window, mkLimiter (lm_redis lm) m).

(** ** Identity *)

(** Header names are in lower case; a name may have several values. *)
Notation HeaderMap := (gmap string (list string)).

Definition header (h : HeaderMap) (name : string) : option string := match h !! name with Some (v :: _) => Some v | _ => None end.

Record Claims := mkClaims { cl_sub : string; cl_role : string }.
Record Identity := mkIdentity { id_user : string; id_role : string }.

Fixpoint strip_prefix (p s : string) : option string :=
  match p, s with
  | EmptyString, _ => Some s
  | String a p', String b s' => if Ascii.eqb a b then strip_prefix p' s' else None
  | _, EmptyString => None
  end.

Definition bearer (h : HeaderMap) : option string :=
  match header h "authorization" with Some v => strip_prefix "Bearer " v | None => None end.

(** [part.trim().split_once('=')]. *)
Fixpoint split_once (sep : ascii) (s : string) : option (string * string) :=
  match s with
  | EmptyString => None
  | String c r =>
      if Ascii.eqb c sep then Some (EmptyString, r)
      else match split_once sep r with Some (a, b) => Some (String c a, b) | None => None end
  end.

Definition is_token_cookie (name : string) : bool :=
  existsb (String.eqb name) ["auction_token"; "access_token"; "token"].

Fixpoint find_map {A B} (f : A -> option B) (l : list A) : option B :=
  match l with
  | [] => None
  | x :: r => match f x with Some y => Some y | None => find_map f r end
  end.

Definition cookie_token (h : HeaderMap) : option string :=
  match header h "cookie" with
  | None => None
  | Some cookies =>
      find_map (fun part =>
        match split_once "="%char (trim part) with
        | Some (name, value) => if is_token_cookie name then Some value else None
        | None => None
        end) (js_split ";"%char cookies)
  end.

(** ** What the gateway holds *)
Record SocketTicket := mkTicket { tk_user : string; tk_role : string; tk_expires_at : Z }.

Record GatewayState := mkGateway {
  gs_limiter : Limiter;
  gs_http : CircuitState;
  gs_search : CircuitState;
  gs_socket : CircuitState;
  gs_tickets : gmap string SocketTicket
}.
Definition gateway0 : GatewayState := mkGateway limiter0 circuit0 circuit0 circuit0 ∅.

Definition with_limiter (lm : Limiter) (g : GatewayState) : GatewayState :=
  mkGateway lm (gs_http g) (gs_search g) (gs_socket g) (gs_tickets g).
Definition with_http (s : CircuitState) (g : GatewayState) : GatewayState :=
  mkGateway (gs_limiter g) s (gs_search g) (gs_socket g) (gs_tickets g).
Definition with_search (s : CircuitState) (g : GatewayState) : GatewayState :=
  mkGateway (gs_limiter g) (gs_http g) s (gs_socket g) (gs_tickets g).
Definition with_socket (s : CircuitState) (g : GatewayState) : GatewayState :=
  mkGateway (gs_limiter g) (gs_http g) (gs_search g) s (gs_tickets g).
Definition with_tickets (m : gmap string SocketTicket) (g : GatewayState) : GatewayState :=
  mkGateway (gs_limiter g) (gs_http g) (gs_search g) (gs_socket g) m.

Record Request := mkRequest {
  rq_ip : string;
  rq_method : string;
  rq_path : string;
  rq_path_and_query : string;
  rq_headers : HeaderMap;
  rq_body : string
}.

(** The request that is sent on, and the service's answer. *)
Record Forwarded := mkForwarded { fw_url : string; fw_method : string; fw_headers : HeaderMap; fw_body : string }.
Record Response := mkResponse { rs_status : Z; rs_headers : HeaderMap; rs_body : string }.

(** [base.trim_end_matches('/')]. *)
Fixpoint trim_end (sep : ascii) (s : string) : string :=
  match s with
  | EmptyString => EmptyString
  | String c r =>
      match trim_end sep r with
      | EmptyString => if Ascii.eqb c sep then EmptyString else String c EmptyString
      | r' => String c r'
      end
  end.

Definition INTERNAL_HEADERS : list string :=
  ["x-auction-user-id"; "x-auction-user-role"; "x-auction-auth-timestamp"; "x-auction-auth-signature"; "x-request-id"].

Definition remove_headers (names : list string) (h : HeaderMap) : HeaderMap :=
  fold_left (fun h name => delete name h) names h.

Definition strip_untrusted (h : HeaderMap) : HeaderMap := remove_headers INTERNAL_HEADERS h.

(** [GatewayError::new] of a failed access check. *)
Definition access_unavailable : GatewayError :=
  mkGatewayError 503 "ACCESS_STORE_UNAVAILABLE" "Auction access validation is temporarily unavailable" None.
Definition access_denied : GatewayError :=
  mkGatewayError 403 "AUCTION_ACCESS_DENIED" "Join this auction before opening a live connection" None.

(** The registrations in Redis: a bit per user, under the present and the former
    key of the auction. *)
Record Participants := mkParticipants { pt_bits : gmap string (gset Z); pt_legacy : gmap string (gset Z) }.

(** [retain(|_, ticket| ticket.expires_at > now)]. *)
Definition unexpired (now : Z) (kt : string * SocketTicket) : Prop := now < tk_expires_at kt.2.

#[export] Instance unexpired_dec now kt : Decision (unexpired now kt).
Proof. unfold unexpired. apply _. Defined.

Section Gateway.
(** The token library with the configured key, issuer and audience; the parser of
    identifiers (its canonical text) and an identifier's number; the keyed digest. *)
Context (decode : string -> option Claims) (uuid : string -> result string) (uuid_number : string -> Z).
Context (hmac : string -> string).
(** The configuration of the services. *)
Context (http_breaker search_breaker socket_breaker : CircuitBreaker) (http_url search_url : string).

Definition authenticate (h : HeaderMap) : outcome Identity :=
  match (match bearer h with Some t => Some t | None => cookie_token h end) with
  | None => inl (unauthorized "A bearer token or secure token cookie is required")
  | Some token =>
      match decode token with
      | None => inl (unauthorized "The access token is invalid or expired")
      | Some claims =>
          match uuid (cl_sub claims) with
          | Throw _ => inl (unauthorized "The access token subject is invalid")
          | Ok user_id =>
              let role := to_upper (cl_role claims) in
              if existsb (String.eqb role) ["CUSTOMER"; "CARRIER"; "ADMIN"]
              then inr (mkIdentity user_id role)
              else inl (unauthorized "The access token role is invalid")
          end
      end
  end.

(** [inject]; the values it inserts are valid header values. *)
Definition inject (now_s : Z) (request_id : string) (who : Identity) (method path : string) (h : HeaderMap) : HeaderMap :=
  let payload := id_user who +:+ "|" +:+ id_role who +:+ "|" +:+ string_of_Z now_s +:+ "|" +:+ request_id +:+
                 "|" +:+ method +:+ "|" +:+ path in
  <["x-request-id" := [request_id]]>
  (<["x-auction-auth-signature" := [hmac payload]]>
  (<["x-auction-auth-timestamp" := [string_of_Z now_s]]>
  (<["x-auction-user-role" := [id_role who]]>
  (<["x-auction-user-id" := [id_user who]]> h)))).

(** ** Forwarding ([proxy.rs]) *)

Definition is_public_auth (path : string) : bool :=
  starts_with "/api/auth/" path && negb (String.eqb path "/api/auth/me").

(** [proxy_http] up to the sending. *)
Definition proxy_http (now : Z) (base : string) (b : CircuitBreaker) (s : CircuitState) (rq : Request) (h : HeaderMap) :
    outcome Forwarded * CircuitState :=
  let '(ok, s') := allow_request now s in
  if ok then
    (inr (mkForwarded (trim_end "/"%char base +:+ rq_path_and_query rq) (rq_method rq)
            (remove_headers ["host"; "connection"; "transfer-encoding"] h) (rq_body rq)), s')
  else (inl (unavailable (cb_name b)), s').

(** ... and after it; [None] is a request that failed. *)
Definition proxy_answer (now : Z) (b : CircuitBreaker) (answer : option Response) (s : CircuitState) :
    outcome Response * CircuitState :=
  match answer with
  | None => (inl (unavailable (cb_name b)), record_failure b now s)
  | Some r =>
      (inr (mkResponse (rs_status r)
              (filter (fun nv => starts_with "access-control-" nv.1 = false)
                 (remove_headers ["connection"; "transfer-encoding"] (rs_headers r))) (rs_body r)),
       if (500 <=? rs_status r) && (rs_status r <? 600) then record_failure b now s else record_success s)
  end.

Definition rate_window : Z := 60000.

(** [served] and [served'] say whether Redis answers the two checks. *)
Definition http_proxy (served served' : bool) (now now_s : Z) (request_id : string) (rq : Request) (g : GatewayState) :
    outcome Forwarded * GatewayState :=
  let '(r, lm) := check_rate served now ("ip:" +:+ rq_ip rq) 240 rate_window (gs_limiter g) in
  let g := with_limiter lm g in
  match r with
  | inl e => (inl e, g)
  | inr _ =>
      let h := strip_untrusted (rq_headers rq) in
      let forward h g :=
        let '(f, s) := proxy_http now http_url http_breaker (gs_http g) rq h in (f, with_http s g) in
      if is_public_auth (rq_path rq) then forward h g
      else
        match authenticate h with
        | inl e => (inl e, g)
        | inr who =>
            let '(r, lm) := check_rate served' now ("user:" +:+ id_user who) 120 rate_window (gs_limiter g) in
            let g := with_limiter lm g in
            match r with
            | inl e => (inl e, g)
            | inr _ => forward (inject now_s request_id who (rq_method rq) (rq_path rq) h) g
            end
        end
  end.

Definition search_proxy (served : bool) (now : Z) (rq : Request) (g : GatewayState) :
    outcome Forwarded * GatewayState :=
  let '(r, lm) := check_rate served now ("ip:" +:+ rq_ip rq) 240 rate_window (gs_limiter g) in
  let g := with_limiter lm g in
  match r with
  | inl e => (inl e, g)
  | inr _ =>
      let '(f, s) := proxy_http now search_url search_breaker (gs_search g) rq (strip_untrusted (rq_headers rq)) in
      (f, with_search s g)
  end.

(** ** Live connections ([auction_access.rs], [websocket_proxy.rs]) *)

Definition participant_offset (user_id : string) : Z := uuid_number user_id mod 2147483648.

Definition has_bit (m : gmap string (gset Z)) (auction_id user_id : string) : bool :=
  bool_decide (participant_offset user_id ∈ default ∅ (m !! auction_id)).

(** [up] and [up'] say whether the two reads are served. *)
Definition require_participant (up up' : bool) (p : Participants) (auction_id : string) (who : Identity) : outcome unit :=
  if existsb (String.eqb (id_role who)) ["ADMIN"; "CUSTOMER"] then inr tt
  else if negb up then inl access_unavailable
  else if has_bit (pt_bits p) auction_id (id_user who) then inr tt
  else if negb up' then inl access_unavailable
  else if has_bit (pt_legacy p) auction_id (id_user who) then inr tt
  else inl access_denied.

Definition ticket_life : Z := 30000.

Definition create_ticket (served up up' : bool) (now : Z) (fresh : string) (p : Participants) (auction_id : string)
    (h : HeaderMap) (g : GatewayState) : outcome Identity * GatewayState :=
  match authenticate h with
  | inl e => (inl e, g)
  | inr who =>
      let '(r, lm) := check_rate served now ("socket-ticket:" +:+ id_user who) 30 rate_window (gs_limiter g) in
      let g := with_limiter lm g in
      match r with
      | inl e => (inl e, g)
      | inr _ =>
          match require_participant up up' p auction_id who with
          | inl e => (inl e, g)
          | inr _ =>
              let kept := filter (unexpired now) (gs_tickets g) in
              (inr who, with_tickets (<[fresh := mkTicket (id_user who) (id_role who) (now + ticket_life)]> kept) g)
          end
      end
  end.

(** The handler up to the upgrade; a ticket that is found is used up. *)
Definition socket_proxy (served : bool) (now : Z) (ip : string) (ticket : option string) (g : GatewayState) :
    outcome SocketTicket * GatewayState :=
  let '(r, lm) := check_rate served now ("socket-ip:" +:+ ip) 60 rate_window (gs_limiter g) in
  let g := with_limiter lm g in
  match r with
  | inl e => (inl e, g)
  | inr _ =>
      match ticket with
      | None => (inl (unauthorized "A socket ticket is required"), g)
      | Some value =>
          match gs_tickets g !! value with
          | None => (inl (unauthorized "The socket ticket is invalid or already used"), g)
          | Some t =>
              let g := with_tickets (delete value (gs_tickets g)) g in
              if tk_expires_at t <=? now then (inl (unauthorized "The socket ticket has expired"), g)
              else
                let '(ok, s) := allow_request now (gs_socket g) in
                let g := with_socket s g in
                if ok then (inr t, g) else (inl (unavailable (cb_name socket_breaker)), g)
          end
      end
  end.

(** [bridge]: the connection to the service, once the upgrade has been made. *)
Definition bridge (now : Z) (connected : bool) (g : GatewayState) : GatewayState :=
  with_socket (if connected then record_success (gs_socket g) else record_failure socket_breaker now (gs_socket g)) g.

(** ** The life of tickets *)
Inductive socket_event :=
| AskTicket (served up up' : bool) (fresh : string) (p : Participants) (auction_id : string) (h : HeaderMap)
| OpenSocket (served : bool) (ip : string) (ticket : option string)
| Bridged (connected : bool).

Inductive socket_record :=
| Issued (ticket : string) (who : Identity)
| Opened (ticket : string) (t : SocketTicket).

Definition socket_step (now : Z) (e : socket_event) (g : GatewayState) : GatewayState * list socket_record :=
  match e with
  | AskTicket served up up' fresh p auction_id h =>
      let '(r, g') := create_ticket served up up' now fresh p auction_id h g in
      (g', match r with inr who => [Issued fresh who] | inl _ => [] end)
  | OpenSocket served ip ticket =>
      let '(r, g') := socket_proxy served now ip ticket g in
      (g', match r, ticket with inr t, Some v => [Opened v t] | _, _ => [] end)
  | Bridged connected => (bridge now connected g, [])
  end.

Fixpoint socket_run (es : list (Z * socket_event)) (g : GatewayState) : GatewayState * list (Z * socket_record) :=
  match es with
  | [] => (g, [])
  | (now, e) :: rest =>
      let '(g1, l1) := socket_step now e g in
      let '(g2, l2) := socket_run rest g1 in (g2, map (pair now) l1 ++ l2)
  end.

(** [upstream_url]: the service's address with the scheme of sockets. *)
Definition upstream_url (base path_and_query : string) : string :=
  let base := trim_end "/"%char base in
  (match strip_prefix "https://" base with
   | Some v => "wss://" +:+ v
   | None => match strip_prefix "http://" base with Some v => "ws://" +:+ v | None => base end
   end) +:+ path_and_query.

(** ** What the service checks of the forwarded request ([http-server/src/middleware.rs]) *)
Context (server_decode : string -> option Claims).

Definition auth_middleware (h : HeaderMap) : result Claims :=
  match header h "authorization" with
  | None => Throw "Missing authorization header"
  | Some v =>
      match strip_prefix "Bearer " v with
      | None => Throw "Invalid authorization format. Use Bearer <token>"
      | Some token => match server_decode token with Some c => Ok c | None => Throw "validation failed relogin" end
      end
  end.
End Gateway.

(** ** Lemmas *)

(** *** The breaker *)

Section Breaker.
Context (b : CircuitBreaker).
Hypothesis threshold_ok : 1 <= cb_threshold b <= u32_max.
Hypothesis open_for_pos : 0 <= cb_open_for b.

(** An open breaker has failed often enough, and not for longer than its period
    after the last event. *)
Record breaker_inv (t : Z) (g : Guarded) : Prop := {
  bi_failures : 0 <= failures (gd_circuit g) <= u32_max;
  bi_open : forall u, open_until (gd_circuit g) = Some u ->
    cb_threshold b <= failures (gd_circuit g) /\ u <= t + cb_open_for b;
  bi_probe : probe_in_flight (gd_circuit g) = true ->
    is_Some (open_until (gd_circuit g))
}.

Lemma breaker_inv0 t : breaker_inv t guarded0.
Proof. split; simpl; [unfold u32_max; lia|done|done]. Qed.

Lemma failure_inv t now s n m : t <= now -> breaker_inv t (mkGuarded s n m) ->
  breaker_inv now (mkGuarded (record_failure b now s) (pred n) m).
Proof.
  intros Ht [If Io Ip]. simpl in *. unfold record_failure, saturating_add1. split; simpl; [lia| |done].
  intros u. destruct (cb_threshold b <=? _) eqn:E; simpl; [intros [= <-]; bool_facts; lia|].
  destruct (probe_in_flight s); [|intros Hu; destruct (Io u Hu); lia].
  destruct (Ip eq_refl) as [u' Hu']. specialize (Io _ Hu'). intros [= <-]. bool_facts. lia.
Qed.

Lemma breaker_step_inv t now e g : t <= now -> breaker_inv t g -> breaker_inv now (breaker_step b g (now, e)).
Proof.
  intros Ht I. destruct g as [s n m]. assert (Iw : forall n m, breaker_inv now (mkGuarded s n m)).
  { destruct I as [If Io Ip]. split; simpl in *; [done| |done]. intros u Hu. specialize (Io u Hu). lia. }
  simpl. destruct e as [|[]|].
  - unfold allow_request. destruct (open_until s) as [u|] eqn:Eu; [|apply Iw].
    destruct (now <? u); [apply Iw|]. destruct (probe_in_flight s); [apply Iw|].
    destruct (Iw n m) as [If Io Ip]. split; simpl in *; [done|intros u' [= <-]; by apply Io|by eexists].
  - destruct n; [apply Iw|]. split; simpl; [unfold u32_max; lia|done|done].
  - destruct n as [|n]; [apply Iw|]. by apply (failure_inv t now s (S n) m).
  - destruct n; apply Iw.
Qed.

(** Events in the order of their times, from [t] on. *)
Fixpoint timed (t : Z) (es : list (Z * breaker_event)) : Prop :=
  match es with [] => True | (now, _) :: rest => t <= now /\ timed now rest end.

Fixpoint last_time (t : Z) (es : list (Z * breaker_event)) : Z :=
  match es with [] => t | (now, _) :: rest => last_time now rest end.

Lemma last_time_ge t es : timed t es -> t <= last_time t es.
Proof.
  revert t; induction es as [|[now e] es IH]; intros t; [simpl; lia|].
  intros [H1 H2]. cbn [last_time]. specialize (IH now H2). lia.
Qed.

Lemma breaker_run_inv t es g : timed t es -> breaker_inv t g -> breaker_inv (last_time t es) (breaker_run b es g).
Proof.
  revert t g; induction es as [|[now e] es IH]; intros t g Ht I; [done|].
  destruct Ht as [H1 H2]. cbn [last_time]. simpl. apply IH; [done|]. by eapply breaker_step_inv.
Qed.

(** Without dropped requests a probe is one of the requests in flight. *)
Definition probe_pending (g : Guarded) : Prop :=
  probe_in_flight (gd_circuit g) = true -> (0 < gd_in_flight g)%nat.

Lemma probe_step te g : te.2 <> Dropped -> probe_pending g -> probe_pending (breaker_step b g te).
Proof.
  destruct te as [now e], g as [s n m]. unfold probe_pending. simpl. intros He H.
  destruct e as [|ok|]; [| |done].
  - unfold allow_request. destruct (open_until s) as [u|]; simpl; [|lia].
    destruct (now <? u); simpl; [done|]. destruct (probe_in_flight s) eqn:E; simpl; [by rewrite E|lia].
  - destruct n; [done|]. destruct ok; simpl; done.
Qed.

Lemma probe_run es g : Forall (fun te => te.2 <> Dropped) es -> probe_pending g -> probe_pending (breaker_run b es g).
Proof.
  apply fold_left_inv. intros g' te Hte. by apply probe_step.
Qed.

(** The earliest time at which the next request can be let through. *)
Definition next_probe (t : Z) (s : CircuitState) : Z :=
  if probe_in_flight s then t + cb_open_for b else Z.max t (default t (open_until s)).

(** While no answer is good, the requests let through are a period apart. *)
Lemma probes_apart es : forall t g, timed t es -> Forall (fun te => te.2 <> Answers true) es ->
  breaker_inv t g -> is_Some (open_until (gd_circuit g)) ->
  let k := (gd_admitted (breaker_run b es g) - gd_admitted g)%nat in
  (gd_admitted g <= gd_admitted (breaker_run b es g))%nat /\
  (k = 0%nat \/ next_probe t (gd_circuit g) + (Z.of_nat k - 1) * cb_open_for b <= last_time t es).
Proof.
  induction es as [|[now e] es IH]; intros t g Ht He I [u Hu]; [simpl; split; [lia|left; lia]|].
  destruct Ht as [H1 H2]. inversion He as [|? ? Hne He']; subst. simpl in Hne.
  cbn [last_time]. pose proof (last_time_ge now es H2) as Hl.
  pose proof (breaker_step_inv t now e g H1 I) as I'. simpl breaker_run.
  destruct g as [s n m]. destruct I as [If Io Ip]. simpl in *. specialize (Io u Hu).
  assert (Stay : forall n', let g' := mkGuarded s n' m in breaker_inv now g' ->
    (m <= gd_admitted (breaker_run b es g'))%nat /\
    ((gd_admitted (breaker_run b es g') - m)%nat = 0%nat \/
     next_probe t s + (Z.of_nat (gd_admitted (breaker_run b es g') - m) - 1) * cb_open_for b <= last_time now es)).
  { intros n' g' Ig. destruct (IH now g' H2 He' Ig) as [Ha Hb]; [by exists u|]. split; [exact Ha|].
    simpl in Hb. destruct Hb as [Hb|Hb]; [by left|right]. unfold next_probe in *. rewrite Hu in *. simpl in *.
    destruct (probe_in_flight s); lia. }
  destruct e as [|[]|]; [|done| |].
  - unfold allow_request in *. rewrite Hu in *. destruct (now <? u) eqn:E1; [by apply Stay|].
    destruct (probe_in_flight s) eqn:E2; [by apply Stay|].
    set (g' := mkGuarded _ _ _) in *. destruct (IH now g' H2 He' I') as [Ha Hb]; [by eexists|].
    simpl in Ha, Hb. split; [lia|]. right. unfold next_probe in *. rewrite E2, Hu. simpl in *. bool_facts.
    destruct Hb as [Hb|Hb]; [|nia].
    assert (Hk : (gd_admitted (breaker_run b es g') - m)%nat = 1%nat) by lia. rewrite Hk. nia.
  - destruct n as [|n]; [by apply Stay|].
    assert (Ho : open_until (record_failure b now s) = Some (now + cb_open_for b)).
    { unfold record_failure, saturating_add1. simpl. destruct (cb_threshold b <=? _) eqn:E; [done|]. bool_facts. lia. }
    set (g' := mkGuarded (record_failure b now s) n m) in *.
    destruct (IH now g' H2 He' I') as [Ha Hb]; [change (is_Some (open_until (record_failure b now s))); rewrite Ho; by eexists|]. split; [exact Ha|].
    change (gd_circuit g') with (record_failure b now s) in Hb. change (gd_admitted g') with m in Hb.
    destruct Hb as [Hb|Hb]; [by left|right]. unfold next_probe in *. rewrite Ho in Hb. rewrite Hu. simpl in *.
    destruct (probe_in_flight s); lia.
  - destruct n; by apply Stay.
Qed.
End Breaker.

(** *** The rate limiter *)

(** One more request in a window. *)
Definition hit (width now : Z) (w : option LocalWindow) : LocalWindow :=
  match w with
  | Some w => if now <? lw_resets_at w then mkWindow (lw_count w + 1) (lw_resets_at w) else mkWindow 1 (now + width)
  | None => mkWindow 1 (now + width)
  end.

Lemma redis_hit key seconds now m :
  redis_incr key seconds now m =
  (lw_count (hit (1000 * seconds) now (m !! key)), <[key := hit (1000 * seconds) now (m !! key)]> m).
Proof. unfold redis_incr, hit. by destruct (m !! key). Qed.

Lemma fallback_hit key window now m : 0 < window ->
  fallback_incr key window now m =
  (lw_count (hit window now (m !! key)), <[key := hit window now (m !! key)]> m).
Proof.
  intros Hw. unfold fallback_incr, hit. destruct (m !! key) as [w|]; simpl.
  - destruct (lw_resets_at w <=? now) eqn:E1, (now <? lw_resets_at w) eqn:E2; simpl; bool_facts; try lia; done.
  - destruct (now + window <=? now) eqn:E; bool_facts; [lia|done].
Qed.

(** How many requests a window lets through. *)
Fixpoint let_through (width limit : Z) (ts : list Z) (w : option LocalWindow) : Z :=
  match ts with
  | [] => 0
  | now :: rest =>
      let w' := hit width now w in
      (if lw_count w' <=? limit then 1 else 0) + let_through width limit rest (Some w')
  end.

Definition spare (limit : Z) (w : option LocalWindow) : Z :=
  match w with Some w => Z.max 0 (limit - lw_count w) | None => limit end.

Lemma let_through_fresh width limit t0 ts w : Forall (fun t => t0 <= t < t0 + width) ts ->
  t0 + width <= lw_resets_at w -> let_through width limit ts (Some w) <= spare limit (Some w).
Proof.
  intros Ht. revert w; induction Ht as [|t ts Ht _ IH]; intros w Hw; [simpl; lia|].
  cbn [let_through hit]. destruct (t <? lw_resets_at w) eqn:E; bool_facts; [|lia].
  specialize (IH (mkWindow (lw_count w + 1) (lw_resets_at w)) Hw). simpl in *.
  destruct (lw_count w + 1 <=? limit) eqn:E2; bool_facts; lia.
Qed.

(** In a period no longer than the window the count is reset at most once. *)
Lemma let_through_twice width limit t0 ts w : 0 <= limit -> Forall (fun t => t0 <= t < t0 + width) ts ->
  let_through width limit ts w <= spare limit w + limit.
Proof.
  intros Hl Ht. revert w; induction Ht as [|t ts Ht Hts IH]; intros w; [destruct w; simpl; lia|].
  assert (New : let_through width limit (t :: ts) None <= limit).
  { cbn [let_through hit]. pose proof (let_through_fresh width limit t0 ts (mkWindow 1 (t + width)) Hts) as F.
    simpl in *. specialize (F ltac:(lia)). destruct (1 <=? limit) eqn:E; bool_facts; lia. }
  destruct w as [w|]; [|simpl spare; lia]. cbn [let_through hit] in New |- *.
  destruct (t <? lw_resets_at w) eqn:E; [|simpl spare; lia].
  specialize (IH (Some (mkWindow (lw_count w + 1) (lw_resets_at w)))). simpl in *.
  destruct (lw_count w + 1 <=? limit) eqn:E2; bool_facts; lia.
Qed.

(** The requests of all keys, in the order they are checked. *)
Record Rated := mkRated { rt_served : bool; rt_now : Z; rt_key : string; rt_limit : Z; rt_window : Z }.

Definition rate_step (c : Rated) (lm : Limiter) : outcome unit * Limiter :=
  check_rate (rt_served c) (rt_now c) (rt_key c) (rt_limit c) (rt_window c) lm.

Fixpoint admitted_for (key : string) (cs : list Rated) (lm : Limiter) : Z :=
  match cs with
  | [] => 0
  | c :: rest =>
      let '(r, lm') := rate_step c lm in
      (if bool_decide (rt_key c = key) then match r with inr _ => 1 | inl _ => 0 end else 0) +
      admitted_for key rest lm'
  end.

Definition times_of (served : bool) (key : string) (cs : list Rated) : list Z :=
  omap (fun c => if Bool.eqb (rt_served c) served && bool_decide (rt_key c = key) then Some (rt_now c) else None) cs.

Definition redis_key (key : string) : string := "gateway:rate:" +:+ key.

Lemma redis_key_inj a b : redis_key a = redis_key b -> a = b.
Proof. unfold redis_key. by intros ?%(inj _). Qed.

Lemma decision_hit limit count window :
  match rate_decision count limit window with inr _ => 1 | inl _ => 0 end = if count <=? limit then 1 else 0.
Proof. unfold rate_decision. by destruct (count <=? limit). Qed.

Lemma times_of_cons served key c cs :
  times_of served key (c :: cs) =
  if Bool.eqb (rt_served c) served && bool_decide (rt_key c = key) then rt_now c :: times_of served key cs
  else times_of served key cs.
Proof. unfold times_of. csimpl. by destruct (_ && _). Qed.

(** The requests of a key are those of its two windows. *)
Lemma admitted_split key limit seconds cs : 0 < seconds ->
  Forall (fun c => 0 < rt_window c /\ (rt_key c = key -> rt_limit c = limit /\ rt_window c = 1000 * seconds)) cs ->
  forall lm, admitted_for key cs lm =
    let_through (1000 * seconds) limit (times_of true key cs) (lm_redis lm !! redis_key key) +
    let_through (1000 * seconds) limit (times_of false key cs) (lm_fallback lm !! key).
Proof.
  intros Hs Hc. induction Hc as [|c cs [Hw Hc] _ IH]; intros lm; [done|].
  cbn [admitted_for]. unfold rate_step, check_rate. rewrite !times_of_cons. change ("gateway:rate:" +:+ rt_key c) with (redis_key (rt_key c)).
  destruct (rt_served c); rewrite ?redis_hit, ?fallback_hit by done; rewrite IH; cbn [lm_redis lm_fallback Bool.eqb andb app];
    (case_bool_decide as Hk; [destruct (Hc Hk) as [-> Hwin]; subst key|]).
  - rewrite Hwin, lookup_insert_eq, decision_hit. unfold as_secs.
    replace (Z.max 1 (1000 * seconds / 1000)) with seconds by (rewrite Z.mul_comm, Z.div_mul by lia; lia).
    cbn [let_through]. lia.
  - rewrite lookup_insert_ne by (intros E; by apply Hk, redis_key_inj). lia.
  - rewrite Hwin, lookup_insert_eq, decision_hit. cbn [let_through]. lia.
  - rewrite lookup_insert_ne by done. lia.
Qed.

Lemma times_within (P : Z -> Prop) served key cs : Forall (fun c => rt_key c = key -> P (rt_now c)) cs ->
  Forall P (times_of served key cs).
Proof.
  induction 1 as [|c cs Hc _ IH]; [constructor|]. rewrite times_of_cons.
  destruct (Bool.eqb _ _ && bool_decide _) eqn:E; [|done]. apply andb_true_iff in E as [_ E%bool_decide_eq_true].
  constructor; auto.
Qed.

Definition counts_ok (lm : Limiter) : Prop :=
  (forall k w, lm_redis lm !! k = Some w -> 0 <= lw_count w) /\
  (forall k w, lm_fallback lm !! k = Some w -> 0 <= lw_count w).

Lemma spare_limit limit w : 0 <= limit -> (forall x, w = Some x -> 0 <= lw_count x) -> spare limit w <= limit.
Proof. intros Hl Hw. destruct w as [x|]; simpl; [specialize (Hw x eq_refl)|]; lia. Qed.

(** *** Headers *)

Lemma remove_headers_lookup names h n :
  remove_headers names h !! n = if existsb (String.eqb n) names then None else h !! n.
Proof.
  unfold remove_headers. revert h; induction names as [|x names IH]; intros h; [done|]. simpl. rewrite IH.
  destruct (String.eqb_spec n x) as [->|Hn]; simpl.
  - destruct (existsb _ _); [done|by rewrite lookup_delete_eq].
  - by rewrite lookup_delete_ne.
Qed.

Lemma strip_header h n : existsb (String.eqb n) INTERNAL_HEADERS = false ->
  header (strip_untrusted h) n = header h n.
Proof. intros E. unfold header, strip_untrusted. by rewrite remove_headers_lookup, E. Qed.

Lemma strip_authenticate decode uuid h :
  authenticate decode uuid (strip_untrusted h) = authenticate decode uuid h.
Proof. unfold authenticate, bearer, cookie_token. by rewrite !strip_header. Qed.

Lemma inject_lookup hmac now_s rid who m p h n :
  existsb (String.eqb n) INTERNAL_HEADERS = false -> inject hmac now_s rid who m p h !! n = h !! n.
Proof.
  intros E. unfold inject, INTERNAL_HEADERS in *. simpl in E.
  repeat (apply orb_false_iff in E as [?%String.eqb_neq E]). by rewrite !lookup_insert_ne.
Qed.

Lemma inject_own hmac now_s rid who m p h :
  let h' := inject hmac now_s rid who m p h in
  h' !! "x-auction-user-id" = Some [id_user who] /\ h' !! "x-auction-user-role" = Some [id_role who] /\
  h' !! "x-request-id" = Some [rid] /\
  h' !! "x-auction-auth-signature" =
    Some [hmac (id_user who +:+ "|" +:+ id_role who +:+ "|" +:+ string_of_Z now_s +:+ "|" +:+ rid +:+ "|" +:+ m +:+ "|" +:+ p)].
Proof. unfold inject. repeat split; by rewrite ?lookup_insert_ne, ?lookup_insert_eq by done. Qed.

Definition HOP_HEADERS : list string := ["host"; "connection"; "transfer-encoding"].

Lemma proxy_http_headers now base b s rq h fw s' :
  proxy_http now base b s rq h = (inr fw, s') -> fw_headers fw = remove_headers HOP_HEADERS h.
Proof. unfold proxy_http. destruct (allow_request now s) as [[] s1]; by intros [= <- <-]. Qed.

(** *** Tickets *)

Section Tickets.
Context (decode : string -> option Claims) (uuid : string -> result string) (uuid_number : string -> Z).
Context (socket_breaker : CircuitBreaker).
Let create := create_ticket decode uuid uuid_number.
Let present := socket_proxy socket_breaker.
Let serve := socket_run decode uuid uuid_number socket_breaker.
Let serve1 := socket_step decode uuid uuid_number socket_breaker.

Definition ticket_for (t0 : Z) (who : Identity) : SocketTicket := mkTicket (id_user who) (id_role who) (t0 + ticket_life).

Lemma create_spec served up up' now fresh p a h g :
  let '(r, g') := create served up up' now fresh p a h g in
  match r with
  | inl _ => gs_tickets g' = gs_tickets g
  | inr who => gs_tickets g' = <[fresh := ticket_for now who]> (filter (unexpired now) (gs_tickets g)) /\
               authenticate decode uuid h = inr who /\ require_participant uuid_number up up' p a who = inr tt
  end.
Proof.
  unfold create, create_ticket. destruct (authenticate decode uuid h) as [e|who]; [done|].
  destruct (check_rate _ _ _ _ _ _) as [[e|u] lm]; [done|].
  destruct (require_participant _ _ _ _ _ _) as [e|[]] eqn:E; [done|]. by repeat split.
Qed.

Lemma present_spec served now ip ticket g :
  let '(r, g') := present served now ip ticket g in
  match r with
  | inr t => exists v, ticket = Some v /\ gs_tickets g !! v = Some t /\ now < tk_expires_at t /\
               gs_tickets g' = delete v (gs_tickets g)
  | inl _ => gs_tickets g' = gs_tickets g \/ exists v, ticket = Some v /\ gs_tickets g' = delete v (gs_tickets g)
  end.
Proof.
  unfold present, socket_proxy. destruct (check_rate _ _ _ _ _ _) as [[e|u] lm]; [by left|].
  destruct ticket as [v|]; [|by left]. cbn [gs_tickets with_limiter].
  destruct (gs_tickets g !! v) as [t|] eqn:Et; [|by left].
  destruct (tk_expires_at t <=? now) eqn:Ee; [right; by exists v|]. cbn [gs_socket with_tickets with_limiter].
  destruct (allow_request now (gs_socket g)) as [[] s]; [|right; by exists v].
  exists v. bool_facts. done.
Qed.

Definition issued (log : list (Z * socket_record)) : list string :=
  omap (fun r => match r.2 with Issued v _ => Some v | _ => None end) log.
Definition opened (log : list (Z * socket_record)) : list string :=
  omap (fun r => match r.2 with Opened v _ => Some v | _ => None end) log.

Lemma issued_elem log v : v ∈ issued log <-> exists t who, (t, Issued v who) ∈ log.
Proof.
  unfold issued. rewrite list_elem_of_omap. split.
  - intros ([t [x who|x k]] & Hx & [= ->]). eauto.
  - intros (t & who & H). by exists (t, Issued v who).
Qed.

Lemma opened_elem log v : v ∈ opened log <-> exists t k, (t, Opened v k) ∈ log.
Proof.
  unfold opened. rewrite list_elem_of_omap. split.
  - intros ([t [x who|x k]] & Hx & [= ->]). eauto.
  - intros (t & k & H). by exists (t, Opened v k).
Qed.

Lemma issued_app l l' : issued (l ++ l') = issued l ++ issued l'.
Proof. apply omap_app. Qed.
Lemma opened_app l l' : opened (l ++ l') = opened l ++ opened l'.
Proof. apply omap_app. Qed.

(** What the log says of the tickets that are kept and of those that were used. *)
Record ticket_inv (t : Z) (log : list (Z * socket_record)) (g : GatewayState) : Prop := {
  ti_kept : forall v k, gs_tickets g !! v = Some k ->
    (v ∉ opened log) /\ exists t0 who, (t0, Issued v who) ∈ log /\ k = ticket_for t0 who /\ t0 <= t;
  ti_opened : forall t1 v k, (t1, Opened v k) ∈ log ->
    exists t0 who, (t0, Issued v who) ∈ log /\ k = ticket_for t0 who /\ t0 <= t1 < t0 + ticket_life;
  ti_once : NoDup (opened log)
}.

Lemma ticket_inv_kept t now log g g' : t <= now -> ticket_inv t log g -> gs_tickets g' ⊆ gs_tickets g ->
  ticket_inv now log g'.
Proof.
  intros Ht [I1 I2 I3] Hs. split; [|done|done]. intros v k Hv.
  destruct (I1 v k) as (Ho & t0 & who & H1 & H2 & H3); [by eapply lookup_weaken|].
  split; [done|]. exists t0, who. split; [done|]. split; [done|lia].
Qed.

Lemma ticket_step t now e log g : t <= now -> ticket_inv t log g ->
  let '(g', l) := serve1 now e g in
  NoDup (issued (log ++ map (pair now) l)) -> ticket_inv now (log ++ map (pair now) l) g'.
Proof.
  intros Ht I. unfold serve1, socket_step. destruct e as [served up up' fresh p a h|served ip ticket|ok].
  - pose proof (create_spec served up up' now fresh p a h g) as S. unfold create in S.
    destruct (create_ticket _ _ _ _ _ _ _ _ _ _ _ _) as [[e|who] g'].
    { rewrite app_nil_r. intros _. apply (ticket_inv_kept t now log g); [done|done|by rewrite S]. }
    destruct S as (S & _). simpl. rewrite issued_app. intros Hn. destruct I as [I1 I2 I3].
    assert (Hf : fresh ∉ issued log).
    { apply NoDup_app in Hn as (_ & Hn & _). intros Hin. by apply (Hn _ Hin), list_elem_of_singleton. }
    assert (Hop : opened (log ++ [(now, Issued fresh who)]) = opened log) by (rewrite opened_app; apply app_nil_r).
    split; rewrite ?Hop; [|intros t1 v k Hk|done].
    + intros v k. rewrite S. destruct (decide (v = fresh)) as [->|Hne].
      * rewrite lookup_insert_eq. intros [= <-]. split.
        -- intros (t1 & k & Hk)%opened_elem. destruct (I2 _ _ _ Hk) as (t0 & w & Hi & _).
           apply Hf, issued_elem. eauto.
        -- exists now, who. split; [apply elem_of_app; right; by left|]. split; [done|lia].
      * rewrite lookup_insert_ne by done. intros [Hk _]%map_lookup_filter_Some.
        destruct (I1 v k Hk) as (Ho & t0 & w & H1 & H2 & H3). split; [done|]. exists t0, w.
        split; [apply elem_of_app; by left|]. split; [done|lia].
    + apply elem_of_app in Hk as [Hk|Hk]; [|by apply list_elem_of_singleton in Hk].
      destruct (I2 _ _ _ Hk) as (t0 & w & H1 & H2). exists t0, w. split; [apply elem_of_app; by left|done].
  - pose proof (present_spec served now ip ticket g) as S. unfold present in S.
    destruct (socket_proxy _ _ _ _ _ _) as [[e|k] g'].
    { rewrite app_nil_r. intros _. apply (ticket_inv_kept t now log g); [done|done|].
      destruct S as [->|(v & _ & ->)]; [done|apply delete_subseteq]. }
    destruct S as (v & -> & Hk & Hx & S). simpl. intros _. destruct I as [I1 I2 I3].
    destruct (I1 v k Hk) as (Ho & t0 & who & Hi & -> & H0).
    assert (Hop : opened (log ++ [(now, Opened v (ticket_for t0 who))]) = opened log ++ [v]) by apply opened_app.
    split; rewrite ?Hop; [| |apply NoDup_app; split; [done|split; [|apply NoDup_singleton]]; by intros x Hin ->%list_elem_of_singleton].
    + intros v' k'. rewrite S. intros [Hne Hv']%lookup_delete_Some. destruct (I1 v' k' Hv') as (Ho' & t1 & w & H1 & H2 & H3).
      split; [by intros [?| ->%list_elem_of_singleton]%elem_of_app|]. exists t1, w.
      split; [apply elem_of_app; by left|]. split; [done|lia].
    + intros t1 v' k' [Hin|Hin]%elem_of_app.
      * destruct (I2 _ _ _ Hin) as (t2 & w & H1 & H2). exists t2, w. split; [apply elem_of_app; by left|done].
      * apply list_elem_of_singleton in Hin as [= -> -> ->]. exists t0, who. split; [apply elem_of_app; by left|].
        split; [done|]. simpl in Hx. lia.
  - rewrite app_nil_r. intros _. by apply (ticket_inv_kept t now log g).
Qed.

(** Events in the order of their times. *)
Fixpoint in_time (t : Z) (es : list (Z * socket_event)) : Prop :=
  match es with [] => True | (now, _) :: rest => t <= now /\ in_time now rest end.

Lemma ticket_run es : forall t log g, in_time t es -> ticket_inv t log g ->
  NoDup (issued (log ++ (serve es g).2)) -> exists t', ticket_inv t' (log ++ (serve es g).2) (serve es g).1.
Proof.
  induction es as [|[now e] es IH]; intros t log g Ht I Hn.
  - simpl in *. rewrite app_nil_r in *. eauto.
  - destruct Ht as [H1 H2]. unfold serve in *. cbn [socket_run] in *.
    pose proof (ticket_step t now e log g H1 I) as S. unfold serve1 in S.
    destruct (socket_step _ _ _ _ now e g) as [g1 l1]. specialize (IH now (log ++ map (pair now) l1) g1 H2).
    destruct (socket_run _ _ _ _ es g1) as [g2 l2]. simpl in *. rewrite app_assoc in *.
    apply IH; [|done]. apply S. rewrite issued_app in Hn. by apply NoDup_app in Hn as [? _].
Qed.

(** An unused ticket waits. *)
Definition leaves_alone (v : string) (e : socket_event) : Prop :=
  match e with
  | AskTicket _ _ _ fresh _ _ _ => fresh <> v
  | OpenSocket _ _ ticket => ticket <> Some v
  | Bridged _ => True
  end.

Lemma ticket_waits v k es : forall g, gs_tickets g !! v = Some k ->
  Forall (fun e => leaves_alone v e.2 /\ e.1 < tk_expires_at k) es -> gs_tickets (serve es g).1 !! v = Some k.
Proof.
  induction es as [|[now e] es IH]; intros g Hg Hes; [done|]. inversion Hes as [|? ? [Hl Hx] Hes']; subst. simpl in *.
  unfold serve in *. cbn [socket_run].
  assert (G : gs_tickets (serve1 now e g).1 !! v = Some k).
  { unfold serve1, socket_step. destruct e as [served up up' fresh p a h|served ip ticket|ok]; [| |done].
    - pose proof (create_spec served up up' now fresh p a h g) as S. unfold create in S.
      destruct (create_ticket _ _ _ _ _ _ _ _ _ _ _ _) as [[e|who] g']; simpl; [by rewrite S|].
      destruct S as (-> & _). rewrite lookup_insert_ne by done. by apply map_lookup_filter_Some.
    - pose proof (present_spec served now ip ticket g) as S. unfold present in S.
      destruct (socket_proxy _ _ _ _ _ _) as [[e|k'] g']; simpl.
      + destruct S as [->|(x & -> & ->)]; [done|]. rewrite lookup_delete_ne; [done|]. simpl in Hl. congruence.
      + destruct S as (x & -> & _ & _ & ->). rewrite lookup_delete_ne; [done|]. simpl in Hl. congruence. }
  unfold serve1 in G. destruct (socket_step _ _ _ _ now e g) as [g1 l1]. specialize (IH g1 G Hes').
  by destruct (socket_run _ _ _ _ es g1).
Qed.
End Tickets.

Definition rate_run (cs : list Rated) (lm : Limiter) : Limiter := fold_left (fun lm c => (rate_step c lm).2) cs lm.

Lemma hit_positive width now w : (forall x, w = Some x -> 0 <= lw_count x) -> 0 <= lw_count (hit width now w).
Proof.
  intros H. destruct w as [x|]; simpl; [|lia]. specialize (H x eq_refl). destruct (now <? _); simpl; lia.
Qed.

Lemma counts_run cs lm : Forall (fun c => 0 < rt_window c) cs -> counts_ok lm -> counts_ok (rate_run cs lm).
Proof.
  apply fold_left_inv. clear. intros lm c Hw [H1 H2]. unfold rate_step, check_rate. destruct (rt_served c); rewrite ?redis_hit, ?fallback_hit by done; split; simpl; try done;
    intros k w [[_ <-]|[_ Hk]]%lookup_insert_Some; eauto using hit_positive.
Qed.

(** ** Properties *)

(** C28: a dead service is left alone.  Once the breaker has opened, and as long as no
    answer is good, the requests that it lets through are at least [open_for]
    apart, whatever arrives, in whatever order the late answers to earlier
    requests come in and whichever requests are dropped. *)
Theorem dead_service_is_probed_apart b es0 es t0 :
  1 <= cb_threshold b <= u32_max -> 0 <= cb_open_for b ->
  timed t0 es0 -> timed (last_time t0 es0) es -> Forall (fun te => te.2 <> Answers true) es ->
  let g := breaker_run b es0 guarded0 in
  is_Some (open_until (gd_circuit g)) ->
  let k := (gd_admitted (breaker_run b es g) - gd_admitted g)%nat in
  (Z.of_nat k - 1) * cb_open_for b <= last_time (last_time t0 es0) es - last_time t0 es0.
Proof.
  intros Hb Ho H0 H1 He g Hg k. set (t := last_time t0 es0) in *.
  assert (I : breaker_inv b t g) by (apply breaker_run_inv; try done; apply breaker_inv0).
  destruct (probes_apart b Hb Ho es t g H1 He I Hg) as [_ [Hk|Hk]]; fold k in Hk.
  - pose proof (last_time_ge t es H1). rewrite Hk. lia.
  - unfold next_probe in Hk. destruct (probe_in_flight (gd_circuit g)); lia.
Qed.

(** C27: a service comes back.  When every request that was let through has been
    answered, the breaker lets a request through from [open_for] after the last
    event on.  A probe whose client went away is never answered: with nothing else
    in flight the breaker stays as it is for ever, whatever arrives, and lets
    nothing through. *)
Theorem breaker_reopens_unless_probe_dropped b es t0 now :
  1 <= cb_threshold b <= u32_max -> 0 <= cb_open_for b -> timed t0 es ->
  let g := breaker_run b es guarded0 in
  gd_in_flight g = 0%nat ->
  (Forall (fun te => te.2 <> Dropped) es -> last_time t0 es + cb_open_for b <= now ->
   (allow_request now (gd_circuit g)).1 = true) /\
  (probe_in_flight (gd_circuit g) = true -> forall later, breaker_run b later g = g).
Proof.
  intros Hb Ho Ht g Hn.
  assert (I : breaker_inv b (last_time t0 es) g) by (apply breaker_run_inv; try done; apply breaker_inv0).
  split.
  - intros He Hnow. assert (P : probe_pending g) by (by apply probe_run).
    unfold allow_request. destruct (open_until (gd_circuit g)) as [u|] eqn:Eu; [|done].
    destruct (bi_open _ _ _ I u Eu) as [_ Hu]. destruct (now <? u) eqn:E; [bool_facts; lia|].
    destruct (probe_in_flight (gd_circuit g)) eqn:Ep; [|done]. specialize (P Ep). lia.
  - intros Hp. destruct (bi_probe _ _ _ I Hp) as [u Hu]. clearbody g. destruct g as [s n m]. simpl in *. subst n.
    intros later. induction later as [|[t e] later IH]; [done|]. cbn [breaker_run fold_left].
    replace (breaker_step b (mkGuarded s 0 m) (t, e)) with (mkGuarded s 0 m); [done|].
    destruct e; simpl; [|done|done]. unfold allow_request. rewrite Hu. destruct (t <? u); [done|]. by rewrite Hp.
Qed.

(** C29: the rate limit.  In a period as long as its window a key gets at most twice
    its limit through while Redis answers, and at most four times when Redis comes
    and goes, because the fallback counts on its own; other keys do not matter. *)
Theorem limiter_admits_at_most key limit seconds t0 cs0 cs :
  0 < seconds -> 0 <= limit -> Forall (fun c => 0 < rt_window c) cs0 ->
  Forall (fun c => 0 < rt_window c /\ (rt_key c = key -> rt_limit c = limit /\ rt_window c = 1000 * seconds)) cs ->
  Forall (fun c => rt_key c = key -> t0 <= rt_now c < t0 + 1000 * seconds) cs ->
  let n := admitted_for key cs (rate_run cs0 limiter0) in
  n <= 4 * limit /\ (Forall (fun c => rt_key c = key -> rt_served c = true) cs -> n <= 2 * limit).
Proof.
  intros Hs Hl H0 Hc Ht n. set (lm := rate_run cs0 limiter0) in *.
  assert (C : counts_ok lm) by (by apply counts_run). destruct C as [C1 C2]. unfold n.
  rewrite (admitted_split key limit seconds) by done.
  pose proof (fun served w => let_through_twice (1000 * seconds) limit t0 (times_of served key cs) w Hl
    (times_within _ served key cs Ht)) as B.
  pose proof (B true (lm_redis lm !! redis_key key)) as B1. pose proof (B false (lm_fallback lm !! key)) as B2.
  pose proof (spare_limit limit _ Hl (C1 (redis_key key))). pose proof (spare_limit limit _ Hl (C2 key)).
  split; [lia|]. intros Hr. replace (times_of false key cs) with (@nil Z); [simpl; lia|].
  clear -Hr. induction Hr as [|c cs Hc _ IH]; [done|]. rewrite times_of_cons, <-IH.
  case_bool_decide as E; [by rewrite (Hc E)|by rewrite andb_false_r].
Qed.

(** C26: identity is the gateway's word.  A request that is forwarded to the service
    carries, under the names that tell who sent it, either nothing, on the public
    paths, or the caller that its token authenticates, signed for this method and
    path: nothing that the client wrote under these names gets through; every
    other header does, but for the three of the connection. *)
Theorem forwarded_identity_is_authentic decode uuid hmac b url served served' now now_s rid rq g fw g' :
  http_proxy decode uuid hmac b url served served' now now_s rid rq g = (inr fw, g') ->
  (if is_public_auth (rq_path rq) then forall n, In n INTERNAL_HEADERS -> fw_headers fw !! n = None
   else exists who, authenticate decode uuid (rq_headers rq) = inr who /\
     fw_headers fw !! "x-auction-user-id" = Some [id_user who] /\
     fw_headers fw !! "x-auction-user-role" = Some [id_role who] /\
     fw_headers fw !! "x-request-id" = Some [rid] /\
     fw_headers fw !! "x-auction-auth-signature" =
       Some [hmac (id_user who +:+ "|" +:+ id_role who +:+ "|" +:+ string_of_Z now_s +:+ "|" +:+ rid +:+ "|" +:+
                   rq_method rq +:+ "|" +:+ rq_path rq)]) /\
  (forall n, existsb (String.eqb n) (INTERNAL_HEADERS ++ HOP_HEADERS) = false ->
     fw_headers fw !! n = rq_headers rq !! n).
Proof.
  unfold http_proxy. destruct (check_rate _ _ ("ip:" +:+ _) _ _ _) as [[e|u] lm]; [done|].
  rewrite strip_authenticate. cbn zeta. set (h := strip_untrusted (rq_headers rq)).
  assert (Hs : forall n, existsb (String.eqb n) INTERNAL_HEADERS = false -> h !! n = rq_headers rq !! n)
    by (intros n E; unfold h, strip_untrusted; by rewrite remove_headers_lookup, E).
  destruct (is_public_auth (rq_path rq)).
  - destruct (proxy_http _ _ _ _ _ _) as [f s] eqn:E. intros [= -> <-]. rewrite (proxy_http_headers _ _ _ _ _ _ _ _ E).
    split; intros n Hn; rewrite remove_headers_lookup.
    + destruct (existsb _ _); [done|]. unfold h, strip_untrusted. rewrite remove_headers_lookup.
      by rewrite (proj2 (existsb_exists _ _)) by (exists n; by rewrite String.eqb_refl).
    + rewrite existsb_app in Hn. apply orb_false_iff in Hn as [H1 ->]. by apply Hs.
  - destruct (authenticate decode uuid (rq_headers rq)) as [e|who]; [done|].
    destruct (check_rate _ _ ("user:" +:+ _) _ _ _) as [[e|u'] lm']; [done|].
    destruct (proxy_http _ _ _ _ _ _) as [f s] eqn:E. intros [= -> <-]. rewrite (proxy_http_headers _ _ _ _ _ _ _ _ E).
    split; [exists who; repeat split; rewrite remove_headers_lookup; apply inject_own|].
    intros n Hn. rewrite existsb_app in Hn. apply orb_false_iff in Hn as [H1 H2].
    rewrite remove_headers_lookup, H2, inject_lookup by done. by apply Hs.
Qed.

(** C20: tickets open one connection each.  On every run whose new identifiers are
    new, a ticket opens at most one connection, within thirty seconds of its issue
    and for the caller it was issued to; and a ticket that has been issued and not
    been presented opens one within that time, unless the limiter or the breaker
    refuses. *)
Theorem ticket_opens_one_connection decode uuid number b es t0 :
  let '(g, log) := socket_run decode uuid number b es gateway0 in
  in_time t0 es -> NoDup (issued log) ->
  NoDup (opened log) /\
  (forall t v k, (t, Opened v k) ∈ log -> exists t1 who, (t1, Issued v who) ∈ log /\
     t1 <= t < t1 + ticket_life /\ k = ticket_for t1 who) /\
  (forall t1 v who served up up' p a h g1, create_ticket decode uuid number served up up' t1 v p a h g = (inr who, g1) ->
   forall later now served' ip, Forall (fun e => leaves_alone v e.2 /\ e.1 < t1 + ticket_life) later ->
     now < t1 + ticket_life ->
     let g2 := (socket_run decode uuid number b later g1).1 in
     (check_rate served' now ("socket-ip:" +:+ ip) 60 rate_window (gs_limiter g2)).1 = inr tt ->
     (allow_request now (gs_socket g2)).1 = true ->
     (socket_proxy b served' now ip (Some v) g2).1 = inr (ticket_for t1 who)).
Proof.
  destruct (socket_run decode uuid number b es gateway0) as [g log] eqn:Er. intros Ht Hn.
  assert (I0 : ticket_inv t0 [] gateway0).
  { split; simpl; [intros v k Hk; by rewrite lookup_empty in Hk|intros t1 v k Hk; by apply not_elem_of_nil in Hk|constructor]. }
  pose proof (ticket_run decode uuid number b es t0 [] gateway0 Ht I0) as R. rewrite Er in R. simpl in R.
  destruct (R Hn) as [t' [_ I2 I3]]. split; [done|]. split.
  - intros t v k Hk. destruct (I2 t v k Hk) as (t1 & who & H1 & H2 & H3). eauto.
  - intros t1 v who served up up' p a h g1 Hc later now served' ip Hl Hnow g2 Hrate Hok.
    pose proof (create_spec decode uuid number served up up' t1 v p a h g) as S. rewrite Hc in S. destruct S as (S & _).
    assert (K : gs_tickets g2 !! v = Some (ticket_for t1 who))
      by (apply ticket_waits; [by rewrite S, lookup_insert_eq|done]).
    unfold socket_proxy. destruct (check_rate served' now _ _ _ _) as [r lm]. simpl in Hrate. subst r.
    cbn [gs_tickets with_limiter]. rewrite K. cbn [tk_expires_at ticket_for].
    destruct (t1 + ticket_life <=? now) eqn:E; [bool_facts; lia|]. cbn [gs_socket with_tickets with_limiter].
    destruct (allow_request now (gs_socket g2)) as [ok s]. simpl in Hok. by subst ok.
Qed.

(** The gateway takes a cookie for a token, the service does not: a request that
    has only the cookie is authenticated, counted, forwarded and refused. *)
Theorem cookie_is_refused_behind_gateway decode uuid hmac b url server_decode served served' now now_s rid rq g fw g' :
  http_proxy decode uuid hmac b url served served' now now_s rid rq g = (inr fw, g') ->
  header (rq_headers rq) "authorization" = None ->
  auth_middleware server_decode (fw_headers fw) = Throw "Missing authorization header".
Proof.
  intros Hp Ha. assert (E : fw_headers fw !! "authorization" = rq_headers rq !! "authorization").
  { revert Hp. unfold http_proxy. destruct (check_rate _ _ ("ip:" +:+ _) _ _ _) as [[e|u] lm]; [done|]. cbn zeta.
    destruct (is_public_auth _).
    - destruct (proxy_http _ _ _ _ _ _) as [f s] eqn:E. intros [= -> <-].
      rewrite (proxy_http_headers _ _ _ _ _ _ _ _ E), remove_headers_lookup. unfold strip_untrusted. by rewrite remove_headers_lookup.
    - destruct (authenticate _ _ _) as [e|who]; [done|].
      destruct (check_rate _ _ ("user:" +:+ _) _ _ _) as [[e|u'] lm']; [done|].
      destruct (proxy_http _ _ _ _ _ _) as [f s] eqn:E. intros [= -> <-].
      rewrite (proxy_http_headers _ _ _ _ _ _ _ _ E), remove_headers_lookup, inject_lookup by done.
      unfold strip_untrusted. by rewrite remove_headers_lookup. }
  unfold auth_middleware, header in *. by rewrite E; destruct (rq_headers rq !! _) as [[|]|].
Qed.

(** Two users whose identifiers agree in their last 31 bits share a registration. *)
Theorem registration_bit_is_shared number m auction user user' :
  number user mod 2147483648 = number user' mod 2147483648 ->
  has_bit number m auction user = has_bit number m auction user'.
Proof. intros E. unfold has_bit, participant_offset. by rewrite E. Qed.

(** ** Witnesses *)
Definition sample_breaker : CircuitBreaker := new_breaker "ws-server" 2 1000.
Definition failing : list (Z * breaker_event) := [(0, Arrives); (0, Arrives); (1, Answers false); (2, Answers false)].

Lemma dead_service_is_probed_apart_witness :
  let g := breaker_run sample_breaker failing guarded0 in
  let es := [(5, Arrives); (1002, Arrives); (1003, Arrives); (1010, Answers false); (1500, Arrives); (2010, Arrives)] in
  gd_admitted (breaker_run sample_breaker es g) = (gd_admitted g + 2)%nat /\ 1000 <= 2010 - 2.
Proof.
  split; [reflexivity|].
  exact (dead_service_is_probed_apart sample_breaker failing
    [(5, Arrives); (1002, Arrives); (1003, Arrives); (1010, Answers false); (1500, Arrives); (2010, Arrives)] 0
    ltac:(vm_compute; split; discriminate) ltac:(vm_compute; discriminate)
    ltac:(vm_compute; repeat split; discriminate) ltac:(vm_compute; repeat split; discriminate)
    ltac:(repeat constructor; discriminate) ltac:(eexists; reflexivity)).
Defined.

(** The same breaker, with its probe answered and with its probe dropped. *)
Lemma breaker_reopens_unless_probe_dropped_witness :
  (allow_request 2010 (gd_circuit (breaker_run sample_breaker
     (failing ++ [(1002, Arrives); (1010, Answers false)]) guarded0))).1 = true /\
  (forall later, let g := breaker_run sample_breaker (failing ++ [(1002, Arrives); (1010, Dropped)]) guarded0 in
     gd_admitted (breaker_run sample_breaker later g) = gd_admitted g).
Proof.
  split.
  - refine (proj1 (breaker_reopens_unless_probe_dropped sample_breaker
      (failing ++ [(1002, Arrives); (1010, Answers false)]) 0 2010 _ _ _ _) _ _);
      try reflexivity; try (vm_compute; repeat split; discriminate); repeat constructor; discriminate.
  - intros later g. unfold g at 1.
    rewrite (proj2 (breaker_reopens_unless_probe_dropped sample_breaker
      (failing ++ [(1002, Arrives); (1010, Dropped)]) 0 2010 ltac:(vm_compute; split; discriminate)
      ltac:(vm_compute; discriminate) ltac:(vm_compute; repeat split; discriminate) eq_refl) eq_refl later).
    reflexivity.
Defined.

(** One request a second: two on each side of the reset, with Redis and without. *)
Definition sample_rate (served : bool) (now : Z) (key : string) : Rated := mkRated served now key 1 1000.

Lemma limiter_admits_at_most_witness :
  let before := [sample_rate true 0 "ip:1"; sample_rate false 0 "ip:1"; sample_rate true 900 "ip:2"] in
  let cs := [sample_rate true 999 "ip:1"; sample_rate true 1000 "ip:1"; sample_rate false 1001 "ip:1";
             sample_rate true 1002 "ip:2"; sample_rate true 1003 "ip:1"] in
  admitted_for "ip:1" cs (rate_run before limiter0) = 2 /\ admitted_for "ip:1" cs (rate_run before limiter0) <= 4.
Proof.
  split; [reflexivity|].
  apply (limiter_admits_at_most "ip:1" 1 1 999
    [sample_rate true 0 "ip:1"; sample_rate false 0 "ip:1"; sample_rate true 900 "ip:2"]
    [sample_rate true 999 "ip:1"; sample_rate true 1000 "ip:1"; sample_rate false 1001 "ip:1";
     sample_rate true 1002 "ip:2"; sample_rate true 1003 "ip:1"]); try lia;
    repeat (apply Forall_cons; split; [simpl; repeat split; intros; (lia || discriminate || reflexivity)|]); by apply Forall_nil.
Defined.

Definition sample_decode (token : string) : option Claims := if String.eqb token "good" then Some (mkClaims "u1" "carrier") else None.
Definition same_uuid (s : string) : result string := Ok s.
Definition sample_mac (s : string) : string := "mac:" +:+ s.
Definition spoofing (headers : HeaderMap) : Request :=
  mkRequest "10.0.0.1" "POST" "/api/auctions" "/api/auctions?x=1"
    (<["x-auction-user-id" := ["admin"]]> (<["host" := ["evil"]]> headers)) "{}".

Lemma forwarded_identity_is_authentic_witness :
  exists fw g', http_proxy sample_decode same_uuid sample_mac sample_breaker "http://s/" true true 0 1 "r1"
    (spoofing {["authorization" := ["Bearer good"]]}) gateway0 = (inr fw, g') /\
  fw_url fw = "http://s/api/auctions?x=1" /\ fw_headers fw !! "host" = None /\
  fw_headers fw !! "x-auction-user-id" = Some ["u1"] /\ fw_headers fw !! "authorization" = Some ["Bearer good"].
Proof.
  destruct (http_proxy sample_decode same_uuid sample_mac sample_breaker "http://s/" true true 0 1 "r1"
    (spoofing {["authorization" := ["Bearer good"]]}) gateway0) as [[e|fw] g'] eqn:E; [vm_compute in E; discriminate|].
  exists fw, g'. split; [reflexivity|].
  destruct (forwarded_identity_is_authentic _ _ _ _ _ _ _ _ _ _ _ _ _ _ E) as [H1 H2].
  split; [vm_compute in E; by injection E as <- _|]. split; [vm_compute in E; by injection E as <- _|].
  split; [|rewrite H2 by reflexivity; reflexivity].
  change (is_public_auth _) with false in H1. destruct H1 as (who & Ha & Hu & _). rewrite Hu.
  vm_compute in Ha. by injection Ha as <-.
Defined.

Definition joined : Participants := mkParticipants {["a1" := {[7]}]} ∅.
Definition sample_number (_ : string) : Z := 7.
Definition with_token : HeaderMap := {["authorization" := ["Bearer good"]]}.
Definition sample_life : list (Z * socket_event) :=
  [(0, AskTicket true true true "t1" joined "a1" with_token); (10, OpenSocket true "10.0.0.1" (Some "t1"));
   (11, Bridged true); (12, OpenSocket true "10.0.0.1" (Some "t1"));
   (20, AskTicket true true true "t2" joined "a2" with_token)].

Lemma ticket_opens_one_connection_witness :
  let '(g, log) := socket_run sample_decode same_uuid sample_number sample_breaker sample_life gateway0 in
  opened log = ["t1"] /\ NoDup (opened log) /\
  let '(r, g1) := create_ticket sample_decode same_uuid sample_number true true true 40 "t3" joined "a1" with_token g in
  r = inr (mkIdentity "u1" "CARRIER") /\
  (socket_proxy sample_breaker true 50 "10.0.0.1" (Some "t3") g1).1 = inr (mkTicket "u1" "CARRIER" 30040).
Proof.
  pose proof (ticket_opens_one_connection sample_decode same_uuid sample_number sample_breaker sample_life 0) as H.
  destruct (socket_run sample_decode same_uuid sample_number sample_breaker sample_life gateway0) as [g log] eqn:E.
  assert (Eg : g = (socket_run sample_decode same_uuid sample_number sample_breaker sample_life gateway0).1) by (by rewrite E).
  assert (El : log = (socket_run sample_decode same_uuid sample_number sample_breaker sample_life gateway0).2) by (by rewrite E).
  destruct H as (H1 & _ & H3); [vm_compute; repeat split; discriminate|rewrite El; by_decide|].
  split; [rewrite El; vm_compute; reflexivity|]. split; [exact H1|].
  destruct (create_ticket sample_decode same_uuid sample_number true true true 40 "t3" joined "a1" with_token g)
    as [r g1] eqn:Hc.
  assert (Er : r = inr (mkIdentity "u1" "CARRIER"))
    by (change r with (r, g1).1; rewrite <-Hc, Eg; vm_compute; reflexivity).
  assert (Eg1 : g1 = (create_ticket sample_decode same_uuid sample_number true true true 40 "t3" joined "a1" with_token
    (socket_run sample_decode same_uuid sample_number sample_breaker sample_life gateway0).1).2) by (by rewrite <-Eg, Hc).
  subst r. split; [reflexivity|].
  apply (H3 40 "t3" (mkIdentity "u1" "CARRIER") true true true joined "a1" with_token g1 Hc [] 50 true "10.0.0.1");
    [constructor|reflexivity|rewrite Eg1; vm_compute; reflexivity|rewrite Eg1; vm_compute; reflexivity].
Defined.

Lemma cookie_is_refused_behind_gateway_witness :
  exists fw g', http_proxy sample_decode same_uuid sample_mac sample_breaker "http://s/" true true 0 1 "r1"
    (spoofing {["cookie" := ["x=1; auction_token=good"]]}) gateway0 = (inr fw, g') /\
  auth_middleware sample_decode (fw_headers fw) = Throw "Missing authorization header".
Proof.
  eexists _, _. split; [vm_compute; reflexivity|].
  eapply (cookie_is_refused_behind_gateway sample_decode same_uuid sample_mac sample_breaker "http://s/" sample_decode
    true true 0 1 "r1" (spoofing {["cookie" := ["x=1; auction_token=good"]]}) gateway0); vm_compute; reflexivity.
Defined.
