(* ===== verification/Recovery.v ===== *)
(** * Tokens and the recovery of a password

    What [apps/http-server/src/services/auth.rs] issues and takes back: the session
    tokens of sign-up and sign-in, the reset token of [forgot_password_service] and
    its use by [reset_password_service], with the two readers of a token, the
    gateway ([Gateway.authenticate]) and the service behind it
    ([Gateway.auth_middleware]).  The mail itself is an entry in the list of mailed
    links.  The token library is the class [TokenLibrary]; times are seconds. *)

From Stdlib Require Import Ascii.
From stdpp Require Import countable.
From S2P Require Import Prelude JSText ApiTypes Shell Accounts.
From S2P Require Import Gateway.
#[local] Open Scope Z_scope.

(** ** Tokens *)

(** [Claims] of [types.rs]; the gateway's copy of them ([Gateway.Claims]) leaves the
    expiry to the token library. *)
Record TokenClaims := mkTokenClaims { tc_sub : string; tc_role : string; tc_exp : Z }.

(** What the code relies on of [jsonwebtoken]: a token it made is read back until it
    has expired, with the library's leeway. *)
Class TokenLibrary (leeway : Z) (encode : TokenClaims -> string) (decode : Z -> string -> option TokenClaims) : Prop := {
  leeway_nonneg : 0 <= leeway;
  token_decode t c : decode t (encode c) = if tc_exp c + leeway <? t then None else Some c
}.

Definition RESET : string := "RESET".
Definition RESET_SECONDS : Z := 3600.

(** What the database answers: the pool's connection, then the statement. *)
Inductive DbAnswer := DbServes | DbNoConnection | DbFails.

(** The account's part of [reset_password_service]: the row of an identifier. *)
Definition set_password (id password_hash : string) (srv : AuthServer) : AuthServer :=
  mkServer
    ((fun u => if String.eqb (u_id u) id
               then mkUser (u_id u) (u_name u) (u_company u) password_hash (u_role u) else u) <$> users srv)
    (otps srv).

Section Tokens.
(** The e-mail validator, the password hash, the token library and the parser of
    identifiers. *)
Context (is_email : string -> bool) (hash : string -> string) (verify : string -> string -> bool).
Context (leeway : Z) (encode : TokenClaims -> string) (decode : Z -> string -> option TokenClaims).
Context (uuid : string -> result string).

Definition session_claims (now : Z) (id : string) (r : UserRole) : TokenClaims :=
  mkTokenClaims id (role_text r) (now + SESSION_SECONDS).

(** The token of a response of sign-up or sign-in that expires at an instant. *)
Definition session_token (id : string) (r : UserRole) (expires : Z) : string :=
  encode (mkTokenClaims id (role_text r) expires).

Definition reset_claims (now : Z) (id : string) : TokenClaims := mkTokenClaims id RESET (now + RESET_SECONDS).

(** [forgot_password_service] behind its handler: the token that is mailed, to an
    address that has an account; the answer to the client is the same without. *)
Definition forgot_password (now : Z) (a : DbAnswer) (email : string) (srv : AuthServer) : result (option TokenClaims) :=
  if negb (is_email email) then Throw "Validation failed: email"
  else match a with
  | DbNoConnection => Throw "Failed to get DB connection"
  | DbFails => Throw "Database error"
  | DbServes =>
      match users srv !! email with
      | Some user => Ok (Some (reset_claims now (u_id user)))
      | None => Ok None
      end
  end.

(** [reset_password_service] behind its handler. *)
Definition reset_password (now : Z) (a : DbAnswer) (token new_password : string) (srv : AuthServer) : result AuthServer :=
  if shorter 6 new_password then Throw "Validation failed: new_password"
  else match decode now token with
  | None => Throw "Invalid or expired reset token"
  | Some claims =>
      if negb (String.eqb (tc_role claims) RESET) then Throw "Invalid token type"
      else match uuid (tc_sub claims) with
      | Throw _ => Throw "Invalid user ID in token"
      | Ok user_uuid =>
          match a with
          | DbNoConnection => Throw "Failed to get DB connection"
          | DbFails => Throw "Failed to update password"
          | DbServes => Ok (set_password user_uuid (hash new_password) srv)
          end
      end
  end.

(** How the gateway and the service read a token at an instant, and what [me_handler]
    answers. *)
Definition claims_at (now : Z) (token : string) : option Claims :=
  (fun c => mkClaims (tc_sub c) (tc_role c)) <$> decode now token.

Definition bearer_of (token : string) : HeaderMap := {["authorization" := ["Bearer " +:+ token]]}.

Definition me_handler (now : Z) (h : HeaderMap) : result (string * string) :=
  match auth_middleware (claims_at now) h with
  | Ok claims => Ok (cl_sub claims, cl_role claims)
  | Throw e => Throw e
  end.

(** ** The server's life *)

(** The server with the tokens it has issued: the sessions, and the links with the
    address each was mailed to. *)
Record AuthState := mkAuthState {
  as_server : AuthServer;
  as_sessions : list TokenClaims;
  as_mailed : list (string * TokenClaims)
}.

Definition auth_state0 : AuthState := mkAuthState (mkServer ∅ ∅) [] [].

(** The requests; [SignUp] carries the new identifier, [SendOtp] the new code. *)
Inductive auth_event :=
| SendOtp (code email : string)
| SignUp (uid : string) (p : SignUpPayload)
| SignIn (email password : string)
| Forgot (a : DbAnswer) (email : string)
| Reset (a : DbAnswer) (token new_password : string).

Definition with_server (srv : AuthServer) (s : AuthState) : AuthState := mkAuthState srv (as_sessions s) (as_mailed s).
Definition with_session (now : Z) (r : AuthResponse) (s : AuthState) : AuthState :=
  mkAuthState (as_server s) (session_claims now (user_id r) (role r) :: as_sessions s) (as_mailed s).

Definition auth_step (now : Z) (e : auth_event) (s : AuthState) : AuthState :=
  match e with
  | SendOtp code email =>
      match send_otp is_email now code email (as_server s) with Ok srv => with_server srv s | Throw _ => s end
  | SignUp uid p =>
      match sign_up hash session_token now uid p (as_server s) with
      | Ok (r, srv) => with_session now r (with_server srv s)
      | Throw _ => s
      end
  | SignIn email password =>
      match sign_in is_email verify session_token now email password (as_server s) with
      | Ok r => with_session now r s
      | Throw _ => s
      end
  | Forgot a email =>
      match forgot_password now a email (as_server s) with
      | Ok (Some c) => mkAuthState (as_server s) (as_sessions s) ((email, c) :: as_mailed s)
      | _ => s
      end
  | Reset a token new_password =>
      match reset_password now a token new_password (as_server s) with Ok srv => with_server srv s | Throw _ => s end
  end.

Definition auth_run (es : list (Z * auth_event)) (s : AuthState) : AuthState :=
  fold_left (fun s e => auth_step e.1 e.2 s) es s.

(** ** The abstract server: passwords and mailboxes

    An account belongs to an e-mail and has the password its owner set; a link
    belongs to the mailbox it was sent to. *)
Record Account := mkAccount { ac_id : string; ac_name : string; ac_role : UserRole; ac_password : string }.

Record Spec := mkSpec {
  sp_accounts : gmap string Account;
  sp_codes : gmap string (string * Z);
  sp_links : list (string * string * Z)
}.

Definition spec0 : Spec := mkSpec ∅ ∅ [].

(** The mailbox that a link was sent to, while the link lives. *)
Definition link_owner (now : Z) (token : string) (s : Spec) : option string :=
  (fun l : string * string * Z => l.1.2) <$>
    List.find (fun l : string * string * Z => String.eqb l.1.1 token && (now <=? l.2 + leeway)) (sp_links s).

(** The rules of a sign-up payload. *)
Definition payload_ok (p : SignUpPayload) : bool :=
  includes "@" (su_email p) && includes "." (su_email p) && negb (shorter 6 (su_password p)) &&
  negb (shorter 2 (su_name p)) && negb (shorter 6 (su_otp p)).

Definition code_ok (now : Z) (p : SignUpPayload) (s : Spec) : bool :=
  match sp_codes s !! su_email p with
  | Some (code, expiry) => (now <? expiry) && String.eqb code (su_otp p)
  | None => false
  end.

Definition spec_step (now : Z) (e : auth_event) (s : Spec) : Spec :=
  match e with
  | SendOtp code email =>
      if is_email email then mkSpec (sp_accounts s) (<[email := (code, now + 300)]> (sp_codes s)) (sp_links s) else s
  | SignUp uid p =>
      if payload_ok p && code_ok now p s && bool_decide (sp_accounts s !! su_email p = None)
      then mkSpec (<[su_email p := mkAccount uid (su_name p) (role_of (su_role_type p)) (su_password p)]> (sp_accounts s))
             (delete (su_email p) (sp_codes s)) (sp_links s)
      else s
  | SignIn _ _ => s
  | Forgot a email =>
      match is_email email, a, sp_accounts s !! email with
      | true, DbServes, Some ac =>
          mkSpec (sp_accounts s) (sp_codes s)
            ((encode (reset_claims now (ac_id ac)), email, now + RESET_SECONDS) :: sp_links s)
      | _, _, _ => s
      end
  | Reset a token password =>
      match shorter 6 password, a, link_owner now token s with
      | false, DbServes, Some email =>
          mkSpec (alter (fun ac => mkAccount (ac_id ac) (ac_name ac) (ac_role ac) password) email (sp_accounts s))
            (sp_codes s) (sp_links s)
      | _, _, _ => s
      end
  end.

Definition spec_run (es : list (Z * auth_event)) (s : Spec) : Spec :=
  fold_left (fun s e => spec_step e.1 e.2 s) es s.

(** Signing in, by the owner's password. *)
Definition spec_sign_in (now : Z) (email password : string) (s : Spec) : result AuthResponse :=
  if negb (is_email email) then Throw "Validation failed: email"
  else if shorter 1 password then Throw "Validation failed: password"
  else match sp_accounts s !! email with
  | Some ac =>
      if verify password (hash (ac_password ac))
      then Ok (mkAuth (session_token (ac_id ac) (ac_role ac) (now + SESSION_SECONDS)) (ac_role ac) (ac_id ac) (ac_name ac))
      else Throw "Invalid credentials"
  | None => Throw "Invalid credentials"
  end.

(** ** The runs considered *)

(** A new identifier is new and in canonical form; a token that is presented and read
    back has been issued, because only the server has the key. *)
Definition event_ok (now : Z) (e : auth_event) (s : AuthState) : Prop :=
  match e with
  | SignUp uid _ => uuid uid = Ok uid /\ forall email u, users (as_server s) !! email = Some u -> u_id u <> uid
  | Reset _ token _ =>
      forall c, decode now token = Some c ->
        exists c', token = encode c' /\ (c' ∈ as_sessions s \/ exists email, (email, c') ∈ as_mailed s)
  | _ => True
  end.

Fixpoint run_ok (es : list (Z * auth_event)) (s : AuthState) : Prop :=
  match es with
  | [] => True
  | e :: es' => event_ok e.1 e.2 s /\ run_ok es' (auth_step e.1 e.2 s)
  end.

(** ** Lemmas *)

Definition same_account (u : User) (ac : Account) : Prop :=
  u_id u = ac_id ac /\ u_name u = ac_name ac /\ u_role u = ac_role ac /\ u_password_hash u = hash (ac_password ac).

Record refines (c : AuthState) (s : Spec) : Prop := {
  rf_users : forall email, option_Forall2 same_account (users (as_server c) !! email) (sp_accounts s !! email);
  rf_codes : otps (as_server c) = sp_codes s;
  rf_links : sp_links s = map (fun l : string * TokenClaims => (encode l.2, l.1, tc_exp l.2)) (as_mailed c);
  rf_ids : forall e e' ac ac', sp_accounts s !! e = Some ac -> sp_accounts s !! e' = Some ac' -> ac_id ac = ac_id ac' -> e = e';
  rf_uuid : forall e ac, sp_accounts s !! e = Some ac -> uuid (ac_id ac) = Ok (ac_id ac);
  rf_mailed : forall e cl, (e, cl) ∈ as_mailed c ->
    tc_role cl = RESET /\ exists ac, sp_accounts s !! e = Some ac /\ tc_sub cl = ac_id ac;
  rf_sessions : forall cl, cl ∈ as_sessions c ->
    exists e ac, sp_accounts s !! e = Some ac /\ tc_sub cl = ac_id ac /\ tc_role cl = role_text (ac_role ac)
}.

Lemma role_text_not_reset r : role_text r <> RESET.
Proof. by destruct r. Qed.

Section Refinement.
Context `{TokenLibrary leeway encode decode}.

Lemma decode_own now c c' : decode now (encode c) = Some c' -> c' = c.
Proof. rewrite token_decode. case_tests; congruence. Qed.

Lemma user_account c s email u :
  refines c s -> users (as_server c) !! email = Some u -> exists ac, sp_accounts s !! email = Some ac /\ same_account u ac.
Proof. intros R E. pose proof (rf_users _ _ R email) as F. rewrite E in F. inversion F; eauto. Qed.

Lemma account_user c s email ac :
  refines c s -> sp_accounts s !! email = Some ac -> exists u, users (as_server c) !! email = Some u /\ same_account u ac.
Proof. intros R E. pose proof (rf_users _ _ R email) as F. rewrite E in F. inversion F; eauto. Qed.

Lemma no_account c s email : refines c s -> users (as_server c) !! email = None <-> sp_accounts s !! email = None.
Proof.
  intros R. pose proof (rf_users _ _ R email) as F. by inversion F.
Qed.

(** A link is found for exactly the tokens that are read back as reset tokens. *)
Lemma link_owner_spec c s now token :
  refines c s ->
  (forall cl, decode now token = Some cl ->
    exists cl', token = encode cl' /\ (cl' ∈ as_sessions c \/ exists email, (email, cl') ∈ as_mailed c)) ->
  match decode now token with
  | Some cl =>
      if String.eqb (tc_role cl) RESET
      then exists e ac, link_owner now token s = Some e /\ sp_accounts s !! e = Some ac /\ tc_sub cl = ac_id ac
      else link_owner now token s = None
  | None => link_owner now token s = None
  end.
Proof.
  intros R Hf. unfold link_owner.
  assert (Hl : forall l, List.find (fun l : string * string * Z => String.eqb l.1.1 token && (now <=? l.2 + leeway)) (sp_links s) = Some l ->
    exists e cl, l = (encode cl, e, tc_exp cl) /\ (e, cl) ∈ as_mailed c /\ decode now token = Some cl).
  { intros l Hl. apply List.find_some in Hl as [Hin Hm]. rewrite (rf_links _ _ R) in Hin.
    apply in_map_iff in Hin as ([e cl] & <- & Hin). exists e, cl. apply andb_true_iff in Hm as [Ht Hn].
    apply String.eqb_eq in Ht as <-. apply Z.leb_le in Hn. cbn [fst snd] in *.
    split; [done|]. split; [by apply list_elem_of_In|]. rewrite token_decode. by rewrite (proj2 (Z.ltb_ge _ _)) by lia. }
  destruct (decode now token) as [cl|] eqn:Ed.
  - destruct (String.eqb (tc_role cl) RESET) eqn:Er.
    + apply String.eqb_eq in Er. destruct (Hf cl eq_refl) as (cl' & -> & Hin).
      apply decode_own in Ed as E. subst cl'.
      destruct Hin as [Hin|[e Hin]].
      { destruct (rf_sessions _ _ R _ Hin) as (? & ac & _ & _ & E). rewrite Er in E. by apply symmetry, role_text_not_reset in E. }
      destruct (List.find _ (sp_links s)) as [l|] eqn:Ef.
      * destruct (Hl _ eq_refl) as (e1 & cl1 & -> & Hm & [= <-]). destruct (rf_mailed _ _ R _ _ Hm) as (_ & ac & Ha & Hs).
        by exists e1, ac.
      * exfalso. eapply (List.find_none _ _) in Ef.
        2: { rewrite (rf_links _ _ R). apply in_map_iff. exists (e, cl). split; [done|]. by apply list_elem_of_In. }
        cbn [fst snd] in Ef. rewrite String.eqb_refl in Ef. rewrite token_decode in Ed.
        destruct (tc_exp cl + leeway <? now) eqn:El; [done|]. apply Z.ltb_ge in El. apply Z.leb_gt in Ef. lia.
    + destruct (List.find _ (sp_links s)) as [l|] eqn:Ef; [|done].
      destruct (Hl _ eq_refl) as (e1 & cl1 & -> & Hm & [= <-]). destruct (rf_mailed _ _ R _ _ Hm) as (E & _).
      by rewrite E in Er.
  - destruct (List.find _ (sp_links s)) as [l|] eqn:Ef; [|done]. by destruct (Hl _ eq_refl) as (? & ? & _ & _ & ?).
Qed.

Lemma set_password_users id h srv email :
  users (set_password id h srv) !! email =
    (fun u => if String.eqb (u_id u) id then mkUser (u_id u) (u_name u) (u_company u) h (u_role u) else u) <$>
      users srv !! email.
Proof. apply lookup_fmap. Qed.

Lemma sign_up_cases now jwt uid p c s :
  refines c s ->
  match sign_up hash jwt now uid p (as_server c) with
  | Ok (r, srv) =>
      let u := mkUser uid (su_name p) (su_company_name p) (hash (su_password p)) (role_of (su_role_type p)) in
      payload_ok p && code_ok now p s && bool_decide (sp_accounts s !! su_email p = None) = true /\
      r = auth_response jwt now u /\
      srv = mkServer (<[su_email p := u]> (users (as_server c))) (delete (su_email p) (otps (as_server c)))
  | Throw _ => payload_ok p && code_ok now p s && bool_decide (sp_accounts s !! su_email p = None) = false
  end.
Proof.
  intros R. unfold sign_up, payload_ok, code_ok, live_otp. rewrite (rf_codes _ _ R).
  destruct (includes "@" (su_email p) && includes "." (su_email p)); [|done].
  destruct (shorter 6 (su_password p)); [done|]. destruct (shorter 2 (su_name p)); [done|].
  destruct (shorter 6 (su_otp p)); [done|]. cbn [negb andb].
  destruct (sp_codes s !! su_email p) as [[code expiry]|]; [|done]. destruct (now <? expiry); [|done]. cbn [andb].
  destruct (String.eqb code (su_otp p)); [|done]. cbn [negb andb].
  destruct (users (as_server c) !! su_email p) eqn:E.
  - apply bool_decide_eq_false. intros F. apply (no_account c s _ R) in F. congruence.
  - split; [|done]. apply bool_decide_eq_true. by apply (no_account c s _ R).
Qed.

Lemma refines0 : refines auth_state0 spec0.
Proof. split; try done; try set_solver. intros email. simpl. rewrite !lookup_empty. constructor. Qed.

(** More sessions and links of known accounts. *)
Lemma refines_issue c s ss :
  (forall cl, cl ∈ ss -> exists e ac, sp_accounts s !! e = Some ac /\ tc_sub cl = ac_id ac /\ tc_role cl = role_text (ac_role ac)) ->
  refines c s -> refines (mkAuthState (as_server c) (ss ++ as_sessions c) (as_mailed c)) s.
Proof. intros Hs R. destruct R. split; try done. simpl. intros cl [?|?]%elem_of_app; auto. Qed.

Lemma refines_sign_up now c s uid p :
  refines c s -> event_ok now (SignUp uid p) c -> refines (auth_step now (SignUp uid p) c) (spec_step now (SignUp uid p) s).
Proof.
  intros R [Hu Hn]. unfold auth_step, spec_step. pose proof (sign_up_cases now session_token uid p c s R) as S.
  destruct (sign_up _ _ _ _ _ _) as [[r srv]|]; [|by rewrite S]. destruct S as (Hok & -> & ->). rewrite Hok.
  apply andb_true_iff in Hok as [_ Hnone]. apply bool_decide_eq_true in Hnone. set (email := su_email p) in *.
  set (ac := mkAccount uid (su_name p) (role_of (su_role_type p)) (su_password p)).
  set (c' := with_server _ c). set (s' := mkSpec _ _ _).
  assert (Hkeep : forall e a, sp_accounts s !! e = Some a -> sp_accounts s' !! e = Some a).
  { intros e a E. simpl. rewrite lookup_insert_ne; [done|]. intros <-. congruence. }
  assert (R' : refines c' s').
  { split; simpl.
    - intros e. destruct (decide (e = email)) as [->|Ne]; [|rewrite !lookup_insert_ne by done; apply R].
      rewrite !lookup_insert_eq. by constructor.
    - by rewrite (rf_codes _ _ R).
    - apply R.
    - assert (Hfresh : forall e a, sp_accounts s !! e = Some a -> ac_id a <> uid).
      { intros e a Ha. destruct (account_user _ _ _ _ R Ha) as (u & E & Hid & _). rewrite <-Hid. eauto. }
      intros e e' a a' [(<- & <-)|[Ne Ha]]%lookup_insert_Some [(<- & <-)|[Ne' Ha']]%lookup_insert_Some Hid; try done.
      + by apply symmetry, (Hfresh _ _ Ha') in Hid.
      + by apply (Hfresh _ _ Ha) in Hid.
      + by apply (rf_ids _ _ R e e' a a').
    - intros e a. destruct (decide (e = email)) as [->|Ne]; [rewrite lookup_insert_eq; by intros [= <-]|].
      rewrite lookup_insert_ne by done. apply R.
    - intros e cl Hm. destruct (rf_mailed _ _ R _ _ Hm) as (E & a & Ha & Hs). split; [done|]. exists a. split; [by apply Hkeep|done].
    - intros cl Hc. destruct (rf_sessions _ _ R _ Hc) as (e & a & Ha & Hs). exists e, a. split; [by apply Hkeep|done]. }
  apply (refines_issue c' s' [session_claims now uid (role_of (su_role_type p))]); [|done].
  intros cl ->%list_elem_of_singleton. exists email, ac. split; [apply lookup_insert_eq|done].
Qed.

Lemma refines_reset now c s a token pw :
  refines c s -> event_ok now (Reset a token pw) c ->
  refines (auth_step now (Reset a token pw) c) (spec_step now (Reset a token pw) s).
Proof.
  intros R Hf. pose proof (link_owner_spec c s now token R Hf) as L. unfold auth_step, spec_step, reset_password.
  destruct (shorter 6 pw); [done|]. destruct (decode now token) as [cl|]; [|rewrite L; by destruct a].
  destruct (String.eqb (tc_role cl) RESET); [|rewrite L; by destruct a]. cbn [negb].
  destruct L as (e & ac & -> & Ha & Hs). rewrite Hs, (rf_uuid _ _ R _ _ Ha). destruct a; [|done|done].
  assert (Hid : forall e' x, sp_accounts s !! e' = Some x -> String.eqb (ac_id x) (ac_id ac) = bool_decide (e' = e)).
  { intros e' x Hx. destruct (String.eqb_spec (ac_id x) (ac_id ac)) as [E|E]; symmetry.
    - apply bool_decide_eq_true. by apply (rf_ids _ _ R e' e x ac).
    - apply bool_decide_eq_false. intros ->. congruence. }
  split; simpl.
  - intros e'. rewrite lookup_fmap. pose proof (rf_users _ _ R e') as F.
    destruct (decide (e' = e)) as [->|Ne].
    + rewrite lookup_alter_eq. rewrite Ha in *. inversion F as [u x (E1 & E2 & E3 & E4) Hu|]; subst. simpl. rewrite E1, String.eqb_refl.
      by constructor.
    + rewrite lookup_alter_ne by done. inversion F as [u x S Hu Hx|]; [|by constructor]. simpl.
      destruct S as (E1 & E2). rewrite E1, (Hid e' x) by done. rewrite bool_decide_eq_false_2 by done. by constructor.
  - apply R.
  - apply R.
  - intros e1 e2 a1 a2 H1 H2 E. apply lookup_alter_Some in H1, H2.
    destruct H1 as [(<- & b1 & B1 & ->)|[N1 B1]], H2 as [(E2 & b2 & B2 & ->)|[N2 B2]]; try done; simpl in E.
    all: by eapply (rf_ids _ _ R).
  - intros e1 a1 H1. apply lookup_alter_Some in H1 as [(<- & b1 & B1 & ->)|[_ B1]]; simpl; by eapply (rf_uuid _ _ R).
  - intros e1 cl1 Hm. destruct (rf_mailed _ _ R _ _ Hm) as (E & x & Hx & Hsub). split; [done|].
    rewrite lookup_alter. case_decide; [subst|by eexists]. rewrite Hx. by eexists.
  - intros cl1 Hc. destruct (rf_sessions _ _ R _ Hc) as (e1 & x & Hx & Hsub). exists e1.
    rewrite lookup_alter. case_decide; [subst|by eexists]. rewrite Hx. by eexists.
Qed.

Lemma refines_step now e c s :
  refines c s -> event_ok now e c -> refines (auth_step now e c) (spec_step now e s).
Proof.
  intros R Hok. destruct e as [code email|uid p|email pw|a email|a token pw].
  - unfold auth_step, spec_step, send_otp. destruct (is_email email); [|done]. destruct R. split; try done. simpl. by f_equal.
  - by apply refines_sign_up.
  - unfold auth_step, spec_step, sign_in. destruct (is_email email), (shorter 1 pw); try done. cbn [negb].
    destruct (users (as_server c) !! email) as [u|] eqn:E; [|done]. destruct (verify _ _); [|done].
    apply (refines_issue c s [session_claims now (u_id u) (u_role u)]); [|done].
    intros cl ->%list_elem_of_singleton. destruct (user_account _ _ _ _ R E) as (ac & Ha & E1 & _ & E3 & _).
    exists email, ac. simpl. by rewrite E1, E3.
  - unfold auth_step, spec_step, forgot_password. destruct (is_email email); [|done]. destruct a; [|done|done]. cbn [negb].
    destruct (users (as_server c) !! email) as [u|] eqn:E.
    + destruct (user_account _ _ _ _ R E) as (ac & Ha & E1 & _). rewrite Ha, E1. destruct R. split; try done; simpl.
      * by rewrite rf_links0.
      * intros e cl [[= -> ->]|?]%elem_of_cons; [|auto]. split; [done|]. by exists ac.
    + apply (no_account c s _ R) in E. by rewrite E.
  - by apply refines_reset.
Qed.

Lemma refines_run es c s : refines c s -> run_ok es c -> refines (auth_run es c) (spec_run es s).
Proof.
  revert c s. induction es as [|[now e] es IH]; intros c s R; [done|]. cbn [run_ok fst snd]. intros [H1 H2].
  cbn. apply IH; [by apply refines_step|done].
Qed.

Lemma mailed_run es s l : l ∈ as_mailed s -> l ∈ as_mailed (auth_run es s).
Proof.
  intros Hs. unfold auth_run. apply (fold_left_inv _ (fun s' => l ∈ as_mailed s') (fun _ => True)); [|by apply Forall_true|done].
  intros s' e _ Hl. destruct e as [now [code email|uid p|email pw|a email|a token pw]];
    unfold auth_step; cbn [fst snd]; repeat case_match; try done; by right.
Qed.

Lemma bearer_header t : header (bearer_of t) "authorization" = Some ("Bearer " +:+ t).
Proof. unfold header, bearer_of. by rewrite lookup_singleton_eq. Qed.

Lemma strip_bearer t : strip_prefix "Bearer " ("Bearer " +:+ t) = Some t.
Proof. done. Qed.

Lemma bearer_token t : bearer (bearer_of t) = Some t.
Proof. unfold bearer. by rewrite bearer_header. Qed.

Lemma authenticate_token now t :
  authenticate (claims_at now) uuid (bearer_of t) =
  match decode now t with
  | None => inl (unauthorized "The access token is invalid or expired")
  | Some c =>
      match uuid (tc_sub c) with
      | Throw _ => inl (unauthorized "The access token subject is invalid")
      | Ok id =>
          if existsb (String.eqb (to_upper (tc_role c))) ["CUSTOMER"; "CARRIER"; "ADMIN"]
          then inr (mkIdentity id (to_upper (tc_role c)))
          else inl (unauthorized "The access token role is invalid")
      end
  end.
Proof. unfold authenticate. rewrite bearer_token. unfold claims_at. by destruct (decode now t). Qed.

Lemma me_token now t :
  me_handler now (bearer_of t) =
  match decode now t with Some c => Ok (tc_sub c, tc_role c) | None => Throw "validation failed relogin" end.
Proof. unfold me_handler, auth_middleware. rewrite bearer_header, strip_bearer. unfold claims_at. by destruct (decode now t). Qed.

Lemma reached es : run_ok es auth_state0 -> refines (auth_run es auth_state0) (spec_run es spec0).
Proof. apply refines_run, refines0. Qed.

(** *** Properties *)

(** C24: the server keeps to the abstract one of passwords and mailboxes: after any
    history of codes, sign-ups, sign-ins, reset mails and resets, in which nobody
    presents a token that was not issued, an e-mail and a password sign in exactly
    when the password is the one that was set last for that e-mail, by its sign-up
    or through a living link that had been mailed to it. *)
Theorem sign_in_asks_the_owners_password es now email pw :
  run_ok es auth_state0 ->
  sign_in is_email verify session_token now email pw (as_server (auth_run es auth_state0)) =
  spec_sign_in now email pw (spec_run es spec0).
Proof.
  intros R%reached. unfold sign_in, spec_sign_in. destruct (is_email email), (shorter 1 pw); try done. cbn [negb].
  destruct (rf_users _ _ R email) as [u ac (E1 & E2 & E3 & E4)|]; [|done].
  rewrite E4. destruct (verify _ _); [|done]. unfold auth_response. by rewrite E1, E2, E3.
Qed.

(** a reset link is not used up: whatever was done since it was mailed, resets with
    it included, it sets the password of its account until it expires, and no other
    account's. *)
Theorem reset_link_works_until_it_expires es es' email cl now pw :
  run_ok (es ++ es') auth_state0 -> (email, cl) ∈ as_mailed (auth_run es auth_state0) ->
  now <= tc_exp cl + leeway -> shorter 6 pw = false ->
  let srv := as_server (auth_run (es ++ es') auth_state0) in
  exists srv' u, reset_password now DbServes (encode cl) pw srv = Ok srv' /\
    users srv !! email = Some u /\
    users srv' = <[email := mkUser (u_id u) (u_name u) (u_company u) (hash pw) (u_role u)]> (users srv).
Proof.
  intros Hr Hm Hn Hpw srv. pose proof (reached _ Hr) as R.
  assert (Hm' : (email, cl) ∈ as_mailed (auth_run (es ++ es') auth_state0))
    by (unfold auth_run in *; rewrite fold_left_app; by apply mailed_run).
  destruct (rf_mailed _ _ R _ _ Hm') as (Er & ac & Ha & Hs).
  destruct (account_user _ _ _ _ R Ha) as (u & Hu & E1 & _). fold srv in Hu.
  exists (set_password (ac_id ac) (hash pw) srv), u. unfold reset_password. rewrite Hpw, token_decode.
  rewrite (proj2 (Z.ltb_ge _ _)) by lia. rewrite Er, Hs, (rf_uuid _ _ R _ _ Ha). split; [done|]. split; [done|].
  apply map_eq. intros e. rewrite set_password_users. destruct (decide (e = email)) as [->|Ne].
  - rewrite lookup_insert_eq, Hu. simpl. by rewrite E1, String.eqb_refl.
  - rewrite lookup_insert_ne by done. destruct (users srv !! e) as [u'|] eqn:E; [|done]. simpl.
    destruct (user_account _ _ _ _ R E) as (ac' & Ha' & E' & _).
    destruct (String.eqb_spec (u_id u') (ac_id ac)) as [F|_]; [|done]. rewrite E' in F.
    by destruct Ne; apply (rf_ids _ _ R e email ac' ac).
Qed.

(** C25: tokens open what they were issued for.  Until it expires a session's token gives
    its user and role at the gateway and at the service, and resets nothing; a reset
    token is refused by the gateway for its role, but the service itself reads it
    as the session of a user in the role RESET.  After that all refuse them. *)
Theorem tokens_open_what_they_were_issued_for es now a pw cl :
  run_ok es auth_state0 ->
  let s := auth_run es auth_state0 in
  let t := encode cl in
  shorter 6 pw = false ->
  cl ∈ as_sessions s \/ (exists email, (email, cl) ∈ as_mailed s) ->
  if tc_exp cl + leeway <? now then
    authenticate (claims_at now) uuid (bearer_of t) = inl (unauthorized "The access token is invalid or expired") /\
    me_handler now (bearer_of t) = Throw "validation failed relogin" /\
    reset_password now a t pw (as_server s) = Throw "Invalid or expired reset token"
  else
    me_handler now (bearer_of t) = Ok (tc_sub cl, tc_role cl) /\
    if String.eqb (tc_role cl) RESET then
      authenticate (claims_at now) uuid (bearer_of t) = inl (unauthorized "The access token role is invalid") /\
      exists u email, users (as_server s) !! email = Some u /\ u_id u = tc_sub cl
    else
      reset_password now a t pw (as_server s) = Throw "Invalid token type" /\
      authenticate (claims_at now) uuid (bearer_of t) = inr (mkIdentity (tc_sub cl) (tc_role cl)) /\
      exists u email, users (as_server s) !! email = Some u /\ u_id u = tc_sub cl /\ role_text (u_role u) = tc_role cl.
Proof.
  intros R%reached s t Hpw Hin. unfold reset_password. rewrite me_token, authenticate_token, Hpw. unfold t.
  rewrite token_decode. destruct (tc_exp cl + leeway <? now); [done|]. split; [done|].
  destruct Hin as [Hin|[email Hin]].
  - destruct (rf_sessions _ _ R _ Hin) as (e & ac & Ha & Hs & Hr).
    destruct (account_user _ _ _ _ R Ha) as (u & Hu & E1 & _ & E3 & _).
    rewrite Hs, Hr, (rf_uuid _ _ R _ _ Ha). rewrite <-E3. 
    destruct (u_role u) eqn:Eu; simpl; (split; [done|split; [done|]]); exists u, e; by rewrite Eu.
  - destruct (rf_mailed _ _ R _ _ Hin) as (Hr & ac & Ha & Hs). rewrite Hs, Hr, (rf_uuid _ _ R _ _ Ha).
    destruct (account_user _ _ _ _ R Ha) as (u & Hu & E1 & _). split; [done|]. by exists u, email.
Qed.
End Refinement.
End Tokens.

(** ** Witnesses *)

(** A token library: the claims as a text of digits, read back until they expire,
    with a minute's leeway. *)
Fixpoint digits (p : positive) : string :=
  match p with xH => EmptyString | xO q => String "0" (digits q) | xI q => String "1" (digits q) end.

Fixpoint undigits (s : string) : option positive :=
  match s with
  | EmptyString => Some xH
  | String c r => (if Ascii.eqb c "1" then xI else xO) <$> undigits r
  end.

Lemma undigits_digits p : undigits (digits p) = Some p.
Proof. induction p as [p IH|p IH|]; simpl; by rewrite ?IH. Qed.

Definition sample_encode (c : TokenClaims) : string := digits (encode (tc_sub c, tc_role c, tc_exp c)).
Definition sample_read (t : Z) (s : string) : option TokenClaims :=
  match undigits s ≫= decode with
  | Some (sub, role, exp) => if exp + 60 <? t then None else Some (mkTokenClaims sub role exp)
  | None => None
  end.

#[export] Instance sample_library : TokenLibrary 60 sample_encode sample_read.
Proof.
  split; [lia|]. intros t [sub role exp]. unfold sample_read, sample_encode. rewrite undigits_digits. simpl.
  by rewrite decode_encode.
Qed.

#[local] Abbreviation sample_email := (includes "@").
#[local] Abbreviation sample_uuid := (fun s : string => Ok s).
Definition sample_link : TokenClaims := reset_claims 100 "u1".
Definition sample_signup : SignUpPayload := mkSignUp "ann@x.io" "secret" "Ann" None (Some "CUSTOMER") "123456".
Definition sample_life : list (Z * auth_event) :=
  [(0, SendOtp "123456" "ann@x.io"); (10, SignUp "u1" sample_signup); (100, Forgot DbServes "ann@x.io")].
Definition sample_reset : list (Z * auth_event) := [(200, Reset DbServes (sample_encode sample_link) "changed")].

#[local] Abbreviation sample_auth es :=
  (auth_run sample_email sample_hash sample_verify sample_encode sample_read sample_uuid es auth_state0).

Lemma sample_mailed : ("ann@x.io", sample_link) ∈ as_mailed (sample_auth (sample_life ++ sample_reset)).
Proof. apply list_elem_of_In. vm_compute. by left. Qed.

Lemma sample_run_ok :
  run_ok sample_email sample_hash sample_verify sample_encode sample_read sample_uuid (sample_life ++ sample_reset) auth_state0.
Proof.
  cbn [sample_life sample_reset app run_ok fst snd]. split; [done|]. split.
  - split; [done|]. intros email u E.
    assert (F : users (as_server (auth_step sample_email sample_hash sample_verify sample_encode sample_read sample_uuid 0
      (SendOtp "123456" "ann@x.io") auth_state0)) = ∅) by reflexivity.
    rewrite F in E. by rewrite lookup_empty in E.
  - split; [done|]. split; [|done]. intros c _. exists sample_link. split; [done|]. right. exists "ann@x.io".
    apply list_elem_of_In. vm_compute. by left.
Qed.

Lemma sign_in_asks_the_owners_password_witness :
  sign_in sample_email sample_verify (session_token sample_encode) 300 "ann@x.io" "changed"
    (as_server (sample_auth (sample_life ++ sample_reset))) =
    Ok (mkAuth (session_token sample_encode "u1" CUSTOMER 86700) CUSTOMER "u1" "Ann") /\
  sign_in sample_email sample_verify (session_token sample_encode) 300 "ann@x.io" "secret"
    (as_server (sample_auth (sample_life ++ sample_reset))) = Throw "Invalid credentials".
Proof.
  split; (etransitivity; [exact (sign_in_asks_the_owners_password sample_email sample_hash sample_verify 60 sample_encode
    sample_read sample_uuid (sample_life ++ sample_reset) 300 "ann@x.io" _ sample_run_ok)|vm_compute; reflexivity]).
Defined.

(** The link was used at 200 s and works again at the end of its hour. *)
Lemma reset_link_works_until_it_expires_witness :
  exists srv' u, reset_password sample_hash sample_read sample_uuid 3760 DbServes (sample_encode sample_link) "stolen"
      (as_server (sample_auth (sample_life ++ sample_reset))) = Ok srv' /\
    users (as_server (sample_auth (sample_life ++ sample_reset))) !! "ann@x.io" = Some u /\
    users srv' = <["ann@x.io" := mkUser (u_id u) (u_name u) (u_company u) (sample_hash "stolen") (u_role u)]>
      (users (as_server (sample_auth (sample_life ++ sample_reset)))).
Proof.
  apply (reset_link_works_until_it_expires sample_email sample_hash sample_verify 60 sample_encode sample_read sample_uuid
    sample_life sample_reset "ann@x.io" sample_link 3760 "stolen" sample_run_ok); [|vm_compute; discriminate|reflexivity].
  apply list_elem_of_In. vm_compute. by left.
Defined.

(** A link's token is the session of a user without a role. *)
Lemma tokens_open_what_they_were_issued_for_witness :
  let t := sample_encode sample_link in
  me_handler sample_read 400 (bearer_of t) = Ok ("u1", "RESET") /\
  authenticate (claims_at sample_read 400) sample_uuid (bearer_of t) = inl (unauthorized "The access token role is invalid").
Proof.
  pose proof (tokens_open_what_they_were_issued_for sample_email sample_hash sample_verify 60 sample_encode sample_read
    sample_uuid (sample_life ++ sample_reset) 400 DbServes "another" sample_link sample_run_ok eq_refl
    (or_intror (ex_intro _ "ann@x.io" sample_mailed))) as H.
  destruct H as (H1 & H2 & _). split; [exact H1|exact H2].
Defined.
