(* ===== verification/Capture.v ===== *)
(** * Change capture ([apps/cdc-worker])

    The worker reads PostgreSQL's logical replication stream, decodes its binary
    messages ([src/decoder.rs]) and publishes a message per changed row of the two
    indexed tables ([src/processor.rs]).  A buffer of bytes is a [string]; a text is
    the string of its UTF-8 bytes.  The printed form of the messages is the
    documented one of the protocol and serves as the decoder's specification. *)

From Stdlib Require Import Ascii.
From S2P Require Import Prelude JSText.
#[local] Open Scope Z_scope.

(** ** Bytes and texts *)
Definition code (c : ascii) : Z := Z.of_N (N_of_ascii c).
Definition chr (z : Z) : ascii := ascii_of_N (Z.to_N z).

Definition between (lo hi : Z) (c : ascii) : bool := (lo <=? code c) && (code c <=? hi).
Definition continues : ascii -> bool := between 128 191.

(** U+FFFD. *)
Definition replacement : string := String (chr 239) (String (chr 191) (String (chr 189) EmptyString)).

(** [String::from_utf8_lossy]: a maximal piece that is not UTF-8 is replaced. *)
Definition second_of_three (a : ascii) : ascii -> bool :=
  if code a =? 224 then between 160 191 else if code a =? 237 then between 128 159 else continues.
Definition second_of_four (a : ascii) : ascii -> bool :=
  if code a =? 240 then between 144 191 else if code a =? 244 then between 128 143 else continues.

Fixpoint from_utf8_lossy (s : string) : string :=
  match s with
  | EmptyString => EmptyString
  | String a r =>
      if code a <? 128 then String a (from_utf8_lossy r)
      else if between 194 223 a then
        match r with
        | String b r1 => if continues b then String a (String b (from_utf8_lossy r1)) else replacement +:+ from_utf8_lossy r
        | EmptyString => replacement
        end
      else if between 224 239 a then
        match r with
        | String b r1 =>
            if second_of_three a b then
              match r1 with
              | String c r2 =>
                  if continues c then String a (String b (String c (from_utf8_lossy r2)))
                  else replacement +:+ from_utf8_lossy r1
              | EmptyString => replacement
              end
            else replacement +:+ from_utf8_lossy r
        | EmptyString => replacement
        end
      else if between 240 244 a then
        match r with
        | String b r1 =>
            if second_of_four a b then
              match r1 with
              | String c r2 =>
                  if continues c then
                    match r2 with
                    | String d r3 =>
                        if continues d then String a (String b (String c (String d (from_utf8_lossy r3))))
                        else replacement +:+ from_utf8_lossy r2
                    | EmptyString => replacement
                    end
                  else replacement +:+ from_utf8_lossy r1
              | EmptyString => replacement
              end
            else replacement +:+ from_utf8_lossy r
        | EmptyString => replacement
        end
      else replacement +:+ from_utf8_lossy r
  end.

(** ** The byte parser

    A read gives its value and leaves the rest; one that fails leaves the buffer. *)
Definition Parser (A : Type) : Type := string -> option A * string.

Definition u8 : Parser Z := fun s =>
  match s with String a r => (Some (code a), r) | EmptyString => (None, s) end.

Definition u16_be : Parser Z := fun s =>
  match s with String a (String b r) => (Some (code a * 256 + code b), r) | _ => (None, s) end.

Definition u32_be : Parser Z := fun s =>
  match s with
  | String a (String b (String c (String d r))) => (Some (((code a * 256 + code b) * 256 + code c) * 256 + code d), r)
  | _ => (None, s)
  end.

Definition i32_be : Parser Z := fun s =>
  let '(v, r) := u32_be s in ((fun n => if n <? 2147483648 then n else n - 4294967296) <$> v, r).

Fixpoint before_nul (s : string) : option (string * string) :=
  match s with
  | EmptyString => None
  | String a r =>
      if code a =? 0 then Some (EmptyString, r)
      else (fun p : string * string => (String a p.1, p.2)) <$> before_nul r
  end.

Definition cstr : Parser string := fun s =>
  match before_nul s with Some (t, r) => (Some (from_utf8_lossy t), r) | None => (None, s) end.

Fixpoint split_at (n : nat) (s : string) : string * string :=
  match n, s with
  | S m, String a r => let '(t, r') := split_at m r in (String a t, r')
  | _, _ => (EmptyString, s)
  end.

Definition size (s : string) : Z := Z.of_nat (String.length s).

Definition bytes (n : Z) : Parser string := fun s =>
  if size s <? n then (None, s) else let '(t, r) := split_at (Z.to_nat n) s in (Some t, r).

(** [unwrap_or_default] on a text. *)
Definition or_default (s : option string) : string := default EmptyString s.

(** ** The decoder ([RelationRegistry]) *)
Abbreviation Fields := (gmap string (option string)).

Inductive WalEvent :=
| Insert (table : string) (fields : Fields)
| Update (table : string) (new_fields : Fields)
| Delete (table : string) (key_fields : Fields)
| Skip.

Record RelationInfo := mkRelation { rel_name : string; rel_columns : list string }.

Abbreviation RelationRegistry := (gmap Z RelationInfo).

(** The columns of a relation message; a missing part reads as empty. *)
Fixpoint read_columns (n : nat) (s : string) : list string * string :=
  match n with
  | O => ([], s)
  | S m =>
      let '(_, s1) := u8 s in
      let '(col_name, s2) := cstr s1 in
      let '(_, s3) := u32_be s2 in
      let '(_, s4) := i32_be s3 in
      let '(columns, r) := read_columns m s4 in
      (or_default col_name :: columns, r)
  end.

Definition handle_relation (body : string) (relations : RelationRegistry) : RelationRegistry :=
  match u32_be body with
  | (None, _) => relations
  | (Some oid, s1) =>
      let '(_, s2) := cstr s1 in
      let '(name, s3) := cstr s2 in
      let '(_, s4) := u8 s3 in
      match u16_be s4 with
      | (None, _) => relations
      | (Some num_cols, s5) =>
          <[oid := mkRelation (or_default name) (read_columns (Z.to_nat num_cols) s5).1]> relations
      end
  end.

(** The columns of a tuple, from the [i]-th on. *)
Fixpoint read_values (columns : list string) (n i : nat) (fields : Fields) (s : string) : option Fields * string :=
  match n with
  | O => (Some fields, s)
  | S m =>
      match u8 s with
      | (None, s1) => (None, s1)
      | (Some col_type, s1) =>
          let col_name := default "_unknown" (columns !! i) in
          if col_type =? 110 then read_values columns m (S i) (<[col_name := None]> fields) s1
          else if col_type =? 117 then read_values columns m (S i) fields s1
          else if col_type =? 116 then
            match u32_be s1 with
            | (None, s2) => (None, s2)
            | (Some len, s2) =>
                match bytes len s2 with
                | (None, s3) => (None, s3)
                | (Some v, s3) => read_values columns m (S i) (<[col_name := Some (from_utf8_lossy v)]> fields) s3
                end
            end
          else read_values columns m (S i) fields s1
      end
  end.

Definition parse_tuple (columns : list string) : Parser Fields := fun s =>
  match u16_be s with
  | (None, s1) => (None, s1)
  | (Some num_cols, s1) => read_values columns (Z.to_nat num_cols) 0 ∅ s1
  end.

(** The part of the handlers up to the relation of the message. *)
Definition with_relation (body : string) (relations : RelationRegistry) (k : RelationInfo -> string -> WalEvent) : WalEvent :=
  match u32_be body with
  | (None, _) => Skip
  | (Some oid, s) => match relations !! oid with Some rel => k rel s | None => Skip end
  end.

Definition handle_insert (body : string) (relations : RelationRegistry) : WalEvent :=
  with_relation body relations (fun rel s =>
    match u8 s with
    | (Some 78, s1) =>
        match (parse_tuple (rel_columns rel) s1).1 with Some fields => Insert (rel_name rel) fields | None => Skip end
    | _ => Skip
    end).

Definition handle_update (body : string) (relations : RelationRegistry) : WalEvent :=
  with_relation body relations (fun rel s =>
    let update (s1 : string) :=
      match (parse_tuple (rel_columns rel) s1).1 with Some f => Update (rel_name rel) f | None => Skip end in
    match u8 s with
    | (Some first, s1) =>
        if (first =? 79) || (first =? 75) then
          let '(_, s2) := parse_tuple (rel_columns rel) s1 in
          match u8 s2 with (Some 78, s3) => update s3 | _ => Skip end
        else if first =? 78 then update s1
        else Skip
    | (None, _) => Skip
    end).

Definition handle_delete (body : string) (relations : RelationRegistry) : WalEvent :=
  with_relation body relations (fun rel s =>
    match u8 s with
    | (Some marker, s1) =>
        if (marker =? 79) || (marker =? 75) then
          match (parse_tuple (rel_columns rel) s1).1 with Some f => Delete (rel_name rel) f | None => Skip end
        else Skip
    | (None, _) => Skip
    end).

Definition process_message (data : string) (relations : RelationRegistry) : WalEvent * RelationRegistry :=
  match data with
  | EmptyString => (Skip, relations)
  | String tag body =>
      let t := code tag in
      if t =? 82 then (Skip, handle_relation body relations)
      else if t =? 73 then (handle_insert body relations, relations)
      else if t =? 85 then (handle_update body relations, relations)
      else if t =? 68 then (handle_delete body relations, relations)
      else (Skip, relations)
  end.

(** ** To the broker ([into_kafka_event], [publisher_task]) *)

(** The payload: the row's texts, or the mark of a deletion. *)
Inductive Payload := PRow (fields : Fields) | PDeleted (id : string).
Record KafkaEvent := mkKafka { k_topic : string; k_key : string; k_payload : Payload }.

Definition topic_of (table : string) : option string :=
  if String.eqb table "auctions" then Some "cdc-auctions"
  else if String.eqb table "auction_listings" then Some "cdc-auction-listings"
  else None.

(** [fields.get("id")?.as_deref()?]. *)
Definition id_of (fields : Fields) : option string := mjoin (fields !! "id").

Definition into_kafka_event (e : WalEvent) : option KafkaEvent :=
  match e with
  | Insert table fields | Update table fields =>
      topic ← topic_of table; key ← id_of fields; Some (mkKafka topic key (PRow fields))
  | Delete table key_fields =>
      topic ← topic_of table; key ← id_of key_fields; Some (mkKafka topic key (PDeleted key))
  | Skip => None
  end.

(** One message's publication, by the outcomes of its attempts: whether it reached
    the broker; [None] while it is still tried.  It is acknowledged either way. *)
Fixpoint publish_attempts (retries : Z) (outcomes : list bool) : option bool :=
  match outcomes with
  | [] => None
  | true :: _ => Some true
  | false :: rest => if 10 <=? retries + 1 then Some false else publish_attempts (retries + 1) rest
  end.

(** ** The printed form of the messages

    As the protocol documents it: numbers in network order, texts with their
    length or a closing NUL. *)
Definition be16 (n : Z) : string := String (chr (n / 256)) (String (chr (n mod 256)) EmptyString).
Definition be32 (n : Z) : string := be16 (n / 65536) +:+ be16 (n mod 65536).
Definition c_string (s : string) : string := s +:+ String (chr 0) EmptyString.

Inductive TupleValue := Null | Unchanged | Text (s : string).

Definition put_value (v : TupleValue) : string :=
  match v with Null => "n" | Unchanged => "u" | Text s => "t" +:+ be32 (size s) +:+ s end.

Definition concat_strings (l : list string) : string := fold_right (fun a b => a +:+ b) EmptyString l.

Definition put_tuple (vs : list TupleValue) : string :=
  be16 (Z.of_nat (length vs)) +:+ concat_strings (map put_value vs).

(** A column: flags, name, type and modifier. *)
Definition put_column (c : Z * string * Z * Z) : string :=
  let '(flags, name, type, modifier) := c in String (chr flags) EmptyString +:+ c_string name +:+ be32 type +:+ be32 modifier.

Definition relation_message (oid : Z) (namespace name : string) (identity : Z) (columns : list (Z * string * Z * Z)) : string :=
  "R" +:+ be32 oid +:+ c_string namespace +:+ c_string name +:+ String (chr identity) EmptyString +:+
  be16 (Z.of_nat (length columns)) +:+ concat_strings (map put_column columns).

Definition insert_message (oid : Z) (vs : list TupleValue) : string := "I" +:+ be32 oid +:+ "N" +:+ put_tuple vs.

(** An update may send the old row ([O]) or the old key ([K]) first. *)
Inductive Marker := OldRow | OldKey.
Definition marker_text (m : Marker) : string := match m with OldRow => "O" | OldKey => "K" end.

Definition update_message (oid : Z) (old : option (Marker * list TupleValue)) (vs : list TupleValue) : string :=
  "U" +:+ be32 oid +:+
  match old with Some (m, o) => marker_text m +:+ put_tuple o | None => EmptyString end +:+ "N" +:+ put_tuple vs.

Definition delete_message (oid : Z) (m : Marker) (key : list TupleValue) : string :=
  "D" +:+ be32 oid +:+ marker_text m +:+ put_tuple key.

(** What a tuple says of the columns; later columns of one name win. *)
Definition put_field (c : string) (v : TupleValue) (f : Fields) : Fields :=
  match v with Null => <[c := None]> f | Unchanged => f | Text s => <[c := Some s]> f end.

Fixpoint tuple_fields (columns : list string) (vs : list TupleValue) (f : Fields) : Fields :=
  match columns, vs with c :: cs, v :: vs' => tuple_fields cs vs' (put_field c v f) | _, _ => f end.

(** Sizes and encodings within the protocol's bounds. *)
Definition is_text (s : string) : Prop := from_utf8_lossy s = s.
Definition value_ok (v : TupleValue) : Prop := match v with Text s => is_text s /\ size s < 4294967296 | _ => True end.
Definition tuple_ok (columns : list string) (vs : list TupleValue) : Prop :=
  length vs = length columns /\ Z.of_nat (length vs) < 65536 /\ Forall value_ok vs.
Definition oid_ok (oid : Z) : Prop := 0 <= oid < 4294967296.
Definition name_ok (s : string) : Prop := is_text s /\ before_nul s = None.
Definition column_ok (c : Z * string * Z * Z) : Prop := name_ok c.1.1.2 /\ oid_ok c.1.2 /\ oid_ok c.2 /\ 0 <= c.1.1.1 < 256.

(** ** Lemmas *)

Lemma code_chr z : 0 <= z < 256 -> code (chr z) = z.
Proof. intros H. unfold code, chr. rewrite N_ascii_embedding by lia. lia. Qed.

Lemma code_range c : 0 <= code c < 256.
Proof. unfold code. pose proof (N_ascii_bounded c). lia. Qed.

Lemma str_app_cons c a b : String c a +:+ b = String c (a +:+ b).
Proof. done. Qed.

Lemma str_nil_r (s : string) : s +:+ EmptyString = s.
Proof. induction s as [|a s IH]; [done|]. rewrite str_app_cons. by rewrite IH. Qed.

Lemma u16_put n r : 0 <= n < 65536 -> u16_be (be16 n +:+ r) = (Some n, r).
Proof.
  intros H. unfold be16. rewrite !str_app_cons. change (EmptyString +:+ r) with r. cbn [u16_be]. rewrite !code_chr; [|apply Z.mod_pos_bound; lia|].
  - f_equal. f_equal. rewrite (Z.div_mod n 256) at 3 by lia. lia.
  - split; [by apply Z.div_pos; lia|]. apply Z.div_lt_upper_bound; lia.
Qed.

Lemma u32_put n r : 0 <= n < 4294967296 -> u32_be (be32 n +:+ r) = (Some n, r).
Proof.
  intros H. unfold be32. rewrite str_app_assoc.
  assert (H1 : 0 <= n / 65536 < 65536) by (split; [by apply Z.div_pos; lia|apply Z.div_lt_upper_bound; lia]).
  assert (H2 : 0 <= n mod 65536 < 65536) by (apply Z.mod_pos_bound; lia).
  pose proof (u16_put _ r H2) as E2. pose proof (u16_put _ (be16 (n mod 65536) +:+ r) H1) as E1.
  unfold be16 in *. rewrite !str_app_cons in *. change (EmptyString +:+ ?x) with x in *.
  cbn [u16_be u32_be] in *. injection E1 as E1. injection E2 as E2. rewrite E1.
  pose proof (Z.div_mod n 65536 ltac:(lia)) as E. change (EmptyString +:+ r) with r. f_equal. f_equal. lia.
Qed.

Lemma i32_put n r : 0 <= n < 4294967296 -> (i32_be (be32 n +:+ r)).2 = r.
Proof. intros H. unfold i32_be. by rewrite u32_put. Qed.

Lemma split_put t r : split_at (String.length t) (t +:+ r) = (t, r).
Proof.
  induction t as [|a t IH]; [by destruct r|]. rewrite str_app_cons. cbn [String.length split_at]. by rewrite IH.
Qed.

Lemma size_app a b : size (a +:+ b) = size a + size b.
Proof.
  unfold size. induction a as [|x a IH]; [done|]. rewrite str_app_cons. cbn [String.length]. lia.
Qed.

Lemma size_nonneg s : 0 <= size s.
Proof. unfold size. lia. Qed.

Lemma bytes_put t r : bytes (size t) (t +:+ r) = (Some t, r).
Proof.
  unfold bytes. rewrite size_app. pose proof (size_nonneg r). rewrite (proj2 (Z.ltb_ge _ _)) by lia.
  unfold size. by rewrite Nat2Z.id, split_put.
Qed.

Lemma cstr_put t r : name_ok t -> cstr (c_string t +:+ r) = (Some t, r).
Proof.
  intros [Ht Hn]. unfold cstr, c_string. rewrite str_app_assoc.
  assert (E : before_nul (t +:+ String (chr 0) r) = Some (t, r)).
  { clear Ht. induction t as [|a t IH]; [done|]. rewrite str_app_cons. cbn [before_nul] in Hn |- *. destruct (code a =? 0); [done|].
    destruct (before_nul t); [done|]. by rewrite IH. }
  change (String (chr 0) EmptyString +:+ r) with (String (chr 0) r). rewrite E. by rewrite Ht.
Qed.

Lemma read_values_put cols pre vs r f :
  length vs = length cols -> Forall value_ok vs ->
  read_values (pre ++ cols) (length vs) (length pre) f (concat_strings (map put_value vs) +:+ r) =
    (Some (tuple_fields cols vs f), r).
Proof.
  revert cols pre f. induction vs as [|v vs IH]; intros [|c cols] pre f Hl Hv; try done.
  inversion Hv as [|? ? Hv1 Hv2]; subst. cbn [length read_values map concat_strings fold_right tuple_fields].
  fold (concat_strings (map put_value vs)).
  assert (Ec : (pre ++ c :: cols) !! length pre = Some c) by (by rewrite lookup_app_r, Nat.sub_diag by lia).
  assert (IH' : forall g, read_values (pre ++ c :: cols) (length vs) (S (length pre)) g
      (concat_strings (map put_value vs) +:+ r) = (Some (tuple_fields cols vs g), r)).
  { intros g. specialize (IH cols (pre ++ [c]) g ltac:(simpl in Hl; lia) Hv2).
    rewrite <-app_assoc, length_app, Nat.add_1_r in IH. exact IH. }
  rewrite Ec, str_app_assoc. destruct v as [| |s]; cbn [put_value].
  - cbn [u8 default put_field]. apply IH'.
  - apply IH'.
  - destruct Hv1 as [Hs Hn]. rewrite !str_app_assoc. change ("t" +:+ ?x) with (String "t" x). cbn [u8].
    change (code "t" =? 110) with false. change (code "t" =? 117) with false. change (code "t" =? 116) with true. cbn iota.
    rewrite u32_put by (split; [apply size_nonneg|done]). rewrite bytes_put, Hs. apply IH'.
Qed.

Lemma parse_tuple_put cols vs r :
  tuple_ok cols vs -> parse_tuple cols (put_tuple vs +:+ r) = (Some (tuple_fields cols vs ∅), r).
Proof.
  intros (Hl & Hn & Hv). unfold parse_tuple, put_tuple. rewrite str_app_assoc, u16_put by lia.
  rewrite Nat2Z.id. by apply (read_values_put cols [] vs r ∅).
Qed.

Lemma parse_tuple_end cols vs : tuple_ok cols vs -> (parse_tuple cols (put_tuple vs)).1 = Some (tuple_fields cols vs ∅).
Proof.
  intros H. pose proof (parse_tuple_put cols vs EmptyString H) as E.
  rewrite str_nil_r in E. by rewrite E.
Qed.

Lemma read_columns_put cols r :
  Forall column_ok cols ->
  read_columns (length cols) (concat_strings (map put_column cols) +:+ r) = (map (fun c => c.1.1.2) cols, r).
Proof.
  induction 1 as [|[[[flags name] type] modifier] cols (H1 & H2 & H3 & _) _ IH]; [done|]. cbn [fst snd] in *.
  cbn [length read_columns map concat_strings fold_right put_column fst snd]. fold (concat_strings (map put_column cols)).
  rewrite !str_app_assoc, str_app_cons. change (EmptyString +:+ ?x) with x. cbn [u8].
  rewrite cstr_put by done. rewrite u32_put by done.
  pose proof (i32_put modifier (concat_strings (map put_column cols) +:+ r) H3) as E.
  destruct (i32_be _) as [? s4]. simpl in E. subst s4. by rewrite IH.
Qed.

Lemma process_relation oid namespace name identity cols reg :
  oid_ok oid -> name_ok namespace -> name_ok name -> Z.of_nat (length cols) < 65536 -> Forall column_ok cols ->
  process_message (relation_message oid namespace name identity cols) reg =
    (Skip, <[oid := mkRelation name (map (fun c => c.1.1.2) cols)]> reg).
Proof.
  intros Ho Hns Hna Hl Hc. unfold relation_message, process_message. rewrite str_app_cons. cbn iota.
  change (code "R" =? 82) with true. cbn iota. change (EmptyString +:+ ?x) with x. unfold handle_relation.
  rewrite u32_put by done. rewrite !cstr_put by done. rewrite str_app_cons. change (EmptyString +:+ ?x) with x. cbn [u8].
  rewrite u16_put by lia. rewrite Nat2Z.id.
  pose proof (read_columns_put cols EmptyString Hc) as E.
  rewrite str_nil_r in E. by rewrite E.
Qed.

Lemma with_relation_put oid r reg rel k :
  oid_ok oid -> reg !! oid = Some rel -> with_relation (be32 oid +:+ r) reg k = k rel r.
Proof. intros Ho Hr. unfold with_relation. rewrite u32_put by done. by rewrite Hr. Qed.

Section Messages.
Context (oid : Z) (reg : RelationRegistry) (rel : RelationInfo).
Context (Ho : oid_ok oid) (Hr : reg !! oid = Some rel).

Lemma process_insert vs :
  tuple_ok (rel_columns rel) vs ->
  process_message (insert_message oid vs) reg = (Insert (rel_name rel) (tuple_fields (rel_columns rel) vs ∅), reg).
Proof.
  intros Hv. unfold insert_message, process_message. rewrite str_app_cons. cbn iota.
  change (code "I" =? 82) with false. change (code "I" =? 73) with true. cbn iota. change (EmptyString +:+ ?x) with x.
  f_equal. unfold handle_insert. rewrite (with_relation_put oid _ reg rel) by done. rewrite str_app_cons.
  change (EmptyString +:+ ?x) with x. cbn [u8]. change (code "N") with 78. cbn iota. by rewrite parse_tuple_end.
Qed.

Lemma process_update old vs :
  tuple_ok (rel_columns rel) vs -> (forall m o, old = Some (m, o) -> tuple_ok (rel_columns rel) o) ->
  process_message (update_message oid old vs) reg = (Update (rel_name rel) (tuple_fields (rel_columns rel) vs ∅), reg).
Proof.
  intros Hv Hold. unfold update_message, process_message. rewrite str_app_cons. cbn iota.
  change (code "U" =? 82) with false. change (code "U" =? 73) with false. change (code "U" =? 85) with true. cbn iota.
  change (EmptyString +:+ ?x) with x. f_equal. unfold handle_update. rewrite (with_relation_put oid _ reg rel) by done.
  destruct old as [[m o]|].
  - rewrite str_app_assoc.
    assert (E : forall x, u8 (marker_text m +:+ x) = (Some (match m with OldRow => 79 | OldKey => 75 end), x)) by (by destruct m).
    rewrite E. replace (_ || _) with true by (by destruct m). rewrite parse_tuple_put by (by eapply Hold).
    rewrite str_app_cons. change (EmptyString +:+ ?x) with x. cbn [u8]. change (code "N") with 78. cbn iota.
    by rewrite parse_tuple_end.
  - change (EmptyString +:+ ?x) with x. rewrite str_app_cons. change (EmptyString +:+ ?x) with x. cbn [u8].
    change (code "N") with 78. cbn. by rewrite parse_tuple_end.
Qed.

Lemma process_delete m key :
  tuple_ok (rel_columns rel) key ->
  process_message (delete_message oid m key) reg = (Delete (rel_name rel) (tuple_fields (rel_columns rel) key ∅), reg).
Proof.
  intros Hv. unfold delete_message, process_message. rewrite str_app_cons. cbn iota.
  change (code "D" =? 82) with false. change (code "D" =? 73) with false. change (code "D" =? 85) with false.
  change (code "D" =? 68) with true. cbn iota. change (EmptyString +:+ ?x) with x. f_equal. unfold handle_delete.
  rewrite (with_relation_put oid _ reg rel) by done.
  assert (E : forall x, u8 (marker_text m +:+ x) = (Some (match m with OldRow => 79 | OldKey => 75 end), x)) by (by destruct m).
  rewrite E. replace (_ || _) with true by (by destruct m). by rewrite parse_tuple_end.
Qed.
End Messages.

(** *** What a decoded tuple says of a column *)

(** [None]: the column is left out, it has not changed. *)
Definition given (v : TupleValue) : option (option string) :=
  match v with Null => Some None | Unchanged => None | Text s => Some (Some s) end.

Lemma put_field_other c c' v f : c <> c' -> put_field c v f !! c' = f !! c'.
Proof. intros H. destruct v; simpl; by rewrite ?lookup_insert_ne. Qed.

Lemma tuple_fields_other cols vs f c : ~ c ∈ cols -> tuple_fields cols vs f !! c = f !! c.
Proof.
  revert vs f. induction cols as [|c' cols IH]; intros [|v vs] f H; try done. cbn [tuple_fields].
  apply not_elem_of_cons in H as [H1 H2]. rewrite IH by done. by apply put_field_other.
Qed.

Lemma tuple_fields_lookup cols vs f i c v :
  NoDup cols -> cols !! i = Some c -> vs !! i = Some v ->
  tuple_fields cols vs f !! c = match given v with Some x => Some x | None => f !! c end.
Proof.
  intros Hd. revert vs f i. induction Hd as [|c' cols Hc Hd IH]; intros [|v' vs] f [|i] Ec Ev; try done; simpl in *.
  - injection Ec as ->. injection Ev as ->. rewrite tuple_fields_other by done. destruct v; simpl; by rewrite ?lookup_insert_eq.
  - rewrite (IH vs _ i) by done. destruct (given v); [done|]. apply put_field_other. intros ->.
    apply Hc. by eapply list_elem_of_lookup_2.
Qed.

(** ** Properties *)

(** C9: the decoder reads what the database says.  Whatever a registry held before, the
    message of a relation followed by that of an inserted, updated (with the old row
    or key in front, or neither) or deleted row gives that event, in which every
    column has its text or NULL, and a column that has not changed is left out. *)
Theorem decoder_reads_row_changes oid namespace name identity cols reg old vs m :
  let names := map (fun c : Z * string * Z * Z => c.1.1.2) cols in
  oid_ok oid -> name_ok namespace -> name_ok name -> Z.of_nat (length cols) < 65536 -> Forall column_ok cols ->
  NoDup names -> tuple_ok names vs -> (forall m' o, old = Some (m', o) -> tuple_ok names o) ->
  let '(e0, reg') := process_message (relation_message oid namespace name identity cols) reg in
  e0 = Skip /\ exists fields,
    process_message (insert_message oid vs) reg' = (Insert name fields, reg') /\
    process_message (update_message oid old vs) reg' = (Update name fields, reg') /\
    process_message (delete_message oid m vs) reg' = (Delete name fields, reg') /\
    (forall i c v, names !! i = Some c -> vs !! i = Some v -> fields !! c = given v) /\
    (forall c, ~ c ∈ names -> fields !! c = None).
Proof.
  intros names Ho Hns Hna Hl Hc Hd Hv Hold. rewrite process_relation by done. fold names. split; [done|].
  set (rel := mkRelation name names). set (reg' := <[oid := rel]> reg).
  assert (Hr : reg' !! oid = Some rel) by apply lookup_insert_eq.
  exists (tuple_fields names vs ∅).
  split; [by apply (process_insert oid reg' rel)|]. split; [by apply (process_update oid reg' rel)|].
  split; [by apply (process_delete oid reg' rel)|]. split.
  - intros i c v H1 H2. rewrite (tuple_fields_lookup names vs ∅ i c v) by done. rewrite lookup_empty. by destruct (given v).
  - intros c H. by rewrite tuple_fields_other, lookup_empty.
Qed.

(** ** Witness *)
Definition sample_columns : list (Z * string * Z * Z) :=
  [(1, "id", 2950, 4294967295); (0, "title", 25, 4294967295); (0, "description", 25, 4294967295)].
Definition cafe : string := "caf" +:+ String (chr 195) (String (chr 169) EmptyString).

Lemma decoder_reads_row_changes_witness :
  exists fields,
    let reg := (process_message (relation_message 16400 "public" "auctions" 100 sample_columns) ∅).2 in
    process_message (insert_message 16400 [Text "a1"; Text cafe; Unchanged]) reg = (Insert "auctions" fields, reg) /\
    fields !! "title" = Some (Some cafe) /\ fields !! "description" = None.
Proof.
  pose proof (decoder_reads_row_changes 16400 "public" "auctions" 100 sample_columns ∅ None
    [Text "a1"; Text cafe; Unchanged] OldKey) as H. cbn zeta in H.
  destruct (process_message (relation_message 16400 "public" "auctions" 100 sample_columns) ∅) as [e0 reg'].
  destruct H as (_ & fields & H1 & _ & _ & H2 & _).
  - unfold oid_ok. lia.
  - done.
  - done.
  - done.
  - repeat constructor; unfold oid_ok; simpl; lia.
  - by_decide.
  - split; [done|]. split; [done|]. repeat constructor.
  - done.
  - exists fields. split; [exact H1|].
    split; [by apply (H2 1%nat "title" (Text cafe))|by apply (H2 2%nat "description" Unchanged)].
Defined.
