(* ===== verification/SearchIndex.v ===== *)
(** * The search index ([apps/search-server])

    The consumer that keeps the index ([src/consumer.rs]), the request that a search
    makes ([src/es.rs]), and the way of a changed row from the database to the index:
    the change worker ([Capture]) reads the stream again after every interruption,
    and the consumer, which commits nothing, the topics after every restart. *)

From Stdlib Require Import Ascii.
From S2P Require Import Prelude JSText.
From S2P Require Import Capture.
#[local] Open Scope Z_scope.

(** ** The consumer ([run_consumer]) *)

(** [trim().is_empty()]: white space of Unicode, in UTF-8. *)
Fixpoint blank (s : string) : bool :=
  match s with
  | EmptyString => true
  | String a r =>
      if between 9 13 a || (code a =? 32) then blank r
      else match r with
      | String b r1 =>
          if code a =? 194 then ((code b =? 133) || (code b =? 160)) && blank r1
          else match r1 with
          | String c r2 =>
              (if code a =? 225 then (code b =? 154) && (code c =? 128)
               else if code a =? 226 then
                 ((code b =? 128) && (between 128 138 c || (code c =? 168) || (code c =? 169) || (code c =? 175))) ||
                 ((code b =? 129) && (code c =? 159))
               else (code a =? 227) && (code b =? 128) && (code c =? 128)) && blank r2
          | EmptyString => false
          end
      | EmptyString => false
      end
  end.

(** A message is in one partition of its topic, by its key. *)
Abbreviation Lane := (string * nat)%type.

Section Index.
(** A vector of the embedding service. *)
Context {Embedding : Type}.

Record Document := mkDocument { doc_fields : Fields; doc_embedding : option Embedding }.

(** [doc[key].as_str().unwrap_or_default()]. *)
Definition text_of (fields : Fields) (key : string) : string := or_default (mjoin (fields !! key)).

Definition text_to_embed (fields : Fields) : string := text_of fields "title" +:+ " " +:+ text_of fields "description".

(** One message; [embedded] is the service's answer, [served] says whether the index
    takes the request.  Both failures are passed over. *)
Definition consume (embedded : option Embedding) (served : bool) (k : KafkaEvent) (index : gmap string Document) :
    gmap string Document :=
  match k_payload k with
  | PDeleted id => if served then delete id index else index
  | PRow fields =>
      match id_of fields with
      | None => index
      | Some id =>
          let embedding := if blank (text_to_embed fields) then None else embedded in
          if served then <[id := mkDocument fields embedding]> index else index
      end
  end.

(** ** The request of a search ([search]) *)
Inductive Clause := Term (field value : string) | Keyword (query : string) | MatchAll.
Record SearchBody := mkBody { must : list Clause; knn : option Embedding }.

Definition search_body (category q : option string) (embedded : option Embedding) : SearchBody :=
  let category_clause := match category with Some (String c s) => [Term "item_category" (String c s)] | _ => [] end in
  let '(text_clause, knn) :=
    match q with Some (String c s) => ([Keyword (String c s)], embedded) | _ => ([], None) end in
  let clauses := category_clause ++ text_clause in
  mkBody (match clauses, knn with [], None => [MatchAll] | _, _ => clauses end) knn.

(** ** The way of a row *)

(** A published table: what its relation message says. *)
Record Schema := mkSchema { sm_namespace : string; sm_name : string; sm_identity : Z; sm_columns : list (Z * string * Z * Z) }.

Definition names_of (sm : Schema) : list string := map (fun c => c.1.1.2) (sm_columns sm).
Definition relation_of (sm : Schema) : RelationInfo := mkRelation (sm_name sm) (names_of sm).

(** The database's log: changed rows, by their table's number. *)
Inductive Change :=
| RowInserted (oid : Z) (vs : list TupleValue)
| RowUpdated (oid : Z) (old : option (Marker * list TupleValue)) (vs : list TupleValue)
| RowDeleted (oid : Z) (m : Marker) (key : list TupleValue).

Definition change_oid (c : Change) : Z := match c with RowInserted o _ | RowUpdated o _ _ | RowDeleted o _ _ => o end.
Definition change_tuple (c : Change) : list TupleValue :=
  match c with RowInserted _ vs | RowUpdated _ _ vs | RowDeleted _ _ vs => vs end.

Definition change_message (c : Change) : string :=
  match c with
  | RowInserted oid vs => insert_message oid vs
  | RowUpdated oid old vs => update_message oid old vs
  | RowDeleted oid m key => delete_message oid m key
  end.

Record Pipe := mkPipe {
  p_registry : RelationRegistry;
  p_read : nat;
  p_logs : gmap Lane (list KafkaEvent);
  p_at : gmap Lane nat;
  p_index : gmap string Document
}.

Definition pipe0 : Pipe := mkPipe ∅ 0 ∅ ∅ ∅.

(** [Capture]: the worker reads on; the database has announced the relation in front,
    or not, and [outcomes] are the attempts to publish.  [Resume]: it is connected
    again at an earlier place, in a new process or not.  [Consume]: the consumer takes
    a lane's next message.  [Rewind]: it starts again further back. *)
Inductive pipe_event :=
| Captured (announced : bool) (outcomes : list bool)
| Resume (place : nat) (restarted : bool)
| Consumed (lane : Lane) (embedded : option Embedding) (served : bool)
| Rewind (lane : Lane) (place : nat).

Section Pipe.
Context (schema : gmap Z Schema) (partition : string -> nat) (wal : list Change).

Definition lane_of (k : KafkaEvent) : Lane := (k_topic k, partition (k_key k)).

Definition log_of (lane : Lane) (s : Pipe) : list KafkaEvent := default [] (p_logs s !! lane).
Definition place_of (lane : Lane) (s : Pipe) : nat := default 0%nat (p_at s !! lane).

(** The database announces a relation in front of a change. *)
Definition announce (announced : bool) (c : Change) (registry : RelationRegistry) : RelationRegistry :=
  match announced, schema !! change_oid c with
  | true, Some sm =>
      (process_message (relation_message (change_oid c) (sm_namespace sm) (sm_name sm) (sm_identity sm) (sm_columns sm)) registry).2
  | _, _ => registry
  end.

Definition pipe_step (e : pipe_event) (s : Pipe) : Pipe :=
  match e with
  | Captured announced outcomes =>
      match wal !! p_read s with
      | None => s
      | Some c =>
          let '(event, registry) := process_message (change_message c) (announce announced c (p_registry s)) in
          let on logs := mkPipe registry (S (p_read s)) logs (p_at s) (p_index s) in
          match into_kafka_event event with
          | None => on (p_logs s)
          | Some k =>
              match publish_attempts 0 outcomes with
              | Some true => on (<[lane_of k := log_of (lane_of k) s ++ [k]]> (p_logs s))
              | Some false => on (p_logs s)
              | None => s
              end
          end
      end
  | Resume place restarted =>
      mkPipe (if restarted then ∅ else p_registry s) (place `min` p_read s) (p_logs s) (p_at s) (p_index s)
  | Consumed lane embedded served =>
      match log_of lane s !! place_of lane s with
      | None => s
      | Some k => mkPipe (p_registry s) (p_read s) (p_logs s) (<[lane := S (place_of lane s)]> (p_at s))
                    (consume embedded served k (p_index s))
      end
  | Rewind lane place =>
      mkPipe (p_registry s) (p_read s) (p_logs s) (<[lane := (place `min` place_of lane s)%nat]> (p_at s)) (p_index s)
  end.

Definition pipe_run (es : list pipe_event) (s : Pipe) : Pipe := fold_left (fun s e => pipe_step e s) es s.

(** ** The tables *)

(** What a change says of a row: its table's topic, its identifier and its columns,
    or that it is gone. *)
Definition image_of (c : Change) : option (string * string * option Fields) :=
  sm ← schema !! change_oid c;
  topic ← topic_of (sm_name sm);
  let fields := tuple_fields (names_of sm) (change_tuple c) ∅ in
  id ← id_of fields;
  Some (topic, id, match c with RowDeleted _ _ _ => None | _ => Some fields end).

(** The rows of the indexed tables; an update keeps what it does not give. *)
Definition apply_change (rows : gmap string Fields) (c : Change) : gmap string Fields :=
  match image_of c with
  | None => rows
  | Some (_, id, None) => delete id rows
  | Some (_, id, Some fields) =>
      match c with
      | RowUpdated _ _ _ => <[id := fields ∪ default ∅ (rows !! id)]> rows
      | _ => <[id := fields]> rows
      end
  end.

Definition rows_of (l : list Change) : gmap string Fields := fold_left apply_change l ∅.

(** The last thing said of a row. *)
Definition about (id : string) (c : Change) : option (option Fields) :=
  match image_of c with Some (_, id', f) => if String.eqb id id' then Some f else None | None => None end.

Definition last_for {A B} (f : A -> option B) (l : list A) : option B := last (omap f l).

Definition last_image (id : string) (l : list Change) : option Fields := mjoin (last_for (about id) l).

(** ** The runs considered *)

(** Messages within the protocol's bounds. *)
Definition schema_ok (sm : Schema) : Prop :=
  name_ok (sm_namespace sm) /\ name_ok (sm_name sm) /\ Z.of_nat (length (sm_columns sm)) < 65536 /\
  Forall column_ok (sm_columns sm).

Definition change_ok (c : Change) : Prop :=
  oid_ok (change_oid c) /\ exists sm, schema !! change_oid c = Some sm /\ schema_ok sm /\
    tuple_ok (names_of sm) (change_tuple c) /\
    match c with RowUpdated _ (Some (_, old)) _ => tuple_ok (names_of sm) old | _ => True end.

(** A row's identifier belongs to one of the tables. *)
Definition one_table (home : string -> string) : Prop :=
  Forall (fun c => match image_of c with Some (topic, id, _) => topic = home id | None => True end) wal.

(** The database announces a relation before its first change in a connection; what
    is published arrives within ten attempts, and the index takes every request. *)
Definition event_ok (e : pipe_event) (s : Pipe) : Prop :=
  match e with
  | Captured announced outcomes =>
      publish_attempts 0 outcomes = Some true /\
      forall c sm, wal !! p_read s = Some c -> schema !! change_oid c = Some sm ->
        announced = true \/ p_registry s !! change_oid c = Some (relation_of sm)
  | Consumed _ _ served => served = true
  | _ => True
  end.

Fixpoint run_ok (es : list pipe_event) (s : Pipe) : Prop :=
  match es with [] => True | e :: es' => event_ok e s /\ run_ok es' (pipe_step e s) end.

(** Everything has been read. *)
Definition at_rest (s : Pipe) : Prop :=
  p_read s = length wal /\ forall lane, place_of lane s = length (log_of lane s).
End Pipe.
End Index.

Arguments Document : clear implicits.
Arguments Pipe : clear implicits.
Arguments pipe_event : clear implicits.

(** ** Lemmas *)

Lemma last_for_snoc {A B} (f : A -> option B) l x :
  last_for f (l ++ [x]) = match f x with Some b => Some b | None => last_for f l end.
Proof. unfold last_for. rewrite omap_app. simpl. destruct (f x); [apply last_snoc|by rewrite app_nil_r]. Qed.

Lemma last_for_step {A B} (f : A -> option B) l n x :
  l !! n = Some x -> last_for f (take (S n) l) = match f x with Some b => Some b | None => last_for f (take n l) end.
Proof. intros H. rewrite (take_S_r _ _ _ H). apply last_for_snoc. Qed.

(** A place from which reading on changes nothing is found again further on, as long
    as what is read is about something else. *)
Lemma next_place {A B} (f : A -> option B) l n m x :
  l !! n = Some x -> f x = None -> (n <= m <= length l)%nat ->
  exists m', (S n <= m' <= length l)%nat /\ last_for f (take m' l) = last_for f (take m l).
Proof.
  intros Hx Hf Hm. pose proof (lookup_lt_Some _ _ _ Hx) as Hlt. destruct (decide (n = m)) as [<-|Hne].
  - exists (S n). split; [lia|]. by rewrite (last_for_step _ _ _ _ Hx), Hf.
  - exists m. split; [lia|done].
Qed.

Section Facts.
Context {Embedding : Type} (schema : gmap Z Schema) (partition : string -> nat) (wal : list Change) (home : string -> string).
Let step := pipe_step (Embedding := Embedding) schema partition wal.
Let run := pipe_run (Embedding := Embedding) schema partition wal.

Definition k_about (id : string) (k : KafkaEvent) : option (option Fields) :=
  if String.eqb id (k_key k) then Some (match k_payload k with PRow f => Some f | PDeleted _ => None end) else None.

Definition kafka_of (i : string * string * option Fields) : KafkaEvent :=
  mkKafka i.1.1 i.1.2 (match i.2 with Some f => PRow f | None => PDeleted i.1.2 end).

Definition k_ok (k : KafkaEvent) : Prop :=
  k_topic k = home (k_key k) /\
  match k_payload k with PRow f => id_of f = Some (k_key k) | PDeleted id => id = k_key k end.

Definition lane_for (id : string) : Lane := (home id, partition id).

(** What the worker makes of a change. *)
Lemma captured_event c sm reg :
  change_ok schema c -> schema !! change_oid c = Some sm -> reg !! change_oid c = Some (relation_of sm) ->
  let '(event, reg') := process_message (change_message c) reg in
  reg' = reg /\ into_kafka_event event = kafka_of <$> image_of schema c.
Proof.
  intros (Ho & sm' & Hs & _ & Ht & Hold) Hs' Hr. rewrite Hs in Hs'. injection Hs' as ->.
  unfold image_of. rewrite Hs. simpl.
  destruct c as [oid vs|oid old vs|oid m vs]; cbn [change_message change_oid change_tuple] in *.
  - rewrite (process_insert oid reg (relation_of sm)) by done. split; [done|]. simpl.
    destruct (topic_of (sm_name sm)); [|done]. simpl. by destruct (id_of _).
  - rewrite (process_update oid reg (relation_of sm)); [|done|done|done|]. 2: { intros m o ->. exact Hold. }
    split; [done|]. simpl. destruct (topic_of (sm_name sm)); [|done]. simpl. by destruct (id_of _).
  - rewrite (process_delete oid reg (relation_of sm)) by done. split; [done|]. simpl.
    destruct (topic_of (sm_name sm)); [|done]. simpl. by destruct (id_of _).
Qed.

Lemma announced_relation a c sm reg :
  change_ok schema c -> schema !! change_oid c = Some sm -> a = true \/ reg !! change_oid c = Some (relation_of sm) ->
  announce schema a c reg !! change_oid c = Some (relation_of sm).
Proof.
  intros (Ho & sm' & Hs & (H1 & H2 & H3 & H4) & _) Hs' Ha. rewrite Hs in Hs'. injection Hs' as ->.
  unfold announce. rewrite Hs. destruct a; [|by destruct Ha].
  rewrite process_relation by done. simpl. by rewrite lookup_insert_eq.
Qed.

Lemma image_about id c : about schema id c = image_of schema c ≫= (fun i => k_about id (kafka_of i)).
Proof.
  unfold about, k_about, kafka_of. destruct (image_of schema c) as [[[topic id'] f]|]; [|done]. simpl.
  destruct (String.eqb id id'), f; done.
Qed.

Lemma consume_about e k (index : gmap string (Document Embedding)) id :
  k_ok k -> doc_fields <$> consume e true k index !! id =
    match k_about id k with Some f => f | None => doc_fields <$> index !! id end.
Proof.
  intros [_ Hk]. unfold consume, k_about. destruct (k_payload k) as [f|id'].
  - rewrite Hk. destruct (String.eqb_spec id (k_key k)) as [->|Ne]; [by rewrite lookup_insert_eq|].
    by rewrite lookup_insert_ne by done.
  - subst id'. destruct (String.eqb_spec id (k_key k)) as [->|Ne]; [by rewrite lookup_delete_eq|].
    by rewrite lookup_delete_ne by done.
Qed.

Record pipe_inv (s : Pipe Embedding) : Prop := {
  pi_read : (p_read s <= length wal)%nat;
  pi_logs : forall lane k, k ∈ log_of lane s -> k_ok k /\ lane_of partition k = lane;
  pi_place : forall lane, (place_of lane s <= length (log_of lane s))%nat;
  pi_log : forall id, exists n, (p_read s <= n <= length wal)%nat /\
    last_for (k_about id) (log_of (lane_for id) s) = last_for (about schema id) (take n wal);
  pi_index : forall id, exists n, (place_of (lane_for id) s <= n <= length (log_of (lane_for id) s))%nat /\
    doc_fields <$> p_index s !! id = mjoin (last_for (k_about id) (take n (log_of (lane_for id) s)))
}.

Lemma pipe_inv0 : pipe_inv pipe0.
Proof.
  split; unfold log_of, place_of; simpl.
  - lia.
  - intros lane k. rewrite lookup_empty. simpl. by intros ?%not_elem_of_nil.
  - intros lane. rewrite !lookup_empty. simpl. lia.
  - intros id. exists 0%nat. rewrite lookup_empty. split; [lia|done].
  - intros id. exists 0%nat. rewrite !lookup_empty. simpl. split; [lia|done].
Qed.

Lemma log_of_append lane lane' k (s : Pipe Embedding) r n (i : gmap string (Document Embedding)) :
  log_of lane (mkPipe r n (<[lane' := log_of lane' s ++ [k]]> (p_logs s)) (p_at s) i) =
    if bool_decide (lane = lane') then log_of lane s ++ [k] else log_of lane s.
Proof.
  unfold log_of. simpl. case_bool_decide as E; [subst; by rewrite lookup_insert_eq|by rewrite lookup_insert_ne].
Qed.

Lemma k_about_lane id k : k_ok k -> k_about id k <> None -> lane_of partition k = lane_for id.
Proof.
  intros [H _]. unfold k_about, lane_of, lane_for. destruct (String.eqb_spec id (k_key k)) as [->|]; [by rewrite H|done].
Qed.

(** The next change is published: it is the last word on its row. *)
Lemma inv_published s c i reg :
  pipe_inv s -> wal !! p_read s = Some c -> image_of schema c = Some i -> i.1.1 = home i.1.2 ->
  (forall f, i.2 = Some f -> id_of f = Some i.1.2) ->
  let k := kafka_of i in
  pipe_inv (mkPipe reg (S (p_read s)) (<[lane_of partition k := log_of (lane_of partition k) s ++ [k]]> (p_logs s))
    (p_at s) (p_index s)).
Proof.
  intros I Hc Hi Hh Hf k.
  assert (Hk : k_ok k) by (split; [exact Hh|]; simpl; destruct i.2; [by apply Hf|done]).
  assert (Hab : forall id, about schema id c = k_about id k) by (intros id; by rewrite image_about, Hi).
  pose proof (lookup_lt_Some _ _ _ Hc) as Hlt.
  split; unfold place_of; cbn [p_read p_at p_index].
  - lia.
  - intros lane x. rewrite log_of_append. case_bool_decide as E; [|apply I].
    intros [Hx|Hx]%elem_of_app; [by apply I|]. apply list_elem_of_singleton in Hx as ->. by subst.
  - intros lane. rewrite log_of_append. pose proof (pi_place _ I lane) as P. unfold place_of in P.
    case_bool_decide; rewrite ?length_app; simpl; lia.
  - intros id. rewrite log_of_append. destruct (pi_log _ I id) as (n & Hn & E).
    destruct (k_about id k) as [v|] eqn:Ea.
    + rewrite bool_decide_eq_true_2 by (symmetry; apply k_about_lane; [done|by rewrite Ea]).
      rewrite last_for_snoc, Ea. exists (S (p_read s)). split; [lia|].
      by rewrite (last_for_step _ _ _ _ Hc), Hab, Ea.
    + destruct (next_place (about schema id) wal (p_read s) n c Hc ltac:(by rewrite Hab) Hn) as (m & Hm & E').
      exists m. split; [done|]. rewrite E', <-E. case_bool_decide; [|done]. by rewrite last_for_snoc, Ea.
  - intros id. rewrite log_of_append. destruct (pi_index _ I id) as (n & Hn & E). exists n. unfold place_of in Hn.
    case_bool_decide; [|done]. rewrite length_app. split; [lia|]. by rewrite take_app_le by lia.
Qed.

(** A change of a table that is not indexed. *)
Lemma inv_passed s c reg :
  pipe_inv s -> wal !! p_read s = Some c -> image_of schema c = None ->
  pipe_inv (mkPipe reg (S (p_read s)) (p_logs s) (p_at s) (p_index s)).
Proof.
  intros I Hc Hi. pose proof (lookup_lt_Some _ _ _ Hc) as Hlt. split; try apply I; cbn [p_read].
  - lia.
  - intros id. destruct (pi_log _ I id) as (n & Hn & E).
    destruct (next_place (about schema id) wal (p_read s) n c Hc ltac:(by rewrite image_about, Hi) Hn) as (m & Hm & E').
    exists m. split; [done|]. by rewrite E'.
Qed.

Lemma inv_consumed s lane e k :
  pipe_inv s -> log_of lane s !! place_of lane s = Some k ->
  pipe_inv (mkPipe (p_registry s) (p_read s) (p_logs s) (<[lane := S (place_of lane s)]> (p_at s)) (consume e true k (p_index s))).
Proof.
  intros I Hk. destruct (pi_logs _ I lane k ltac:(by eapply list_elem_of_lookup_2)) as [Ho Hl].
  pose proof (lookup_lt_Some _ _ _ Hk) as Hlt.
  assert (Hplace : forall l, place_of l (mkPipe (p_registry s) (p_read s) (p_logs s) (<[lane := S (place_of lane s)]> (p_at s))
      (consume e true k (p_index s))) = if bool_decide (l = lane) then S (place_of lane s) else place_of l s).
  { intros l. unfold place_of. simpl. case_bool_decide as E; [subst; by rewrite lookup_insert_eq|by rewrite lookup_insert_ne]. }
  split; try apply I.
  - intros l. rewrite Hplace. pose proof (pi_place _ I l). unfold log_of in *. simpl in *. case_bool_decide; [subst; lia|done].
  - intros id. rewrite Hplace. cbn [p_index]. unfold log_of. cbn [p_logs]. fold (log_of (lane_for id) s).
    rewrite consume_about by done. destruct (pi_index _ I id) as (n & Hn & E).
    destruct (k_about id k) as [v|] eqn:Ea.
    + assert (F : lane = lane_for id) by (rewrite <-Hl; apply k_about_lane; [done|by rewrite Ea]). subst lane. rewrite F in *.
      exists (S (place_of (lane_for id) s)). rewrite bool_decide_eq_true_2 by done. split; [lia|].
      by rewrite (last_for_step _ _ _ _ Hk), Ea.
    + case_bool_decide as F; [|by exists n]. rewrite F in *.
      destruct (next_place (k_about id) _ _ n k Hk Ea Hn) as (m & Hm & E'). exists m. split; [done|]. by rewrite E'.
Qed.

Lemma inv_resumed s r n : pipe_inv s -> pipe_inv (mkPipe r (n `min` p_read s) (p_logs s) (p_at s) (p_index s)).
Proof.
  intros I. split; try apply I; cbn [p_read].
  - pose proof (pi_read _ I). lia.
  - intros id. destruct (pi_log _ I id) as (m & Hm & E). exists m. split; [lia|done].
Qed.

Lemma inv_rewound s lane n :
  pipe_inv s -> pipe_inv (mkPipe (p_registry s) (p_read s) (p_logs s) (<[lane := (n `min` place_of lane s)%nat]> (p_at s)) (p_index s)).
Proof.
  intros I.
  assert (Hplace : forall l, (place_of l (mkPipe (p_registry s) (p_read s) (p_logs s)
      (<[lane := (n `min` place_of lane s)%nat]> (p_at s)) (p_index s)) <= place_of l s)%nat).
  { intros l. unfold place_of. simpl. destruct (decide (l = lane)) as [->|Ne]; [rewrite lookup_insert_eq; simpl; lia|].
    by rewrite lookup_insert_ne. }
  split; try apply I.
  - intros l. etransitivity; [apply Hplace|]. apply (pi_place _ I).
  - intros id. destruct (pi_index _ I id) as (m & Hm & E). exists m. pose proof (Hplace (lane_for id)). split; [|done].
    unfold log_of in *. simpl. lia.
Qed.

Context (Hwal : Forall (change_ok schema) wal) (Hhome : one_table schema wal home).

Lemma pipe_inv_step e s : pipe_inv s -> event_ok schema wal e s -> pipe_inv (step e s).
Proof.
  intros I Hok. destruct e as [a outcomes|n r|lane e served|lane n]; unfold step, pipe_step.
  - destruct (wal !! p_read s) as [c|] eqn:Ec; [|done]. simpl in Hok. destruct Hok as [Hout Hann].
    pose proof (Forall_lookup_1 _ _ _ _ Hwal Ec) as Hc.
    assert (H : exists sm, schema !! change_oid c = Some sm) by (destruct Hc as (_ & sm & Hs & _); by exists sm).
    destruct H as [sm Hs].
    pose proof (announced_relation a c sm (p_registry s) Hc Hs (Hann c sm Ec Hs)) as Hr.
    pose proof (captured_event c sm (announce schema a c (p_registry s)) Hc Hs Hr) as P.
    destruct (process_message _ _) as [event reg]. destruct P as [_ P]. rewrite P.
    pose proof (Forall_lookup_1 _ _ _ _ Hhome Ec) as Hh. cbn beta in Hh.
    destruct (image_of schema c) as [i|] eqn:Ei; simpl.
    + rewrite Hout. apply (inv_published s c i); try done.
      * by destruct i as [[topic id] f].
      * intros f Hf. revert Ei. unfold image_of. rewrite Hs. simpl. destruct (topic_of _); [|done]. simpl.
        destruct (id_of _) as [id|] eqn:Eid; [|done]. simpl. intros [= <-]. simpl in *.
        destruct c; simplify_eq; exact Eid.
    + by apply (inv_passed s c).
  - by apply inv_resumed.
  - destruct (log_of lane s !! place_of lane s) as [k|] eqn:Ek; [|done]. simpl in Hok. subst served. by apply inv_consumed.
  - by apply inv_rewound.
Qed.

Lemma pipe_inv_run es s : pipe_inv s -> run_ok schema partition wal es s -> pipe_inv (run es s).
Proof.
  revert s. induction es as [|e es IH]; intros s I; [done|]. intros [H1 H2]. cbn. apply IH; [by apply pipe_inv_step|done].
Qed.

Lemma rest_index es id :
  run_ok schema partition wal es pipe0 -> at_rest wal (run es pipe0) ->
  doc_fields <$> p_index (run es pipe0) !! id = last_image schema id wal.
Proof.
  intros Hr [H1 H2]. pose proof (pipe_inv_run es pipe0 pipe_inv0 Hr) as I.
  destruct (pi_index _ I id) as (n & Hn & ->). rewrite H2 in Hn. rewrite take_ge by lia.
  destruct (pi_log _ I id) as (m & Hm & ->). rewrite H1 in Hm. by rewrite take_ge by lia.
Qed.

(** *** The rows *)

Definition given_in (id : string) (l : list Change) (D : gset string) : Prop :=
  forall c f, c ∈ l -> about schema id c = Some (Some f) -> dom f = D.

Lemma last_image_snoc id l c :
  last_image schema id (l ++ [c]) = match about schema id c with Some f => f | None => last_image schema id l end.
Proof. unfold last_image. rewrite last_for_snoc. by destruct (about schema id c). Qed.

Lemma row_image id l :
  match rows_of schema l !! id, last_image schema id l with
  | Some row, Some f => f ⊆ row /\ forall D, given_in id l D -> dom row = D /\ dom f = D
  | None, None => True
  | _, _ => False
  end.
Proof.
  induction l as [|c l IH] using rev_ind; [unfold rows_of; simpl; by rewrite lookup_empty|].
  assert (Hpre : forall D, given_in id (l ++ [c]) D -> given_in id l D)
    by (intros D H c' f Hc; apply (H c' f), elem_of_app; by left).
  assert (Hlast : forall D, given_in id (l ++ [c]) D -> forall f, about schema id c = Some (Some f) -> dom f = D)
    by (intros D H f; apply (H c f), elem_of_app; right; by constructor).
  rewrite last_image_snoc. unfold rows_of in *. rewrite fold_left_app. simpl. set (rows := fold_left (apply_change schema) l ∅) in *.
  unfold apply_change. unfold about in *. destruct (image_of schema c) as [[[t id'] f]|].
  2: { destruct (rows !! id), (last_image schema id l); try done. destruct IH as [H1 H2]. split; [done|]. eauto. }
  destruct (String.eqb_spec id id') as [<-|Ne].
  - destruct f as [f|]; [|by rewrite lookup_delete_eq].
    assert (K : forall D, given_in id (l ++ [c]) D -> dom f = D) by (intros D H; by apply Hlast).
    assert (G : forall x, <[id := x]> rows !! id = Some x) by (intros x; apply lookup_insert_eq).
    destruct c; rewrite G.
    1,3: split; [done|]; intros D H; by rewrite (K D).
    split; [apply map_union_subseteq_l|]. intros D H. rewrite dom_union_L, (K D) by done. split; [|done].
    destruct (rows !! id) as [row|] eqn:Er; simpl; [|by rewrite dom_empty_L, union_empty_r_L].
    destruct (last_image schema id l); [|done]. destruct IH as [_ IH]. destruct (IH D (Hpre D H)) as [-> _]. apply union_idemp_L.
  - assert (E : match f with
      | Some f0 => match c with RowUpdated _ _ _ => <[id' := f0 ∪ default ∅ (rows !! id')]> rows | _ => <[id' := f0]> rows end
      | None => delete id' rows end !! id = rows !! id).
    { destruct f as [f|]; [destruct c; by rewrite lookup_insert_ne|by rewrite lookup_delete_ne]. }
    rewrite E. destruct (rows !! id), (last_image schema id l); try done. destruct IH as [H1 H2]. split; [done|]. eauto.
Qed.

Lemma subset_same_dom (f g : Fields) : f ⊆ g -> dom f = dom g -> f = g.
Proof.
  intros Hs Hd. apply map_eq. intros k. destruct (f !! k) as [x|] eqn:E.
  - symmetry. by apply (lookup_weaken _ _ _ _ E).
  - symmetry. apply not_elem_of_dom. rewrite <-Hd. by apply not_elem_of_dom.
Qed.

(** *** Properties *)

(** C8: the index mirrors the tables.  However often the worker is connected again
    further back and the consumer starts again, in whatever order the partitions are
    read and whatever the embedding service answers: as long as each connection
    announces a relation before its first change, every publication arrives within
    its ten attempts and the index takes every request, and with messages within the
    protocol's bounds and identifiers that each belong to one table: once everything
    has been read the index has a document for exactly the rows of the two tables,
    with the columns of the row's last change; that is the whole row when every change
    of it gave all columns, and otherwise a part of it.  A change that was given up is
    lost ([given_up_change_is_lost]). *)
Theorem index_mirrors_tables es id :
  run_ok schema partition wal es pipe0 -> at_rest wal (run es pipe0) ->
  match p_index (run es pipe0) !! id, rows_of schema wal !! id with
  | Some doc, Some row =>
      last_image schema id wal = Some (doc_fields doc) /\ doc_fields doc ⊆ row /\
      forall D, given_in id wal D -> doc_fields doc = row
  | None, None => True
  | _, _ => False
  end.
Proof.
  intros Hr Ha. pose proof (rest_index es id Hr Ha) as E. pose proof (row_image id wal) as R. rewrite <-E in R |- *.
  destruct (p_index (run es pipe0) !! id) as [doc|], (rows_of schema wal !! id) as [row|]; try done.
  destruct R as [R1 R2]. split; [done|]. split; [done|]. intros D H. destruct (R2 D H) as [D1 D2].
  apply subset_same_dom; [done|by rewrite D1].
Qed.
End Facts.

(** ** Witness and counterexamples *)
Definition sample_schema : gmap Z Schema := {[16400 := mkSchema "public" "auctions" 100 sample_columns]}.
Definition sample_wal : list Change :=
  [RowInserted 16400 [Text "a1"; Text "Steel"; Text "Coils"]; RowInserted 16400 [Text "a2"; Text "Sand"; Null];
   RowUpdated 16400 None [Text "a1"; Text "Steel coils"; Text "Coils"]; RowDeleted 16400 OldKey [Text "a2"; Null; Null]].

#[local] Abbreviation sample_step := (pipe_step (Embedding := Z) sample_schema (fun _ => 0%nat)).
#[local] Abbreviation sample_pipe wal es := (pipe_run (Embedding := Z) sample_schema (fun _ => 0%nat) wal es pipe0).
Definition lane0 : Lane := ("cdc-auctions", 0%nat).
Definition take_one : pipe_event Z := Consumed lane0 (Some 7) true.
Definition capture_one (announced : bool) : pipe_event Z := Captured announced [false; true].

(** The worker is connected again after two changes, the consumer starts again. *)
Definition sample_events : list (pipe_event Z) :=
  [capture_one true; capture_one false; take_one; Resume 1 true; capture_one true; capture_one false; capture_one false;
   take_one; Rewind lane0 1; take_one; take_one; take_one; take_one].

Lemma sample_change c :
  change_oid c = 16400 -> length (change_tuple c) = 3%nat -> Forall value_ok (change_tuple c) ->
  match c with RowUpdated _ (Some _) _ => False | _ => True end -> change_ok sample_schema c.
Proof.
  intros Ho Hl Hv Hold. split; [rewrite Ho; unfold oid_ok; lia|]. rewrite Ho. eexists. split; [reflexivity|].
  split; [|split; [split; [done|]; split; [rewrite Hl; done|done]|by destruct c as [| ? [[]|] ?|]]].
  split; [done|]. split; [done|]. split; [done|]. repeat constructor; unfold oid_ok; simpl; lia.
Qed.

Lemma sample_changes_ok : Forall (change_ok sample_schema) sample_wal.
Proof. do 4 (apply Forall_cons; split; [apply sample_change; try done; by repeat constructor|]). apply Forall_nil. done. Qed.

Lemma sample_one_table : one_table sample_schema sample_wal (fun _ => "cdc-auctions").
Proof. repeat constructor; vm_compute; reflexivity. Qed.

Ltac sample_event :=
  split; [done|]; intros c sm Hc Hs;
  first [left; reflexivity | right; vm_compute in Hc; injection Hc as <-; vm_compute in Hs; injection Hs as <-; vm_compute; reflexivity].

Lemma sample_pipe_ok : run_ok sample_schema (fun _ => 0%nat) sample_wal sample_events pipe0.
Proof.
  cbn [sample_events run_ok].
  repeat (match goal with
    | |- event_ok _ _ (Captured _ _) _ => sample_event
    | |- event_ok _ _ (capture_one _) _ => sample_event
    | |- event_ok _ _ _ _ => exact I || reflexivity
    | |- _ /\ _ => split
    | |- True => exact I
    end).
Qed.

Lemma sample_at_rest : at_rest sample_wal (sample_pipe sample_wal sample_events).
Proof.
  split; [vm_compute; reflexivity|]. intros lane. unfold place_of, log_of.
  assert (E : p_at (sample_pipe sample_wal sample_events) = {[lane0 := 5%nat]}) by (vm_compute; reflexivity).
  assert (F : exists l, p_logs (sample_pipe sample_wal sample_events) = {[lane0 := l]} /\ length l = 5%nat)
    by (eexists; split; vm_compute; reflexivity).
  destruct F as (l & F & Hl). rewrite E, F. destruct (decide (lane = lane0)) as [->|Ne].
  - rewrite !lookup_singleton_eq. by simpl.
  - by rewrite !lookup_singleton_ne by done.
Qed.

Lemma index_mirrors_tables_witness :
  (exists doc row, p_index (sample_pipe sample_wal sample_events) !! "a1" = Some doc /\
    rows_of sample_schema sample_wal !! "a1" = Some row /\ doc_fields doc ⊆ row) /\
  p_index (sample_pipe sample_wal sample_events) !! "a2" = None.
Proof.
  pose proof (index_mirrors_tables sample_schema (fun _ => 0%nat) sample_wal (fun _ => "cdc-auctions") sample_changes_ok
    sample_one_table sample_events "a1" sample_pipe_ok sample_at_rest) as H1.
  pose proof (index_mirrors_tables sample_schema (fun _ => 0%nat) sample_wal (fun _ => "cdc-auctions") sample_changes_ok
    sample_one_table sample_events "a2" sample_pipe_ok sample_at_rest) as H2.
  assert (E1 : exists doc, p_index (sample_pipe sample_wal sample_events) !! "a1" = Some doc) by (eexists; vm_compute; reflexivity).
  assert (E2 : exists row, rows_of sample_schema sample_wal !! "a1" = Some row) by (eexists; vm_compute; reflexivity).
  assert (E3 : rows_of sample_schema sample_wal !! "a2" = None) by (vm_compute; reflexivity).
  destruct E1 as [doc E1], E2 as [row E2]. rewrite E1, E2 in H1. rewrite E3 in H2. split.
  - exists doc, row. destruct H1 as (_ & H1 & _). exact (conj E1 (conj E2 H1)).
  - revert H2. generalize (p_index (sample_pipe sample_wal sample_events) !! "a2"). intros [d|]; [intros []|reflexivity].
Defined.

(** PostgreSQL leaves a long column that has not changed out of an update, and the
    consumer replaces the whole document: the description is gone from the index. *)
Lemma unchanged_description_is_lost :
  let wal := [RowInserted 16400 [Text "a1"; Text "Steel"; Text "Coils"]; RowUpdated 16400 None [Text "a1"; Text "Steel rods"; Unchanged]] in
  let s := sample_pipe wal [capture_one true; capture_one false; take_one; take_one] in
  (fun row : Fields => row !! "description") <$> rows_of sample_schema wal !! "a1" = Some (Some (Some "Coils")) /\
  (fun doc => doc_fields doc !! "description") <$> p_index s !! "a1" = Some None.
Proof. split; vm_compute; reflexivity. Qed.

(** A change that could not be published ten times is acknowledged and passed over:
    a deleted auction stays in the index. *)
Lemma given_up_change_is_lost :
  let wal := [RowInserted 16400 [Text "a1"; Text "Steel"; Text "Coils"]; RowDeleted 16400 OldKey [Text "a1"; Null; Null]] in
  let s := sample_pipe wal [capture_one true; Captured false (repeat false 10); take_one] in
  p_read s = 2%nat /\ rows_of sample_schema wal !! "a1" = None /\ p_index s !! "a1" <> None.
Proof. split; [|split]; vm_compute; [reflexivity|reflexivity|discriminate]. Qed.

(** The clause of the nearest vectors carries no category: of a search by text in a
    category it also brings documents of the others. *)
Lemma vectors_ignore_category {Embedding : Type} (category q : string) (e : Embedding) :
  category <> EmptyString -> q <> EmptyString ->
  search_body (Some category) (Some q) (Some e) = mkBody [Term "item_category" category; Keyword q] (Some e) /\
  knn (search_body (Some category) (Some q) (Some e)) = knn (search_body None (Some q) (Some e)).
Proof. intros Hc Hq. by destruct category, q. Qed.
