(* ===== verification/Consumers.v ===== *)
(** * The archives and the mail ([apps/notification-worker])

    Three consumers of the broker.  Two archive what they read: the bids as they
    were sent ([src/request_audit.rs]) and the decisions on them
    ([run_bid_audit_worker] of [src/main.rs]); both convert a message, store its row
    or send it to the dead letters, try until that works, and only then commit.  The
    third mails notifications ([run_notification_worker], [src/email.rs]). *)

From S2P Require Import Prelude JSNum SocketContext Engine Report.
From S2P Require Import Capture.
#[local] Open Scope Z_scope.

(** ** Messages *)

(** A message of a topic, with the text of its payload. *)
Record Message := mkMessage { m_topic : string; m_partition : Z; m_offset : Z; m_payload : option string }.

Definition BID_TOPIC : string := "auction-bids".

(** ** The requests ([audit_event]) *)
Record BidEnvelope := mkEnvelope {
  be_request_id : string; be_auction_id : string; be_bidder_id : string; be_username : option string;
  be_amount : num; be_timestamp : Z
}.

(** [NewBidRequestAuditEvent]. *)
Record RequestRow := mkRequestRow {
  rq_topic : string; rq_partition : Z; rq_offset : Z; rq_bid : BidEnvelope; rq_raw : string
}.

(** A row's key in its table. *)
Definition rq_key (r : RequestRow) : string * Z * Z := (rq_topic r, rq_partition r, rq_offset r).

Definition not_positive (amount : num) : bool := negb (is_finite amount) || nle amount nzero.

Section Convert.
(** The JSON parser on the two types, the range of the calendar, the parser of
    identifiers, and the text of an instant. *)
Context (parse_bid : string -> result BidEnvelope) (in_range : Z -> bool) (uuid : string -> result string) (text : Z -> string).

Definition audit_event (m : Message) : result RequestRow :=
  match m_payload m with
  | None => Throw "missing bid payload"
  | Some raw =>
      match parse_bid raw with
      | Throw e => Throw e
      | Ok bid =>
          if not_positive (be_amount bid) then Throw "amount must be finite and greater than zero"
          else if negb (String.eqb (m_topic m) BID_TOPIC) || (m_partition m <? 0) || (m_offset m <? 0)
          then Throw "invalid source Kafka position"
          else if negb (in_range (be_timestamp bid)) then Throw "invalid bid timestamp"
          else if negb (String.eqb (from_utf8_lossy raw) raw) then Throw "invalid utf-8 sequence"
          else Ok (mkRequestRow (m_topic m) (m_partition m) (m_offset m) bid raw)
      end
  end.

(** ** The decisions ([to_new_bid_audit_event]) *)

(** [BidDecisionPayload]; the amount and the times are in the decision. *)
Record BidDecisionPayload := mkDecisionPayload {
  dp_decision : Decision;
  dp_reason : option string;
  dp_processed_at : Z;
  dp_topic : string;
  dp_partition : Z;
  dp_offset : Z
}.

Definition to_new_bid_audit_event (p : BidDecisionPayload) : result AuditEvent :=
  let d := dp_decision p in
  let bid := d_bid d in
  match uuid (d_request d) with
  | Throw e => Throw ("invalid request_id: " +:+ e)
  | Ok request_id =>
      match uuid (BidRequestPayload.bidder_id bid) with
      | Throw e => Throw ("invalid bidder_id: " +:+ e)
      | Ok bidder_id =>
          if not_positive (BidRequestPayload.amount bid) then Throw "amount must be finite and greater than zero"
          else if negb (is_finite (d_previous d)) || negb (is_finite (d_resulting d)) then Throw "decision prices must be finite"
          else if negb (String.eqb (dp_topic p) BID_TOPIC) || (dp_partition p <? 0) || (dp_offset p <? 0)
          then Throw "invalid source Kafka position"
          else if negb (d_executed d) && negb (bool_decide (is_Some (dp_reason p)))
          then Throw "rejected decision is missing rejection_reason"
          else if negb (in_range (BidRequestPayload.timestamp bid)) then Throw "invalid bid timestamp"
          else if negb (in_range (dp_processed_at p)) then Throw "invalid processed_at timestamp"
          else Ok (mkAudit request_id bidder_id (BidRequestPayload.username bid) (BidRequestPayload.amount bid)
                     (d_executed d) (dp_reason p) (d_previous d) (d_resulting d)
                     (text (BidRequestPayload.timestamp bid)) (text (dp_processed_at p)) (dp_partition p) (dp_offset p))
      end
  end.
End Convert.

(** ** The mail ([run_notification_worker]) *)
Record Notification := mkNotification {
  nt_event_type : option string; nt_auction_id : option string; nt_email : option string; nt_retry_count : Z
}.

(** Who is written to: the new user, or the auction's participants as the database
    names them. *)
Definition recipients (participants : list string) (n : Notification) : list string :=
  if bool_decide (nt_event_type n = Some "user_signup") then option_list (nt_email n) else participants.

Inductive MailAction := Commit | Retry (n : Notification) | DeadLetter.

(** What is done with a notification after its mails. *)
Definition mail_action (all_sent : bool) (n : Notification) : MailAction :=
  if all_sent then Commit
  else if 3 <=? nt_retry_count n then DeadLetter
  else Retry (mkNotification (nt_event_type n) (nt_auction_id n) (nt_email n) (nt_retry_count n + 1)).

(** Its attempts, each with the participants of the moment and the mails that go
    out: every mail that is tried, and whether the notification was delivered;
    [None] while it waits for the next attempt. *)
Fixpoint mail (attempts : list (list string * (string -> bool))) (n : Notification) : list string * option bool :=
  match attempts with
  | [] => ([], None)
  | (participants, sent) :: rest =>
      let to := recipients participants n in
      match mail_action (forallb sent to) n with
      | Commit => (to, Some true)
      | DeadLetter => (to, Some false)
      | Retry n' => let '(mails, r) := mail rest n' in (to ++ mails, r)
      end
  end.

(** ** A table that keeps the first row of a key *)

(** [on_conflict_do_nothing]. *)
Class KeyedInsert {R K : Type} (key : R -> K) (insert : list R -> R -> list R) : Prop := {
  insert_absent l r : ~ key r ∈ map key l -> insert l r = l ++ [r];
  insert_present l r : key r ∈ map key l -> insert l r = l
}.

Definition insert_request (l : list RequestRow) (r : RequestRow) : list RequestRow :=
  if bool_decide (rq_key r ∈ map rq_key l) then l else l ++ [r].

#[export] Instance insert_request_keyed : KeyedInsert rq_key insert_request.
Proof. split; intros l r H; unfold insert_request; [by rewrite bool_decide_eq_false_2|by rewrite bool_decide_eq_true_2]. Qed.

(** The archive of decisions ([Report]) is one too. *)
#[export] Instance insert_event_keyed : KeyedInsert ae_request_id insert_event.
Proof.
  assert (H : forall l r, existsb (fun x => String.eqb (ae_request_id x) (ae_request_id r)) l =
    bool_decide (ae_request_id r ∈ map ae_request_id l)).
  { intros l r. induction l as [|x l IH]; [done|]. cbn [existsb map]. rewrite IH.
    destruct (String.eqb_spec (ae_request_id x) (ae_request_id r)) as [E|E]; simpl; symmetry.
    - apply bool_decide_eq_true. rewrite E. by left.
    - apply bool_decide_ext. rewrite elem_of_cons. intuition congruence. }
  split; intros l r E; unfold insert_event; rewrite H; [by rewrite bool_decide_eq_false_2|by rewrite bool_decide_eq_true_2].
Qed.

(** ** The loop of an archive ([consume_with_store], [run_bid_audit_worker]) *)

(** What comes of an attempt to store a row, or to publish a dead letter: it may
    also be done and its answer lost. *)
Inductive Outcome := Done | Failed | Unheard.

Section Archive.
Context {M R K : Type} (convert : M -> result R) (key : R -> K) (insert : list R -> R -> list R).
Context (topic : list M).

Record Archive := mkArchive {
  av_next : nat;
  av_committed : nat;
  av_rows : list R;
  av_dead : list (M * string)
}.
Definition archive0 : Archive := mkArchive 0 0 [] [].

(** [Attempt]: one attempt at the message that is read; [committed] says whether its
    commit, which nobody waits for, succeeds.  [Crash]: the worker starts again at
    what is committed. *)
Inductive archive_event := Attempt (o : Outcome) (committed : bool) | Crash.

(** The effect of a message. *)
Definition settle (m : M) (rows : list R) (dead : list (M * string)) : list R * list (M * string) :=
  match convert m with Ok r => (insert rows r, dead) | Throw e => (rows, dead ++ [(m, e)]) end.

Definition archive_step (s : Archive) (e : archive_event) : Archive :=
  match e with
  | Attempt o committed =>
      match topic !! av_next s with
      | None => s
      | Some m =>
          let '(rows, dead) := settle m (av_rows s) (av_dead s) in
          match o with
          | Failed => s
          | Unheard => mkArchive (av_next s) (av_committed s) rows dead
          | Done => mkArchive (S (av_next s)) (if committed then S (av_next s) else av_committed s) rows dead
          end
      end
  | Crash => mkArchive (av_committed s) (av_committed s) (av_rows s) (av_dead s)
  end.

Definition archive_run (es : list archive_event) (s : Archive) : Archive := fold_left archive_step es s.

(** ** Specification: the rows of the messages that can be converted *)
Definition row (m : M) : option R := match convert m with Ok r => Some r | Throw _ => None end.
Definition archived (l : list M) : list R := fold_left insert (omap row l) [].

(** ** Lemmas *)
Context `{!EqDecision K} `{!KeyedInsert key insert}.

Lemma insert_cases l r : insert l r = l /\ key r ∈ map key l \/ insert l r = l ++ [r].
Proof.
  destruct (decide (key r ∈ map key l)) as [H|H]; [left|right]; [split; [by apply insert_present|done]|by apply insert_absent].
Qed.

Lemma insert_keys l r k : k ∈ map key (insert l r) <-> k = key r \/ k ∈ map key l.
Proof.
  destruct (insert_cases l r) as [[-> H]| ->].
  - split; [by right|]. by intros [->|?].
  - rewrite map_app, elem_of_app. simpl. rewrite list_elem_of_singleton. tauto.
Qed.

Lemma archived_step l m :
  archived (l ++ [m]) = match row m with Some r => insert (archived l) r | None => archived l end.
Proof. unfold archived. rewrite omap_app, fold_left_app. simpl. by destruct (row m). Qed.

Lemma archived_keys l m r : m ∈ l -> row m = Some r -> key r ∈ map key (archived l).
Proof.
  intros Hm Hr. induction l as [|x l IH] using rev_ind; [by apply not_elem_of_nil in Hm|]. rewrite archived_step.
  apply elem_of_app in Hm as [Hm|Hm].
  - specialize (IH Hm). destruct (row x); [|done]. apply insert_keys. by right.
  - apply list_elem_of_singleton in Hm as ->. rewrite Hr. apply insert_keys. by left.
Qed.

Lemma archived_known l m r : m ∈ l -> row m = Some r -> insert (archived l) r = archived l.
Proof. intros Hm Hr. apply insert_present. by eapply archived_keys. Qed.

(** The rows are those of a prefix that reaches as far as the reading, at least. *)
Definition reached (n : nat) (rows : list R) (dead : list (M * string)) : Prop :=
  exists m, (n <= m <= length topic)%nat /\ rows = archived (take m topic) /\
    (forall x e, x ∈ take m topic -> convert x = Throw e -> (x, e) ∈ dead) /\
    (forall x e, (x, e) ∈ dead -> x ∈ topic /\ convert x = Throw e).

Lemma settle_reached n m rows dead :
  topic !! n = Some m -> reached n rows dead -> reached (S n) (settle m rows dead).1 (settle m rows dead).2.
Proof.
  intros Hm (k & Hk & -> & H1 & H2). pose proof (lookup_lt_Some _ _ _ Hm) as Hlt.
  assert (Hin : m ∈ topic) by (by eapply list_elem_of_lookup_2).
  destruct (decide (n = k)) as [<-|Hne].
  - exists (S n). split; [lia|]. rewrite (take_S_r _ _ _ Hm), archived_step. unfold settle, row.
    destruct (convert m) as [r|e] eqn:Ec; simpl; (split; [done|]); split.
    + intros x e [Hx|Hx]%elem_of_app He; [by apply H1|]. apply list_elem_of_singleton in Hx as ->. congruence.
    + done.
    + intros x e' [Hx|Hx]%elem_of_app He; apply elem_of_app; [left; by apply H1|right].
      apply list_elem_of_singleton in Hx as ->. rewrite Ec in He. injection He as <-. by left.
    + intros x e' [Hx|Hx]%elem_of_app; [by apply H2|]. apply list_elem_of_singleton in Hx. by injection Hx as -> ->.
  - assert (Hm' : m ∈ take k topic) by (eapply (list_elem_of_lookup_2 _ n); rewrite lookup_take_lt by lia; done).
    exists k. split; [lia|]. unfold settle. destruct (convert m) as [r|e] eqn:Ec; simpl.
    + rewrite (archived_known _ m r) by (done || by unfold row; rewrite Ec). done.
    + split; [done|]. split.
      * intros x e' Hx He. apply elem_of_app. left. by apply H1.
      * intros x e' [Hx|Hx]%elem_of_app; [by apply H2|]. apply list_elem_of_singleton in Hx. by injection Hx as -> ->.
Qed.

Lemma reached_back n n' rows dead : (n' <= n)%nat -> reached n rows dead -> reached n' rows dead.
Proof. intros Hn (k & Hk & H). exists k. split; [lia|done]. Qed.

Definition archive_inv (s : Archive) : Prop :=
  (av_committed s <= av_next s)%nat /\ reached (av_next s) (av_rows s) (av_dead s).

Lemma archive_inv_step s e : archive_inv s -> archive_inv (archive_step s e).
Proof.
  intros [Hc Hr]. destruct e as [o c|]; simpl.
  - destruct (topic !! av_next s) as [m|] eqn:Em; [|by split].
    pose proof (settle_reached _ _ _ _ Em Hr) as Hs. destruct (settle m _ _) as [rows dead]. simpl in Hs.
    destruct o; [|by split|].
    + split; [simpl; destruct c; lia|exact Hs].
    + split; [exact Hc|]. revert Hs. apply reached_back. simpl. lia.
  - split; [simpl; lia|]. revert Hr. by apply reached_back.
Qed.

Lemma archive_inv_run es s : archive_inv s -> archive_inv (archive_run es s).
Proof.
  intros H. unfold archive_run. apply (fold_left_inv _ archive_inv (fun _ => True)); [|by apply Forall_true|done].
  intros s' e _. apply archive_inv_step.
Qed.

Lemma archive_inv0 : archive_inv archive0.
Proof.
  split; [done|]. exists 0%nat. split; [simpl; lia|]. split; [done|]. split; [intros x e Hx|intros x e Hx]; by apply not_elem_of_nil in Hx.
Qed.

Definition successes (es : list archive_event) : nat :=
  length (js_filter (fun e => match e with Attempt Done _ => true | _ => false end) es).

Lemma next_run es s :
  ~ Crash ∈ es -> av_next (archive_run es s) = Nat.max (av_next s) (Nat.min (length topic) (av_next s + successes es)).
Proof.
  revert s. induction es as [|e es IH]; intros s Hn.
  - unfold successes. simpl. destruct (le_lt_dec (length topic) (av_next s)); lia.
  - apply not_elem_of_cons in Hn as [He Hn]. change (archive_run (e :: es) s) with (archive_run es (archive_step s e)).
    rewrite IH by done. destruct e as [o c|]; [|done]. unfold archive_step.
    destruct (topic !! av_next s) as [m|] eqn:Em.
    + pose proof (lookup_lt_Some _ _ _ Em). destruct (settle _ _ _) as [rows dead].
      unfold successes, js_filter in *. destruct o; simpl; lia.
    + apply lookup_ge_None in Em. unfold successes, js_filter. destruct o; simpl; lia.
Qed.

(** ** Properties *)

(** C30: an archive has every message it has passed.  Whatever attempts fail, whatever
    answers and commits are lost and whenever the worker crashes: what is committed
    has been read, the rows are those of a prefix of the topic that reaches beyond
    it, each key once and in the order of the topic, and the prefix' other messages,
    and no convertible one, are dead letters.  Once as many attempts have succeeded
    in a row as there are messages left, the archive is that of the whole topic. *)
Theorem archive_has_what_it_passed es es' :
  let s := archive_run es archive0 in
  (av_committed s <= av_next s)%nat /\
  (exists m, (av_next s <= m <= length topic)%nat /\ av_rows s = archived (take m topic) /\
     (forall x e, x ∈ take m topic -> convert x = Throw e -> (x, e) ∈ av_dead s) /\
     (forall x e, (x, e) ∈ av_dead s -> x ∈ topic /\ convert x = Throw e)) /\
  (~ Crash ∈ es' -> (length topic - av_next s <= successes es')%nat ->
   av_next (archive_run es' s) = length topic /\ av_rows (archive_run es' s) = archived topic).
Proof.
  intros s. pose proof (archive_inv_run es archive0 archive_inv0) as I. fold s in I. destruct I as [Hc Hr].
  split; [done|]. split; [exact Hr|]. intros Hn Hs.
  assert (E : av_next (archive_run es' s) = length topic).
  { rewrite next_run by done. destruct Hr as (m & Hm & _). lia. }
  split; [done|]. pose proof (archive_inv_run es' s (conj Hc Hr)) as [_ (m & Hm & -> & _)]. rewrite E in Hm.
  by rewrite take_ge by lia.
Qed.
End Archive.

(** ** The archive of decisions and the report *)

Section Decisions.
Context (in_range : Z -> bool) (uuid : string -> result string) (text : Z -> string).
(** What the engine adds to a decision: its reason, its instant and the bid's place. *)
Context (reason : Decision -> option string) (processed : Decision -> Z) (place : Decision -> Z * Z).

Definition payload_of (d : Decision) : BidDecisionPayload :=
  mkDecisionPayload d (reason d) (processed d) BID_TOPIC (place d).1 (place d).2.

(** A decision as the engine writes it: canonical identifiers, finite amounts, and
    for a rejected one its reason. *)
Definition decision_ok (d : Decision) : Prop :=
  uuid (d_request d) = Ok (d_request d) /\
  uuid (BidRequestPayload.bidder_id (d_bid d)) = Ok (BidRequestPayload.bidder_id (d_bid d)) /\
  not_positive (BidRequestPayload.amount (d_bid d)) = false /\
  is_finite (d_previous d) = true /\ is_finite (d_resulting d) = true /\
  0 <= (place d).1 /\ 0 <= (place d).2 /\ (d_executed d = true \/ is_Some (reason d)) /\
  in_range (BidRequestPayload.timestamp (d_bid d)) = true /\ in_range (processed d) = true.

Let convert := to_new_bid_audit_event in_range uuid text.
Let audit := audit_row place (fun d => text (BidRequestPayload.timestamp (d_bid d))) (fun d => text (processed d)) reason.

Lemma convert_decision d : decision_ok d -> convert (payload_of d) = Ok (audit d).
Proof.
  intros (H1 & H2 & H3 & H4 & H5 & H6 & H7 & H8 & H9 & H10). unfold convert, to_new_bid_audit_event, payload_of.
  cbn [dp_decision dp_reason dp_processed_at dp_topic dp_partition dp_offset]. rewrite H1, H2, H3, H4, H5. cbn [negb orb].
  rewrite (proj2 (Z.ltb_ge _ _) H6), (proj2 (Z.ltb_ge _ _) H7). cbn [orb String.eqb negb].
  replace (negb (String.eqb BID_TOPIC BID_TOPIC) || false || false) with false by done.
  replace (negb (d_executed d) && _) with false
    by (symmetry; apply andb_false_iff; destruct H8 as [-> | H8]; [by left|right; by rewrite bool_decide_eq_true_2]).
  by rewrite H9, H10.
Qed.

Lemma converted_decisions l : Forall decision_ok l -> omap (row convert) (map payload_of l) = audit <$> l.
Proof.
  induction 1 as [|d l Hd _ IH]; [done|].
  change (map payload_of (d :: l)) with ([payload_of d] ++ map payload_of l). rewrite omap_app, IH.
  assert (E : row convert (payload_of d) = Some (audit d)) by (unfold row; by rewrite convert_decision).
  simpl. by rewrite E.
Qed.

(** the table that the report reads is the log it is proved about: the archive of an
    actor's decisions, once all of them have been read, however often the worker
    failed and crashed, is the audit log, and no decision is a dead letter. *)
Theorem archived_decisions_are_the_audit_log a es :
  let topic := map payload_of (pending_stream (ledger a)) in
  Forall decision_ok (pending_stream (ledger a)) ->
  let s := archive_run convert insert_event topic es (archive0 (M := BidDecisionPayload)) in
  av_next s = length topic ->
  av_rows s = audit_log place (fun d => text (BidRequestPayload.timestamp (d_bid d))) (fun d => text (processed d)) reason a /\
  av_dead s = [].
Proof.
  intros topic Hok s Hn.
  pose proof (archive_inv_run convert ae_request_id insert_event topic es archive0
    (archive_inv0 convert insert_event topic)) as [_ (m & Hm & Hr & _ & Hd)]. fold s in Hm, Hr, Hd.
  rewrite take_ge in Hr by lia. split.
  - rewrite Hr. unfold archived, topic. rewrite converted_decisions by done. done.
  - destruct (av_dead s) as [|[x e] l] eqn:E; [done|]. destruct (Hd x e ltac:(by left)) as [Hx He].
    unfold topic in Hx. apply list_elem_of_fmap in Hx as (d & -> & Hx). rewrite Forall_forall in Hok.
    rewrite convert_decision in He by auto. discriminate.
Qed.
End Decisions.

(** ** The mail *)

Lemma mail_bound attempts n :
  let '(mails, r) := mail attempts n in
  (r = None -> Z.of_nat (length attempts) <= Z.max 0 (3 - nt_retry_count n)) /\
  forall who b, (forall a, a ∈ attempts -> (length (js_filter (String.eqb who) (recipients a.1 n)) <= b)%nat) ->
    Z.of_nat (length (js_filter (String.eqb who) mails)) <= Z.of_nat b * Z.max 1 (4 - nt_retry_count n).
Proof.
  revert n. induction attempts as [|[ps sent] rest IH]; intros n; simpl.
  - split; [lia|]. intros; simpl. nia.
  - unfold mail_action.
    assert (One : forall who b, (forall a, a ∈ (ps, sent) :: rest -> (length (js_filter (String.eqb who) (recipients a.1 n)) <= b)%nat) ->
      Z.of_nat (length (js_filter (String.eqb who) (recipients ps n))) <= Z.of_nat b).
    { intros who b H. specialize (H (ps, sent) ltac:(by left)). simpl in H. lia. }
    destruct (forallb sent (recipients ps n)).
    + split; [done|]. intros who b H. specialize (One who b H). nia.
    + destruct (Z.leb_spec 3 (nt_retry_count n)) as [Hr|Hr].
      * split; [done|]. intros who b H. specialize (One who b H). nia.
      * set (n' := mkNotification _ _ _ _). specialize (IH n'). destruct (mail rest n') as [mails r].
        destruct IH as [I1 I2]. cbn [nt_retry_count n'] in I1, I2. split; [intros E; specialize (I1 E); lia|].
        intros who b H. specialize (One who b H).
        specialize (I2 who b (fun a Ha => H a (list_elem_of_further _ _ _ Ha))).
        unfold js_filter in *. rewrite List.filter_app, length_app. nia.
Qed.

Lemma mail_delivered attempts n :
  (mail attempts n).2 = Some true <->
  exists i a, attempts !! i = Some a /\ forallb a.2 (recipients a.1 n) = true /\ Z.of_nat i <= Z.max 0 (3 - nt_retry_count n) /\
    forall j b, (j < i)%nat -> attempts !! j = Some b -> forallb b.2 (recipients b.1 n) = false.
Proof.
  revert n. induction attempts as [|[ps sent] rest IH]; intros n; simpl.
  - split; [done|]. intros (i & a & E & _). done.
  - unfold mail_action. destruct (forallb sent (recipients ps n)) eqn:E.
    + split; [|done]. intros _. exists 0%nat, (ps, sent). split; [done|]. split; [done|]. split; [lia|]. intros; lia.
    + destruct (Z.leb_spec 3 (nt_retry_count n)) as [Hr|Hr].
      * split; [done|]. intros (i & a & Ha & Hs & Hi & _). replace i with 0%nat in Ha by lia. injection Ha as <-. cbn [fst snd] in Hs. congruence.
      * set (n' := mkNotification _ _ _ _). specialize (IH n'). destruct (mail rest n') as [mails r]. cbn [snd] in *. rewrite IH.
        cbn [nt_retry_count n']. split.
        -- intros (i & a & Ha & Hs & Hi & Hb). exists (S i), a. split; [done|]. split; [done|]. split; [lia|].
           intros [|j] b Hj Hj'; [by injection Hj' as <-|]. apply (Hb j b); [lia|done].
        -- intros ([|i] & a & Ha & Hs & Hi & Hb); [injection Ha as <-; cbn [fst snd] in Hs; congruence|].
           exists i, a. split; [done|]. split; [done|]. split; [lia|]. intros j b Hj Hj'. by apply (Hb (S j) b); [lia|].
Qed.

(** a notification is settled by four attempts: it is delivered exactly when one of
    the first four reaches everybody it is for at that moment, is a dead letter
    otherwise, and nobody who is named once is written to more than four times; but
    every attempt writes to all of them again, served or not. *)
Theorem mail_is_settled_in_four attempts n :
  nt_retry_count n = 0 ->
  let '(mails, r) := mail attempts n in
  ((4 <= length attempts)%nat -> r <> None) /\
  (r = Some true <-> exists i a, attempts !! i = Some a /\ forallb a.2 (recipients a.1 n) = true /\ (i < 4)%nat /\
     forall j b, (j < i)%nat -> attempts !! j = Some b -> forallb b.2 (recipients b.1 n) = false) /\
  forall who, (forall a, a ∈ attempts -> (length (js_filter (String.eqb who) (recipients a.1 n)) <= 1)%nat) ->
    (length (js_filter (String.eqb who) mails) <= 4)%nat.
Proof.
  intros Hn. pose proof (mail_bound attempts n) as B. pose proof (mail_delivered attempts n) as D.
  destruct (mail attempts n) as [mails r]. destruct B as [B1 B2]. rewrite Hn in *. cbn [snd] in D. split; [|split].
  - intros Hl E. specialize (B1 E). lia.
  - rewrite D. split; intros (i & a & ? & ? & Hi & ?); exists i, a; (split; [done|]); (split; [done|]); (split; [lia|done]).
  - intros who H. specialize (B2 who 1%nat H). lia.
Qed.

(** ** Witnesses *)
Definition sample_parse (raw : string) : result BidEnvelope :=
  if String.eqb raw "bid" then Ok (mkEnvelope "r1" "a1" "u1" None (of_Z 100) 5)
  else if String.eqb raw "free" then Ok (mkEnvelope "r2" "a1" "u1" None nzero 5) else Throw "expected value".
Definition sample_topic : list Message :=
  [mkMessage BID_TOPIC 2 7 (Some "bid"); mkMessage BID_TOPIC 2 8 (Some "free"); mkMessage BID_TOPIC 2 9 (Some "bid")].
Definition sample_convert : Message -> result RequestRow := audit_event sample_parse (fun t => 0 <=? t).

(** An answer is lost, a commit too, and the worker crashes: the row of offset 7 is
    stored twice and kept once, the resubmission at offset 9 is kept. *)
Definition sample_troubles : list archive_event :=
  [Attempt Failed true; Attempt Unheard true; Attempt Done false; Crash; Attempt Done true; Attempt Done true].

Lemma archive_has_what_it_passed_witness :
  let s := archive_run sample_convert insert_request sample_topic sample_troubles archive0 in
  let s' := archive_run sample_convert insert_request sample_topic [Attempt Done true] s in
  av_next s' = 3%nat /\ av_rows s' = archived sample_convert insert_request sample_topic /\
  rq_offset <$> av_rows s' = [7; 9] /\ length (av_dead s') = 1%nat.
Proof.
  intros s s'.
  destruct (archive_has_what_it_passed sample_convert rq_key insert_request sample_topic sample_troubles [Attempt Done true])
    as (_ & _ & H).
  destruct H as [H1 H2].
  - intros H. apply list_elem_of_singleton in H. discriminate.
  - apply Nat.leb_le. vm_compute. reflexivity.
  - split; [exact H1|]. split; [exact H2|]. split; vm_compute; reflexivity.
Defined.

(** The decisions of the engine's sample run, archived over a lost answer and a crash. *)
Definition sample_reason (d : Decision) : option string := Some "BID_DOES_NOT_IMPROVE_PRICE".
#[local] Abbreviation decided := ((run_actor_loop "a1" sample_queue sample_actor).1).
#[local] Abbreviation decision_topic := (map (payload_of sample_reason (fun _ => 40) sample_place) (pending_stream (ledger decided))).
#[local] Abbreviation decision_convert := (to_new_bid_audit_event (fun t => 0 <=? t) (fun s => Ok s) (fun _ => "text")).
Definition decision_attempts : list archive_event :=
  [Attempt Unheard true; Crash] ++ repeat (Attempt Done true) 3 ++ [Crash; Attempt Failed true; Attempt Done true].

Lemma archived_decisions_are_the_audit_log_witness :
  let s := archive_run decision_convert insert_event decision_topic decision_attempts archive0 in
  av_rows s = audit_log sample_place (fun d => "text") (fun d => "text") sample_reason decided /\ av_dead s = [].
Proof.
  apply (archived_decisions_are_the_audit_log (fun t => 0 <=? t) (fun s => Ok s) (fun _ => "text") sample_reason (fun _ => 40)
    sample_place decided decision_attempts).
  - unfold decision_ok. assert (H : forallb (fun d =>
      negb (not_positive (BidRequestPayload.amount (d_bid d))) && is_finite (d_previous d) && is_finite (d_resulting d) &&
      (0 <=? (sample_place d).1) && (0 <=? (sample_place d).2) && (0 <=? BidRequestPayload.timestamp (d_bid d)))
      (pending_stream (ledger decided)) = true) by (vm_compute; reflexivity).
    apply Forall_forall. intros d Hd. rewrite forallb_forall in H. specialize (H d (proj1 (list_elem_of_In _ _) Hd)).
    bool_facts. split; [done|]. split; [done|]. repeat split; try done; try lia. right. by eexists.
  - vm_compute. reflexivity.
Defined.

Definition sample_notification : Notification := mkNotification (Some "bid_placed") (Some "a1") None 0.
Definition only_ann (who : string) : bool := String.eqb who "ann".

(** Bob's mail fails four times: Ann gets four. *)
Lemma mail_is_settled_in_four_witness :
  let '(mails, r) := mail (repeat (["ann"; "bob"], only_ann) 4) sample_notification in
  r = Some false /\ r <> None /\ length (js_filter (String.eqb "ann") mails) = 4%nat.
Proof.
  pose proof (mail_is_settled_in_four (repeat (["ann"; "bob"], only_ann) 4) sample_notification eq_refl) as H.
  destruct (mail (repeat (["ann"; "bob"], only_ann) 4) sample_notification) as [mails r] eqn:E.
  destruct H as (H & _ & _). split; [vm_compute in E; congruence|]. split; [apply H; simpl; lia|].
  vm_compute in E. injection E as <- <-. reflexivity.
Defined.
