(* ===== verification/Discussion.v ===== *)
(** * The discussion of an auction on the server

    [apps/http-server/src/controllers/auction.rs] and the two services of
    [src/services/auction.rs]: a message is inserted in the table and then pushed on a
    list of Redis that keeps the newest thirty for a day; the first page is read from
    that list when it has something, every other page from the table.  A post is four
    calls at instants of their own.  The theorems say when the list is as good as the
    table. *)

From S2P Require Import Prelude.
#[local] Open Scope Z_scope.
#[local] Open Scope aqua_scope.

(** ** Data *)

(** A row of [auction_messages]; instants are counted in microseconds. *)
Record AuctionMessage := mkMessage {
  m_id : string; m_auction_id : string; m_user_id : string; m_username : string; m_message : string; m_created_at : Z
}.

(** What a client is sent of it. *)
Record MessageValue := mkMessageValue {
  id : string; auction_id : string; user_id : string; username : string; message : string; created_at : string
}.

(** The arithmetic of [i64] in a release build. *)
Definition wrap64 (x : Z) : Z := wrap 64 x.

(** ** Lists of Redis *)

(** A key's list, and the instant from which it is gone. *)
Record RedisList (T : Type) := mkRedisList { items : list T; expires : option Z }.
Arguments mkRedisList {T} items expires.
Arguments items {T} r.
Arguments expires {T} r.

Definition alive {T} (now : Z) (l : RedisList T) : bool :=
  match expires l with Some e => now <? e | None => true end.

(** The value of a key: a list without elements is no key. *)
Definition list_at {T} (now : Z) (key : string) (r : gmap string (RedisList T)) : RedisList T :=
  match r !! key with
  | Some l => if alive now l then l else mkRedisList [] None
  | None => mkRedisList [] None
  end.

Definition keep {T} (key : string) (l : RedisList T) (r : gmap string (RedisList T)) : gmap string (RedisList T) :=
  match items l with [] => delete key r | _ => <[key := l]> r end.

(** [LRANGE]: a negative index counts from the end. *)
Definition lrange {T} (start stop : Z) (l : list T) : list T :=
  let n := Z.of_nat (length l) in
  let i := if start <? 0 then Z.max 0 (n + start) else start in
  let j := Z.min (n - 1) (if stop <? 0 then n + stop else stop) in
  if (j <? i) || (n <=? i) then [] else take (Z.to_nat (j - i + 1)) (drop (Z.to_nat i) l).

Definition ltrim {T} (start stop : Z) (l : RedisList T) : RedisList T :=
  mkRedisList (lrange start stop (items l)) (expires l).

(** [format_discussion_key]. *)
Definition format_discussion_key (auction_id : string) : string := "{" +:+ auction_id +:+ "}:discussion".

Definition DAY : Z := 86400 * 1000000.

(** ** The services *)

(** serde_json between a value and the text of Redis. *)
Class JsonText (T : Type) := { to_text : MessageValue -> T; from_text : T -> option MessageValue }.
Class JsonTextLaw (T : Type) `{JsonText T} : Prop := from_to_text v : from_text (to_text v) = Some v.

Section Services.
Context {T : Type} `{JsonText T}.
(** The text of an instant ([%Y-%m-%dT%H:%M:%SZ]), and the reader of identifiers. *)
Context (text : Z -> string) (parse_uuid : string -> option string).

(** The rows in the order of their insertion, the newest first, and Redis. *)
Record Server := mkServer { messages : list AuctionMessage; redis : gmap string (RedisList T) }.
Definition server0 : Server := mkServer [] ∅.

Definition value_of (m : AuctionMessage) : MessageValue :=
  mkMessageValue (m_id m) (m_auction_id m) (m_user_id m) (m_username m) (m_message m) (text (m_created_at m)).

(** The three calls of Redis after a row was inserted, each at its own instant and
    served or not: [LPUSH], [LTRIM 0 29] and [EXPIRE] of a day. *)
Definition push_call (now : Z) (ok : bool) (key : string) (t : T) (r : gmap string (RedisList T)) : gmap string (RedisList T) :=
  let l := list_at now key r in
  if ok then keep key (mkRedisList (t :: items l) (expires l)) r else r.
Definition trim_call (now : Z) (ok : bool) (key : string) (r : gmap string (RedisList T)) : gmap string (RedisList T) :=
  if ok then keep key (ltrim 0 29 (list_at now key r)) r else r.
Definition renew_call (now : Z) (ok : bool) (key : string) (r : gmap string (RedisList T)) : gmap string (RedisList T) :=
  if ok then keep key (mkRedisList (items (list_at now key r)) (Some (now + DAY))) r else r.

(** Which of the steps of a post Redis serves, and when. *)
Record Served := mkServed {
  connected : bool; pushed : bool; trimmed : bool; renewed : bool; push_at : Z; trim_at : Z; renew_at : Z
}.

Definition remember (o : Served) (key : string) (t : T) (r : gmap string (RedisList T)) : gmap string (RedisList T) :=
  if negb (connected o) then r
  else renew_call (renew_at o) (renewed o) key (trim_call (trim_at o) (trimmed o) key (push_call (push_at o) (pushed o) key t r)).

(** The insertion of the row; [stored] is whether it succeeds. *)
Definition insert_message (now : Z) (stored : bool) (msg_id auction_id user_id username message : string) (s : Server) :
    result AuctionMessage * Server :=
  if negb stored then (Throw "Failed to post message", s) else
  let m := mkMessage msg_id auction_id user_id username message now in (Ok m, mkServer (m :: messages s) (redis s)).

(** The calls of Redis for an inserted message. *)
Definition remember_message (o : Served) (m : AuctionMessage) (s : Server) : Server :=
  mkServer (messages s) (remember o (format_discussion_key (m_auction_id m)) (to_text (value_of m)) (redis s)).

(** [post_auction_discussion_service]. *)
Definition post_auction_discussion_service (now : Z) (stored : bool) (o : Served)
    (msg_id auction_id user_id username message : string) (s : Server) : result MessageValue * Server :=
  match insert_message now stored msg_id auction_id user_id username message s with
  | (Throw e, s1) => (Throw e, s1)
  | (Ok m, s1) => (Ok (value_of m), remember_message o m s1)
  end.

(** [post_auction_discussion_handler]; [sub] is the subject of the checked token. *)
Definition post_auction_discussion_handler (now : Z) (stored : bool) (o : Served)
    (msg_id sub auction_id message : string) (s : Server) : result MessageValue * Server :=
  match parse_uuid sub with
  | None => (Throw "Invalid user id in token", s)
  | Some user_id => post_auction_discussion_service now stored o msg_id auction_id user_id "User" message s
  end.

(** The rows of an auction, and their order by [created_at] (the order of equal
    instants is the database's own). *)
Definition rows_of (auction_id : string) (s : Server) : list AuctionMessage :=
  js_filter (fun m => String.eqb (m_auction_id m) auction_id) (messages s).
Definition newer_le (a b : AuctionMessage) : bool := m_created_at b <=? m_created_at a.

(** The query of a page: PostgreSQL refuses negative counts. *)
Definition table_page (target : string) (page limit : Z) (s : Server) : result (list MessageValue) :=
  let offset := wrap64 (wrap64 (page - 1) * limit) in
  if (limit <? 0) || (offset <? 0) then Throw "Failed to fetch messages"
  else Ok (value_of <$> take (Z.to_nat limit) (drop (Z.to_nat offset) (js_sort newer_le (rows_of target s)))).

(** [get_auction_discussion_service]: [reached] is whether Redis answers, [served]
    whether the database does. *)
Definition get_auction_discussion_service (now : Z) (reached served : bool) (target : string) (page limit : Z)
    (s : Server) : result (list MessageValue) :=
  let cached := if (page =? 1) && reached
                then lrange 0 (wrap64 (limit - 1)) (items (list_at now (format_discussion_key target) (redis s)))
                else [] in
  match cached with
  | _ :: _ => Ok (omap from_text cached)
  | [] => if served then table_page target page limit s else Throw "Failed to fetch messages"
  end.

(** [get_auction_discussion_handler]: the messages with the page and its limit. *)
Definition get_auction_discussion_handler (now : Z) (reached served : bool) (target : string)
    (page limit : option Z) (s : Server) : result (list MessageValue * Z * Z) :=
  let page := default 1 page in
  let limit := default 30 limit in
  let* l := get_auction_discussion_service now reached served target page limit s in Ok (l, page, limit).

(** ** Histories of posts *)
Record Post := mkPost {
  po_now : Z; po_stored : bool; po_served : Served; po_id : string; po_sub : string; po_auction : string; po_text : string
}.

Definition post_step (s : Server) (p : Post) : Server :=
  (post_auction_discussion_handler (po_now p) (po_stored p) (po_served p) (po_id p) (po_sub p) (po_auction p) (po_text p) s).2.
Definition post_run (ps : list Post) (s : Server) : Server := fold_left post_step ps s.

(** A post that Redis serves, its calls after its insertion and in their order, later
    than the auction's message before it and done less than a day after it. *)
Definition all_served (o : Served) : bool := connected o && pushed o && trimmed o && renewed o.
Definition post_ok (p : Post) (s : Server) : Prop :=
  let o := po_served p in
  all_served o = true /\ po_now p <= push_at o <= trim_at o /\ trim_at o <= renew_at o /\
  match rows_of (po_auction p) s with m :: _ => m_created_at m < po_now p /\ renew_at o < m_created_at m + DAY | [] => True end.

Fixpoint posts_ok (ps : list Post) (s : Server) : Prop :=
  match ps with [] => True | p :: ps' => post_ok p s /\ posts_ok ps' (post_step s p) end.

(** The calls one by one, for posts that overlap. *)
Inductive call :=
| Insert (now : Z) (stored : bool) (msg_id auction_id user_id username message : string)
| Push (now : Z) (ok : bool) (m : AuctionMessage)
| Trim (now : Z) (ok : bool) (auction_id : string)
| Renew (now : Z) (ok : bool) (auction_id : string).

Definition call_step (s : Server) (c : call) : Server :=
  match c with
  | Insert now stored i a u n t => (insert_message now stored i a u n t s).2
  | Push now ok m =>
      mkServer (messages s) (push_call now ok (format_discussion_key (m_auction_id m)) (to_text (value_of m)) (redis s))
  | Trim now ok a => mkServer (messages s) (trim_call now ok (format_discussion_key a) (redis s))
  | Renew now ok a => mkServer (messages s) (renew_call now ok (format_discussion_key a) (redis s))
  end.
Definition call_run (cs : list call) (s : Server) : Server := fold_left call_step cs s.

(** The calls of one post. *)
Definition post_calls (now : Z) (stored : bool) (o : Served) (msg_id auction_id user_id username message : string) : list call :=
  let m := mkMessage msg_id auction_id user_id username message now in
  Insert now stored msg_id auction_id user_id username message ::
  (if stored && connected o
   then [Push (push_at o) (pushed o) m; Trim (trim_at o) (trimmed o) auction_id; Renew (renew_at o) (renewed o) auction_id] else []).
End Services.

(** ** Lemmas *)

Lemma wrap64_id x : - 2 ^ 63 <= x < 2 ^ 63 -> wrap64 x = x.
Proof. intros Hx. by apply wrap_id. Qed.

(** From the front, [LRANGE] is [take]. *)
Lemma lrange_front {T} n (l : list T) : 0 <= n -> lrange 0 n l = take (Z.to_nat (n + 1)) l.
Proof.
  intros Hn. unfold lrange. simpl. destruct (Z.ltb_spec n 0); [lia|].
  destruct l as [|x l]; [rewrite drop_nil, !take_nil; by destruct (orb _ _)|]. rewrite Z.sub_0_r.
  destruct (Z.ltb_spec (Z.min (Z.of_nat (length (x :: l)) - 1) n) 0); [simpl in *; lia|].
  destruct (Z.leb_spec (Z.of_nat (length (x :: l))) 0); [simpl in *; lia|]. cbn [orb]. rewrite drop_0.
  destruct (Z.le_gt_cases n (Z.of_nat (length (x :: l)) - 1)); [by rewrite Z.min_r|].
  rewrite Z.min_l by lia. rewrite !firstn_all2; [done|lia|lia].
Qed.

Lemma discussion_key_inj a b : format_discussion_key a = format_discussion_key b -> a = b.
Proof. unfold format_discussion_key. intros E%(inj (String.append "{")). by apply str_app_inj_r in E. Qed.

Section Facts.
Context {T : Type} `{JT : JsonText T} `{!JsonTextLaw T}.
Context (text : Z -> string) (parse_uuid : string -> option string).

#[local] Abbreviation step := (post_step text parse_uuid).
#[local] Abbreviation run := (post_run text parse_uuid).
#[local] Abbreviation get := (get_auction_discussion_service text).
#[local] Abbreviation cached l := (to_text <$> (value_of text <$> l)).

Lemma read_back l : omap from_text (to_text <$> l : list T) = l.
Proof. induction l as [|v l IH]; simpl; [done|]. rewrite from_to_text. by f_equal. Qed.

Lemma rows_of_post m (s : Server (T := T)) (r : gmap string (RedisList T)) a : rows_of a (mkServer (m :: messages s) r) =
  if String.eqb (m_auction_id m) a then m :: rows_of a s else rows_of a s.
Proof. reflexivity. Qed.

(** A post is its calls, one after the other. *)
Lemma post_is_its_calls now stored o i a u n t (s : Server (T := T)) :
  (post_auction_discussion_service text now stored o i a u n t s).2 = call_run text (post_calls now stored o i a u n t) s.
Proof.
  unfold post_auction_discussion_service, call_run, post_calls, insert_message, remember_message, remember.
  destruct stored; [|done]. by destruct (connected o).
Qed.

(** What is alive at an instant. *)
Definition lives (now : Z) (e : option Z) : Prop := match e with Some t => now < t | None => True end.

Lemma list_at_live now key l e (r : gmap string (RedisList T)) : lives now e -> l <> [] ->
  list_at now key (<[key := mkRedisList l e]> r) = mkRedisList l e.
Proof.
  intros He _. unfold list_at. rewrite lookup_insert_eq. unfold alive. cbn [expires].
  destruct e as [e|]; [|done]. simpl in He. by rewrite (proj2 (Z.ltb_lt _ _) He).
Qed.

(** One post, with everything served while the list lives, on the list of its auction
    and on the others. *)
Lemma remembered o key t (r : gmap string (RedisList T)) :
  let l := list_at (push_at o) key r in
  all_served o = true -> lives (trim_at o) (expires l) -> lives (renew_at o) (expires l) ->
  remember o key t r = <[key := mkRedisList (take 30 (t :: items l)) (Some (renew_at o + DAY))]> r.
Proof.
  intros l Ho H1 H2. unfold all_served in Ho. bool_facts. unfold remember, push_call, trim_call, renew_call.
  repeat match goal with E : _ = true |- _ => rewrite E; clear E end. cbn [negb]. fold l.
  assert (K : forall x xs e (m : gmap string (RedisList T)), keep key (mkRedisList (x :: xs) e) m = <[key := mkRedisList (x :: xs) e]> m) by done.
  rewrite K, list_at_live by done. unfold ltrim. cbn [items expires]. rewrite lrange_front by lia.
  change (take (Z.to_nat (29 + 1)) (t :: items l)) with (t :: take 29 (items l)).
  rewrite K, insert_insert_eq, list_at_live by done. cbn [items]. rewrite K, insert_insert_eq. done.
Qed.

(** The table and Redis agree: every auction's rows are in order, and its list has the
    newest thirty of them and lives for a day at least after the newest. *)
Definition agrees (s : Server (T := T)) : Prop :=
  forall a, StronglySorted (fun x y => m_created_at y < m_created_at x) (rows_of a s) /\
    match rows_of a s with
    | [] => redis s !! format_discussion_key a = None
    | (m :: _) as l => exists e, m_created_at m + DAY <= e /\
        redis s !! format_discussion_key a = Some (mkRedisList (take 30 (cached l)) (Some e))
    end.

Lemma post_step_agrees p s : post_ok p s -> agrees s -> agrees (step s p).
Proof.
  intros (Ho & Hp & Ht & Hn) Hs. unfold post_step, post_auction_discussion_handler.
  destruct (parse_uuid (po_sub p)) as [u|]; [|done]. unfold post_auction_discussion_service, insert_message.
  destruct (po_stored p); [|done]. cbn [negb snd]. unfold remember_message. cbn [messages redis m_auction_id].
  set (m0 := mkMessage _ _ _ _ _ _). intros a. rewrite rows_of_post. cbn [m_auction_id m0 redis].
  destruct (Hs (po_auction p)) as [Hsort Hkey], (Hs a) as [Hsort' Hkey'].
  set (key := format_discussion_key (po_auction p)) in *. set (o := po_served p) in *.
  assert (Hl : list_at (push_at o) key (redis s) = mkRedisList (take 30 (cached (rows_of (po_auction p) s)))
      (match rows_of (po_auction p) s with [] => None | _ => expires (list_at (push_at o) key (redis s)) end) /\
    lives (trim_at o) (expires (list_at (push_at o) key (redis s))) /\ lives (renew_at o) (expires (list_at (push_at o) key (redis s)))).
  { unfold list_at. destruct (rows_of (po_auction p) s) as [|m l]; [by rewrite Hkey|]. destruct Hkey as (e & He & ->).
    unfold alive. cbn [expires]. destruct (Z.ltb_spec (push_at o) e); [|lia]. split; [done|]. simpl. lia. }
  destruct Hl as (Hl & H1 & H2). rewrite remembered by done. rewrite Hl. clear Hl H1 H2. cbn [items].
  destruct (String.eqb_spec (po_auction p) a) as [<-|Ne].
  - split.
    + constructor; [done|]. destruct (rows_of (po_auction p) s) as [|m l]; [constructor|].
      apply StronglySorted_inv in Hsort as [_ Hall]. cbn [m_created_at].
      constructor; [simpl; lia|]. eapply Forall_impl; [exact Hall|]. simpl. lia.
    + exists (renew_at o + DAY). split; [simpl; lia|]. rewrite lookup_insert_eq. do 2 f_equal.
      cbn [fmap list_fmap]. by rewrite firstn_cons, take_take.
  - split; [done|]. assert (Hk : key <> format_discussion_key a) by (by intros E%discussion_key_inj).
    by rewrite lookup_insert_ne.
Qed.

Lemma post_run_agrees ps s : posts_ok text parse_uuid ps s -> agrees s -> agrees (run ps s).
Proof.
  revert s. induction ps as [|p ps IH]; intros s Hp Hs; [done|]. destruct Hp as [Hp Hps].
  apply IH; [done|]. by apply post_step_agrees.
Qed.

Lemma server0_agrees : agrees (server0 (T := T)).
Proof. intros a. split; [constructor|]. unfold server0. simpl. apply lookup_empty. Qed.

Lemma table_page_ordered a page limit (s : Server (T := T)) :
  agrees s -> 0 <= limit -> 1 <= page -> (page - 1) * limit < 2 ^ 63 -> page - 1 < 2 ^ 63 ->
  table_page text a page limit s =
    Ok (value_of text <$> take (Z.to_nat limit) (drop (Z.to_nat ((page - 1) * limit)) (rows_of a s))).
Proof.
  intros A Hl Hp Hb Hp'. destruct (A a) as [Hsort _]. assert (0 <= (page - 1) * limit) by nia.
  unfold table_page. rewrite (wrap64_id (page - 1)), wrap64_id by lia. destruct (Z.ltb_spec limit 0); [lia|].
  destruct (Z.ltb_spec ((page - 1) * limit) 0); [lia|]. cbn [orb]. rewrite js_sort_id; [done|].
  eapply sorted_weaken; [|exact Hsort]. intros x y ?. apply Z.leb_le, Z.lt_le_incl. done.
Qed.

(** The first page when the list is not there. *)
Lemma dead_page now a limit (s : Server (T := T)) :
  match redis s !! format_discussion_key a with Some l => alive now l = false | None => True end -> 1 <= limit < 2 ^ 63 ->
  get now true true a 1 limit s = table_page text a 1 limit s.
Proof.
  intros Hd Hl. unfold get_auction_discussion_service, list_at. cbn [andb Z.eqb Pos.eqb].
  destruct (redis s !! _) as [l|]; [rewrite Hd|]; cbn [items]; by rewrite wrap64_id, lrange_front, take_nil by lia.
Qed.

(** When the list of an auction goes. *)
Definition expiry (a : string) (s : Server (T := T)) : Z :=
  default 0 (redis s !! format_discussion_key a ≫= expires).

(** The first page while the list lives: what the list has of it. *)
Lemma live_page now served a limit m l (s : Server (T := T)) :
  agrees s -> rows_of a s = m :: l -> now < expiry a s -> 1 <= limit < 2 ^ 63 ->
  get now true served a 1 limit s = Ok (value_of text <$> take (Z.to_nat (Z.min limit 30)) (m :: l)).
Proof.
  intros A E Hn Hl. destruct (A a) as [_ Hkey]. rewrite E in Hkey. destruct Hkey as (e & _ & Hkey).
  unfold expiry in Hn. rewrite Hkey in Hn. simpl in Hn. unfold get_auction_discussion_service. cbn [andb Z.eqb Pos.eqb].
  unfold list_at. rewrite Hkey. unfold alive. cbn [expires]. destruct (Z.ltb_spec now e); [|lia].
  cbn [items]. rewrite wrap64_id, lrange_front by lia. rewrite take_take, Z.sub_add, <-!fmap_take, read_back.
  replace (Z.to_nat limit `min` 30)%nat with (Z.to_nat (Z.min limit 30)) by lia.
  destruct (cached (take (Z.to_nat (Z.min limit 30)) (m :: l))) eqn:Ek; [|done].
  destruct (Z.to_nat (Z.min limit 30)) eqn:En; [lia|done].
Qed.

(** ** Properties *)

(** C31: the list of Redis is a cache one cannot see: after any posts to any auctions,
    one after the other, each of them served by Redis, later than its auction's message
    before it and done less than a day after it (posts that the table refused
    included), a page of one to thirty messages is the table's, the newest first,
    whether it is read from Redis or not, whenever it is read.  Posts that overlap may
    be seen in the order of their pushes ([overlapping_posts_reorder]). *)
Theorem cache_is_transparent ps now reached auction page limit :
  posts_ok text parse_uuid ps (server0 (T := T)) -> 1 <= limit <= 30 -> 1 <= page < 2 ^ 57 ->
  let s := run ps (server0 (T := T)) in
  get now reached true auction page limit s =
    Ok (value_of text <$> take (Z.to_nat limit) (drop (Z.to_nat ((page - 1) * limit)) (rows_of auction s))) /\
  StronglySorted (fun x y => m_created_at y < m_created_at x) (rows_of auction s).
Proof.
  intros Hps Hl Hp s. assert (A : agrees s) by (apply post_run_agrees; [done|apply server0_agrees]).
  assert (0 <= (page - 1) * limit <= (page - 1) * 30) by nia. split; [|apply A].
  pose proof (table_page_ordered auction page limit s A ltac:(lia) ltac:(lia) ltac:(lia) ltac:(lia)) as Ht.
  destruct (decide (page = 1 /\ reached = true)) as [[-> ->]|Hd].
  - destruct (rows_of auction s) as [|m l] eqn:E.
    + rewrite dead_page; [exact Ht| |lia]. pose proof (proj2 (A auction)) as K. rewrite E in K. by rewrite K.
    + destruct (Z.lt_ge_cases now (expiry auction s)) as [Hn|Hn].
      * rewrite (live_page now true auction limit m l s) by (done || lia). rewrite Z.sub_diag, Z.min_l by lia. by rewrite drop_0.
      * rewrite dead_page; [exact Ht| |lia]. pose proof (proj2 (A auction)) as K. rewrite E in K.
        destruct K as (e & _ & K). unfold expiry in Hn. rewrite K in Hn |- *. unfold alive. by apply Z.ltb_ge.
  - unfold get_auction_discussion_service. destruct (Z.eqb_spec page 1), reached; try exact Ht. by destruct Hd.
Qed.

(** a first page of more than thirty is short: while the list lives it has the
    newest thirty messages, and the second page goes on after [limit] of them: those
    between are on no page. *)
Theorem long_pages_skip ps now auction limit m l :
  posts_ok text parse_uuid ps (server0 (T := T)) -> 30 < limit < 2 ^ 57 ->
  let s := run ps (server0 (T := T)) in
  rows_of auction s = m :: l -> now < m_created_at m + DAY ->
  get now true true auction 1 limit s = Ok (value_of text <$> take 30 (rows_of auction s)) /\
  get now true true auction 2 limit s =
    Ok (value_of text <$> take (Z.to_nat limit) (drop (Z.to_nat limit) (rows_of auction s))).
Proof.
  intros Hps Hl s E Hn. assert (A : agrees s) by (apply post_run_agrees; [done|apply server0_agrees]). split.
  - assert (He : now < expiry auction s).
    { pose proof (proj2 (A auction)) as K. rewrite E in K. destruct K as (e & He & K). unfold expiry. rewrite K. simpl. lia. }
    rewrite (live_page now true auction limit m l s) by (done || lia). rewrite E. by rewrite Z.min_r by lia.
  - unfold get_auction_discussion_service. cbn [Z.eqb Pos.eqb andb].
    rewrite table_page_ordered by (done || lia). by replace ((2 - 1) * limit) with limit by lia.
Qed.

(** a message after a day of silence hides the ones before it: whatever the state, when
    the auction's list is gone, a post that everything serves leaves a list of its
    message only, and for a day that is the whole first page, although the table has
    the earlier ones. *)
Theorem silence_hides_older now' limit served u p (s : Server (T := T)) :
  let o := po_served p in
  list_at (push_at o) (format_discussion_key (po_auction p)) (redis s) = mkRedisList [] None ->
  parse_uuid (po_sub p) = Some u -> po_stored p = true -> all_served o = true ->
  now' < renew_at o + DAY -> 1 <= limit < 2 ^ 63 ->
  let m := mkMessage (po_id p) (po_auction p) u "User" (po_text p) (po_now p) in
  get now' true served (po_auction p) 1 limit (step s p) = Ok [value_of text m] /\
  rows_of (po_auction p) (step s p) = m :: rows_of (po_auction p) s.
Proof.
  intros o Hg Hu Hs Ho Hn Hl m. unfold post_step, post_auction_discussion_handler. rewrite Hu.
  unfold post_auction_discussion_service, insert_message, remember_message. rewrite Hs. cbn [negb snd messages redis m_auction_id].
  fold m o. rewrite remembered by (by rewrite ?Hg). rewrite Hg. split.
  - unfold get_auction_discussion_service, list_at. cbn [redis andb Z.eqb Pos.eqb]. rewrite lookup_insert_eq.
    unfold alive. cbn [expires]. destruct (Z.ltb_spec now' (renew_at o + DAY)); [|lia]. cbn [items].
    rewrite wrap64_id, lrange_front, Z.sub_add by lia. destruct (Z.to_nat limit) eqn:En; [lia|]. simpl.
    by rewrite take_nil, from_to_text.
  - rewrite rows_of_post. cbn [m_auction_id m]. by rewrite String.eqb_refl.
Qed.
End Facts.

(** ** Witnesses *)
#[local] Instance plain_text : JsonText MessageValue := {| to_text v := v; from_text := Some |}.
#[local] Instance plain_text_law : JsonTextLaw MessageValue.
Proof. intros v. reflexivity. Qed.

Definition served_at (now : Z) : Served := mkServed true true true true now now (now + 1).
Definition sample_post (now : Z) (id auction text : string) : Post := mkPost now true (served_at now) id "u1" auction text.
Definition sample_text (t : Z) : string := if t <? 2 then "early" else "late".
Definition sample_posts : list Post :=
  [sample_post 1 "m1" "a1" "Is it dry?"; sample_post 1 "m2" "a2" "Where?"; sample_post 5 "m3" "a1" "It is."].

Definition ids (l : result (list MessageValue)) : option (list string) :=
  match l with Ok l => Some (id <$> l) | Throw _ => None end.

Lemma cache_is_transparent_witness :
  ids (get_auction_discussion_service sample_text 6 true true "a1" 1 2 (post_run sample_text Some sample_posts server0)) =
    Some ["m3"; "m1"].
Proof.
  assert (H : posts_ok sample_text Some sample_posts server0)
    by (split_and!; try done; vm_compute; split_and!; reflexivity).
  pose proof (cache_is_transparent sample_text Some sample_posts 6 true "a1" 1 2 H ltac:(lia) ltac:(lia)) as [E _].
  rewrite E. vm_compute. reflexivity.
Defined.

Definition many_posts : list Post := (fun n => sample_post (Z.of_nat n) "m" "a1" "text") <$> seq 1 42.

Definition page_size (l : result (list MessageValue)) : option nat :=
  match l with Ok l => Some (length l) | Throw _ => None end.

Lemma long_pages_skip_witness :
  let s := post_run sample_text Some many_posts server0 in
  let page n := page_size (get_auction_discussion_service sample_text 50 true true "a1" n 40 s) in
  page 1 = Some 30%nat /\ page 2 = Some 2%nat /\ length (rows_of "a1" s) = 42%nat.
Proof.
  assert (H : posts_ok sample_text Some many_posts server0)
    by (cbn -[post_step post_ok many_posts]; repeat split; vm_compute; done).
  destruct (rows_of "a1" (post_run sample_text Some many_posts server0)) as [|m l] eqn:E; [vm_compute in E; discriminate|].
  assert (Hm : 50 < m_created_at m + DAY) by (vm_compute in E; injection E as <- _; vm_compute; reflexivity).
  destruct (long_pages_skip sample_text Some many_posts 50 "a1" 40 m l H ltac:(lia) E Hm) as [E1 E2].
  intros s page. unfold page, s. rewrite E1, E2, E. clear E1 E2. vm_compute in E. injection E as <- <-. split_and!; reflexivity.
Defined.

Lemma silence_hides_older_witness :
  let s := post_run sample_text Some sample_posts server0 in
  let p := sample_post (6 + DAY) "m4" "a1" "Still there?" in
  ids (get_auction_discussion_service sample_text (7 + DAY) true true "a1" 1 30 (post_step sample_text Some s p)) = Some ["m4"] /\
  length (rows_of "a1" (post_step sample_text Some s p)) = 3%nat.
Proof.
  intros s p.
  pose proof (silence_hides_older sample_text Some (7 + DAY) 30 true "u1" p s) as H.
  cbv zeta in H. change (po_auction p) with "a1" in H.
  destruct H as [-> ->]; try (vm_compute; reflexivity); [lia|]. split; vm_compute; reflexivity.
Defined.

(** A limit of nothing reads the whole list. *)
Lemma limit_zero_reads_all :
  let s := post_run sample_text Some sample_posts server0 in
  ids (get_auction_discussion_service sample_text 6 true true "a1" 1 0 s) = Some ["m3"; "m1"] /\
  ids (get_auction_discussion_service sample_text 6 false true "a1" 1 0 s) = Some [].
Proof. split; vm_compute; reflexivity. Qed.

(** Two posts overlap: the later row is pushed first, and the first page has the other
    order than the table while the list lives. *)
Lemma overlapping_posts_reorder :
  let m n i := mkMessage i "a1" "u1" "User" "text" n in
  let s := call_run sample_text
    [Insert 1 true "m1" "a1" "u1" "User" "text"; Insert 2 true "m2" "a1" "u1" "User" "text";
     Push 3 true (m 2 "m2"); Push 4 true (m 1 "m1"); Trim 5 true "a1"; Renew 6 true "a1"; Trim 7 true "a1"; Renew 8 true "a1"]
    server0 in
  ids (get_auction_discussion_service sample_text 9 true true "a1" 1 30 s) = Some ["m1"; "m2"] /\
  ids (get_auction_discussion_service sample_text 9 false true "a1" 1 30 s) = Some ["m2"; "m1"].
Proof. split; vm_compute; reflexivity. Qed.
