(* ===== verification/Scheduler.v ===== *)
(** * Opening an auction ([apps/scheduler/src/main.rs])

    The rows that [create_auction_service] inserts, the registrations (joining and
    leaving are each a step on the rows and one on the bit in Redis, which other
    events may separate), and the scheduler that takes the schedules that are due, reads the rows and writes the
    documents from which the socket server and the engine start.  The theorems: what
    a due schedule comes to, under every sequence of failures; the auction that was
    opened is the one that was created, for the socket server, the engine and the
    page; and who may bid in it. *)

From S2P Require Import Prelude JSNum JSText JSDate ApiTypes AuctionSlice SocketContext AuctionSocket.
From S2P Require Import Schedule CreateAuction Gateway Engine BidPath EngineLife.
#[local] Open Scope Z_scope.

(** ** The tables ([packages/db/src/models.rs]) *)
Inductive ScheduleState := Scheduled | Closed | Error | Success | Started.

#[export] Instance schedule_state_eq_dec : EqDecision ScheduleState.
Proof. solve_decision. Defined.

(** [Auction], [AuctionConfig] and [AuctionSchedule]: what the servers read of
    them later. *)
Record AuctionRow := mkAuctionRow {
  ar_customer_id : string;
  ar_starting_price : option num;
  ar_auction_start_time : Z;
  ar_auction_end_time : Z
}.
Record ConfigRow := mkConfigRow {
  cf_auction_type : AuctionDirection;
  cf_minimum_bid_step : num;
  cf_reserve_price : option num
}.
Record ScheduleRow := mkScheduleRow {
  sc_auction_id : string;
  sc_state : ScheduleState;
  sc_start_time : Z;
  sc_retry_count : Z
}.

(** A registration is a pair of an auction and a user; a medium is an auction's
    address with its type. *)
Record Database := mkDatabase {
  auctions : gmap string AuctionRow;
  auction_configs : gmap string ConfigRow;
  auction_schedules : gmap string ScheduleRow;
  auction_participants : list (string * string);
  media : list (string * string * string)
}.
Definition database0 : Database := mkDatabase ∅ ∅ ∅ [] [].

(** The keys of Redis that belong to an opening; a bitmap may have an expiry. *)
Record Bitmap := mkBitmap { bm_bits : gset Z; bm_until : option Z }.
Record Store := mkStore {
  state_key : gmap string (StateDoc * Z);
  states : gmap string StateDoc;
  initialized : gset string;
  schedule_zset : gmap string Z;
  participants_key : gmap string Bitmap
}.
Definition store0 : Store := mkStore ∅ ∅ ∅ ∅ ∅.

Record World := mkWorld { db : Database; store : Store }.
Definition world0 : World := mkWorld database0 store0.

Definition with_schedules (f : gmap string ScheduleRow -> gmap string ScheduleRow) (d : Database) : Database :=
  mkDatabase (auctions d) (auction_configs d) (f (auction_schedules d)) (auction_participants d) (media d).
Definition with_participants (f : list (string * string) -> list (string * string)) (d : Database) : Database :=
  mkDatabase (auctions d) (auction_configs d) (auction_schedules d) (f (auction_participants d)) (media d).
Definition with_bitmaps (f : gmap string Bitmap -> gmap string Bitmap) (s : Store) : Store :=
  mkStore (state_key s) (states s) (initialized s) (schedule_zset s) (f (participants_key s)).

(** ** The rows of a new auction ([create_auction_service]) *)

Definition media_type (url : string) : string :=
  if includes ".mp4" url || includes ".webm" url then "video" else "image".

Section World.
(** [chrono]'s reading of a UTC timestamp and the number of an identifier. *)
Context (read_utc : string -> option Z) (uuid_number : string -> Z).

(** The transaction: the auction, its configuration, its media, its schedule and
    its creator's registration, with new identifiers. *)
Definition insert_auction (auction schedule user : string) (p : Payload) (times : Z * Z) (d : Database) : Database :=
  mkDatabase
    (<[auction := mkAuctionRow user (py_starting_price p) times.1 times.2]> (auctions d))
    (<[auction := mkConfigRow (py_auction_type p) (default (of_Z 1) (py_minimum_bid_step p)) (py_reserve_price p)]>
       (auction_configs d))
    (<[schedule := mkScheduleRow auction Scheduled times.1 0]> (auction_schedules d))
    (auction_participants d ++ [(auction, user)])
    (media d ++ omap (fun u => (fun url => (auction, url, media_type url)) <$> u) (default [] (py_media_urls p))).

(** A key that is taken makes the transaction fail. *)
Definition create_rows (committed : bool) (auction schedule user : string) (p : Payload) (d : Database) : result Database :=
  rbind (create_auction_service read_utc p) (fun times =>
    if negb committed || bool_decide (is_Some (auctions d !! auction)) ||
       bool_decide (is_Some (auction_schedules d !! schedule))
    then Throw "Failed to insert auction"
    else Ok (insert_auction auction schedule user p times d)).

(** ** Registrations *)

Definition registered (auction user : string) (d : Database) : bool :=
  bool_decide ((auction, user) ∈ auction_participants d).

Definition participants_of (auction : string) (d : Database) : list string :=
  omap (fun au => if String.eqb au.1 auction then Some au.2 else None) (auction_participants d).

(** Whether a key is still there. *)
Definition alive (now : Z) (until : option Z) : bool := match until with Some t => now <? t | None => true end.

(** The bits that are visible at an instant. *)
Definition visible (now : Z) (s : Store) : gmap string (gset Z) :=
  omap (fun b => if alive now (bm_until b) then Some (bm_bits b) else None) (participants_key s).

(** [SETBIT]: a key that has expired is made anew, without expiry. *)
Definition setbit (now : Z) (auction : string) (offset : Z) (v : bool) (s : Store) : Store :=
  let b := match participants_key s !! auction with
           | Some b => if alive now (bm_until b) then b else mkBitmap ∅ None
           | None => mkBitmap ∅ None
           end in
  let bits := if v then {[offset]} ∪ bm_bits b else bm_bits b ∖ {[offset]} in
  with_bitmaps (insert auction (mkBitmap bits (bm_until b))) s.

(** [EXPIRE]. *)
Definition expire (auction : string) (until : Z) (s : Store) : Store :=
  with_bitmaps (alter (fun b => mkBitmap (bm_bits b) (Some until)) auction) s.

Definition offset_of (user : string) : Z := participant_offset uuid_number user.

(** [set_participant_bit]; [served] says whether Redis is available. *)
Definition set_participant_bit (served : bool) (now : Z) (auction user : string) (s : Store) : result unit * Store :=
  if served then (Ok tt, setbit now auction (offset_of user) true s)
  else (Throw "Registration access store is unavailable", s).

(** The queries of a joining: a user who is registered already goes on to the bit; a
    count that could not be had ([counted] is false) is taken for zero, and a second
    registration is refused by the table. *)
Definition join_rows (counted : bool) (now : Z) (auction user : string) (w : World) : result unit * World :=
  match auctions (db w) !! auction with
  | None => (Throw "Auction not found", w)
  | Some a =>
      let known := registered auction user (db w) in
      match server_join (ar_auction_start_time a) (counted && known) now with
      | Throw e => (Throw e, w)
      | Ok _ =>
          if counted && known then (Ok tt, w)
          else if known then (Throw "You have already joined this auction", w)
          else (Ok tt, mkWorld (with_participants (fun l => l ++ [(auction, user)]) (db w)) (store w))
      end
  end.

(** The bit of a joining, after its queries. *)
Definition join_bit (served : bool) (now : Z) (auction user : string) (w : World) : result unit * World :=
  let '(r, s) := set_participant_bit served now auction user (store w) in (r, mkWorld (db w) s).

Definition join_auction (counted served : bool) (now now' : Z) (auction user : string) (w : World) : result unit * World :=
  match join_rows counted now auction user w with
  | (Ok _, w') => join_bit served now' auction user w'
  | (Throw e, w') => (Throw e, w')
  end.

(** The queries of a leaving. *)
Definition leave_rows (now : Z) (auction user : string) (w : World) : result unit * World :=
  match auctions (db w) !! auction with
  | None => (Throw "Auction not found", w)
  | Some a =>
      match server_leave (ar_auction_start_time a) (registered auction user (db w)) now with
      | Throw e => (Throw e, w)
      | Ok _ =>
          (Ok tt, mkWorld (with_participants (js_filter (fun au => negb (bool_decide (au = (auction, user))))) (db w)) (store w))
      end
  end.

(** Then the bit is cleared; a Redis that does not answer is ignored. *)
Definition clear_bit (served : bool) (now : Z) (auction user : string) (w : World) : World :=
  mkWorld (db w) (if served then setbit now auction (offset_of user) false (store w) else store w).

Definition leave_auction (served : bool) (now now' : Z) (auction user : string) (w : World) : result unit * World :=
  match leave_rows now auction user w with
  | (Ok _, w') => (Ok tt, clear_bit served now' auction user w')
  | (Throw e, w') => (Throw e, w')
  end.

(** [ws-server]'s [validate_participant], which the session of a connection keeps;
    no operation writes the former key of the bitmap. *)
Definition validate_participant (uuid : string -> result string) (now : Z) (s : Store) (auction user : string) : bool :=
  match user with
  | EmptyString => false
  | _ => match uuid user with Ok u => has_bit uuid_number (visible now s) auction u | Throw _ => false end
  end.

(** ** The scheduler *)

(** In seconds. *)
Definition redis_ttl_seconds (end_time now : Z) : Z := Z.max 3600 (Z.quot (end_time - now) 1000 + 300).

(** The texts of the enumeration. *)
Definition type_text (t : AuctionDirection) : string := match t with FORWARD => "FORWARD" | REVERSE => "REVERSE" end.

(** [config_data]: a missing row stands for a reverse auction with step 1. *)
Definition config_data (c : option ConfigRow) : StateRecord :=
  match c with
  | Some c => mkStateRecord None None None (Some (type_text (cf_auction_type c))) (json_num (cf_minimum_bid_step c))
                (cf_reserve_price c ≫= json_num) None
  | None => mkStateRecord None None None (Some "REVERSE") (Some (of_Z 1)) None None
  end.

(** [state_payload]: the auction's record has neither a type nor a status. *)
Definition state_payload (sc : ScheduleRow) (a : AuctionRow) (c : option ConfigRow) : StateDoc :=
  mkStateDoc
    (Some (mkStateRecord (ar_starting_price a ≫= json_num) (Some (naive_text (ar_auction_start_time a)))
             (Some (naive_text (ar_auction_end_time a))) None None None None))
    None (Some (config_data c)) (Some (naive_text (sc_start_time sc))) None.

(** The atomic pipeline: the documents, the flag and the schedule's place; a bit per
    participant; the bitmap's expiry. *)
Definition write_state (sc : ScheduleRow) (doc : StateDoc) (until : Z) (s : Store) : Store :=
  let id := sc_auction_id sc in
  mkStore (<[id := (doc, until)]> (state_key s)) (<[id := doc]> (states s)) ({[id]} ∪ initialized s)
    (<[id := sc_start_time sc / 1000]> (schedule_zset s)) (participants_key s).
Definition set_bits (now : Z) (auction : string) (ps : list string) (s : Store) : Store :=
  fold_left (fun s u => setbit now auction (offset_of u) true s) ps s.
Definition hydrate (now : Z) (sc : ScheduleRow) (a : AuctionRow) (c : option ConfigRow) (ps : list string) (s : Store) : Store :=
  let until := now + 1000 * redis_ttl_seconds (ar_auction_end_time a) now in
  expire (sc_auction_id sc) until
    (set_bits now (sc_auction_id sc) ps (write_state sc (state_payload sc a c) until s)).

(** What the outside answers for one schedule: whether the process is still there
    when its turn comes, the four queries, the connection to Redis, the pipeline
    (its reply may be lost) and the last update of the row, whose failure is ignored. *)
Inductive PipeOutcome := PipeDone | PipeRefused | PipeUnknown.
Record Answers := mkAnswers {
  an_reached : bool;
  an_participants : bool;
  an_end_time : bool;
  an_auction : bool;
  an_config : bool;
  an_redis : bool;
  an_pipe : PipeOutcome;
  an_update : bool
}.

(** [retry_count + 1], an [i32]. *)
Definition next_retry (n : Z) : Z := wrap 32 (n + 1).

Definition set_state (st : ScheduleState) (retries : Z) (sid : string) (d : Database) : Database :=
  with_schedules (alter (fun r => mkScheduleRow (sc_auction_id r) st (sc_start_time r) retries) sid) d.

(** One claimed schedule; [sc] is the row that the claim returned. *)
Definition process_schedule (now : Z) (o : Answers) (sid : string) (sc : ScheduleRow) (w : World) : World :=
  let finish st retries := if an_update o then set_state st retries sid (db w) else db w in
  let failed := finish Scheduled (next_retry (sc_retry_count sc)) in
  let opened := finish Success (sc_retry_count sc) in
  if negb (an_reached o && an_participants o) then w
  else
    let id := sc_auction_id sc in
    let ps := participants_of id (db w) in
    if bool_decide (ps = []) then mkWorld opened (store w)
    else match auctions (db w) !! id with
    | None => w
    | Some a =>
        if negb (an_end_time o && an_auction o && an_config o) then w
        else if negb (an_redis o) then mkWorld failed (store w)
        else
          let s := hydrate now sc a (auction_configs (db w) !! id) ps (store w) in
          match an_pipe o with
          | PipeDone => mkWorld opened s
          | PipeRefused => mkWorld failed (store w)
          | PipeUnknown => mkWorld failed s
          end
    end.

(** The update that claims what is due and returns it. *)
Definition due (now : Z) (r : ScheduleRow) : bool :=
  (sc_start_time r <=? now) && bool_decide (sc_state r = Scheduled).
Definition claim_row (now : Z) (r : ScheduleRow) : ScheduleRow :=
  if due now r then mkScheduleRow (sc_auction_id r) Started (sc_start_time r) (sc_retry_count r) else r.
Definition claimed (now : Z) (d : Database) : list (string * ScheduleRow) :=
  js_filter (fun kr => due now kr.2) (map_to_list (auction_schedules d)).

(** One round of the loop; [ready] says whether the database gave a connection and
    the claim. *)
Definition poll (ready : bool) (now : Z) (answers : string -> Answers) (w : World) : World :=
  if negb ready then w
  else
    let work := claimed now (db w) in
    fold_left (fun w kr => process_schedule now (answers kr.1) kr.1 (claim_row now kr.2) w) work
      (mkWorld (with_schedules (fmap (claim_row now)) (db w)) (store w)).

(** ** Runs

    A request to join or to leave is two events: its queries and its call of Redis,
    between which anything else may happen. *)
Inductive world_event :=
| Create (committed : bool) (auction schedule user : string) (p : Payload)
| JoinRow (counted : bool) (now : Z) (auction user : string)
| JoinBit (served : bool) (now : Z) (auction user : string)
| LeaveRow (now : Z) (auction user : string)
| ClearBit (served : bool) (now : Z) (auction user : string)
| Poll (ready : bool) (now : Z) (answers : string -> Answers).

Definition world_step (w : World) (e : world_event) : World :=
  match e with
  | Create ok a s u p =>
      match create_rows ok a s u p (db w) with Ok d => mkWorld d (store w) | Throw _ => w end
  | JoinRow counted now a u => (join_rows counted now a u w).2
  | JoinBit ok now a u => (join_bit ok now a u w).2
  | LeaveRow now a u => (leave_rows now a u w).2
  | ClearBit ok now a u => clear_bit ok now a u w
  | Poll ok now answers => poll ok now answers w
  end.

Definition world_run (es : list world_event) (w : World) : World := fold_left world_step es w.
End World.

(** ** Lemmas *)
Section Facts.
Context (read_utc : string -> option Z) (uuid_number : string -> Z).
Let run := world_run read_utc uuid_number.
Let step := world_step read_utc uuid_number.
Let process := process_schedule uuid_number.

(** *** One schedule *)

(** The row that a claimed schedule is left with. *)
Definition next_row (o : Answers) (r : ScheduleRow) (d : Database) : ScheduleRow :=
  let row st k := mkScheduleRow (sc_auction_id r) st (sc_start_time r) k in
  let finish st k := if an_update o then row st k else row Started (sc_retry_count r) in
  if negb (an_reached o && an_participants o) then row Started (sc_retry_count r)
  else if bool_decide (participants_of (sc_auction_id r) d = []) then finish Success (sc_retry_count r)
  else match auctions d !! sc_auction_id r with
  | None => row Started (sc_retry_count r)
  | Some _ =>
      if negb (an_end_time o && an_auction o && an_config o) then row Started (sc_retry_count r)
      else match an_redis o, an_pipe o with
      | true, PipeDone => finish Success (sc_retry_count r)
      | _, _ => finish Scheduled (next_retry (sc_retry_count r))
      end
  end.

(** What it leaves in Redis. *)
Definition next_store (now : Z) (o : Answers) (r : ScheduleRow) (d : Database) (s : Store) : Store :=
  let id := sc_auction_id r in
  match auctions d !! id, an_pipe o with
  | Some a, PipeDone | Some a, PipeUnknown =>
      if an_reached o && an_participants o && negb (bool_decide (participants_of id d = [])) &&
         (an_end_time o && an_auction o && an_config o) && an_redis o
      then hydrate uuid_number now r a (auction_configs d !! id) (participants_of id d) s else s
  | _, _ => s
  end.

Lemma process_store now o sid r w : store (process now o sid r w) = next_store now o r (db w) (store w).
Proof.
  unfold process, process_schedule, next_store.
  destruct (an_reached o && an_participants o); simpl; [|by destruct (auctions _ !! _), (an_pipe o)].
  destruct (bool_decide _); simpl; [by destruct (auctions _ !! _), (an_pipe o)|].
  destruct (auctions _ !! _) as [a|]; [|done].
  destruct (_ && _ && _); simpl; [|by destruct (an_pipe o)]. by destruct (an_redis o), (an_pipe o).
Qed.

(** Its own row becomes [next_row]; nothing else of the tables changes. *)
Lemma process_db now o sid r w :
  auction_schedules (db w) !! sid = Some (mkScheduleRow (sc_auction_id r) Started (sc_start_time r) (sc_retry_count r)) ->
  db (process now o sid r w) = with_schedules (insert sid (next_row o r (db w))) (db w).
Proof.
  intros E.
  assert (Hid : db w = with_schedules (insert sid (mkScheduleRow (sc_auction_id r) Started (sc_start_time r) (sc_retry_count r))) (db w)).
  { destruct w as [[a c sch ps m] s]. simpl in *. unfold with_schedules. simpl. by rewrite insert_id. }
  assert (Hfin : forall st k, (if an_update o then set_state st k sid (db w) else db w) =
    with_schedules (insert sid (if an_update o then mkScheduleRow (sc_auction_id r) st (sc_start_time r) k
      else mkScheduleRow (sc_auction_id r) Started (sc_start_time r) (sc_retry_count r))) (db w)).
  { intros st k. destruct (an_update o); [|done]. unfold set_state, with_schedules. f_equal.
    apply map_eq. intros j. destruct (decide (j = sid)) as [->|]; by simplify_map_eq. }
  unfold process, process_schedule, next_row.
  destruct (an_reached o && an_participants o); simpl; [|done].
  destruct (bool_decide _); simpl; [apply Hfin|]. destruct (auctions _ !! _); [|done].
  destruct (_ && _ && _); simpl; [|done]. destruct (an_redis o); simpl; [|apply Hfin].
  destruct (an_pipe o); apply Hfin.
Qed.

(** *** One round

    The claimed rows are worked off one after the other; [step_one] is the turn of
    one of them. *)
Definition step_one (now : Z) (answers : string -> Answers) (w : World) (kr : string * ScheduleRow) : World :=
  process now (answers kr.1) kr.1 (claim_row now kr.2) w.

Lemma claim_row_due now r : due now r = true ->
  claim_row now r = mkScheduleRow (sc_auction_id r) Started (sc_start_time r) (sc_retry_count r).
Proof. unfold claim_row. by intros ->. Qed.

Lemma claimed_spec now d k r :
  (k, r) ∈ claimed now d <-> auction_schedules d !! k = Some r /\ due now r = true.
Proof.
  unfold claimed, js_filter. rewrite list_elem_of_In, filter_In, <-list_elem_of_In, elem_of_map_to_list. done.
Qed.

Lemma claimed_keys now d : NoDup (claimed now d).*1.
Proof.
  unfold claimed, js_filter. pose proof (NoDup_fst_map_to_list (auction_schedules d)) as H. revert H.
  generalize (map_to_list (auction_schedules d)). induction l as [|[k r] l IH]; simpl; [done|].
  intros [Hk Hl]%NoDup_cons. destruct (due now r); simpl; [|by apply IH]. apply NoDup_cons.
  split; [|by apply IH]. intros ([k' r'] & E & Hin)%list_elem_of_fmap. simpl in E. subst k'. apply Hk.
  apply list_elem_of_fmap. exists (k, r'). split; [done|].
  apply list_elem_of_In, filter_In in Hin as [Hin _]. by apply list_elem_of_In.
Qed.

(** The tables that a round does not touch, and the rows that it does. *)
Record round_inv (now : Z) (answers : string -> Answers) (d0 : Database) (work : list (string * ScheduleRow)) (d : Database) : Prop := {
  ri_auctions : auctions d = auctions d0;
  ri_configs : auction_configs d = auction_configs d0;
  ri_participants : auction_participants d = auction_participants d0;
  ri_media : media d = media d0;
  ri_rows : forall k, auction_schedules d !! k =
    match auction_schedules d0 !! k with
    | Some r => if due now r then
                  if decide (k ∈ work.*1) then Some (claim_row now r) else Some (next_row (answers k) (claim_row now r) d0)
                else Some r
    | None => None
    end
}.

Lemma next_row_same o r d d' : auctions d = auctions d' -> auction_participants d = auction_participants d' ->
  next_row o r d = next_row o r d'.
Proof. intros Ha Hp. unfold next_row, participants_of. by rewrite Ha, Hp. Qed.

Lemma next_store_same now o r d d' s : auctions d = auctions d' -> auction_participants d = auction_participants d' ->
  auction_configs d = auction_configs d' -> next_store now o r d s = next_store now o r d' s.
Proof. intros Ha Hp Hc. unfold next_store, participants_of. by rewrite Ha, Hp, Hc. Qed.

Lemma round_start now answers d0 :
  round_inv now answers d0 (claimed now d0) (with_schedules (fmap (claim_row now)) d0).
Proof.
  split; try done. intros k. simpl. rewrite lookup_fmap.
  destruct (auction_schedules d0 !! k) as [r|] eqn:E; [|done]. simpl. unfold claim_row.
  destruct (due now r) eqn:Ed; [|done]. destruct (decide (k ∈ _)) as [|N]; [done|]. exfalso. apply N.
  apply list_elem_of_fmap. exists (k, r). split; [done|]. by apply claimed_spec.
Qed.

Lemma round_step now answers d0 k r work w :
  k ∉ work.*1 -> auction_schedules d0 !! k = Some r -> due now r = true ->
  round_inv now answers d0 ((k, r) :: work) (db w) ->
  round_inv now answers d0 work (db (step_one now answers w (k, r))).
Proof.
  intros Hk Ek Hdue [H1 H2 H3 H4 H5].
  assert (Er : auction_schedules (db w) !! k = Some (claim_row now r)).
  { rewrite H5, Ek, Hdue. rewrite decide_True; [done|]. simpl. by left. }
  pose proof (claim_row_due now r Hdue) as Ec.
  unfold step_one. simpl. rewrite process_db by (by rewrite Er, Ec; simpl).
  split; try done. intros j. simpl. destruct (decide (j = k)) as [->|Hne]; simplify_map_eq.
  - rewrite Hdue. f_equal. by apply next_row_same.
  - rewrite H5. destruct (auction_schedules d0 !! j) as [r'|]; [|done]. destruct (due now r'); [|done].
    simpl. destruct (decide (j ∈ work.*1)) as [Hin|Hin].
    + by rewrite decide_True by (by right).
    + rewrite decide_False; [done|]. by intros [?|?]%elem_of_cons.
Qed.

Lemma round_run now answers d0 work : forall w,
  NoDup work.*1 -> (forall k r, (k, r) ∈ work -> auction_schedules d0 !! k = Some r /\ due now r = true) ->
  round_inv now answers d0 work (db w) ->
  round_inv now answers d0 [] (db (fold_left (step_one now answers) work w)).
Proof.
  induction work as [|[k r] work IH]; intros w Hnd Hw Hi; [done|]. apply NoDup_cons in Hnd as [Hk Hnd].
  destruct (Hw k r) as [Ek Hd]; [by left|]. simpl. apply IH; [done|by intros; apply Hw; right|].
  by apply round_step.
Qed.

Lemma poll_rows now answers w :
  round_inv now answers (db w) [] (db (poll uuid_number true now answers w)).
Proof.
  apply (round_run now answers (db w) (claimed now (db w))); [apply claimed_keys|by intros k r ?%claimed_spec|].
  apply round_start.
Qed.

(** *** The keys of one auction *)

(** Two states of Redis that agree on an auction. *)
Record same_keys (id : string) (s s' : Store) : Prop := {
  sk_state : state_key s !! id = state_key s' !! id;
  sk_states : states s !! id = states s' !! id;
  sk_init : id ∈ initialized s <-> id ∈ initialized s';
  sk_zset : schedule_zset s !! id = schedule_zset s' !! id;
  sk_bits : participants_key s !! id = participants_key s' !! id
}.

#[export] Instance same_keys_equiv id : Equivalence (same_keys id).
Proof.
  split.
  - by intros s.
  - intros s s' [H1 H2 H3 H4 H5]. split; by symmetry.
  - intros s s' s'' [H1 H2 H3 H4 H5] [K1 K2 K3 K4 K5]. split; etransitivity; eauto.
Qed.

#[export] Instance setbit_keys id now a off v : Proper (same_keys id ==> same_keys id) (setbit now a off v).
Proof.
  intros s s' [H1 H2 H3 H4 H5]. split; simpl; try done.
  destruct (decide (a = id)) as [->|]; simplify_map_eq; by rewrite ?H5.
Qed.

#[export] Instance expire_keys id a until : Proper (same_keys id ==> same_keys id) (expire a until).
Proof.
  intros s s' [H1 H2 H3 H4 H5]. split; simpl; try done.
  destruct (decide (a = id)) as [->|]; [by rewrite !lookup_alter_eq, H5|by rewrite !lookup_alter_ne].
Qed.

Lemma expire_other id a until s : a <> id -> same_keys id (expire a until s) s.
Proof. intros H. split; simpl; try done. by rewrite lookup_alter_ne. Qed.

Lemma setbit_other id now a off v s : a <> id -> same_keys id (setbit now a off v s) s.
Proof. intros H. split; simpl; try done. by simplify_map_eq. Qed.

#[export] Instance set_bits_keys id now a ps : Proper (same_keys id ==> same_keys id) (set_bits uuid_number now a ps).
Proof.
  induction ps as [|u ps IH]; intros s s' H; [done|]. simpl. apply IH. by rewrite H.
Qed.

Lemma set_bits_other id now a ps s : a <> id -> same_keys id (set_bits uuid_number now a ps s) s.
Proof.
  intros H. revert s. induction ps as [|u ps IH]; intros s; [done|].
  change (set_bits uuid_number now a (u :: ps) s) with (set_bits uuid_number now a ps (setbit now a (offset_of uuid_number u) true s)).
  rewrite IH. by apply setbit_other.
Qed.

#[export] Instance write_state_keys id r doc until : Proper (same_keys id ==> same_keys id) (write_state r doc until).
Proof.
  intros s s' [H1 H2 H3 H4 H5].
  split; simpl; try done; try (destruct (decide (sc_auction_id r = id)) as [->|]; by simplify_map_eq).
  by rewrite !elem_of_union, H3.
Qed.

Lemma write_state_other id r doc until s : sc_auction_id r <> id -> same_keys id (write_state r doc until s) s.
Proof. intros H. split; simpl; try done; try (by simplify_map_eq). set_solver. Qed.

#[export] Instance hydrate_keys id now r a c ps : Proper (same_keys id ==> same_keys id) (hydrate uuid_number now r a c ps).
Proof.
  intros s s' H. unfold hydrate. by apply expire_keys, set_bits_keys, write_state_keys.
Qed.

Lemma hydrate_other id now r a c ps s : sc_auction_id r <> id -> same_keys id (hydrate uuid_number now r a c ps s) s.
Proof.
  intros H. unfold hydrate. cbv zeta. rewrite expire_other, set_bits_other by done. by apply write_state_other.
Qed.

#[export] Instance next_store_keys id now o r d : Proper (same_keys id ==> same_keys id) (next_store now o r d).
Proof.
  intros s s' H. unfold next_store. destruct (auctions d !! _) as [a|], (an_pipe o); try done;
    destruct (_ && _); try done; by apply hydrate_keys.
Qed.

Lemma next_store_other id now o r d s : sc_auction_id r <> id -> same_keys id (next_store now o r d s) s.
Proof.
  intros H. unfold next_store. destruct (auctions d !! _) as [a|], (an_pipe o); try done;
    destruct (_ && _); try done; by apply hydrate_other.
Qed.

(** What a round leaves of an auction's keys: the work of its own schedule. *)
Lemma round_keys now answers d0 id sid r work : forall w,
  NoDup work.*1 -> (forall k x, (k, x) ∈ work -> auction_schedules d0 !! k = Some x /\ due now x = true) ->
  auction_schedules d0 !! sid = Some r ->
  (forall k x, (k, x) ∈ work -> sc_auction_id x = id -> k = sid) ->
  round_inv now answers d0 work (db w) ->
  same_keys id (store (fold_left (step_one now answers) work w))
    (if decide (sid ∈ work.*1) then next_store now (answers sid) (claim_row now r) d0 (store w) else store w).
Proof.
  induction work as [|[k x] work IH]; intros w Hnd Hw Hr Hone Hi; [by rewrite decide_False by apply not_elem_of_nil|].
  assert (Hnd' := Hnd). apply NoDup_cons in Hnd' as [Hk Hnd'].
  destruct (Hw k x) as [Ek Hd]; [by left|].
  assert (Hst : store (step_one now answers w (k, x)) = next_store now (answers k) (claim_row now x) d0 (store w)).
  { unfold step_one. rewrite process_store. simpl.
    by apply next_store_same; [apply (ri_auctions _ _ _ _ _ Hi)|apply (ri_participants _ _ _ _ _ Hi)|apply (ri_configs _ _ _ _ _ Hi)]. }
  simpl. rewrite IH; [|done|by intros; apply Hw; right|done|by intros; eapply Hone; [right|]|by apply round_step].
  rewrite Hst. destruct (decide (k = sid)) as [->|Hne].
  - rewrite decide_False by done. rewrite decide_True by (by left). by replace x with r by congruence.
  - assert (Hid : sc_auction_id (claim_row now x) <> id).
    { rewrite claim_row_due by done. simpl. intros E. apply Hne, (Hone k x); [by left|done]. }
    destruct (decide (sid ∈ work.*1)) as [Hin|Hin].
    + rewrite decide_True by (by right). by rewrite (next_store_other id now _ _ _ _ Hid).
    + rewrite decide_False by (intros [?|?]%elem_of_cons; [by subst|done]). by apply next_store_other.
Qed.

(** Only a schedule that is due opens an auction. *)
Lemma poll_keys now answers id sid r w :
  auction_schedules (db w) !! sid = Some r -> sc_auction_id r = id ->
  (forall k x, auction_schedules (db w) !! k = Some x -> sc_auction_id x = id -> k = sid) ->
  same_keys id (store (poll uuid_number true now answers w))
    (if due now r then next_store now (answers sid) (claim_row now r) (db w) (store w) else store w).
Proof.
  intros Hr Hid Hone. change (poll uuid_number true now answers w) with
    (fold_left (step_one now answers) (claimed now (db w)) (mkWorld (with_schedules (fmap (claim_row now)) (db w)) (store w))).
  rewrite (round_keys now answers (db w) id sid r); [|apply claimed_keys|by intros k x ?%claimed_spec|done| |apply round_start].
  - simpl. destruct (due now r) eqn:Ed.
    + rewrite decide_True; [done|]. apply list_elem_of_fmap. exists (sid, r). split; [done|]. by apply claimed_spec.
    + rewrite decide_False; [done|]. intros ([k x] & -> & [Hx Hd]%claimed_spec)%list_elem_of_fmap. simpl in *. congruence.
  - intros k x [Hx _]%claimed_spec. by apply Hone.
Qed.

(** *** Every world that the operations reach *)

Definition valid_opt (x : option num) : bool := match x with Some v => valid v | None => true end.

(** The numbers of a payload are doubles. *)
Definition valid_payload (p : Payload) : bool :=
  valid_opt (py_starting_price p) && valid_opt (py_minimum_bid_step p) && valid_opt (py_reserve_price p).

Definition event_valid (e : world_event) : Prop :=
  match e with Create _ _ _ _ p => valid_payload p = true | _ => True end.

(** The starting price and the step of an auction that was accepted. *)
Definition auction_ok (a : AuctionRow) : Prop :=
  exists price, ar_starting_price a = Some price /\ price_ok price /\
    ar_auction_start_time a + 300000 <= ar_auction_end_time a.
Definition config_ok (c : ConfigRow) : Prop :=
  is_finite (cf_minimum_bid_step c) = true /\ nlt nzero (cf_minimum_bid_step c) = true /\
  valid (cf_minimum_bid_step c) = true /\
  match cf_reserve_price c with Some r => is_finite r && nle nzero r = true | None => True end.

Record tables_ok (d : Database) : Prop := {
  to_auctions : map_Forall (fun _ a => auction_ok a) (auctions d);
  to_configs : map_Forall (fun _ c => config_ok c) (auction_configs d);
  to_schedules : map_Forall (fun _ r => exists a c, auctions d !! sc_auction_id r = Some a /\
    auction_configs d !! sc_auction_id r = Some c /\ ar_auction_start_time a = sc_start_time r) (auction_schedules d);
  to_one : forall k k' r r', auction_schedules d !! k = Some r -> auction_schedules d !! k' = Some r' ->
    sc_auction_id r = sc_auction_id r' -> k = k'
}.

(** The identifiers of a schedule do not change. *)
Definition same_ids (r r' : ScheduleRow) : Prop :=
  sc_auction_id r' = sc_auction_id r /\ sc_start_time r' = sc_start_time r.

Lemma next_row_ids now o r d : same_ids r (next_row o (claim_row now r) d).
Proof.
  unfold next_row, claim_row. destruct (due now r); simpl; destruct (an_reached o && an_participants o); simpl; try done;
    destruct (bool_decide _); destruct (an_update o); simpl; try done; destruct (auctions d !! _); try done;
    destruct (_ && _ && _); simpl; try done; by destruct (an_redis o), (an_pipe o).
Qed.

Lemma claim_row_ids now r : same_ids r (claim_row now r).
Proof. unfold claim_row. by destruct (due now r). Qed.

(** What a round does to a row. *)
Lemma poll_row now answers w k : auction_schedules (db (poll uuid_number true now answers w)) !! k =
  match auction_schedules (db w) !! k with
  | Some r => Some (if due now r then next_row (answers k) (claim_row now r) (db w) else r)
  | None => None
  end.
Proof.
  rewrite (ri_rows _ _ _ _ _ (poll_rows now answers w)). destruct (auction_schedules (db w) !! k); [|done].
  by destruct (due now _).
Qed.

Lemma tables_ok_rows d d' :
  auctions d' = auctions d -> auction_configs d' = auction_configs d ->
  (forall k r', auction_schedules d' !! k = Some r' -> exists r, auction_schedules d !! k = Some r /\ same_ids r r') ->
  tables_ok d -> tables_ok d'.
Proof.
  intros Ha Hc Hs [H1 H2 H3 H4]. split; rewrite ?Ha, ?Hc; try done.
  - intros k r' Hr. destruct (Hs k r' Hr) as (r & Er & E1 & E2). rewrite E1, E2. by apply (H3 k).
  - intros k k' r r' Hr Hr' E. destruct (Hs _ _ Hr) as (x & Ex & E1 & _), (Hs _ _ Hr') as (y & Ey & E2 & _).
    apply (H4 k k' x y); congruence.
Qed.

Lemma create_rows_ok ok auction schedule user p d d' :
  valid_payload p = true -> create_rows read_utc ok auction schedule user p d = Ok d' -> tables_ok d -> tables_ok d'.
Proof.
  intros Hv. unfold create_rows. destruct (create_auction_service read_utc p) as [t|] eqn:E; [|done]. simpl.
  destruct (negb ok || _ || _) eqn:En; [done|]. intros [= <-] [H1 H2 H3 H4].
  apply orb_false_iff in En as [[_ Na]%orb_false_iff Ns]. apply bool_decide_eq_false in Na, Ns.
  apply create_auction_service_ok in E as (price & Ep & Fp & Pp & Fs & Ps & Hres & _ & _ & _ & _ & Ht).
  unfold valid_payload in Hv. rewrite Ep in Hv. simpl in Hv. bool_facts.
  assert (Hnew : forall k r, auction_schedules d !! k = Some r -> sc_auction_id r <> auction).
  { intros k r Hr Er. destruct (H3 k r Hr) as (a & c & Ea & _). rewrite Er in Ea. by apply Na; rewrite Ea. }
  split; unfold insert_auction; cbn [auctions auction_configs auction_schedules].
  - apply map_Forall_insert_2; [|done]. exists price. split; [done|]. split; [|simpl; lia].
    split; [done|done|num_order].
  - apply map_Forall_insert_2; [|done]. unfold config_ok. cbn [cf_minimum_bid_step cf_reserve_price].
    split; [done|]. split; [by rewrite positive_rule by done; rewrite Ps|].
    split; [destruct (py_minimum_bid_step p) as [x|]; [done|by vm_compute]|].
    unfold bad_number in Hres. destruct (py_reserve_price p) as [x|]; [|done].
    apply orb_false_iff in Hres as [Fx%negb_false_iff Nx]. rewrite Fx. simpl. num_order.
  - apply map_Forall_insert_2; simpl.
    + do 2 eexists. by simplify_map_eq.
    + intros k r Hr. destruct (H3 k r Hr) as (a & c & Ea & Ec & Et). exists a, c.
      pose proof (Hnew k r Hr). by simplify_map_eq.
  - intros k k' r r' Hk Hk' Er.
    destruct (decide (k = schedule)) as [->|], (decide (k' = schedule)) as [->|]; simplify_map_eq; try done.
    + by apply Hnew in Hk'.
    + by apply Hnew in Hk.
    + by apply (H4 k k' r r').
Qed.

Lemma tables_ok_step w e : event_valid e -> tables_ok (db w) -> tables_ok (db (step w e)).
Proof.
  intros He H. destruct e as [ok a s u p|ct now a u|ok now a u|now a u|ok now a u|ok now answers]; simpl.
  - destruct (create_rows _ _ _ _ _ _ _) eqn:E; [|done]. by eapply create_rows_ok.
  - unfold join_rows. destruct (auctions (db w) !! a); [|done]. destruct (server_join _ _ _); [|done].
    destruct (ct && _); [done|]. destruct (registered _ _ _); [done|].
    apply (tables_ok_rows (db w)); try done. intros k r' Hr. exists r'. by split.
  - unfold join_bit, set_participant_bit. by destruct ok.
  - unfold leave_rows. destruct (auctions (db w) !! a); [|done]. destruct (server_leave _ _ _); [|done].
    apply (tables_ok_rows (db w)); try done. intros k r' Hr. exists r'. by split.
  - done.
  - destruct ok; [|done]. pose proof (poll_rows now answers w) as [R1 R2 _ _ _].
    apply (tables_ok_rows (db w)); [done|done| |done]. intros k r'. rewrite poll_row.
    destruct (auction_schedules (db w) !! k) as [r|]; [|done]. intros [= <-]. exists r. split; [done|].
    destruct (due now r); [apply next_row_ids|done].
Qed.

Lemma tables_ok_run es w : Forall event_valid es -> tables_ok (db w) -> tables_ok (db (run es w)).
Proof. apply (fold_left_inv step (fun w => tables_ok (db w)) event_valid). intros w' e. apply tables_ok_step. Qed.

Lemma tables_ok0 : tables_ok (db world0).
Proof. split; simpl; try apply map_Forall_empty. intros k k' r r' H. by simplify_map_eq. Qed.

(** *** A schedule that is not waiting is left alone *)

(** The schedule is settled: not waiting, and the only one of its auction. *)
Record settled (sid : string) (r : ScheduleRow) (w : World) : Prop := {
  sl_row : auction_schedules (db w) !! sid = Some r;
  sl_state : sc_state r <> Scheduled;
  sl_tables : tables_ok (db w)
}.

(** The documents and the flag of an auction. *)
Definition same_opening (id : string) (s s' : Store) : Prop :=
  state_key s !! id = state_key s' !! id /\ states s !! id = states s' !! id /\
  (id ∈ initialized s <-> id ∈ initialized s').

Lemma keys_opening id s s' : same_keys id s s' -> same_opening id s s'.
Proof. intros [H1 H2 H3 _ _]. done. Qed.

Lemma settled_step sid r w e : event_valid e -> settled sid r w ->
  settled sid r (step w e) /\ same_opening (sc_auction_id r) (store (step w e)) (store w).
Proof.
  intros He [H1 H2 H3].
  assert (Hd : due (match e with Poll _ now _ => now | _ => 0 end) r = false)
    by (unfold due; by rewrite (bool_decide_eq_false_2 _ H2), andb_false_r).
  assert (Ht : tables_ok (db (step w e))) by (by apply tables_ok_step).
  assert (Hr : auction_schedules (db (step w e)) !! sid = Some r /\ same_opening (sc_auction_id r) (store (step w e)) (store w));
    [|by destruct Hr].
  destruct e as [ok a s u p|ct now a u|ok now a u|now a u|ok now a u|ok now answers]; simpl in *.
  - unfold create_rows. destruct (create_auction_service _ _); [|done]. simpl.
    destruct (negb ok || _ || _) eqn:En; [done|]. split; [|done]. simpl.
    apply orb_false_iff in En as [_ Ns]. apply bool_decide_eq_false in Ns.
    destruct (decide (sid = s)) as [->|]; [|by simplify_map_eq]. exfalso. apply Ns. by rewrite H1.
  - unfold join_rows. destruct (auctions (db w) !! a); [|done]. destruct (server_join _ _ _); [|done].
    destruct (ct && _); [done|]. by destruct (registered _ _ _).
  - unfold join_bit, set_participant_bit. by destruct ok.
  - unfold leave_rows. destruct (auctions (db w) !! a); [|done]. by destruct (server_leave _ _ _).
  - unfold clear_bit. by destruct ok.
  - destruct ok; [|done]. rewrite poll_row, H1, Hd. split; [done|]. apply keys_opening.
    pose proof (poll_keys now answers (sc_auction_id r) sid r w H1 eq_refl) as K. rewrite Hd in K. apply K.
    intros k x Hx E. by apply (to_one _ H3 k sid x r).
Qed.

Lemma settled_run sid r es : forall w, Forall event_valid es -> settled sid r w ->
  settled sid r (run es w) /\ same_opening (sc_auction_id r) (store (run es w)) (store w).
Proof.
  induction es as [|e es IH]; intros w Hes H; [done|]. inversion Hes as [|? ? He Hes']; subst.
  destruct (settled_step sid r w e He H) as [Hs (E1 & E2 & E3)].
  destruct (IH _ Hes' Hs) as [Hs' (F1 & F2 & F3)]. split; [done|]. split; [by etransitivity|].
  by split; etransitivity.
Qed.

(** The answers that let a schedule be worked off, whatever Redis does. *)
Definition answered (o : Answers) : bool :=
  an_reached o && an_participants o && (an_end_time o && an_auction o && an_config o) && an_update o.
(** Redis serves the pipeline. *)
Definition serves (o : Answers) : bool :=
  an_redis o && match an_pipe o with PipeDone => true | _ => false end.
(** The pipeline has been executed. *)
Definition executes (o : Answers) : bool :=
  an_redis o && match an_pipe o with PipeRefused => false | _ => true end.

Definition polls (l : list (Z * (string -> Answers))) : list world_event := map (fun p => Poll true p.1 p.2) l.

Lemma poll_answered now answers w sid r a :
  auction_schedules (db w) !! sid = Some r -> due now r = true -> auctions (db w) !! sc_auction_id r = Some a ->
  participants_of (sc_auction_id r) (db w) <> [] -> answered (answers sid) = true -> tables_ok (db w) ->
  let w' := poll uuid_number true now answers w in
  auctions (db w') = auctions (db w) /\ auction_participants (db w') = auction_participants (db w) /\
  auction_configs (db w') = auction_configs (db w) /\
  auction_schedules (db w') !! sid =
    Some (if serves (answers sid) then mkScheduleRow (sc_auction_id r) Success (sc_start_time r) (sc_retry_count r)
          else mkScheduleRow (sc_auction_id r) Scheduled (sc_start_time r) (next_retry (sc_retry_count r))) /\
  same_keys (sc_auction_id r) (store w')
    (if executes (answers sid)
     then hydrate uuid_number now (claim_row now r) a (auction_configs (db w) !! sc_auction_id r)
            (participants_of (sc_auction_id r) (db w)) (store w) else store w).
Proof.
  intros Hr Hd Ha Hp Ho Ht w'. destruct (poll_rows now answers w) as [R1 R2 R3 _ _].
  split; [done|]. split; [done|]. split; [done|].
  assert (K : same_keys (sc_auction_id r) (store w') (next_store now (answers sid) (claim_row now r) (db w) (store w))).
  { pose proof (poll_keys now answers (sc_auction_id r) sid r w Hr eq_refl) as K. rewrite Hd in K. apply K.
    intros k x Hx E. by apply (to_one _ Ht k sid x r). }
  unfold w'. rewrite poll_row, Hr, Hd. fold w'. rewrite K. clear K.
  unfold answered in Ho. apply andb_true_iff in Ho as [[H1 H2]%andb_true_iff H3].
  unfold next_row, next_store, serves, executes. rewrite !claim_row_due by done. cbn [sc_auction_id sc_start_time sc_retry_count].
  rewrite H1, H2, H3, Ha, (bool_decide_eq_false_2 _ Hp). simpl.
  destruct (an_redis (answers sid)), (an_pipe (answers sid)); by split.
Qed.

(** *** What an opening writes *)

Lemma set_bits_rest now a ps : forall s,
  state_key (set_bits uuid_number now a ps s) = state_key s /\ states (set_bits uuid_number now a ps s) = states s /\
  initialized (set_bits uuid_number now a ps s) = initialized s.
Proof. induction ps as [|u ps IH]; intros s; [done|]. by apply (IH (setbit now a (offset_of uuid_number u) true s)). Qed.

(** The bits of an auction that a reader sees. *)
Definition bits (now : Z) (a : string) (s : Store) : gset Z := default ∅ (visible now s !! a).

Lemma bits_key now a s : bits now a s =
  match participants_key s !! a with
  | Some b => if alive now (bm_until b) then bm_bits b else ∅
  | None => ∅
  end.
Proof. unfold bits, visible. rewrite lookup_omap. destruct (_ !! a) as [b|]; [|done]. simpl. by destruct (alive _ _). Qed.

Lemma setbit_bits now a off v s : exists b, participants_key (setbit now a off v s) !! a = Some b /\
  alive now (bm_until b) = true /\ bm_bits b = if v then {[off]} ∪ bits now a s else bits now a s ∖ {[off]}.
Proof.
  rewrite bits_key. unfold setbit. simpl. rewrite lookup_insert_eq. eexists. split; [done|].
  destruct (participants_key s !! a) as [b|]; simpl; [|by destruct v].
  destruct (alive now (bm_until b)) eqn:E; simpl; [|by destruct v]. by destruct v.
Qed.

Lemma set_bits_bits now a ps : forall s, ps <> [] -> exists b, participants_key (set_bits uuid_number now a ps s) !! a = Some b /\
  forall x, x ∈ bm_bits b <-> x ∈ bits now a s \/ exists u, u ∈ ps /\ x = offset_of uuid_number u.
Proof.
  induction ps as [|u ps IH]; intros s Hps; [done|].
  destruct (setbit_bits now a (offset_of uuid_number u) true s) as (b & Eb & Al & Bb).
  change (set_bits uuid_number now a (u :: ps) s) with (set_bits uuid_number now a ps (setbit now a (offset_of uuid_number u) true s)).
  destruct (decide (ps = [])) as [->|Hne].
  - exists b. split; [done|]. intros x. rewrite Bb, elem_of_union, elem_of_singleton. split.
    + intros [->|]; [right; exists u; split; [left|done]|by left].
    + intros [|(u' & ->%list_elem_of_singleton & ->)]; [by right|by left].
  - destruct (IH (setbit now a (offset_of uuid_number u) true s) Hne) as (b' & Eb' & H). exists b'. split; [done|].
    intros x. rewrite H. rewrite (bits_key now a (setbit _ _ _ _ _)), Eb, Al, Bb, elem_of_union, elem_of_singleton. split.
    + intros [[->|]|(u' & ? & ->)]; [right; exists u; split; [by left|done]|by left|right; exists u'; split; [by right|done]].
    + intros [|(u' & [->|]%elem_of_cons & ->)]; [by left; right|by left; left|right; by exists u'].
Qed.

Lemma hydrate_spec now r a c ps s :
  let id := sc_auction_id r in
  let doc := state_payload r a c in
  let until := now + 1000 * redis_ttl_seconds (ar_auction_end_time a) now in
  let s' := hydrate uuid_number now r a c ps s in
  state_key s' !! id = Some (doc, until) /\ states s' !! id = Some doc /\ id ∈ initialized s' /\
  (ps <> [] -> exists b, participants_key s' !! id = Some (mkBitmap b (Some until)) /\
     forall x, x ∈ b <-> x ∈ bits now id s \/ exists u, u ∈ ps /\ x = offset_of uuid_number u).
Proof.
  intros id doc until s'. unfold s', hydrate. fold doc until id. set (s1 := write_state r doc until s).
  destruct (set_bits_rest now id ps s1) as (E1 & E2 & E3).
  unfold expire, with_bitmaps. cbn [state_key states initialized participants_key]. rewrite E1, E2, E3.
  split; [by apply lookup_insert_eq|]. split; [by apply lookup_insert_eq|]. split; [unfold s1; simpl; set_solver|].
  intros Hps. destruct (set_bits_bits now id ps s1 Hps) as (b & Eb & Hb). exists (bm_bits b).
  rewrite lookup_alter_eq, Eb. split; [done|]. exact Hb.
Qed.

(** *** Properties *)

(** The count after some retries: it wraps round at the end of its type, which it does
    not reach in practice. *)
Definition retried (k : nat) (n : Z) : Z := Nat.iter k next_retry n.

Lemma retried_in_range k n : 0 <= n -> n + Z.of_nat k < 2 ^ 31 -> retried k n = n + Z.of_nat k.
Proof.
  intros Hn. induction k as [|k IH]; intros Hk; [by rewrite Z.add_0_r|]. unfold retried in *. simpl. rewrite IH by lia.
  unfold next_retry. rewrite wrap_id; lia.
Qed.

Lemma retried_succ k n : retried (S k) n = retried k (next_retry n).
Proof. apply Nat.iter_succ_r. Qed.

(** C19: a due schedule is worked off as soon as Redis serves it: when the
    database answers and the process lives, every round that Redis fails puts the
    schedule back and counts a retry, and the first round that Redis serves ends it
    with the auction opened, whatever the other schedules do. *)
Theorem schedule_retried_until_served w sid r a l :
  tables_ok (db w) -> auction_schedules (db w) !! sid = Some r -> sc_state r = Scheduled ->
  auctions (db w) !! sc_auction_id r = Some a -> participants_of (sc_auction_id r) (db w) <> [] ->
  Forall (fun p => sc_start_time r <= p.1 /\ answered (p.2 sid) = true) l ->
  let w' := run (polls l) w in
  match find_index (fun p : Z * (string -> Answers) => serves (p.2 sid)) l with
  | Some k =>
      auction_schedules (db w') !! sid =
        Some (mkScheduleRow (sc_auction_id r) Success (sc_start_time r) (retried k (sc_retry_count r))) /\
      sc_auction_id r ∈ initialized (store w') /\
      let doc := state_payload r a (auction_configs (db w) !! sc_auction_id r) in
      states (store w') !! sc_auction_id r = Some doc /\
      exists until, state_key (store w') !! sc_auction_id r = Some (doc, until)
  | None =>
      auction_schedules (db w') !! sid =
        Some (mkScheduleRow (sc_auction_id r) Scheduled (sc_start_time r) (retried (length l) (sc_retry_count r)))
  end.
Proof.
  intros Ht Hr Hs Ha Hp Hl. revert w r Ht Hr Hs Ha Hp Hl.
  induction l as [|[now answers] l IH]; intros w r Ht Hr Hs Ha Hp Hl; cbn [find_index].
  - simpl. destruct r as [x st y z]. simpl in *. by subst st.
  - inversion Hl as [|? ? [Hn Ho] Hl']; subst. simpl in Hn, Ho.
    assert (Hd : due now r = true) by (unfold due; apply andb_true_iff; split; [lia|by apply bool_decide_eq_true]).
    destruct (poll_answered now answers w sid r a Hr Hd Ha Hp Ho Ht) as (D1 & D2 & D3 & D4 & K).
    assert (Ht' : tables_ok (db (poll uuid_number true now answers w)))
      by (by apply (tables_ok_step w (Poll true now answers))).
    cbn [snd]. change (run (polls ((now, answers) :: l)) w) with (run (polls l) (poll uuid_number true now answers w)).
    assert (Hev : Forall event_valid (polls l)) by (apply Forall_map, Forall_forall; done).
    destruct (serves (answers sid)) eqn:Es.
    + set (r' := mkScheduleRow (sc_auction_id r) Success (sc_start_time r) (sc_retry_count r)) in D4.
      destruct (settled_run sid r' (polls l) _ Hev (Build_settled _ _ _ D4 ltac:(done) Ht')) as [[E _ _] (F1 & F2 & F3)].
      simpl. split; [exact E|]. cbn [sc_auction_id r'] in F1, F2, F3. rewrite F1, F2, F3.
      assert (Ex : executes (answers sid) = true)
        by (revert Es; unfold serves, executes; by destruct (an_redis _), (an_pipe _)).
      rewrite Ex in K. destruct K as [K1 K2 K3 _ _]. rewrite K1, K2, K3.
      pose proof (hydrate_spec now (claim_row now r) a (auction_configs (db w) !! sc_auction_id r)
        (participants_of (sc_auction_id r) (db w)) (store w)) as (S1 & S2 & S3 & _).
      rewrite (proj1 (claim_row_ids now r)) in S1, S2, S3.
      split; [done|]. rewrite S1, S2. rewrite claim_row_due by done. by split; [|eexists].
    + set (r' := mkScheduleRow (sc_auction_id r) Scheduled (sc_start_time r) (next_retry (sc_retry_count r))) in D4.
      specialize (IH (poll uuid_number true now answers w) r' Ht' D4 eq_refl).
      cbn [sc_auction_id sc_start_time sc_retry_count r'] in IH. unfold participants_of in IH, Hp.
      rewrite D1, D2 in IH. specialize (IH Ha Hp Hl').
      destruct (find_index _ l) as [k|]; cbn [fmap option_fmap option_map length].
      * rewrite retried_succ.
        destruct IH as (I1 & I2 & I3). split; [exact I1|]. split; [exact I2|]. by rewrite D3 in I3.
      * rewrite retried_succ.
        exact IH.
Qed.

(** C35: a failure that is not Redis' strands the schedule: when the process dies, a
    query or the last update of the row fails after the claim, the schedule stays
    Started for ever, whatever happens later, and unless the pipeline had been
    executed before, the auction is never opened. *)
Theorem failed_query_strands_auction w sid r a now answers es :
  tables_ok (db w) -> auction_schedules (db w) !! sid = Some r -> due now r = true ->
  auctions (db w) !! sc_auction_id r = Some a -> participants_of (sc_auction_id r) (db w) <> [] ->
  answered (answers sid) = false -> Forall event_valid es ->
  let w' := run (Poll true now answers :: es) w in
  auction_schedules (db w') !! sid =
    Some (mkScheduleRow (sc_auction_id r) Started (sc_start_time r) (sc_retry_count r)) /\
  (executes (answers sid) = false -> same_opening (sc_auction_id r) (store w') (store w)).
Proof.
  intros Ht Hr Hd Ha Hp Ho Hes w'.
  set (w1 := poll uuid_number true now answers w). change w' with (run es w1).
  assert (Ht1 : tables_ok (db w1)) by (by apply (tables_ok_step w (Poll true now answers))).
  assert (Hr1 : auction_schedules (db w1) !! sid =
    Some (mkScheduleRow (sc_auction_id r) Started (sc_start_time r) (sc_retry_count r))).
  { unfold w1. rewrite poll_row, Hr, Hd. f_equal. unfold next_row. rewrite claim_row_due by done.
    cbn [sc_auction_id sc_start_time sc_retry_count]. rewrite Ha, (bool_decide_eq_false_2 _ Hp).
    unfold answered in Ho. destruct (an_reached (answers sid) && an_participants (answers sid)); [|done]. simpl.
    destruct (an_end_time (answers sid) && _ && _); [|done]. simpl in Ho |- *. rewrite Ho.
    by destruct (an_redis (answers sid)), (an_pipe (answers sid)). }
  destruct (settled_run sid _ es w1 Hes (Build_settled _ _ _ Hr1 ltac:(done) Ht1)) as [[E _ _] F].
  split; [exact E|]. intros He. simpl in F. fold run in F. destruct F as (F1 & F2 & F3).
  assert (K : same_keys (sc_auction_id r) (store w1) (store w)).
  { unfold w1. rewrite (poll_keys now answers (sc_auction_id r) sid r w Hr eq_refl), Hd.
    - unfold next_store. unfold executes in He. destruct (auctions (db w) !! sc_auction_id (claim_row now r)), (an_pipe (answers sid));
        try done; rewrite andb_true_r in He; by rewrite He, andb_false_r.
    - intros k x Hx E'. by apply (to_one _ Ht k sid x r). }
  destruct K as [K1 K2 K3 _ _]. by split; [|split]; etransitivity.
Qed.

(** *** Who is registered and who has a bit *)

(** No two of the users share an offset. *)
Definition apart (users : list string) : Prop :=
  forall u u', u ∈ users -> u' ∈ users -> offset_of uuid_number u = offset_of uuid_number u' -> u = u'.

(** The requests that are between their queries and their call of Redis. *)
Record Pending := mkPending { joining : gset (string * string); leaving : gset (string * string) }.
Definition pending0 : Pending := mkPending ∅ ∅.

Definition accepted {A} (r : result A) : bool := match r with Ok _ => true | Throw _ => false end.

Definition pend_step (w : World) (p : Pending) (e : world_event) : Pending :=
  match e with
  | JoinRow ct now a u => if accepted (join_rows ct now a u w).1 then mkPending ({[(a, u)]} ∪ joining p) (leaving p) else p
  | JoinBit _ _ a u => mkPending (joining p ∖ {[(a, u)]}) (leaving p)
  | LeaveRow now a u => if accepted (leave_rows now a u w).1 then mkPending (joining p) ({[(a, u)]} ∪ leaving p) else p
  | ClearBit _ _ a u => mkPending (joining p) (leaving p ∖ {[(a, u)]})
  | _ => p
  end.

Definition idle (p : Pending) (au : string * string) : Prop := au ∉ joining p /\ au ∉ leaving p.

(** The requests are those of the users, the ones of one user for one auction come
    one after the other, a call of Redis follows its queries, and Redis is there
    when one leaves. *)
Definition event_orderly (users : list string) (p : Pending) (e : world_event) : Prop :=
  match e with
  | Create _ _ _ u _ => u ∈ users
  | JoinRow _ _ a u => u ∈ users /\ idle p (a, u)
  | JoinBit _ _ a u => (a, u) ∈ joining p
  | LeaveRow _ a u => idle p (a, u)
  | ClearBit served _ a u => (a, u) ∈ leaving p /\ served = true
  | Poll _ _ _ => True
  end.

Fixpoint orderly (users : list string) (es : list world_event) (w : World) (p : Pending) : Prop :=
  match es with
  | [] => True
  | e :: es => event_orderly users p e /\ orderly users es (step w e) (pend_step w p e)
  end.

(** What is under way after some events. *)
Fixpoint pending_after (es : list world_event) (w : World) (p : Pending) : Pending :=
  match es with [] => p | e :: es => pending_after es (step w e) (pend_step w p e) end.

Record bits_sound (users : list string) (p : Pending) (w : World) : Prop := {
  bs_users : forall a u, (a, u) ∈ auction_participants (db w) -> u ∈ users;
  bs_joining : forall au, au ∈ joining p -> au ∈ auction_participants (db w);
  bs_leaving : forall a u, (a, u) ∈ leaving p -> u ∈ users;
  bs_bits : forall a b x, participants_key (store w) !! a = Some b -> x ∈ bm_bits b ->
    exists u, ((a, u) ∈ auction_participants (db w) \/ (a, u) ∈ leaving p) /\ x = offset_of uuid_number u
}.

#[export] Instance event_orderly_dec users p e : base.Decision (event_orderly users p e).
Proof. unfold event_orderly, idle. destruct e; apply _. Defined.

#[export] Instance orderly_dec users es : forall w p, base.Decision (orderly users es w p).
Proof. induction es as [|e es IH]; intros w p; simpl; apply _. Defined.

Lemma participants_of_spec a u d : u ∈ participants_of a d <-> (a, u) ∈ auction_participants d.
Proof.
  unfold participants_of. rewrite list_elem_of_omap. split.
  - intros ([a' u'] & Hin & E). simpl in E. destruct (String.eqb_spec a' a) as [->|]; [|done]. by injection E as ->.
  - intros Hin. exists (a, u). split; [done|]. simpl. by rewrite String.eqb_refl.
Qed.

(** A bit that is set belongs to a bit that was set, or to the one set now. *)
Lemma setbit_source now a off v s a' b x : participants_key (setbit now a off v s) !! a' = Some b -> x ∈ bm_bits b ->
  (exists b', participants_key s !! a' = Some b' /\ x ∈ bm_bits b' /\ (v = false -> a' = a -> x <> off)) \/
  v = true /\ a' = a /\ x = off.
Proof.
  unfold setbit. simpl. destruct (decide (a' = a)) as [->|]; simplify_map_eq; [|left; by exists b].
  intros [= <-]. simpl.
  assert (Hsrc : forall y, y ∈ bm_bits match participants_key s !! a with
            | Some b0 => if alive now (bm_until b0) then b0 else mkBitmap ∅ None | None => mkBitmap ∅ None end ->
          exists b', participants_key s !! a = Some b' /\ y ∈ bm_bits b').
  { intros y. destruct (participants_key s !! a) as [b0|]; [|set_solver]. destruct (alive _ _); [by exists b0|set_solver]. }
  destruct v; intros Hx.
  - apply elem_of_union in Hx as [->%elem_of_singleton|Hx]; [by right|]. left.
    destruct (Hsrc x Hx) as (b' & E & Hb). by exists b'.
  - apply elem_of_difference in Hx as [Hx Hne%not_elem_of_singleton]. left.
    destruct (Hsrc x Hx) as (b' & E & Hb). by exists b'.
Qed.

Lemma set_bits_source now a ps : forall s a' b x, participants_key (set_bits uuid_number now a ps s) !! a' = Some b -> x ∈ bm_bits b ->
  (exists b', participants_key s !! a' = Some b' /\ x ∈ bm_bits b') \/ a' = a /\ exists u, u ∈ ps /\ x = offset_of uuid_number u.
Proof.
  induction ps as [|u ps IH]; intros s a' b x Hb Hx; [left; by exists b|].
  destruct (IH (setbit now a (offset_of uuid_number u) true s) a' b x Hb Hx) as [(b' & E & Hx')|(-> & u' & Hu & ->)].
  - destruct (setbit_source _ _ _ _ _ _ _ _ E Hx') as [(b1 & E1 & Hx1 & _)|(_ & -> & ->)]; [left; by exists b1|].
    right. split; [done|]. exists u. split; [by left|done].
  - right. split; [done|]. exists u'. split; [by right|done].
Qed.

Lemma hydrate_source now r row c ps s a b x :
  participants_key (hydrate uuid_number now r row c ps s) !! a = Some b -> x ∈ bm_bits b ->
  (exists b', participants_key s !! a = Some b' /\ x ∈ bm_bits b') \/
  a = sc_auction_id r /\ exists u, u ∈ ps /\ x = offset_of uuid_number u.
Proof.
  unfold hydrate, expire. cbn [with_bitmaps participants_key]. intros Hb Hx.
  apply lookup_alter_Some in Hb as [(-> & b0 & E0 & ->)|(_ & E0)];
    by apply (set_bits_source _ _ _ _ _ _ _ E0 Hx).
Qed.

Lemma bits_sound_process users p now o sid r w : bits_sound users p w -> bits_sound users p (process now o sid r w).
Proof.
  intros [H1 H2 H3 H4].
  assert (Ep : auction_participants (db (process now o sid r w)) = auction_participants (db w)).
  { unfold process, process_schedule. destruct (negb _); [done|]. destruct (bool_decide _); [by destruct (an_update o)|].
    destruct (auctions _ !! _); [|done]. destruct (negb _); [done|]. destruct (negb _); [by destruct (an_update o)|].
    destruct (an_pipe o); by destruct (an_update o). }
  split; rewrite ?Ep; [exact H1|exact H2|exact H3|]. intros a b x. rewrite process_store. unfold next_store.
  destruct (auctions (db w) !! _) as [row|]; [|by apply H4].
  destruct (an_pipe o); try (by apply H4); (destruct (_ && _); [|by apply H4]); intros Hb Hx;
    (destruct (hydrate_source _ _ _ _ _ _ _ _ _ Hb Hx) as [(b1 & E1 & Hx1)|(-> & u & Hu & ->)];
     [by apply (H4 a b1)|exists u; split; [left; by apply participants_of_spec|done]]).
Qed.

(** More registrations: the bits keep their owners. *)
Lemma bits_sound_more users p w d :
  (forall au, au ∈ auction_participants (db w) -> au ∈ auction_participants d) ->
  (forall a u, (a, u) ∈ auction_participants d -> u ∈ users) ->
  bits_sound users p w -> bits_sound users p (mkWorld d (store w)).
Proof.
  intros Hsub Hus [H1 H2 H3 H4]. split; simpl; [exact Hus|by auto|exact H3|].
  intros a b x Hb Hx. destruct (H4 a b x Hb Hx) as (u & [Hu|Hu] & ->); exists u; auto.
Qed.

Lemma bits_sound_join users p w a u ct now : u ∈ users -> bits_sound users p w ->
  bits_sound users (pend_step w p (JoinRow ct now a u)) (step w (JoinRow ct now a u)).
Proof.
  intros Hu H. simpl. unfold join_rows. destruct (auctions (db w) !! a); [|done]. destruct (server_join _ _ _); [|done].
  assert (Hp : forall w', (a, u) ∈ auction_participants (db w') -> bits_sound users p w' ->
    bits_sound users (mkPending ({[(a, u)]} ∪ joining p) (leaving p)) w').
  { intros w' Hin [H1 H2 H3 H4]. split; simpl; try done. intros au [->%elem_of_singleton|Hau]%elem_of_union; auto. }
  destruct (registered a u (db w)) eqn:Er.
  - apply bool_decide_eq_true in Er. destruct ct; simpl; [|done]. by apply Hp.
  - rewrite andb_false_r. simpl. apply Hp; simpl; [apply elem_of_app; right; by left|].
    apply bits_sound_more; [|simpl|done].
    + intros au Hau. simpl. apply elem_of_app. by left.
    + intros a' u' [?|[= -> ->]%list_elem_of_singleton]%elem_of_app; [by apply (bs_users _ _ _ H a')|done].
Qed.

Lemma bits_sound_leave users p w a u now : idle p (a, u) -> bits_sound users p w ->
  bits_sound users (pend_step w p (LeaveRow now a u)) (step w (LeaveRow now a u)).
Proof.
  intros [Hj Hl] H. simpl. unfold leave_rows. destruct (auctions (db w) !! a); [|done].
  unfold server_leave. destruct (_ <=? now); [done|]. destruct (registered a u (db w)) eqn:Er; [|done].
  apply bool_decide_eq_true in Er. destruct H as [H1 H2 H3 H4].
  assert (Hrest : forall au, au ∈ js_filter (fun au => negb (bool_decide (au = (a, u)))) (auction_participants (db w)) <->
    au ∈ auction_participants (db w) /\ au <> (a, u)).
  { intros au. unfold js_filter. rewrite list_elem_of_In, filter_In, <-list_elem_of_In, negb_true_iff, bool_decide_eq_false. done. }
  split; cbn [joining leaving accepted fst snd db store with_participants auction_participants].
  - intros a' u' [Hin _]%Hrest. by eapply H1.
  - intros au Hau. apply Hrest. split; [by apply H2|]. intros ->. done.
  - intros a' u' [[= -> ->]%elem_of_singleton|Hin]%elem_of_union; [by eapply H1|by eapply H3].
  - intros a' b x Hb Hx. destruct (H4 a' b x Hb Hx) as (u' & Hu & ->). exists u'. split; [|done].
    rewrite Hrest, elem_of_union, elem_of_singleton. destruct (decide ((a', u') = (a, u))); tauto.
Qed.

Lemma bits_sound_set users p w a u ok now : (a, u) ∈ joining p -> bits_sound users p w ->
  bits_sound users (pend_step w p (JoinBit ok now a u)) (step w (JoinBit ok now a u)).
Proof.
  intros Hj H. assert (Hin := bs_joining _ _ _ H _ Hj). destruct H as [H1 H2 H3 H4]. simpl.
  assert (Hsub : forall au, au ∈ joining p ∖ {[(a, u)]} -> au ∈ auction_participants (db w))
    by (intros au [Hau _]%elem_of_difference; by apply H2).
  unfold join_bit, set_participant_bit. destruct ok; [|by split].
  split; cbn [joining leaving db store snd]; [done|done|done|].
  intros a' b x Hb Hx. destruct (setbit_source _ _ _ _ _ _ _ _ Hb Hx) as [(b' & E & Hx' & _)|(_ & -> & ->)].
  - by apply (H4 a' b').
  - exists u. split; [by left|done].
Qed.

Lemma bits_sound_clear users p w a u now : bits_sound users p w ->
  bits_sound users (pend_step w p (ClearBit true now a u)) (step w (ClearBit true now a u)).
Proof.
  intros [H1 H2 H3 H4]. simpl. split; cbn [joining leaving db store clear_bit]; try done.
  - intros a' u' [Hl _]%elem_of_difference. by eapply H3.
  - intros a' b x Hb Hx. destruct (setbit_source _ _ _ _ _ _ _ _ Hb Hx) as [(b' & E & Hx' & Hne)|(? & _)]; [|done].
    destruct (H4 _ _ _ E Hx') as (u' & Hu & ->). exists u'. split; [|done].
    destruct Hu as [Hu|Hu]; [by left|right]. apply elem_of_difference. split; [done|].
    intros [= -> ->]%elem_of_singleton. by apply Hne.
Qed.

Lemma bits_sound_step users p w e : event_orderly users p e -> bits_sound users p w ->
  bits_sound users (pend_step w p e) (step w e).
Proof.
  intros He H. destruct e as [ok a s u pl|ct now a u|ok now a u|now a u|ok now a u|ok now answers].
  - simpl in He |- *. unfold create_rows. destruct (create_auction_service _ _); [|done]. simpl. destruct (negb ok || _ || _); [done|].
    apply bits_sound_more; [|simpl|done].
    + intros au Hau. simpl. apply elem_of_app. by left.
    + intros a' u' [?|[= -> ->]%list_elem_of_singleton]%elem_of_app; [by apply (bs_users _ _ _ H a')|done].
  - by apply bits_sound_join; [apply He|].
  - by apply bits_sound_set.
  - by apply bits_sound_leave.
  - destruct He as [_ ->]. by apply bits_sound_clear.
  - simpl. destruct ok; [|done]. unfold poll. simpl. apply (fold_left_inv _ _ (fun _ => True)); [|by apply Forall_true|].
    + intros w' kr _. by apply bits_sound_process.
    + by destruct H; split.
Qed.

Lemma bits_sound_run users es : forall p w, orderly users es w p -> bits_sound users p w ->
  bits_sound users (pending_after es w p) (run es w).
Proof.
  induction es as [|e es IH]; intros p w Ho H; [done|]. destruct Ho as [He Ho]. simpl. apply IH; [done|].
  by apply bits_sound_step.
Qed.

(** *** What the servers read of the document *)

Lemma ttl_outlives en now : en + 299000 < now + 1000 * redis_ttl_seconds en now.
Proof.
  unfold redis_ttl_seconds. destruct (Z_le_gt_dec now en) as [H|H]; [|lia].
  rewrite Z.quot_div_nonneg by lia. pose proof (Z.mod_pos_bound (en - now) 1000 ltac:(lia)).
  pose proof (Z.div_mod (en - now) 1000 ltac:(lia)). lia.
Qed.

Lemma type_forward t : is_forward (Some (type_text t)) = bool_decide (t = FORWARD).
Proof. by destruct t. Qed.

Lemma step_of_config c : config_ok c -> step_of (config_data (Some c)) = cf_minimum_bid_step c.
Proof.
  intros (F & P & _). unfold step_of, config_data, json_num. cbn [sr_minimum_bid_step]. rewrite F. simpl. by rewrite F, P.
Qed.

(** The hypotheses on the parser: it reads the two instants back. *)
Definition reads_times (read_time : string -> option Z) (a : AuctionRow) : Prop :=
  read_time (naive_text (ar_auction_start_time a)) = Some (ar_auction_start_time a) /\
  read_time (naive_text (ar_auction_end_time a)) = Some (ar_auction_end_time a).

(** What the socket server makes of the document. *)
Definition validation_of (now : Z) (a : AuctionRow) (c : ConfigRow) : Validation :=
  mkValidation (ar_auction_end_time a <=? now) (ar_auction_start_time a) (ar_auction_end_time a)
    (ar_starting_price a) (type_text (cf_auction_type c)) (cf_minimum_bid_step c) None.

Lemma starting_price_json a : auction_ok a -> ar_starting_price a ≫= json_num = ar_starting_price a.
Proof. intros (x & -> & [_ F _] & _). simpl. unfold json_num. by rewrite F. Qed.

Lemma validate_document read_time now r a c :
  auction_ok a -> config_ok c -> reads_times read_time a ->
  validate_auction_state read_time now (Some (state_payload r a (Some c))) = Ok (validation_of now a c).
Proof.
  intros Ha Hc [R1 R2]. unfold validate_auction_state, state_payload, validation_of, config_of.
  cbn [sd_auction sd_config sd_shipment sd_schedule_start sd_winner or_else also sr_end_time sr_start_time sr_status sr_starting_price].
  rewrite R1, R2, step_of_config, starting_price_json by done. cbn [sr_auction_type config_data default].
  rewrite (bool_decide_eq_false_2 (None = Some _)) by done. by destruct (cf_auction_type c).
Qed.

Lemma runtime_document `{FirstMember zfirst} read_time started rd r a c l :
  own_read rd || shared_read rd = true -> auction_ok a -> config_ok c -> reads_times read_time a ->
  let doc := Some (state_payload r a (Some c)) in
  let rt := load_runtime read_time zfirst started rd doc doc l in
  rt_type rt = cf_auction_type c /\ rt_step rt = cf_minimum_bid_step c /\ rt_reserve rt = cf_reserve_price c /\
  rt_end rt = ar_auction_end_time a.
Proof.
  intros Hst%(state_read_same rd (state_payload r a (Some c))) Ha Hc [_ R2] doc rt. unfold rt, doc, load_runtime. rewrite Hst. cbn [or_else also sd_auction state_payload config_of sd_config].
  cbn [rt_type rt_step rt_reserve rt_end sr_end_time also]. rewrite R2, step_of_config by done. cbn [default].
  split; [|split; [done|split; [|done]]].
  - unfold direction_of, config_data. cbn [sr_auction_type]. rewrite type_forward. by destruct (cf_auction_type c).
  - destruct Hc as (_ & _ & _ & Hr). unfold config_data. cbn [sr_reserve_price].
    destruct (cf_reserve_price c) as [x|]; [|done]. simpl. unfold json_num. apply andb_true_iff in Hr as [F N].
    rewrite F. simpl. by rewrite F, N.
Qed.

(** *** Properties of reachable worlds *)

Lemma opening_poll w sid r row now answers :
  tables_ok (db w) -> auction_schedules (db w) !! sid = Some r -> due now r = true ->
  participants_of (sc_auction_id r) (db w) <> [] -> answered (answers sid) = true -> serves (answers sid) = true ->
  auctions (db w) !! sc_auction_id r = Some row ->
  exists c, auction_configs (db w) !! sc_auction_id r = Some c /\ config_ok c /\ auction_ok row /\
    let w' := poll uuid_number true now answers w in
    auction_schedules (db w') !! sid = Some (mkScheduleRow (sc_auction_id r) Success (sc_start_time r) (sc_retry_count r)) /\
    same_keys (sc_auction_id r) (store w')
      (hydrate uuid_number now r row (Some c) (participants_of (sc_auction_id r) (db w)) (store w)).
Proof.
  intros Ht Hr Hd Hp Ho Hs Ha. destruct (to_schedules _ Ht _ _ Hr) as (a' & c & Ea & Ec & _).
  exists c. split; [done|]. split; [by apply (to_configs _ Ht _ _ Ec)|]. split; [by apply (to_auctions _ Ht _ _ Ha)|].
  destruct (poll_answered now answers w sid r row Hr Hd Ha Hp Ho Ht) as (_ & _ & _ & D & K).
  rewrite Hs in D. split; [exact D|].
  assert (Ex : executes (answers sid) = true)
    by (revert Hs; unfold serves, executes; by destruct (an_redis _), (an_pipe _)).
  rewrite Ex, Ec, claim_row_due in K by done. exact K.
Qed.

Lemma due_at now r : sc_state r = Scheduled -> sc_start_time r <= now -> due now r = true.
Proof. intros Hs Hn. unfold due. apply andb_true_iff. split; [lia|by apply bool_decide_eq_true]. Qed.

(** C7: the auction that is opened is the one that was created.  Whatever created
    auctions, registrations and rounds went before, a round that works a due
    schedule off leaves one document, flagged and kept for five minutes after the
    end, from which the socket server reads the times, the price, the direction and
    the step of the rows, the engine the same with the reserve as soon as one of its
    two readings of the document works, and a page that opens with the auction
    agrees with the engine. *)
Theorem opened_auction_is_the_created_one `{FirstMember zfirst} read_time es now answers sid r row t t' started rd participant s a0 :
  Forall event_valid es -> own_read rd || shared_read rd = true ->
  let w := run es world0 in
  let id := sc_auction_id r in
  auction_schedules (db w) !! sid = Some r -> sc_state r = Scheduled -> sc_start_time r <= now ->
  participants_of id (db w) <> [] -> answered (answers sid) = true -> serves (answers sid) = true ->
  auctions (db w) !! id = Some row -> reads_times read_time row -> ledger a0 = ledger0 -> id <> EmptyString ->
  let s' := store (poll uuid_number true now answers w) in
  exists c doc until, auction_configs (db w) !! id = Some c /\
    id ∈ initialized s' /\ states s' !! id = Some doc /\ state_key s' !! id = Some (doc, until) /\
    ar_auction_end_time row + 299000 < until /\
    validate_auction_state read_time t (Some doc) = Ok (validation_of t row c) /\
    let a := restart read_time zfirst started rd (Some doc) (Some doc) a0 in
    rt_type (runtime a) = cf_auction_type c /\ rt_step (runtime a) = cf_minimum_bid_step c /\
    rt_reserve (runtime a) = cf_reserve_price c /\ rt_end (runtime a) = ar_auction_end_time row /\
    in_agreement id (receive t' (MInit (auction_init_of id (validation_of t row c) [] [] participant)) s) a.
Proof.
  intros Hes Hst w id Hr Hs Hn Hp Ho Hsv Hrow Hrd H0 Hid s'.
  assert (Ht : tables_ok (db w)) by (apply tables_ok_run; [done|apply tables_ok0]).
  destruct (opening_poll w sid r row now answers Ht Hr (due_at _ _ Hs Hn) Hp Ho Hsv Hrow) as (c & Ec & Hc & Ha & _ & K).
  set (doc := state_payload r row (Some c)).
  exists c, doc, (now + 1000 * redis_ttl_seconds (ar_auction_end_time row) now).
  pose proof (hydrate_spec now r row (Some c) (participants_of (sc_auction_id r) (db w)) (store w)) as (S1 & S2 & S3 & _).
  destruct K as [K1 K2 K3 _ _]. fold s' id in K1, K2, K3. fold id in S1, S2, S3. rewrite K1, K2, K3.
  split; [done|]. split; [done|]. split; [done|]. split; [done|]. split; [apply ttl_outlives|].
  pose proof (validate_document read_time t r row c Ha Hc Hrd) as Hv. split; [done|].
  intros a. destruct (runtime_document read_time started rd r row c (ledger a0) Hst Ha Hc Hrd) as (T1 & T2 & T3 & T4).
  fold doc in T1, T2, T3, T4. split; [exact T1|]. split; [exact T2|]. split; [exact T3|]. split; [exact T4|].
  destruct Ha as (price & Ep & Hok & _).
  apply (opening_agrees read_time id doc _ price t); [done|done|done|by eexists|exact Hv|exact Ep|done|].
  change (option_list (config_of doc)) with [config_data (Some c)].
  rewrite Forall_singleton, step_of_config by done. apply Hc.
Qed.

(** C12: who may bid, and when.  After any history of creations, joinings, leavings
    and rounds in which the users have offsets of their own in the bitmap, the
    requests of one user for one auction come one after the other and Redis answers
    those who leave: a round that works a due schedule off, with nobody in the middle
    of leaving, lets a user who opens a connection afterwards bid exactly when
    registered in the database, from the start until the end, and as long as the
    token lasts. *)
Theorem bidding_is_for_the_registered read_time uuid users es now answers sid r row t t2 u expires :
  apart users -> u ∈ users -> Forall event_valid es -> orderly users es world0 pending0 ->
  let w := run es world0 in
  let id := sc_auction_id r in
  (forall u', (id, u') ∉ leaving (pending_after es world0 pending0)) ->
  auction_schedules (db w) !! sid = Some r -> sc_state r = Scheduled -> sc_start_time r <= now ->
  participants_of id (db w) <> [] -> answered (answers sid) = true -> serves (answers sid) = true ->
  auctions (db w) !! id = Some row -> reads_times read_time row -> 0 < ar_auction_end_time row ->
  uuid u = Ok u -> u <> EmptyString -> now <= t <= t2 ->
  let w' := poll uuid_number true now answers w in
  exists v, validate_auction_state read_time t (states (store w') !! id) = Ok v /\
    let session := EngineLife.session_of id u expires (validate_participant uuid_number uuid t (store w') id u) v in
    (authorize session id u t2 = Ok tt <->
     registered id u (db w) = true /\ ar_auction_start_time row <= t2 < ar_auction_end_time row /\ t2 < expires).
Proof.
  intros Hap Hu Hes Hus w id Hleft Hr Hs Hn Hp Ho Hsv Hrow Hrd Hpos Huu Hne Htt w'.
  assert (Ht : tables_ok (db w)) by (apply tables_ok_run; [done|apply tables_ok0]).
  destruct (opening_poll w sid r row now answers Ht Hr (due_at _ _ Hs Hn) Hp Ho Hsv Hrow) as (c & Ec & Hc & Ha & _ & K).
  pose proof (hydrate_spec now r row (Some c) (participants_of (sc_auction_id r) (db w)) (store w)) as (_ & S2 & _ & S4).
  destruct K as [_ K2 _ _ K5]. fold w' id in K2, K5. fold id in S2, S4.
  exists (validation_of t row c). split; [rewrite K2, S2; by apply validate_document|].
  intros session. unfold session. rewrite authorize_ok. simpl.
  pose proof (ttl_outlives (ar_auction_end_time row) now) as Httl.
  destruct (S4 Hp) as (b & Eb & Hb).
  assert (Hreg : t2 < ar_auction_end_time row -> validate_participant uuid_number uuid t (store w') id u = registered id u (db w)).
  { intros Hlt. unfold validate_participant, has_bit, registered. destruct u as [|ch u']; [done|]. rewrite Huu.
    apply bool_decide_ext. fold (bits t id (store w')). rewrite bits_key, K5, Eb. unfold alive. cbn [bm_until bm_bits].
    replace (t <? _) with true by (symmetry; apply Z.ltb_lt; lia). rewrite Hb. split.
    - assert (Hso : bits_sound users (pending_after es world0 pending0) w).
      { apply bits_sound_run; [done|]. split; simpl; [by intros a x ?%not_elem_of_nil|set_solver|set_solver|by intros a x y ?; simplify_map_eq]. }
      intros [Hold|(u2 & Hu2 & E)].
      + revert Hold. rewrite bits_key. destruct (participants_key (store w) !! id) as [b0|] eqn:E0; [|set_solver].
        destruct (alive _ _); [|set_solver]. intros Hx. destruct (bs_bits _ _ _ Hso _ _ _ E0 Hx) as (u2 & [Hu2|Hu2] & E); [|by apply Hleft in Hu2].
        by rewrite (Hap _ _ Hu (bs_users _ _ _ Hso _ _ Hu2) E).
      + apply participants_of_spec in Hu2. by rewrite (Hap _ _ Hu (bs_users _ _ _ Hso _ _ Hu2) E).
    - intros Hin. right. exists (String ch u'). split; [by apply participants_of_spec|done]. }
  split.
  - intros (_ & Hexp & _ & _ & Hbit & _ & _ & Hw). rewrite <-Hreg by lia. done.
  - intros (Hr1 & Hw & Hexp). rewrite Hreg by lia. repeat split; try done; try lia.
Qed.
End Facts.

(** ** Witnesses: a reverse auction from its creation to its opening *)
Definition sample_utc : string -> option Z := date_parse UTC no_fallback.
Definition sample_payload : Payload := {|
  py_title := "Lot"; py_description := "A lot of things"; py_auction_type := REVERSE; py_item_category := None;
  py_item_condition := None; py_quantity := None; py_quantity_unit := None;
  py_starting_price := Some (of_Z 120); py_minimum_bid_step := Some (of_Z 5); py_reserve_price := None;
  py_auction_start_time := "2025-10-09T12:00:00Z"; py_auction_end_time := "2025-10-09T13:00:00Z";
  py_pickup_terms := None; py_origin_address := None; py_origin := (None, None); py_dest_address := None;
  py_dest := (None, None); py_pickup_date := None; py_weight := None; py_length := None; py_width := None;
  py_height := None; py_media_urls := Some [Some "/a.mp4"] |}.
Definition sample_start_time : Z := 1760011200000.
Definition sample_number (s : string) : Z := if String.eqb s "u1" then 1 else if String.eqb s "u2" then 2 else 3.
Definition all_well : Answers := mkAnswers true true true true true true PipeDone true.
Definition redis_away : Answers := mkAnswers true true true true true false PipeDone true.
Definition query_fails : Answers := mkAnswers true true false true true true PipeDone true.
Definition sample_history : list world_event :=
  [Create true "a1" "s1" "c1" sample_payload; JoinRow true 1760000000000 "a1" "u1"; JoinRow true 1760000000001 "a1" "u2";
   JoinBit true 1760000000002 "a1" "u2"; LeaveRow 1760000000003 "a1" "u2"; JoinBit true 1760000000004 "a1" "u1";
   ClearBit true 1760000000005 "a1" "u2"; Poll true sample_start_time (fun _ => redis_away)].
Definition sample_world : World := world_run sample_utc sample_number sample_history world0.
Definition sample_schedule : ScheduleRow := mkScheduleRow "a1" Scheduled sample_start_time 1.
Definition sample_row : AuctionRow := mkAuctionRow "c1" (Some (of_Z 120)) sample_start_time (sample_start_time + 3600000).

Lemma schedule_retried_until_served_witness :
  let l := [(sample_start_time, fun _ => redis_away); (sample_start_time + 5000, fun _ => all_well)] in
  let w' := world_run sample_utc sample_number (polls l) sample_world in
  auction_schedules (db w') !! "s1" = Some (mkScheduleRow "a1" Success sample_start_time 2) /\ "a1" ∈ initialized (store w').
Proof.
  intros l w'.
  assert (Ht : tables_ok (db sample_world)) by (apply tables_ok_run; [by repeat constructor|apply tables_ok0]).
  pose proof (schedule_retried_until_served sample_utc sample_number sample_world "s1" sample_schedule sample_row l Ht
    ltac:(vm_compute; reflexivity) eq_refl ltac:(vm_compute; reflexivity) ltac:(vm_compute; discriminate)
    ltac:(repeat constructor; done)) as H.
  cbv zeta in H. change (find_index _ l) with (Some 1%nat) in H. destruct H as (H1 & H2 & _). split; [exact H1|exact H2].
Defined.

Lemma failed_query_strands_auction_witness :
  let es := [Poll true (sample_start_time + 5000) (fun _ => all_well)] in
  let w' := world_run sample_utc sample_number (Poll true sample_start_time (fun _ => query_fails) :: es)
              (world_run sample_utc sample_number (take 7 sample_history) world0) in
  auction_schedules (db w') !! "s1" = Some (mkScheduleRow "a1" Started sample_start_time 0).
Proof.
  intros es w'. set (w := world_run sample_utc sample_number (take 7 sample_history) world0) in *.
  assert (Ht : tables_ok (db w)) by (apply tables_ok_run; [by repeat constructor|apply tables_ok0]).
  pose proof (failed_query_strands_auction sample_utc sample_number w "s1" (mkScheduleRow "a1" Scheduled sample_start_time 0)
    sample_row sample_start_time (fun _ => query_fails) es Ht
    ltac:(vm_compute; reflexivity) ltac:(vm_compute; reflexivity) ltac:(vm_compute; reflexivity) ltac:(vm_compute; discriminate)
    eq_refl ltac:(by repeat constructor)) as H.
  destruct H as [H _]. exact H.
Defined.

Lemma opened_auction_is_the_created_one_witness :
  let s' := store (poll sample_number true (sample_start_time + 5000) (fun _ => all_well) sample_world) in
  exists c doc, states s' !! "a1" = Some doc /\
  in_agreement "a1" (receive 21 (MInit (auction_init_of "a1" (validation_of (sample_start_time + 6000) sample_row c) [] [] true)) sample_page)
    (restart sample_utc sample_first 22 all_read (Some doc) (Some doc) sample_actor).
Proof.
  intros s'.
  destruct (opened_auction_is_the_created_one sample_utc sample_number sample_utc sample_history (sample_start_time + 5000)
    (fun _ => all_well) "s1" sample_schedule sample_row (sample_start_time + 6000) 21 22 all_read true sample_page sample_actor
    ltac:(by repeat constructor) eq_refl ltac:(vm_compute; reflexivity) eq_refl ltac:(done) ltac:(vm_compute; discriminate)
    eq_refl eq_refl ltac:(vm_compute; reflexivity) ltac:(split; vm_compute; reflexivity) eq_refl ltac:(done))
    as (c & doc & until & _ & _ & H1 & _ & _ & _ & H).
  exists c, doc. split; [exact H1|]. destruct H as (_ & _ & _ & _ & H). exact H.
Defined.

(** The one who registered may bid, the one who left may not. *)
Lemma bidding_is_for_the_registered_witness :
  let s' := store (poll sample_number true (sample_start_time + 5000) (fun _ => all_well) sample_world) in
  let now := sample_start_time + 6000 in
  let may u := exists v, validate_auction_state sample_utc now (states s' !! "a1") = Ok v /\
    authorize (EngineLife.session_of "a1" u (now + 9000) (validate_participant sample_number parse_same now s' "a1" u) v) "a1" u now = Ok tt in
  may "u1" /\ ~ may "u2".
Proof.
  intros s' now may.
  assert (Hap : apart sample_number ["c1"; "u1"; "u2"]).
  { intros u u' Hu Hu'. repeat (apply elem_of_cons in Hu as [->|Hu]); try (by apply not_elem_of_nil in Hu);
      repeat (apply elem_of_cons in Hu' as [->|Hu']); try (by apply not_elem_of_nil in Hu'); by vm_compute. }
  assert (H : forall u, u ∈ ["c1"; "u1"; "u2"] -> u <> EmptyString -> exists v,
    validate_auction_state sample_utc now (states s' !! "a1") = Ok v /\
    (authorize (EngineLife.session_of "a1" u (now + 9000) (validate_participant sample_number parse_same now s' "a1" u) v) "a1" u now = Ok tt
     <-> registered "a1" u (db sample_world) = true /\ sample_start_time <= now < sample_start_time + 3600000 /\ now < now + 9000)).
  { intros u Hu Hne.
    exact (bidding_is_for_the_registered sample_utc sample_number sample_utc parse_same ["c1"; "u1"; "u2"] sample_history
      (sample_start_time + 5000) (fun _ => all_well) "s1" sample_schedule sample_row now now u (now + 9000) Hap Hu
      ltac:(by repeat constructor) ltac:(by_decide) ltac:(intros u'; vm_compute; congruence) ltac:(vm_compute; reflexivity) eq_refl
      ltac:(vm_compute; discriminate) ltac:(vm_compute; discriminate) eq_refl eq_refl ltac:(vm_compute; reflexivity)
      ltac:(split; vm_compute; reflexivity) eq_refl eq_refl Hne ltac:(split; vm_compute; discriminate)). }
  split.
  - destruct (H "u1") as (v & Hv & Hi); [by_decide|done|]. exists v. split; [exact Hv|]. apply Hi.
    split; [vm_compute; reflexivity|unfold now, sample_start_time; lia].
  - intros (v & Hv & Hauth). destruct (H "u2") as (v' & Hv' & Hi); [by_decide|done|].
    rewrite Hv in Hv'. injection Hv' as <-. apply Hi in Hauth as [Hr _]. vm_compute in Hr. discriminate Hr.
Defined.
