(* ===== verification/Finalize.v ===== *)
(** * Finishing an auction ([apps/notification-worker/src/main.rs])

    After the end the engine closes the auction and asks for its finalization; the
    sweeper asks for the auctions that the engine missed; the sync worker copies the
    accepted bids from Redis to the database, names the winner there and clears
    Redis.  The machine has the engine's actor, the ledger, the two documents, the
    rows and the topic, and every call of the three may fail.  The theorems, for an
    engine that is started only while its auction's own key is there and read: no
    accepted bid is lost, whatever the order and the failures; the winner of the
    rows is the one that was announced, as long as the configuration could be read;
    and a finalization that is left alone finishes.  What happens without these
    conditions is shown at the end.  All instants are of one clock. *)

From Stdlib Require Import SpecFloat.
From S2P Require Import Prelude JSNum JSRound JSText ApiTypes AuctionSlice SocketContext AuctionSocket.
From S2P Require Import Engine BidPath EngineLife Scheduler.
#[local] Open Scope Z_scope.

(** A row of [bids] ([db::models::NewBid]). *)
Record NewBid := mkNewBid {
  nb_id : string;
  nb_amount : num;
  nb_created_at : Z;
  nb_carrier_id : string
}.

Section Sync.
(** The parser of identifiers (its canonical text), the range of timestamps, and
    the order in which Redis lists the members of an auction's sorted set. *)
Context (uuid : string -> result string) (in_range : Z -> bool) (zrange : list Decision -> list Decision).

(** ** The sync worker ([run_sync_worker]) *)

(** One stored bid: the winner so far and the rows so far. *)
Definition scan_bid (auction_type : AuctionDirection) (acc : option (string * num) * list NewBid) (d : Decision) :
    option (string * num) * list NewBid :=
  let '(winner, rows) := acc in
  if negb (d_executed d) then acc
  else
    let amount := d_amount d in
    let timestamp := BidRequestPayload.timestamp (d_bid d) in
    match uuid (BidRequestPayload.bidder_id (d_bid d)) with
    | Throw _ => acc
    | Ok carrier =>
        if negb (in_range timestamp) then acc
        else
          let is_better :=
            match winner with
            | None => true
            | Some (_, current) =>
                match auction_type with REVERSE => nlt amount current | FORWARD => nlt current amount end
            end in
          let winner := if is_better then Some (carrier, amount) else winner in
          match uuid (d_request d) with
          | Throw _ => (winner, rows)
          | Ok request => (winner, rows ++ [mkNewBid request amount timestamp carrier])
          end
    end.

Definition scan (auction_type : AuctionDirection) (l : list Decision) : option (string * num) * list NewBid :=
  fold_left (scan_bid auction_type) l (None, []).

(** [winner_id]. *)
Definition reserve_filter (auction_type : AuctionDirection) (reserve_price : option num) (w : option (string * num)) : option string :=
  match w with
  | Some (bidder, amount) =>
      if bool_decide (auction_type = REVERSE) || match reserve_price with Some r => nle r amount | None => true end
      then Some bidder else None
  | None => None
  end.

(** [on_conflict_do_nothing]. *)
Definition insert_rows (rows : list NewBid) (m : gmap string NewBid) : gmap string NewBid :=
  fold_left (fun m b => match m !! nb_id b with Some _ => m | None => <[nb_id b := b]> m end) rows m.

(** [ZRANGE]/[ZREVRANGE 0 0]. *)
Definition first_of (ty : AuctionDirection) (l : list Decision) : option Decision :=
  match ty with REVERSE => head (zrange l) | FORWARD => last (zrange l) end.

(** ** One auction after its opening *)

(** The message that the worker is at: the attempt, and what it has read: the
    direction and the reserve of the configuration's row and the bids. *)
Record Job := mkJob { jb_attempt : nat; jb_read : option (AuctionDirection * option num * list Decision) }.

(** [fz_queue] messages are in front of the worker, the one in its hand included;
    [fz_passed] it has gone past without a commit: they come again only when it
    starts anew, unless the commit of a later message goes past them too. *)
Record Final := mkFinal {
  fz_actor : option AuctionRuntime;
  fz_ledger : Ledger;
  fz_shared : option StateDoc;
  fz_completed : bool;
  fz_winner : option string;
  fz_bids : gmap string NewBid;
  fz_queue : nat;
  fz_passed : nat;
  fz_job : option Job;
  fz_dead : nat;
  fz_closed : list (option Decision);
  fz_accepted : list Decision
}.

Definition with_engine (a : option AuctionRuntime) (l : Ledger) (accepted : list Decision) (s : Final) : Final :=
  mkFinal a l (fz_shared s) (fz_completed s) (fz_winner s) (fz_bids s) (fz_queue s) (fz_passed s) (fz_job s) (fz_dead s) (fz_closed s) accepted.
Definition with_actor (a : option AuctionRuntime) (s : Final) : Final := with_engine a (fz_ledger s) (fz_accepted s) s.
Definition with_close (shared : option StateDoc) (queue : nat) (closed : list (option Decision)) (s : Final) : Final :=
  mkFinal (fz_actor s) (fz_ledger s) shared (fz_completed s) (fz_winner s) (fz_bids s) queue (fz_passed s) (fz_job s) (fz_dead s) closed (fz_accepted s).
Definition with_topic (queue passed : nat) (j : option Job) (dead : nat) (s : Final) : Final :=
  mkFinal (fz_actor s) (fz_ledger s) (fz_shared s) (fz_completed s) (fz_winner s) (fz_bids s) queue passed j dead
    (fz_closed s) (fz_accepted s).
Definition with_job (queue : nat) (j : option Job) (dead : nat) (s : Final) : Final := with_topic queue (fz_passed s) j dead s.
(** The worker is done with its message; the offset that it commits, which may fail,
    covers the messages that it has passed before. *)
Definition move_on (committed : bool) (dead : nat) (s : Final) : Final :=
  with_topic (pred (fz_queue s)) (if committed then 0 else S (fz_passed s)) None dead s.
Definition with_rows (completed : bool) (winner : option string) (bids : gmap string NewBid) (s : Final) : Final :=
  mkFinal (fz_actor s) (fz_ledger s) (fz_shared s) completed winner bids (fz_queue s) (fz_passed s) (fz_job s) (fz_dead s) (fz_closed s) (fz_accepted s).
Definition cleared (s : Final) : Final :=
  mkFinal (fz_actor s)
    (mkLedger (processed (fz_ledger s)) [] [] (pending_stream (fz_ledger s)) (published (fz_ledger s)))
    None (fz_completed s) (fz_winner s) (fz_bids s) (fz_queue s) (fz_passed s) (fz_job s) (fz_dead s) (fz_closed s) (fz_accepted s).

(** The calls of one [close_auction]: the connection, the two reads (a failure is
    taken for an empty answer), the write, the message, the broadcast; and the
    readings of the start that follows when it panics. *)
Record CloseAnswers := mkClose {
  ca_pool : bool; ca_bids : bool; ca_state : bool; ca_write : bool; ca_publish : bool; ca_emit : bool;
  ca_restart : StartReads
}.

(** [SyncOther]: the worker, between two messages of this auction, commits a later one
    of another auction on the partition.  [SyncDies]: it starts again at what is
    committed. *)
Inductive final_event :=
| Arrive (o : RedisOutcome) (task : AuctionTask) (rd : StartReads) (c : CloseAnswers)
| Tick (c : CloseAnswers)
| Panics (rd : StartReads)
| Sweep (queried sent updated : bool)
| SyncTake
| SyncRead (served config : bool) (dlq committed : bool)
| SyncWrite (updated inserted cleaned : bool) (dlq committed : bool)
| SyncOther
| SyncDies.

Section Machine.
Context (read_time : string -> option Z).
(** The auction: its identifier, the end and the configuration of its rows, and
    the document of its own key with the instant at which that key expires. *)
Context (id : string) (end_time : Z) (auction_type : AuctionDirection) (reserve_price : option num).
Context (own : StateDoc) (until : Z).

(** The actor starts from Redis. *)
Definition load (now : Z) (rd : StartReads) (s : Final) : AuctionRuntime :=
  load_runtime read_time first_of now rd (if now <? until then Some own else None) (fz_shared s) (fz_ledger s).

(** A panic restarts the actor. *)
Definition panicked (now : Z) (rd : StartReads) (s : Final) : Final := with_actor (Some (load now rd s)) s.

(** [close_and_exit]: an error of the close is a panic. *)
Definition close (now : Z) (c : CloseAnswers) (rt : AuctionRuntime) (s : Final) : Final :=
  if negb (ca_pool c) then panicked now (ca_restart c) s
  else
    let '(w, doc) := close_auction first_of (ca_bids c) (ca_state c) rt (fz_ledger s) (fz_shared s) in
    if match doc with Some _ => negb (ca_write c) | None => false end then panicked now (ca_restart c) s
    else
      let s1 := with_close (match doc with Some _ => doc | None => fz_shared s end) (fz_queue s) (fz_closed s) s in
      if negb (ca_publish c) then panicked now (ca_restart c) s1
      else
        let s2 := with_close (fz_shared s1) (S (fz_queue s1)) (fz_closed s1) s1 in
        if negb (ca_emit c) then panicked now (ca_restart c) s2
        else with_actor None (with_close (fz_shared s2) (fz_queue s2) (fz_closed s2 ++ [w]) s2).

(** A task reaches the actor, which is started when there is none. *)
Definition arrive (now : Z) (o : RedisOutcome) (task : AuctionTask) (rd : StartReads) (c : CloseAnswers) (s : Final) : Final :=
  let rt := match fz_actor s with Some rt => rt | None => load now rd s end in
  if rt_end rt <=? now then close now c rt (with_actor (Some rt) s)
  else
    let a := (process_task id o task (mkActor rt (fz_ledger s))).1.1 in
    with_engine (Some (runtime a)) (ledger a)
      (fz_accepted s ++ drop (length (live_stream (fz_ledger s))) (live_stream (ledger a))) s.

(** An attempt has failed: the third failure sends the message to the dead letters
    and commits it, if that works; the worker goes on to the next one in any case. *)
Definition failed_attempt (dlq committed : bool) (n : nat) (s : Final) : Final :=
  if (3 <=? n)%nat then
    if dlq then move_on committed (S (fz_dead s)) s else move_on false (fz_dead s) s
  else with_job (fz_queue s) (Some (mkJob (S n) None)) (fz_dead s) s.

(** The writes of an attempt: the auction's row, the bids, the clearing of Redis
    (whose failure is ignored), the commit. *)
Definition write_rows (updated inserted cleaned dlq committed : bool) (n : nat) (ty : AuctionDirection) (reserve : option num)
    (l : list Decision) (s : Final) : Final :=
  let '(w, rows) := scan ty l in
  if negb updated then failed_attempt dlq committed n s
  else
    let s1 := with_rows true (match reserve_filter ty reserve w with Some u => Some u | None => fz_winner s end) (fz_bids s) s in
    if negb (bool_decide (rows = [])) && negb inserted then failed_attempt dlq committed n s1
    else
      let s2 := with_rows true (fz_winner s1) (insert_rows rows (fz_bids s1)) s1 in
      let s3 := if cleaned then cleared s2 else s2 in
      move_on committed (fz_dead s3) s3.

Definition final_step (now : Z) (e : final_event) (s : Final) : Final :=
  match e with
  | Arrive o task rd c => arrive now o task rd c s
  | Tick c =>
      match fz_actor s with
      | Some rt => if rt_end rt <=? now then close now c rt s else s
      | None => s
      end
  | Panics rd => match fz_actor s with Some _ => panicked now rd s | None => s end
  | Sweep queried sent updated =>
      if queried && (end_time <? now - 5000) && negb (fz_completed s) && sent then
        let s1 := with_job (S (fz_queue s)) (fz_job s) (fz_dead s) s in
        if updated then with_rows true (fz_winner s1) (fz_bids s1) s1 else s1
      else s
  | SyncTake =>
      match fz_job s, fz_queue s with
      | None, S _ => with_job (fz_queue s) (Some (mkJob 1 None)) (fz_dead s) s
      | _, _ => s
      end
  | SyncRead served config dlq committed =>
      match fz_job s with
      | Some (mkJob n None) =>
          if served then
            with_job (fz_queue s)
              (Some (mkJob n (Some (if config then (auction_type, reserve_price) else (REVERSE, None), zrange (zset (fz_ledger s))))))
              (fz_dead s) s
          else failed_attempt dlq committed n s
      | _ => s
      end
  | SyncWrite updated inserted cleaned dlq committed =>
      match fz_job s with
      | Some (mkJob n (Some (ty, reserve, l))) => write_rows updated inserted cleaned dlq committed n ty reserve l s
      | _ => s
      end
  | SyncOther => match fz_job s with None => with_topic (fz_queue s) 0 None (fz_dead s) s | Some _ => s end
  | SyncDies => with_topic (fz_queue s + fz_passed s) 0 None (fz_dead s) s
  end.

Definition final_run (es : list (Z * final_event)) (s : Final) : Final :=
  fold_left (fun s e => final_step e.1 e.2 s) es s.

(** Just opened. *)
Definition final0 : Final := mkFinal None ledger0 (Some own) false None ∅ 0 0 None 0 [] [].
End Machine.
End Sync.

(** ** Lemmas *)

(** What Redis promises of a sorted set: its members, in the order of their scores;
    ties are in an order of Redis' own. *)
Class SortedSet (zrange : list Decision -> list Decision) : Prop :=
  sorted_set : forall l, Permutation (zrange l) l /\
    (Forall (fun d => is_finite (d_amount d) = true) l ->
     StronglySorted (fun d d' => nle (d_amount d) (d_amount d') = true) (zrange l)).

Section SortedSets.
Context `{SortedSet zrange}.

Lemma zrange_nil : zrange [] = [].
Proof. apply Permutation_nil. symmetry. apply sorted_set. Qed.

Lemma zrange_elem d l : d ∈ zrange l <-> d ∈ l.
Proof. by rewrite (proj1 (sorted_set l)). Qed.

Lemma last_is_largest (l : list Decision) :
  StronglySorted (fun d d' => nle (d_amount d) (d_amount d') = true) l ->
  Forall (fun d => is_finite (d_amount d) = true) l ->
  match last l with
  | None => l = []
  | Some x => x ∈ l /\ forall d, d ∈ l -> nlt (d_amount x) (d_amount d) = false
  end.
Proof.
  induction 1 as [|d l Hs IH Hd]; [done|]. intros Hf. inversion Hf as [|? ? Fd Fl]; subst.
  destruct l as [|e l].
  - simpl. split; [by left|]. intros x ->%list_elem_of_singleton. num_order.
  - rewrite last_cons_cons. specialize (IH Fl). destruct (last (e :: l)) as [x|]; [|done].
    destruct IH as [Hx Hb]. split; [by right|]. intros y [->|Hy]%elem_of_cons; [|by apply Hb].
    rewrite Forall_forall in Hd, Fl. specialize (Hd x Hx). pose proof (Fl x Hx). simpl in *. num_order.
Qed.

(** The first member of either order is a best one. *)
#[export] Instance first_of_law : FirstMember (first_of zrange).
Proof.
  intros ty l Hf. destruct (sorted_set l) as [Hp Hs]. specialize (Hs Hf).
  assert (Hf' : Forall (fun d => is_finite (d_amount d) = true) (zrange l)) by (by rewrite Hp).
  assert (Hm : forall d, d ∈ zrange l <-> d ∈ l) by (intros d; by rewrite Hp).
  destruct ty; unfold first_of.
  - destruct (zrange l) as [|x m] eqn:E; simpl; [by apply Permutation_nil in Hp|].
    split; [apply Hm; by left|]. intros d Hd. apply Hm in Hd. inversion Hs as [|? ? _ Hx]; subst.
    inversion Hf' as [|? ? Fx Fm]; subst. apply elem_of_cons in Hd as [->|Hd]; [num_order|].
    rewrite Forall_forall in Hx, Fm. specialize (Hx d Hd). pose proof (Fm d Hd). simpl in *. num_order.
  - pose proof (last_is_largest _ Hs Hf') as L. destruct (last (zrange l)) as [x|] eqn:E.
    + destruct L as [Hx Hb]. split; [by apply Hm|]. intros d Hd. by apply Hb, Hm.
    + rewrite L in Hp. by apply Permutation_nil in Hp.
Qed.
End SortedSets.

(** *** The winner of the rows *)
Section Winner.
Context (uuid : string -> result string) (in_range : Z -> bool).

(** What the ingestion service lets through: canonical identifiers and a time. *)
Definition bid_ok (d : Decision) : Prop :=
  uuid (BidRequestPayload.bidder_id (d_bid d)) = Ok (BidRequestPayload.bidder_id (d_bid d)) /\
  in_range (BidRequestPayload.timestamp (d_bid d)) = true /\
  uuid (d_request d) = Ok (d_request d) /\
  d_executed d = true /\ is_finite (d_amount d) = true.

Definition d_bidder (d : Decision) : string := BidRequestPayload.bidder_id (d_bid d).
Definition row_of (d : Decision) : NewBid :=
  mkNewBid (d_request d) (d_amount d) (BidRequestPayload.timestamp (d_bid d)) (d_bidder d).

(** The winner so far as a decision. *)
Definition leader (ty : AuctionDirection) (w : option Decision) (d : Decision) : option Decision :=
  match w with
  | None => Some d
  | Some c => if better ty (d_amount d) (d_amount c) then Some d else w
  end.
Definition standing (d : Decision) : string * num := (d_bidder d, d_amount d).

Lemma scan_from ty l : forall w rows, Forall bid_ok l ->
  fold_left (scan_bid uuid in_range ty) l (standing <$> w, rows) =
  (standing <$> fold_left (leader ty) l w, rows ++ map row_of l).
Proof.
  induction l as [|d l IH]; intros w rows Hl; [by rewrite app_nil_r|].
  inversion Hl as [|? ? (B1 & B2 & B3 & B4 & _) Hl']; subst. cbn [fold_left map].
  assert (E : scan_bid uuid in_range ty (standing <$> w, rows) d = (standing <$> leader ty w d, rows ++ [row_of d])).
  { unfold scan_bid. rewrite B4. cbn [negb]. rewrite B1, B2, B3. cbn [negb].
    f_equal. destruct w as [c|]; [|done]. cbn [fmap option_fmap option_map leader standing].
    destruct ty; simpl; by destruct (nlt _ _). }
  rewrite E, IH by done. by rewrite <-app_assoc.
Qed.

Lemma scan_ok ty l : Forall bid_ok l ->
  scan uuid in_range ty l = (standing <$> fold_left (leader ty) l None, map row_of l).
Proof. intros Hl. apply (scan_from ty l None []). done. Qed.

(** The leader of a list is one of its best bids, the first of them. *)
Lemma leader_best ty l : forall c, is_finite (d_amount c) = true -> Forall (fun d => is_finite (d_amount d) = true) l ->
  exists d, fold_left (leader ty) l (Some c) = Some d /\ d ∈ c :: l /\
    forall d', d' ∈ c :: l -> better ty (d_amount d') (d_amount d) = false.
Proof.
  induction l as [|e l IH]; intros c Fc Fl.
  - exists c. split; [done|]. split; [by left|]. intros d' ->%list_elem_of_singleton. by apply better_irrefl.
  - inversion Fl as [|? ? Fe Fl']; subst. cbn [fold_left]. unfold leader at 2.
    destruct (better ty (d_amount e) (d_amount c)) eqn:Eb.
    + destruct (IH e Fe Fl') as (d & Ed & Hin & Hb). exists d. split; [done|]. split; [by right|].
      assert (Hfd : is_finite (d_amount d) = true).
      { apply elem_of_cons in Hin as [->|Hin]; [done|]. by eapply (proj1 (Forall_forall _ _) Fl'). }
      intros d' [->|Hd']%elem_of_cons; [|by apply Hb].
      apply (better_trans ty _ (d_amount e)); try done; [destruct ty; simpl in *; num_order|apply Hb; by left].
    + destruct (IH c Fc Fl') as (d & Ed & Hin & Hb). exists d. split; [done|].
      assert (Hfd : is_finite (d_amount d) = true).
      { apply elem_of_cons in Hin as [->|Hin]; [done|]. by eapply (proj1 (Forall_forall _ _) Fl'). }
      split; [apply elem_of_cons in Hin as [->|]; [by left|by right; right]|].
      intros d' [->|[->|Hd']%elem_of_cons]%elem_of_cons; [apply Hb; by left| |apply Hb; by right].
      apply (better_trans ty _ (d_amount c)); try done. apply Hb. by left.
Qed.

Lemma leader_none ty l : fold_left (leader ty) l None = None -> l = [].
Proof.
  destruct l as [|d l]; [done|]. cbn [fold_left leader]. intros E. exfalso.
  assert (H : forall m c, fold_left (leader ty) m (Some c) <> None).
  { induction m as [|e m IH]; intros c; [done|]. cbn [fold_left]. unfold leader at 2. destruct (better _ _ _); apply IH. }
  by apply (H l d).
Qed.

Lemma leader_stays ty l c : Forall (fun d => better ty (d_amount d) (d_amount c) = false) l ->
  fold_left (leader ty) l (Some c) = Some c.
Proof. induction 1 as [|d l Hd _ IH]; [done|]. cbn [fold_left]. unfold leader at 2. by rewrite Hd. Qed.
End Winner.

(** *** Inserting rows *)

Lemma insert_rows_keep rows : forall m k b, m !! k = Some b -> insert_rows rows m !! k = Some b.
Proof.
  induction rows as [|x rows IH]; intros m k b E; [done|]. cbn [insert_rows fold_left].
  apply IH. destruct (m !! nb_id x) eqn:Ex; [done|]. destruct (decide (nb_id x = k)) as [<-|]; [congruence|].
  by rewrite lookup_insert_ne.
Qed.

Lemma insert_rows_source rows : forall m k b, insert_rows rows m !! k = Some b ->
  m !! k = Some b \/ b ∈ rows /\ k = nb_id b.
Proof.
  induction rows as [|x rows IH]; intros m k b; [by left|]. cbn [insert_rows fold_left]. intros E.
  destruct (IH _ _ _ E) as [H|[H ->]]; [|right; split; [by right|done]].
  destruct (m !! nb_id x) eqn:Ex; [by left|]. destruct (decide (nb_id x = k)) as [<-|]; simplify_map_eq; [|by left].
  right. split; [by left|done].
Qed.

Lemma insert_rows_new rows : forall m b, b ∈ rows -> (forall b', b' ∈ rows -> nb_id b' = nb_id b -> b' = b) ->
  (forall b', m !! nb_id b = Some b' -> b' = b) -> insert_rows rows m !! nb_id b = Some b.
Proof.
  induction rows as [|x rows IH]; intros m b Hb Hu Hm; [by apply not_elem_of_nil in Hb|]. cbn [insert_rows fold_left].
  destruct (decide (nb_id x = nb_id b)) as [Hx|Hx].
  - assert (x = b) as -> by (apply Hu; [by left|done]). apply insert_rows_keep.
    destruct (m !! nb_id b) as [b'|] eqn:Eb; [by rewrite Eb, (Hm b')|by rewrite lookup_insert_eq].
  - apply IH.
    + by apply elem_of_cons in Hb as [->|].
    + intros b' Hb'. apply Hu. by right.
    + intros b'. destruct (m !! nb_id x); [apply Hm|]. rewrite lookup_insert_ne by done. apply Hm.
Qed.

(** *** The ledger under one task *)

Lemma task_ledger id o task a :
  let a' := (process_task id o task a).1.1 in
  rt_type (runtime a') = rt_type (runtime a) /\ rt_reserve (runtime a') = rt_reserve (runtime a) /\
  rt_end (runtime a') = rt_end (runtime a) /\
  ((live_stream (ledger a') = live_stream (ledger a) /\ zset (ledger a') = zset (ledger a) /\
    processed (ledger a') = processed (ledger a)) \/
   exists d, d = decision task true (rt_price (runtime a)) /\ is_finite (d_amount d) = true /\
     processed (ledger a) !! request_id task = None /\
     live_stream (ledger a') = live_stream (ledger a) ++ [d] /\ zset (ledger a') = zset (ledger a) ++ [d] /\
     processed (ledger a') = <[request_id task := d]> (processed (ledger a))).
Proof.
  intros a'. unfold a', process_task. destruct (negb _); [split; [done|]; split; [done|]; split; [done|]; by left|]. cbv zeta.
  destruct (is_better_bid _ _ _ _) eqn:E; unfold write_bid;
    destruct o, (processed (ledger a) !! request_id task) eqn:Ep;
    (split; [done|]; split; [done|]; split; [done|]); simpl; try (by left).
  all: right; eexists; split; [reflexivity|]; split; [apply (accepted_finite _ _ _ _ E)|done].
Qed.

Section Machine.
Context (uuid : string -> result string) (in_range : Z -> bool) `{Hz : SortedSet zrange}.
Context (read_time : string -> option Z) (id : string) (r : ScheduleRow) (row : AuctionRow) (c : ConfigRow) (until : Z).
(** The document is the one that the scheduler wrote. *)
Hypothesis Hrow : auction_ok row.
Hypothesis Hconfig : config_ok c.
Hypothesis Htimes : reads_times read_time row.

Let own := state_payload r row (Some c).
Let end_time := ar_auction_end_time row.
Let ty := cf_auction_type c.
Let reserve := cf_reserve_price c.
Let step := final_step uuid in_range zrange read_time id end_time ty reserve own until.
Let run := final_run uuid in_range zrange read_time id end_time ty reserve own until.

(** What the accepted bids come to: the row's winner, the one of an attempt that could
    not read the configuration, and the announced one. *)
Definition final_winner (l : list Decision) : option string :=
  reserve_filter ty reserve (scan uuid in_range ty (zrange l)).1.
Definition unread_winner (l : list Decision) : option string :=
  reserve_filter REVERSE None (scan uuid in_range REVERSE (zrange l)).1.
Definition announced (l : list Decision) : option Decision :=
  close_winner (first_of zrange) true ty reserve (mkLedger ∅ [] l [] []).

Definition stored (d : Decision) (bids : gmap string NewBid) : Prop := bids !! d_request d = Some (row_of d).

Definition actor_ok (rt : AuctionRuntime) : Prop :=
  rt_end rt = end_time /\ rt_type rt = ty /\ rt_reserve rt = reserve.

Definition task_ok (task : AuctionTask) : Prop :=
  uuid (BidRequestPayload.bidder_id (task_bid task)) = Ok (BidRequestPayload.bidder_id (task_bid task)) /\
  in_range (BidRequestPayload.timestamp (task_bid task)) = true /\ uuid (request_id task) = Ok (request_id task).

(** A start of the engine finds the document under the auction's own key. *)
Definition start_ok (now : Z) (rd : StartReads) : Prop := now < until /\ own_read rd = true.

(** The engine is not started after its document has expired or over a failed reading
    of it, and its tasks come from the ingestion service. *)
Definition event_ok (e : Z * final_event) : Prop :=
  match e.2 with
  | Arrive _ task rd ca => start_ok e.1 rd /\ start_ok e.1 (ca_restart ca) /\ task_ok task
  | Tick ca => start_ok e.1 (ca_restart ca)
  | Panics rd => start_ok e.1 rd
  | _ => True
  end.

(** The attempt could read the configuration. *)
Definition config_read (e : Z * final_event) : Prop :=
  match e.2 with SyncRead _ config _ _ => config = true | _ => True end.

Section Invariant.
(** Whether every attempt could read the configuration. *)
Context (strict : bool).

Definition named (w : option string) (l : list Decision) : Prop :=
  w = final_winner l \/ strict = false /\ w = unread_winner l.
Definition configured (jty : AuctionDirection) (jres : option num) : Prop :=
  jty = ty /\ jres = reserve \/ strict = false /\ jty = REVERSE /\ jres = None.

Record finished (s : Final) : Prop := {
  fd_completed : fz_completed s = true;
  fd_winner : named (fz_winner s) (fz_accepted s);
  fd_bids : forall d, d ∈ fz_accepted s -> stored d (fz_bids s)
}.

(** At the instant [t]. *)
Record final_inv (t : Z) (s : Final) : Prop := {
  fi_actor : match fz_actor s with Some rt => actor_ok rt | None => True end;
  fi_streams : zset (fz_ledger s) = live_stream (fz_ledger s);
  fi_ok : Forall (bid_ok uuid in_range) (fz_accepted s);
  fi_known : forall d, d ∈ fz_accepted s -> processed (fz_ledger s) !! d_request d = Some d;
  fi_calm : t < end_time -> fz_queue s = 0%nat /\ fz_passed s = 0%nat /\ fz_job s = None /\ fz_bids s = ∅ /\
    fz_winner s = None /\ fz_completed s = false /\ fz_closed s = [];
  fi_set : zset (fz_ledger s) = fz_accepted s \/ zset (fz_ledger s) = [] /\ finished s;
  fi_job : match fz_job s with
    | Some (mkJob _ (Some (jty, jres, l))) => configured jty jres /\
        (l = zrange (fz_accepted s) \/ l = [] /\ finished s)
    | _ => True
    end;
  fi_rows : forall k b, fz_bids s !! k = Some b -> exists d, d ∈ fz_accepted s /\ b = row_of d /\ k = d_request d;
  fi_winner : fz_winner s = None \/ named (fz_winner s) (fz_accepted s);
  fi_closed : forall w, w ∈ fz_closed s -> w = None \/ w = announced (fz_accepted s)
}.

Definition step_ok (e : Z * final_event) : Prop := event_ok e /\ (strict = true -> config_read e).

Lemma load_ok now rd s : start_ok now rd -> actor_ok (load zrange read_time own until now rd s).
Proof.
  intros [Hn Hrd]. unfold load. replace (now <? until) with true by (symmetry; lia).
  destruct (runtime_document (zfirst := first_of zrange) read_time now rd r row c (fz_ledger s) ltac:(by rewrite Hrd)
    Hrow Hconfig Htimes) as (T1 & _ & T3 & T4).
  assert (E : forall sh l, load_runtime read_time (first_of zrange) now rd (Some own) sh l =
    load_runtime read_time (first_of zrange) now rd (Some own) (Some own) l)
    by (intros sh l; unfold load_runtime, state_read; by rewrite Hrd).
  rewrite E. split; [exact T4|]. split; [exact T1|exact T3].
Qed.

(** Only the engine's fields and the documents changed. *)
Lemma inv_engine t s s' :
  final_inv t s ->
  match fz_actor s' with Some rt => actor_ok rt | None => True end ->
  fz_ledger s' = fz_ledger s -> fz_accepted s' = fz_accepted s -> fz_completed s' = fz_completed s ->
  fz_winner s' = fz_winner s -> fz_bids s' = fz_bids s ->
  (t < end_time -> fz_queue s' = 0%nat /\ fz_passed s' = 0%nat /\ fz_job s' = None /\ fz_closed s' = []) ->
  match fz_job s' with
  | Some (mkJob _ (Some _)) => fz_job s' = fz_job s
  | _ => True
  end ->
  (forall w, w ∈ fz_closed s' -> w ∈ fz_closed s \/ w = None \/ w = announced (fz_accepted s)) ->
  final_inv t s'.
Proof.
  intros [I1 I2 I3 I4 I5 I6 I7 I8 I9 I10] Ha El Eacc Ec Ew Eb Hc Hj Hcl.
  assert (Hfin : finished s -> finished s') by (intros [F1 F2 F3]; split; rewrite ?Ec, ?Ew, ?Eb, ?Eacc; done).
  split; rewrite ?El, ?Eacc, ?Ec, ?Ew, ?Eb; try done.
  - intros Ht. destruct (I5 Ht) as (_ & _ & _ & E3 & E4 & E5 & _), (Hc Ht) as (F1 & F2 & F3 & F4). done.
  - destruct I6 as [I6|[I6 I6']]; [by left|right; auto].
  - destruct (fz_job s') as [[n [[[jt jr] l]|]]|]; try done. rewrite <-Hj in I7.
    destruct I7 as (J1 & [J3|[J3 J3']]); auto 6.
  - intros w Hw. destruct (Hcl w Hw) as [?|?]; [by apply I10|done].
Qed.

Lemma inv_later t t' s : t <= t' -> final_inv t s -> final_inv t' s.
Proof. intros Hle [I1 I2 I3 I4 I5 I6 I7 I8 I9 I10]. split; try done. intros Ht. apply I5. lia. Qed.

Lemma inv_panicked t now rd s : start_ok now rd -> final_inv t s -> final_inv t (panicked zrange read_time own until now rd s).
Proof.
  intros Hn I. apply (inv_engine t s); try done; simpl.
  - by apply load_ok.
  - intros Ht. destruct (fi_calm _ _ I Ht) as (? & ? & ? & _ & _ & _ & ?). done.
  - by destruct (fz_job s) as [[n [x|]]|].
  - by left.
Qed.

(** What a close announces. *)
Lemma close_announces ca rt s : actor_ok rt ->
  (zset (fz_ledger s) = fz_accepted s \/ zset (fz_ledger s) = []) ->
  let w := (close_auction (first_of zrange) (ca_bids ca) (ca_state ca) rt (fz_ledger s) (fz_shared s)).1 in
  w = None \/ w = announced (fz_accepted s).
Proof.
  intros (_ & E1 & E2) Hs. simpl. rewrite E1, E2. destruct (ca_bids ca).
  - destruct Hs as [Hs|Hs]; unfold announced, close_winner; rewrite Hs; [by right|left].
    unfold first_of. rewrite zrange_nil. by destruct ty, reserve.
  - left. unfold close_winner. by destruct ty, reserve.
Qed.

Lemma inv_close now ca rt s : end_time <= now -> start_ok now (ca_restart ca) -> actor_ok rt -> final_inv now s ->
  final_inv now (close zrange read_time own until now ca rt s).
Proof.
  intros He Hn Hrt I. unfold close. destruct (negb (ca_pool ca)); [by apply inv_panicked|].
  pose proof (close_announces ca rt s Hrt
    ltac:(destruct (fi_set _ _ I) as [?|[? _]]; auto)) as Hw.
  destruct (close_auction _ _ _ _ _ _) as [w doc]. simpl in Hw.
  destruct (match doc with Some _ => _ | None => false end); [by apply inv_panicked|].
  set (s1 := with_close _ (fz_queue s) _ s).
  assert (I1 : final_inv now s1).
  { apply (inv_engine now s); try done; simpl; [apply I|lia| |by left].
    by destruct (fz_job s) as [[n [x|]]|]. }
  destruct (negb (ca_publish ca)); [by apply inv_panicked|].
  set (s2 := with_close (fz_shared s1) _ _ s1).
  assert (I2 : final_inv now s2).
  { apply (inv_engine now s1); try done; simpl; [apply I|lia| |by left].
    by destruct (fz_job s) as [[n [x|]]|]. }
  destruct (negb (ca_emit ca)); [by apply inv_panicked|].
  apply (inv_engine now s2); try done; simpl; [lia|by destruct (fz_job s) as [[n [x|]]|]|].
  intros w'. rewrite elem_of_app. intros [?| ->%list_elem_of_singleton]; [by left|by right].
Qed.

Lemma bid_ok_task task p : task_ok task -> is_finite (d_amount (decision task true p)) = true ->
  bid_ok uuid in_range (decision task true p).
Proof. intros (T1 & T2 & T3) F. done. Qed.

Lemma inv_arrive t now o task rd ca s : t <= now -> start_ok now rd -> start_ok now (ca_restart ca) -> task_ok task ->
  final_inv t s -> final_inv now (arrive zrange read_time id own until now o task rd ca s).
Proof.
  intros Hle Hn Hn' Ht I. unfold arrive. set (rt := match fz_actor s with Some rt => rt | None => _ end).
  assert (Hrt : actor_ok rt).
  { unfold rt. pose proof (fi_actor _ _ I) as A. destruct (fz_actor s); [done|by apply load_ok]. }
  assert (Hend : rt_end rt = end_time) by apply Hrt.
  destruct (rt_end rt <=? now) eqn:E; bool_facts.
  - apply inv_close; [lia|done|done|]. apply (inv_engine now s); try done; simpl; [by apply (inv_later t)|lia|by destruct (fz_job s) as [[n [x|]]|]|by left].
  - pose proof (fi_calm _ _ I ltac:(lia)) as (C1 & C0 & C2 & C3 & C4 & C5 & C6).
    assert (Hset : zset (fz_ledger s) = fz_accepted s).
    { destruct (fi_set _ _ I) as [?|[_ [F _ _]]]; [done|congruence]. }
    pose proof (task_ledger id o task (mkActor rt (fz_ledger s))) as L. cbn zeta in L.
    destruct (process_task id o task (mkActor rt (fz_ledger s))) as [[a' res] wk]. cbn [fst] in L |- *.
    destruct L as (L1 & L2 & L3 & L4). cbn [runtime ledger] in *.
    assert (Ha' : actor_ok (runtime a')) by (destruct Hrt as (R1 & R2 & R3); repeat split; congruence).
    assert (Hst := fi_streams _ _ I).
    split; cbn [fz_actor fz_ledger fz_accepted fz_queue fz_passed fz_job fz_bids fz_winner fz_completed fz_closed with_engine].
    + done.
    + destruct L4 as [(E1 & E2 & _)|(d & _ & _ & _ & E1 & E2 & _)]; rewrite E1, E2; [done|by rewrite Hst].
    + apply Forall_app. split; [apply I|]. destruct L4 as [(E1 & _)|(d & -> & F & _ & E1 & _)]; rewrite E1.
      * by rewrite drop_all.
      * rewrite drop_app_length. apply Forall_singleton. by apply bid_ok_task.
    + intros d Hd. apply elem_of_app in Hd. destruct L4 as [(E1 & _ & E3)|(d' & -> & _ & N & E1 & _ & E3)]; rewrite E3; rewrite E1 in Hd.
      * rewrite drop_all in Hd. destruct Hd as [Hd|Hd]; [by apply (fi_known _ _ I)|by apply not_elem_of_nil in Hd].
      * rewrite drop_app_length in Hd. destruct Hd as [Hd| ->%list_elem_of_singleton]; [|by simplify_map_eq].
        pose proof (fi_known _ _ I d Hd) as K. rewrite lookup_insert_ne; [done|]. intros Eq. congruence.
    + done.
    + left. destruct L4 as [(E1 & E2 & _)|(d & _ & _ & _ & E1 & E2 & _)]; rewrite E2, E1.
      * by rewrite drop_all, app_nil_r.
      * by rewrite drop_app_length, Hset.
    + by rewrite C2.
    + rewrite C3. intros k b Hk. by simplify_map_eq.
    + by left.
    + rewrite C6. intros w Hw. by apply not_elem_of_nil in Hw.
Qed.

(** *** The steps of the worker *)

Lemma inv_topic now s q n j dead : end_time <= now -> final_inv now s ->
  match j with Some (mkJob _ (Some _)) => j = fz_job s | _ => True end ->
  final_inv now (with_topic q n j dead s).
Proof. intros He I Hj. apply (inv_engine now s); try done; simpl; [apply I|lia|by left]. Qed.

Lemma inv_failed now dlq committed n s : end_time <= now -> final_inv now s ->
  final_inv now (failed_attempt dlq committed n s).
Proof. intros He I. unfold failed_attempt. destruct (3 <=? n)%nat; [destruct dlq|]; by apply inv_topic. Qed.

Lemma scan_accepted s : Forall (bid_ok uuid in_range) (fz_accepted s) ->
  Forall (bid_ok uuid in_range) (zrange (fz_accepted s)).
Proof. intros H. by rewrite (proj1 (sorted_set (fz_accepted s))). Qed.

(** Up to the insertion of the bids; it may be the last thing that works. *)
Lemma inv_updated now jty jres l s bids : end_time <= now -> final_inv now s -> configured jty jres ->
  (l = zrange (fz_accepted s) \/ l = [] /\ finished s) ->
  (bids = fz_bids s \/ bids = insert_rows (scan uuid in_range jty l).2 (fz_bids s)) ->
  let w := match reserve_filter jty jres (scan uuid in_range jty l).1 with Some u => Some u | None => fz_winner s end in
  final_inv now (with_rows true w bids s) /\
  (bids = insert_rows (scan uuid in_range jty l).2 (fz_bids s) -> finished (with_rows true w bids s)).
Proof.
  intros He I Hj Hl Hb w.
  assert (Hw : named w (fz_accepted s)).
  { unfold w. destruct Hl as [->|[-> F]]; [|apply F].
    assert (Hn : named (reserve_filter jty jres (scan uuid in_range jty (zrange (fz_accepted s))).1) (fz_accepted s))
      by (destruct Hj as [[-> ->]|(Hs & -> & ->)]; [by left|by right]).
    destruct (reserve_filter jty jres _); [done|]. by destruct (fi_winner _ _ I) as [->|?]. }
  assert (Hscan : (scan uuid in_range jty (zrange (fz_accepted s))).2 = map row_of (zrange (fz_accepted s)))
    by (by rewrite scan_ok by (apply scan_accepted, I)).
  assert (Hsrc : forall k b, bids !! k = Some b -> exists d, d ∈ fz_accepted s /\ b = row_of d /\ k = d_request d).
  { intros k b Hk. destruct Hb as [->| ->]; [by apply (fi_rows _ _ I)|].
    apply insert_rows_source in Hk as [Hk|[Hk ->]]; [by apply (fi_rows _ _ I)|].
    destruct Hl as [->|[-> _]]; [|by apply not_elem_of_nil in Hk].
    rewrite Hscan in Hk. apply list_elem_of_In, in_map_iff in Hk as (d & <- & Hd).
    exists d. split; [by apply zrange_elem, list_elem_of_In|done]. }
  assert (Hfin : bids = insert_rows (scan uuid in_range jty l).2 (fz_bids s) \/ finished s -> finished (with_rows true w bids s)).
  { intros Hcase. split; [done|done|]. simpl. intros d Hd. unfold stored.
    assert (Hold : finished s -> bids !! d_request d = Some (row_of d)).
    { intros [_ _ F]. destruct Hb as [->| ->]; [by apply F|]. by apply insert_rows_keep, F. }
    destruct Hcase as [Ebids|F]; [|by apply Hold].
    destruct Hl as [->|[-> F]]; [|by apply Hold]. rewrite Ebids, Hscan. change (d_request d) with (nb_id (row_of d)).
    apply insert_rows_new.
    - apply list_elem_of_In, in_map, list_elem_of_In. by apply zrange_elem.
    - intros b' Hb' E. apply list_elem_of_In, in_map_iff in Hb' as (d' & <- & Hd').
      apply list_elem_of_In in Hd'. rewrite zrange_elem in Hd'. simpl in E.
      pose proof (fi_known _ _ I d Hd) as K. pose proof (fi_known _ _ I d' Hd') as K'. congruence.
    - intros b' Eb. destruct (fi_rows _ _ I _ _ Eb) as (d' & Hd' & -> & E). simpl in E.
      pose proof (fi_known _ _ I d Hd) as K. pose proof (fi_known _ _ I d' Hd') as K'. congruence. }
  split; [|by intros ->; apply Hfin; left].
  split; simpl; try apply I; try done; try lia.
  - destruct (fi_set _ _ I) as [?|[? F]]; [by left|right]. split; [done|]. by apply Hfin; right.
  - pose proof (fi_job _ _ I) as J. destruct (fz_job s) as [[n [[[jt jr] m]|]]|]; try done.
    destruct J as (J1 & [J3|[J3 F]]); [by auto|]. split; [done|]. right. split; [done|].
    by apply Hfin; right.
  - by right.
Qed.

Lemma inv_cleared now s : end_time <= now -> finished s -> final_inv now s -> final_inv now (cleared s).
Proof.
  intros He F I. assert (F' : finished (cleared s)) by (destruct F; by split).
  split; simpl; try apply I; try done; try lia.
  - by right.
  - pose proof (fi_job _ _ I) as J. destruct (fz_job s) as [[n [[[jt jr] m]|]]|]; try done.
    destruct J as (J1 & [J3|[J3 _]]); auto.
Qed.

Lemma inv_write now updated inserted cleaned dlq committed n jty jres l s : end_time <= now -> final_inv now s ->
  configured jty jres -> (l = zrange (fz_accepted s) \/ l = [] /\ finished s) ->
  final_inv now (write_rows uuid in_range updated inserted cleaned dlq committed n jty jres l s).
Proof.
  intros He I Hj Hl. unfold write_rows.
  pose proof (inv_updated now jty jres l s (fz_bids s) He I Hj Hl (or_introl eq_refl)) as (I1 & _).
  pose proof (inv_updated now jty jres l s _ He I Hj Hl (or_intror eq_refl)) as (I2 & F2). specialize (F2 eq_refl).
  destruct (scan uuid in_range jty l) as [w rows]. cbn [fst snd] in *.
  destruct (negb updated); [by apply inv_failed|]. destruct (_ && negb inserted); [by apply inv_failed|].
  apply inv_topic; [done| |done].
  destruct cleaned; [by apply inv_cleared|done].
Qed.

Lemma final_inv_step t now e s : t <= now -> step_ok (now, e) -> final_inv t s -> final_inv now (step now e s).
Proof.
  intros Hle [He Hcr] I. pose proof (inv_later t now s Hle I) as Il.
  assert (Hpast : fz_queue s <> 0%nat \/ fz_job s <> None -> end_time <= now).
  { intros H. destruct (Z_lt_ge_dec now end_time) as [Hlt|]; [|lia].
    destruct (fi_calm _ _ Il Hlt) as (E1 & _ & E2 & _). by destruct H as [H|H]. }
  unfold event_ok, config_read in He, Hcr.
  destruct e as [o task rd ca|ca|rd|q sent upd| |served cfg dlq cm|upd ins cl dlq cm| |]; cbn [fst snd] in He, Hcr; simpl.
  - destruct He as (Hn & Hn' & Ht). by apply (inv_arrive t).
  - pose proof (fi_actor _ _ Il) as A. destruct (fz_actor s) as [rt|]; [|done]. destruct (rt_end rt <=? now) eqn:E; [|done].
    bool_facts. destruct A as (A1 & A2 & A3). apply inv_close; [lia|done|done|done].
  - destruct (fz_actor s); [|done]. by apply inv_panicked.
  - destruct (q && _ && _ && sent) eqn:E; [|done]. bool_facts.
    assert (I1 : final_inv now (with_job (S (fz_queue s)) (fz_job s) (fz_dead s) s)).
    { apply inv_topic; [lia|done|]. by destruct (fz_job s) as [[n [x|]]|]. }
    destruct upd; [|done]. clear Il. set (s1 := with_job _ _ _ s) in *.
    assert (Hfin : finished s1 -> finished (with_rows true (fz_winner s1) (fz_bids s1) s1)) by (intros [F1 F2 F3]; by split).
    split; simpl; try apply I1; try lia.
    + destruct (fi_set _ _ I1) as [?|[? F]]; [by left|right; auto].
    + pose proof (fi_job _ _ I1) as J. simpl in J. destruct (fz_job s) as [[n [[[jt jr] m]|]]|]; try done.
      destruct J as (J1 & [J3|[J3 F]]); auto 6.
  - destruct (fz_job s) eqn:Ej; [done|]. destruct (fz_queue s) eqn:Eq; [done|]. apply inv_topic; [|done|done].
    apply Hpast. by left.
  - destruct (fz_job s) as [[n [x|]]|] eqn:Ej; [done| |done].
    assert (Hp : end_time <= now) by (apply Hpast; by right). destruct served; [|by apply inv_failed].
    assert (Hfin : forall j, finished s -> finished (with_job (fz_queue s) j (fz_dead s) s)) by (intros j [F1 F2 F3]; by split).
    split; cbn [fz_actor fz_ledger fz_accepted fz_queue fz_passed fz_job fz_bids fz_winner fz_completed fz_closed with_job with_topic];
      try apply Il; try lia.
    + destruct (fi_set _ _ Il) as [?|[? F]]; [by left|right; auto].
    + assert (Hl : zrange (zset (fz_ledger s)) = zrange (fz_accepted s) \/ zrange (zset (fz_ledger s)) = [] /\ finished s)
        by (destruct (fi_set _ _ Il) as [->|[-> F]]; [by left|right; split; [apply zrange_nil|done]]).
      destruct cfg; (split; [|destruct Hl as [?|[? ?]]; auto]); [by left|].
      right. destruct strict; [by specialize (Hcr eq_refl)|done].
  - pose proof (fi_job _ _ I) as J. destruct (fz_job s) as [[n [[[jt jr] l]|]]|] eqn:Ej; try done.
    destruct J as (Jc & J). apply inv_write; [apply Hpast; by right|done|done|done].
  - destruct (fz_job s) eqn:Ej; [done|]. apply (inv_engine now s); try done; simpl; [apply Il| |by left].
    intros Hlt. destruct (fi_calm _ _ Il Hlt) as (? & ? & ? & _ & _ & _ & ?). done.
  - apply (inv_engine now s); try done; simpl; [apply Il| |by left].
    intros Hlt. destruct (fi_calm _ _ Il Hlt) as (-> & -> & _ & _ & _ & _ & ?). done.
Qed.

Lemma final_inv0 t : final_inv t (final0 own).
Proof.
  split; simpl; try done.
  - intros d Hd. by apply not_elem_of_nil in Hd.
  - by left.
  - by left.
  - intros w Hw. by apply not_elem_of_nil in Hw.
Qed.

(** The times of the events do not run backwards. *)
Definition in_time (es : list (Z * final_event)) : Prop := StronglySorted (fun a b => a.1 <= b.1) es.

Lemma final_inv_run es : forall t s, in_time es -> Forall (fun e => t <= e.1) es -> Forall step_ok es -> final_inv t s ->
  exists t', (es = [] /\ t' = t \/ exists e, last es = Some e /\ t' = e.1) /\ final_inv t' (run es s).
Proof.
  induction es as [|[now e] es IH]; intros t s Hs Ht Ho I; [exists t; split; [by left|done]|].
  inversion Hs as [|? ? Hs' Hall]; subst. inversion Ht as [|? ? Ht1 _]; subst. inversion Ho as [|? ? Ho1 Ho']; subst.
  destruct (IH now (step now e s) Hs' Hall Ho' (final_inv_step t now e s Ht1 Ho1 I)) as (t' & Hl & I').
  exists t'. split; [|exact I']. right. destruct es as [|e' es'].
  - destruct Hl as [[_ ->]|(? & [=] & _)]. exists (now, e). done.
  - destruct Hl as [[[=] _]|(x & Hx & ->)]. exists x. by rewrite last_cons_cons.
Qed.

Lemma final_reached es now : in_time es -> Forall event_ok es -> (strict = true -> Forall config_read es) ->
  Forall (fun e => e.1 <= now) es -> final_inv now (run es (final0 own)).
Proof.
  intros Hs Ho Hc Hn.
  destruct es as [|e es]; [apply final_inv0|].
  assert (Hok : Forall step_ok (e :: es)).
  { apply Forall_forall. intros x Hx. rewrite Forall_forall in Ho. split; [by apply Ho|].
    intros E. by apply (proj1 (Forall_forall _ _) (Hc E)). }
  assert (Hfrom : Forall (fun x => e.1 <= x.1) (e :: es)) by (constructor; [lia|by inversion Hs]).
  destruct (final_inv_run (e :: es) e.1 (final0 own) Hs Hfrom Hok (final_inv0 _)) as (t & [[? _]|(x & Hx & ->)] & I); [done|].
  apply (inv_later x.1); [|done]. rewrite Forall_forall in Hn. apply (Hn x). by apply last_Some_elem_of.
Qed.
End Invariant.

Lemma last_instant es : in_time es -> exists now, Forall (fun e => e.1 <= now) es.
Proof.
  induction 1 as [|e es _ [now IH] He]; [by exists 0|]. exists (Z.max e.1 now).
  constructor; [lia|]. eapply Forall_impl; [exact IH|]. simpl. lia.
Qed.

Lemma named_strict w l : named true w l -> w = final_winner l.
Proof. by intros [?|[? _]]. Qed.

(** *** What the two winners are *)

Definition best (l : list Decision) (d : Decision) : Prop :=
  d ∈ l /\ forall d', d' ∈ l -> better ty (d_amount d') (d_amount d) = false.

Definition meets_reserve (d : Decision) : Prop :=
  ty = FORWARD -> forall x, reserve = Some x -> nle x (d_amount d) = true.

Lemma final_winner_best l : Forall (bid_ok uuid in_range) l ->
  match final_winner l with
  | Some u => exists d, best l d /\ d_bidder d = u /\ meets_reserve d /\ (ty = REVERSE -> head (zrange l) = Some d)
  | None => l = [] \/ ty = FORWARD /\ exists x, reserve = Some x /\ forall d, d ∈ l -> nle x (d_amount d) = false
  end.
Proof.
  intros Hok. assert (Hok' : Forall (bid_ok uuid in_range) (zrange l)) by (by rewrite (proj1 (sorted_set l))).
  assert (Hf : Forall (fun d => is_finite (d_amount d) = true) l)
    by (eapply Forall_impl; [exact Hok|by intros d (_ & _ & _ & _ & F)]).
  unfold final_winner. rewrite scan_ok by done. cbn [fst].
  pose proof (proj2 (sorted_set l) Hf) as Hsort.
  assert (Hf' : Forall (fun d => is_finite (d_amount d) = true) (zrange l)) by (by rewrite (proj1 (sorted_set l))).
  assert (Hm : forall d, d ∈ zrange l <-> d ∈ l) by (intros d; apply zrange_elem).
  assert (Hnil : zrange l = [] -> l = []) by (intros E; pose proof (proj1 (sorted_set l)) as P; rewrite E in P; by apply Permutation_nil in P).
  destruct (zrange l) as [|x m] eqn:Ez; [left; by apply Hnil|]. cbn [fold_left leader].
  inversion Hf' as [|? ? Fx Fm]; subst. destruct (leader_best ty m x Fx Fm) as (d & Ed & Hin & Hb).
  rewrite Ed. cbn [fmap option_fmap option_map standing reserve_filter].
  assert (Hbest : best l d) by (split; [by apply Hm|intros d' Hd'; by apply Hb, Hm]).
  assert (Fd : is_finite (d_amount d) = true).
  { apply elem_of_cons in Hin as [->|Hin]; [done|]. by apply (proj1 (Forall_forall _ _) Fm). }
  destruct (_ || _) eqn:Er.
  - exists d. split; [done|]. split; [done|]. split.
    + intros Ety y Ey. rewrite Ety, Ey in Er. exact Er.
    + intros Ety. simpl. rewrite Ety in Ed. rewrite leader_stays in Ed; [done|].
      inversion Hsort as [|? ? _ Hall]; subst. rewrite Forall_forall in Hall, Fm |- *. intros e He.
      specialize (Hall e He). specialize (Fm e He). simpl in *. num_order.
  - apply orb_false_iff in Er as [Ety Er]. apply bool_decide_eq_false in Ety. right.
    assert (Et : ty = FORWARD) by (by destruct ty). split; [done|].
    destruct Hconfig as (_ & _ & _ & Hres). fold reserve in Hres. destruct reserve as [y|]; [|done].
    apply andb_true_iff in Hres as [Fy _]. exists y. split; [done|]. intros e He. apply Hm in He. specialize (Hb e He). rewrite Et in Hb. simpl in Hb.
    assert (Fe : is_finite (d_amount e) = true).
    { apply elem_of_cons in He as [->|He]; [done|]. by apply (proj1 (Forall_forall _ _) Fm). }
    num_order.
Qed.

Lemma announced_best l d : Forall (bid_ok uuid in_range) l -> announced l = Some d ->
  best l d /\ (ty = REVERSE -> head (zrange l) = Some d).
Proof.
  intros Hok. assert (Hf : Forall (fun d => is_finite (d_amount d) = true) l)
    by (eapply Forall_impl; [exact Hok|by intros x (_ & _ & _ & _ & F)]).
  pose proof (first_of_law ty l Hf) as L. unfold announced, close_winner. cbn [zset].
  destruct (first_of zrange ty l) as [x|] eqn:E; [|by destruct ty, reserve].
  intros E'. assert (x = d) as ->.
  { destruct ty; [congruence|]. destruct reserve as [y|]; [|congruence]. destruct (nlt _ y); congruence. }
  split; [exact L|]. intros Ety. rewrite Ety in E. exact E.
Qed.

(** *** Properties *)

(** C3: no accepted bid is lost.  Of an engine that is started only before its
    auction's own key expires and over a reading of that key that works, with tasks
    from the ingestion service: whatever the order of bids, closes, panics, sweeps,
    attempts, commits and restarts of the worker, and whichever other calls fail,
    every accepted bid is in the auction's sorted set or has its row, every row is an
    accepted bid's, and the sorted set is only cleared after all rows and a winner
    are stored: the winner that the configuration names, or, when an attempt could
    not read it, the one of a reverse auction without reserve. *)
Theorem accepted_bids_survive es :
  in_time es -> Forall event_ok es ->
  let s := run es (final0 own) in
  (forall d, d ∈ fz_accepted s -> d ∈ zset (fz_ledger s) \/ stored d (fz_bids s)) /\
  (forall k b, fz_bids s !! k = Some b -> exists d, d ∈ fz_accepted s /\ b = row_of d /\ k = d_request d) /\
  (zset (fz_ledger s) = fz_accepted s \/
   zset (fz_ledger s) = [] /\ fz_completed s = true /\ (forall d, d ∈ fz_accepted s -> stored d (fz_bids s)) /\
   (fz_winner s = final_winner (fz_accepted s) \/ fz_winner s = unread_winner (fz_accepted s))) /\
  (Forall config_read es -> zset (fz_ledger s) = fz_accepted s \/ fz_winner s = final_winner (fz_accepted s)).
Proof.
  intros Hs Ho s. destruct (last_instant es Hs) as [now Hn].
  pose proof (final_reached false es now Hs Ho ltac:(done) Hn) as I. fold s in I.
  split; [|split; [apply I|split]].
  - intros d Hd. destruct (fi_set _ _ _ I) as [->|[_ [_ _ F]]]; [by left|right; by apply F].
  - destruct (fi_set _ _ _ I) as [?|[? [F1 [F2|[_ F2]] F3]]]; [by left|right; auto|right; auto].
  - intros Hc. pose proof (final_reached true es now Hs Ho (fun _ => Hc) Hn) as I'. fold s in I'.
    destruct (fi_set _ _ _ I') as [?|[_ [_ F%named_strict _]]]; [by left|by right].
Qed.

(** C11: the row's winner is the announced one.  Of an engine that is started only
    before its auction's own key expires and over a reading of that key that works,
    with tasks from the ingestion service and attempts that all could read the
    configuration: when the database names a winner and a page was told one, both
    bids are best ones and the reserve is met; they are one bid in a reverse auction,
    and in a forward auction whose accepted amounts differ. *)
Theorem stored_winner_is_announced es u d :
  in_time es -> Forall event_ok es -> Forall config_read es ->
  let s := run es (final0 own) in
  fz_winner s = Some u -> Some d ∈ fz_closed s ->
  exists d', best (fz_accepted s) d' /\ d_bidder d' = u /\ meets_reserve d' /\ best (fz_accepted s) d /\
    neq (d_amount d) (d_amount d') = true /\
    (ty = REVERSE \/ (forall x y, x ∈ fz_accepted s -> y ∈ fz_accepted s ->
                        neq (d_amount x) (d_amount y) = true -> x = y) -> d' = d).
Proof.
  intros Hs Ho Hc s Hw Hd. destruct (last_instant es Hs) as [now Hn]. pose proof (final_reached true es now Hs Ho (fun _ => Hc) Hn) as I. fold s in I.
  pose proof (fi_ok _ _ _ I) as Hok.
  destruct (fi_winner _ _ _ I) as [E|E%named_strict]; [congruence|]. rewrite Hw in E. symmetry in E.
  pose proof (final_winner_best _ Hok) as B. rewrite E in B. destruct B as (d' & Bd' & Hu & Hr & Hh').
  destruct (fi_closed _ _ _ I _ Hd) as [?|Ea]; [done|]. symmetry in Ea.
  destruct (announced_best _ _ Hok Ea) as [Bd Hh]. exists d'.
  assert (F : forall x, x ∈ fz_accepted s -> is_finite (d_amount x) = true)
    by (intros x Hx; rewrite Forall_forall in Hok; by destruct (Hok x Hx) as (_ & _ & _ & _ & Fx)).
  assert (Hne : neq (d_amount d) (d_amount d') = true).
  { destruct Bd as [H1 H2], Bd' as [H3 H4]. apply (better_neq ty); auto. }
  split; [done|]. split; [done|]. split; [done|]. split; [done|]. split; [done|].
  intros [Ety|Hdis]; [specialize (Hh Ety); specialize (Hh' Ety); congruence|].
  symmetry. apply Hdis; [apply Bd|apply Bd'|done].
Qed.

(** *** A finalization that goes through *)

(** One attempt of the worker that is not its last. *)
Inductive attempt := Unread (dlq committed : bool) | Tried (updated inserted cleaned dlq committed : bool).
Definition attempt_events (a : attempt) : list final_event :=
  match a with
  | Unread dlq cm => [SyncRead false true dlq cm]
  | Tried u i k dlq cm => [SyncRead true true dlq cm; SyncWrite u i k dlq cm]
  end.

Definition at_instant (now : Z) (es : list final_event) : list (Z * final_event) := map (fun e => (now, e)) es.

(** Done: the rows are there and the worker has nothing in hand. *)
Definition at_rest (s : Final) : Prop := finished true s /\ fz_job s = None.

Lemma rest_stays now a s : at_rest s -> run (at_instant now (attempt_events a)) s = s.
Proof.
  intros [_ J]. unfold run, final_run, at_instant. destruct a; cbn [map attempt_events fold_left fst snd final_step]; by rewrite !J.
Qed.

Lemma finished_topic strict q n j dead s : finished strict s -> finished strict (with_topic q n j dead s).
Proof. intros [F1 F2 F3]. by split. Qed.

Lemma finished_cleared strict s : finished strict s -> finished strict (cleared s).
Proof. intros [F1 F2 F3]. by split. Qed.

Lemma config_served : configured true ty reserve.
Proof. by left. Qed.

Lemma attempt_read now n dlq cm s : end_time <= now -> final_inv true now s -> fz_job s = Some (mkJob n None) ->
  let l := zrange (zset (fz_ledger s)) in
  let s1 := step now (SyncRead true true dlq cm) s in
  fz_job s1 = Some (mkJob n (Some (ty, reserve, l))) /\ final_inv true now s1 /\
  finished true (with_rows true
    match reserve_filter ty reserve (scan uuid in_range ty l).1 with Some u => Some u | None => fz_winner s1 end
    (insert_rows (scan uuid in_range ty l).2 (fz_bids s1)) s1).
Proof.
  intros He I Hj l s1.
  assert (I1 : final_inv true now s1) by (by apply (final_inv_step true now); [lia|done|]).
  assert (J : fz_job s1 = Some (mkJob n (Some (ty, reserve, l)))) by (unfold s1, step; simpl; by rewrite Hj).
  split; [done|]. split; [done|]. pose proof (fi_job _ _ _ I1) as Hl. rewrite J in Hl. destruct Hl as (_ & Hl).
  destruct (inv_updated true now ty reserve l s1 _ He I1 config_served Hl (or_intror eq_refl)) as (_ & F). by apply F.
Qed.

(** A served attempt ends at rest whatever becomes of its commit. *)
Definition served (a : attempt) : Prop := exists k dlq cm, a = Tried true true k dlq cm.

Lemma run_attempt now a n s : end_time <= now -> final_inv true now s -> fz_job s = Some (mkJob n None) ->
  let s' := run (at_instant now (attempt_events a)) s in
  final_inv true now s' /\ ((n < 3)%nat -> fz_job s' = Some (mkJob (S n) None) \/ at_rest s') /\
  (served a -> at_rest s').
Proof.
  intros He I Hj s'.
  split.
  { unfold s', run, final_run, at_instant. destruct a; cbn [map attempt_events fold_left fst snd];
      repeat (apply (final_inv_step true now); [lia|done|]); done. }
  assert (Hfail : forall dlq cm x, (n < 3)%nat -> fz_job (failed_attempt dlq cm n x) = Some (mkJob (S n) None)).
  { intros dlq cm x Hn. unfold failed_attempt. by rewrite (proj2 (Nat.leb_gt 3 n)) by lia. }
  unfold s', run, final_run, at_instant. destruct a as [dlq cm|u i k dlq cm]; cbn [map attempt_events fold_left fst snd].
  - split; [|by intros (k & d & c0 & ?)]. intros Hn. left. cbn [final_step]. rewrite Hj. by apply Hfail.
  - destruct (attempt_read now n dlq cm s He I Hj) as (J & _ & F). fold (step now (SyncRead true true dlq cm) s).
    set (s1 := step now (SyncRead true true dlq cm) s) in *. set (l := zrange _) in *.
    cbn [final_step]. rewrite J. unfold write_rows. destruct (scan uuid in_range ty l) as [w rows]. cbn [fst snd] in F.
    set (s2 := with_rows true _ (insert_rows rows _) s1) in F.
    assert (Hrest : forall dead, at_rest (move_on cm dead (if k then cleared s2 else s2))).
    { intros dead. split; [|done]. apply finished_topic. destruct k; [by apply finished_cleared|done]. }
    split.
    + intros Hn. destruct (negb u); [left; by apply Hfail|]. destruct (_ && negb i); [left; by apply Hfail|]. right. apply (Hrest _).
    + intros (k' & d & c0 & [= -> -> -> -> ->]). cbn [negb]. rewrite andb_false_r. apply (Hrest _).
Qed.

Lemma final_run_app es es' s : run (es ++ es') s = run es' (run es s).
Proof. apply fold_left_app. Qed.

Lemma rest_through now fs s : at_rest s -> run (at_instant now (flat_map attempt_events fs)) s = s.
Proof.
  intros R. induction fs as [|a fs IH]; [done|]. cbn [flat_map]. unfold at_instant. rewrite map_app, final_run_app.
  change (map (fun e => (now, e)) (attempt_events a)) with (at_instant now (attempt_events a)). by rewrite rest_stays.
Qed.

Lemma run_attempts now fs : forall n s, end_time <= now -> final_inv true now s -> fz_job s = Some (mkJob n None) ->
  (n + length fs <= 3)%nat ->
  let s' := run (at_instant now (flat_map attempt_events fs)) s in
  final_inv true now s' /\ (fz_job s' = Some (mkJob (n + length fs) None) \/ at_rest s').
Proof.
  induction fs as [|a fs IH]; intros n s He I Hj Hn.
  - cbn. split; [done|]. left. by rewrite Nat.add_0_r.
  - simpl in Hn. cbn [flat_map]. unfold at_instant. rewrite map_app. cbn zeta. rewrite final_run_app.
    destruct (run_attempt now a n s He I Hj) as [I1 [H1 _]]. destruct (H1 ltac:(lia)) as [J1|R1].
    + destruct (IH (S n) _ He I1 J1 ltac:(lia)) as [I2 J2]. split; [done|].
      replace (n + length (a :: fs))%nat with (S n + length fs)%nat by (simpl; lia). exact J2.
    + pose proof (rest_through now fs _ R1) as E. unfold at_instant in E |- *. rewrite E. split; [done|by right].
Qed.

(** The sweeper and the worker accept nothing. *)
Definition of_worker (e : final_event) : Prop :=
  match e with Arrive _ _ _ _ | Tick _ | Panics _ => False | _ => True end.

Lemma worker_accepts_nothing now l : forall x, Forall of_worker l -> fz_accepted (run (at_instant now l) x) = fz_accepted x.
Proof.
  unfold run, final_run. induction l as [|e l IH]; intros x Hl; [done|]. inversion Hl as [|? ? He Hl']; subst. cbn. rewrite IH by done.
  destruct e as [| | |q sn u| |sv cf d cm|u i c0 d cm| |]; try done; simpl.
  - destruct (_ && _); [|done]. by destruct u.
  - by destruct (fz_job x), (fz_queue x).
  - destruct (fz_job x) as [[n [y|]]|]; [done| |done]. destruct sv; [done|]. unfold failed_attempt.
    destruct (3 <=? n)%nat; [by destruct d|done].
  - destruct (fz_job x) as [[n [[[jt jr] l0]|]]|]; try done. unfold write_rows, failed_attempt.
    repeat case_match; done.
  - by destruct (fz_job x).
Qed.

Lemma attempts_of_worker fs a :
  Forall of_worker ([Sweep true true true; SyncTake] ++ flat_map attempt_events fs ++ attempt_events a).
Proof.
  assert (H : forall b, Forall of_worker (attempt_events b)) by (by intros [|]; repeat constructor).
  apply Forall_app. split; [by repeat constructor|]. apply Forall_app. split; [|apply H].
  induction fs as [|b fs IH]; [constructor|]. cbn [flat_map]. apply Forall_app. by split.
Qed.

(** C15: a finalization that is left alone finishes.  Of an engine that is started
    only before its auction's own key expires and over a reading of that key that
    works, with tasks from the ingestion service and attempts that all could read the
    configuration: from every state that such a run reaches, five seconds after the
    end, with the worker free and the auction not completed or a message in front of
    the worker, a sweep, up to two attempts that fail wherever they do and one whose
    calls are served leave the auction completed, all its accepted bids stored and
    its winner named, whatever becomes of the commit and of the clearing. *)
Theorem finalization_finishes es now fs a :
  in_time es -> Forall event_ok es -> Forall config_read es -> Forall (fun e => e.1 <= now) es -> end_time + 5000 < now ->
  let s := run es (final0 own) in
  fz_job s = None -> fz_completed s = false \/ (0 < fz_queue s)%nat -> (length fs <= 2)%nat -> served a ->
  let s' := run (at_instant now ([Sweep true true true; SyncTake] ++ flat_map attempt_events fs ++ attempt_events a)) s in
  fz_completed s' = true /\ fz_winner s' = final_winner (fz_accepted s') /\
  (forall d, d ∈ fz_accepted s' -> stored d (fz_bids s')) /\ fz_job s' = None /\ fz_accepted s' = fz_accepted s.
Proof.
  intros Hs Ho Hc Hn Hend s Hj Hq Hfs Ha s'. pose proof (final_reached true es now Hs Ho (fun _ => Hc) Hn) as I. fold s in I.
  assert (Hacc : fz_accepted s' = fz_accepted s) by (apply worker_accepts_nothing, attempts_of_worker).
  set (s2 := run (map (fun e => (now, e)) [Sweep true true true; SyncTake]) s).
  assert (I2 : final_inv true now s2).
  { unfold s2, run, final_run. cbn [map fold_left fst snd]. repeat (apply (final_inv_step true now); [lia|done|]); done. }
  assert (J2 : fz_job s2 = Some (mkJob 1 None)).
  { unfold s2, run, final_run. cbn [map fold_left fst snd final_step].
    replace (end_time <? now - 5000) with true by (symmetry; lia). cbn [andb].
    destruct (fz_completed s); cbn [negb andb with_rows with_job with_topic fz_job fz_queue]; rewrite Hj; [|done].
    destruct Hq as [?|Hq]; [done|]. by destruct (fz_queue s); [lia|]. }
  assert (Es : s' = run (at_instant now (attempt_events a)) (run (at_instant now (flat_map attempt_events fs)) s2)).
  { unfold s', s2, at_instant. by rewrite !map_app, !final_run_app. }
  destruct (run_attempts now fs 1 s2 ltac:(lia) I2 J2 ltac:(lia)) as [I3 J3].
  assert (R : at_rest s').
  { rewrite Es. destruct J3 as [J3|R3]; [|by rewrite rest_stays].
    destruct (run_attempt now a _ _ ltac:(lia) I3 J3) as (_ & _ & H). by apply H. }
  destruct R as [[R1 R2%named_strict R3] R4]. done.
Qed.

(** a finalization whose attempts are exhausted is final: once the auction is
    marked completed and no message is left, neither in front of the worker nor
    uncommitted behind it, no sweep asks for it again, so the sorted set is never
    copied or cleared unless the engine is started again. *)
Theorem exhausted_finalization_is_final es s :
  fz_completed s = true -> fz_queue s = 0%nat -> fz_passed s = 0%nat -> fz_job s = None -> fz_actor s = None ->
  Forall (fun e => match e.2 with Arrive _ _ _ _ => False | _ => True end) es -> run es s = s.
Proof.
  intros Hc Hq Hp Hj Ha. induction 1 as [|[now e] es He _ IH]; [done|]. unfold run, final_run in *. cbn [fold_left fst snd].
  assert (E : final_step uuid in_range zrange read_time id end_time ty reserve own until now e s = s).
  { destruct s. simpl in *. subst. destruct e as [| | |q sn u| |sv cf d cm|u i c0 d cm| |]; simpl in *; try done.
    by rewrite andb_false_r. }
  by rewrite E.
Qed.
End Machine.

(** ** Witnesses *)

(** A sorted set: insertion sort by the amounts. *)
Definition sample_zrange (l : list Decision) : list Decision := js_sort (fun d d' => nle (d_amount d) (d_amount d')) l.

#[export] Instance sample_zrange_law : SortedSet sample_zrange.
Proof.
  intros l. split; [apply js_sort_perm|]. intros Hf.
  apply (js_sort_sorted (fun d d' => nle (d_amount d) (d_amount d')) (fun d => is_finite (d_amount d) = true)); [| |done].
  - intros x y Fx Fy. apply nle_total; eauto with aqua.
  - intros x y z _ _ _. apply nle_trans.
Qed.

Definition sample_config : ConfigRow := mkConfigRow REVERSE (of_Z 5) None.
Definition close_well : CloseAnswers := mkClose true true true true true true all_read.
Definition sample_end : Z := sample_start_time + 3600000.
Definition sample_until : Z := sample_start_time + 3900000.
Definition sample_range (t : Z) : bool := 0 <=? t.
#[local] Notation sample_run c es s :=
  (final_run parse_same sample_range sample_zrange sample_utc "a1" (ar_auction_end_time sample_row) (cf_auction_type c)
    (cf_reserve_price c) (state_payload sample_schedule sample_row (Some c)) sample_until es s) (only parsing).
#[local] Notation sample_final c es := (sample_run c es (final0 (state_payload sample_schedule sample_row (Some c)))) (only parsing).

Definition sync_all (t : Z) : list (Z * final_event) :=
  [(t, SyncTake); (t, SyncRead true true true true); (t, SyncWrite true true true true true)].

(** Two bids, the second with a lost reply, a panic whose start cannot read the sorted
    set, a close whose broadcast fails and one that works, a finalization and its
    redelivery. *)
Definition sample_course : list (Z * final_event) :=
  [(sample_start_time + 1, Arrive Served (sample_task "r1" "u1" 100 10) all_read close_well);
   (sample_start_time + 2, Arrive ReplyLost (sample_task "r2" "u2" 90 20) all_read close_well);
   (sample_start_time + 3, Panics (mkReads true false false));
   (sample_end, Tick (mkClose true true true true true false all_read));
   (sample_end + 1, Tick close_well)] ++ sync_all (sample_end + 2) ++ sync_all (sample_end + 3).

Lemma sample_row_ok : auction_ok sample_row.
Proof. exists (of_Z 120). split; [done|]. split; [by vm_compute|done]. Qed.
Lemma sample_config_ok : config_ok sample_config.
Proof. by vm_compute. Qed.
Lemma sample_times_ok : reads_times sample_utc sample_row.
Proof. split; vm_compute; reflexivity. Qed.

(** The order of a concrete list of events. *)
Fixpoint times_ok (es : list (Z * final_event)) : bool :=
  match es with [] => true | e :: l => forallb (fun x => e.1 <=? x.1) l && times_ok l end.
Lemma times_check es : times_ok es = true -> in_time es.
Proof.
  induction es as [|e l IH]; simpl; [constructor|]. intros [H1 H2]%andb_true_iff. constructor; [by apply IH|].
  apply Forall_forall. intros x Hx. rewrite forallb_forall in H1. apply Z.leb_le, H1. by apply list_elem_of_In.
Qed.

(** The conditions on the events of a concrete list. *)
Ltac course_ok := repeat (apply Forall_cons_2; [vm_compute; repeat split|]); apply Forall_nil_2.

(** The attempt does not read the configuration; all the rest holds. *)
Lemma accepted_bids_survive_witness :
  let s := sample_final sample_config (take 5 sample_course ++
    [(sample_end + 2, SyncTake); (sample_end + 2, SyncRead true false true true); (sample_end + 2, SyncWrite true true true true false)]) in
  d_request <$> fz_accepted s = ["r1"; "r2"] /\ zset (fz_ledger s) = [] /\ fz_closed s <> [] /\ fz_passed s = 1%nat /\
  (forall d, d ∈ fz_accepted s -> d ∈ zset (fz_ledger s) \/ stored d (fz_bids s)).
Proof.
  intros s.
  destruct (accepted_bids_survive (zrange := sample_zrange) parse_same sample_range sample_utc "a1" sample_schedule sample_row sample_config sample_until
    sample_row_ok sample_config_ok sample_times_ok (take 5 sample_course ++
    [(sample_end + 2, SyncTake); (sample_end + 2, SyncRead true false true true); (sample_end + 2, SyncWrite true true true true false)])
    ltac:(apply times_check; vm_compute; reflexivity) ltac:(course_ok)) as (H & _).
  split; [vm_compute; reflexivity|]. split; [vm_compute; reflexivity|]. split; [vm_compute; discriminate|].
  split; [vm_compute; reflexivity|exact H].
Defined.

(** The finalization is delivered twice, the second time with Redis cleared. *)
Lemma stored_winner_is_announced_witness :
  let s := sample_final sample_config sample_course in
  fz_winner s = Some "u2" /\ zset (fz_ledger s) = [] /\
  exists d, Some d ∈ fz_closed s /\ exists d', d' ∈ fz_accepted s /\ d_bidder d' = "u2" /\ d' = d.
Proof.
  intros s. split; [vm_compute; reflexivity|]. split; [vm_compute; reflexivity|].
  assert (Hd : exists d, Some d ∈ fz_closed s) by (eexists; vm_compute; left).
  destruct Hd as [d Hd]. exists d. split; [exact Hd|]. unfold s in Hd |- *.
  destruct (stored_winner_is_announced (zrange := sample_zrange) parse_same sample_range sample_utc "a1" sample_schedule sample_row sample_config sample_until
    sample_row_ok sample_config_ok sample_times_ok sample_course "u2" d
    ltac:(apply times_check; vm_compute; reflexivity) ltac:(course_ok) ltac:(course_ok) ltac:(vm_compute; reflexivity) Hd)
    as (d' & [H1 _] & H2 & _ & _ & _ & H3).
  exists d'. split; [exact H1|]. split; [exact H2|]. apply H3. by left.
Defined.

(** The engine is down at the end; the sweeper asks, the worker fails twice. *)
Lemma finalization_finishes_witness :
  let now := sample_end + 5001 in
  let s := sample_final sample_config (take 3 sample_course) in
  let fs := [Unread true true; Tried true false true true true] in
  let last := Tried true true false true false in
  let s' := sample_run sample_config (at_instant now ([Sweep true true true; SyncTake] ++
    flat_map attempt_events fs ++ attempt_events last)) s in
  fz_completed s = false /\ fz_winner s' = Some "u2" /\ forall d, d ∈ fz_accepted s' -> stored d (fz_bids s').
Proof.
  intros now s fs last s'. split; [vm_compute; reflexivity|]. split; [vm_compute; reflexivity|].
  destruct (finalization_finishes (zrange := sample_zrange) parse_same sample_range sample_utc "a1" sample_schedule sample_row sample_config sample_until
    sample_row_ok sample_config_ok sample_times_ok (take 3 sample_course) now fs last
    ltac:(apply times_check; vm_compute; reflexivity) ltac:(course_ok) ltac:(course_ok)
    ltac:(repeat (apply Forall_cons_2; [vm_compute; discriminate|]); apply Forall_nil_2) ltac:(vm_compute; reflexivity)
    ltac:(vm_compute; reflexivity) ltac:(left; vm_compute; reflexivity) ltac:(vm_compute; lia)
    ltac:(exists false, true, false; reflexivity)) as (_ & _ & H & _).
  exact H.
Defined.

(** *** What is left behind *)

(** Three attempts fail after the auction's row was marked: the bids are in no row,
    and nothing asks again. *)
Definition sample_exhausted : list (Z * final_event) :=
  take 3 sample_course ++ [(sample_end, Tick close_well); (sample_end + 1, SyncTake)] ++
  at_instant (sample_end + 2) (flat_map attempt_events (repeat (Tried true false true true true) 3)).

Lemma exhausted_finalization_is_final_witness :
  let s := sample_final sample_config sample_exhausted in
  let s' := sample_run sample_config [(sample_end + 9000, Sweep true true true); (sample_end + 9001, SyncTake)] s in
  fz_winner s = Some "u2" /\ d_request <$> zset (fz_ledger s) = ["r1"; "r2"] /\ fz_bids s = ∅ /\ s' = s.
Proof.
  intros s s'. split; [vm_compute; reflexivity|]. split; [vm_compute; reflexivity|]. split; [vm_compute; reflexivity|].
  exact (exhausted_finalization_is_final (zrange := sample_zrange) parse_same sample_range sample_utc "a1" sample_schedule
    sample_row sample_config sample_until [(sample_end + 9000, Sweep true true true); (sample_end + 9001, SyncTake)] s
    ltac:(vm_compute; reflexivity) ltac:(vm_compute; reflexivity) ltac:(vm_compute; reflexivity) ltac:(vm_compute; reflexivity)
    ltac:(vm_compute; reflexivity) ltac:(by repeat constructor)).
Defined.

(** When the dead letter cannot be sent the worker goes on all the same: the message
    comes again only when the worker starts anew before a later commit. *)
Lemma passed_message_waits_for_restart :
  let lost := take 3 sample_course ++ [(sample_end, Tick close_well); (sample_end + 1, SyncTake)] ++
    at_instant (sample_end + 2) (flat_map attempt_events (repeat (Tried true false true false true) 3)) in
  let again := sync_all (sample_end + 5) in
  let s := sample_final sample_config lost in
  (fz_queue s, fz_passed s, fz_job s, fz_dead s) = (0, 1, None, 0)%nat /\
  fz_bids (sample_run sample_config again s) = ∅ /\
  fz_bids (sample_run sample_config ((sample_end + 3, SyncDies) :: again) s) <> ∅ /\
  fz_bids (sample_run sample_config ([(sample_end + 3, SyncOther); (sample_end + 4, SyncDies)] ++ again) s) = ∅.
Proof.
  split; [vm_compute; reflexivity|]. split; [vm_compute; reflexivity|].
  split; [vm_compute; discriminate|vm_compute; reflexivity].
Qed.

(** A close that comes after the sweeper's finalization finds an empty sorted set and
    tells the pages that nobody won. *)
Lemma late_close_announces_nobody :
  let s := sample_final sample_config (take 2 sample_course ++
    [(sample_end + 5001, Sweep true true true)] ++ sync_all (sample_end + 5002) ++ [(sample_end + 5003, Tick close_well)]) in
  fz_winner s = Some "u2" /\ fz_closed s = [None].
Proof. split; vm_compute; reflexivity. Qed.

(** A bid that is delivered after the document of the auction's own key has expired
    finds no document at all: it is accepted in an auction of three minutes without
    a price, and the finalization of that one replaces the winner. *)
Lemma late_bid_replaces_winner :
  let before := sample_course in
  let late := [(sample_until + 1, Arrive Served (sample_task "r9" "u9" 500 90) all_read close_well);
               (sample_until + 180001, Tick close_well)] ++ sync_all (sample_until + 180002) in
  fz_winner (sample_final sample_config before) = Some "u2" /\
  fz_winner (sample_final sample_config (before ++ late)) = Some "u9".
Proof. split; vm_compute; reflexivity. Qed.

(** Nor is such a bid safe: when a repeated finalization has read the bids before it
    is accepted, that finalization clears it from the sorted set without a row. *)
Lemma late_bid_is_lost :
  let s := sample_final sample_config (take 8 sample_course ++
    [(sample_until, SyncTake); (sample_until, SyncRead true true true true);
     (sample_until + 1, Arrive Served (sample_task "r9" "u9" 80 90) all_read close_well);
     (sample_until + 2, SyncWrite true true true true true)]) in
  d_request <$> fz_accepted s = ["r1"; "r2"; "r9"] /\ zset (fz_ledger s) = [] /\ fz_bids s !! "r9" = None.
Proof. split; [|split]; vm_compute; reflexivity. Qed.

(** So does a start that cannot read the auction's document in time: after the
    common one was cleared the engine goes on for three minutes. *)
Lemma unread_document_reopens :
  let s := sample_final sample_config (sample_course ++
    [(sample_end + 4, Arrive Served (sample_task "r9" "u9" 80 90) (mkReads false true true) close_well)]) in
  d_request <$> fz_accepted s = ["r1"; "r2"; "r9"] /\ fz_winner s = Some "u2".
Proof. split; vm_compute; reflexivity. Qed.

(** A configuration that could not be read is taken for a reverse auction's: the
    lowest bidder of a forward auction is stored as its winner. *)
Lemma unread_configuration_names_lowest :
  let c := mkConfigRow FORWARD (of_Z 5) None in
  let bids := [(sample_start_time + 1, Arrive Served (sample_task "r1" "u1" 130 10) all_read close_well);
               (sample_start_time + 2, Arrive Served (sample_task "r2" "u2" 140 20) all_read close_well);
               (sample_end, Tick close_well); (sample_end + 1, SyncTake)] in
  fz_winner (sample_final c (bids ++ [(sample_end + 2, SyncRead true true true true); (sample_end + 3, SyncWrite true true true true true)])) = Some "u2" /\
  fz_winner (sample_final c (bids ++ [(sample_end + 2, SyncRead true false true true); (sample_end + 3, SyncWrite true true true true true)])) = Some "u1".
Proof. split; vm_compute; reflexivity. Qed.
