(* ===== verification/LiveClock.v ===== *)
(** * Clocks and tabs of the live page ([hooks/], [components/auction/CountdownTimer.tsx])

    The timer worker that moves the auction from waiting to active to ended, the
    countdown's text, the time synchronisation and the guard against a second
    tab.  Clock readings are arguments, in milliseconds: the worker's and, when its
    message arrives, the page's. *)

From Stdlib Require Import Ascii.
From S2P Require Import Prelude JSNum JSText JSDate ApiTypes AuctionSlice.
#[local] Open Scope Z_scope.

(** ** useTimerWorker *)

(** The payload of [START]. *)
Record WorkerJob := mkJob {
  job_start : option Z;
  job_end : option Z;
  job_skew : Z;
  job_status : AuctionPhase
}.

(** One tick of the interval: the remaining time and whether an update is needed. *)
Definition worker_tick (j : WorkerJob) (date_now : Z) : Z * bool :=
  let currentAccurateTime := date_now + job_skew j in
  match job_status j, truthy_time (job_start j), truthy_time (job_end j) with
  | waiting, Some st, _ =>
      let remaining := Z.max 0 (st - currentAccurateTime) in (remaining, remaining <=? 0)
  | active, _, Some fin =>
      let remaining := Z.max 0 (fin - currentAccurateTime) in (remaining, remaining <=? 0)
  | _, _, _ => (0, false)
  end.

(** The hook: the store it reads, the time it returns, the job of the running
    interval ([None] once the interval was cleared or no worker exists). *)
Record Timer := mkTimer {
  t_store : AuctionState;
  timeLeft : Z;
  t_job : option WorkerJob
}.

(** The effect: no worker without an end time or after the end. *)
Definition start_worker (s : AuctionState) : option WorkerJob :=
  match truthy_time (endTime s) with
  | None => None
  | Some _ =>
      if bool_decide (auctionStatus s = ended) then None
      else Some (mkJob (startTime s) (endTime s) (timeSkew s) (auctionStatus s))
  end.

Definition mount_timer (s : AuctionState) : Timer := mkTimer s 0 (start_worker s).

(** The effect runs again only when one of its dependencies has changed. *)
Definition deps_changed (s s' : AuctionState) : bool :=
  negb (bool_decide (startTime s = startTime s' /\ endTime s = endTime s' /\
    timeSkew s = timeSkew s' /\ auctionStatus s = auctionStatus s')).

(** The worker ticks at [now]; the page handles its message at [now']. *)
Definition timer_tick (now now' : Z) (t : Timer) : Timer :=
  match t_job t with
  | None => t
  | Some j =>
      let '(remaining, needsUpdate) := worker_tick j now in
      if needsUpdate then
        let s' := updateAuctionStatus now' (t_store t) in
        mkTimer s' remaining (if deps_changed (t_store t) s' then start_worker s' else None)
      else mkTimer (t_store t) remaining (t_job t)
  end.

Definition run_timer (readings : list (Z * Z)) (t : Timer) : Timer :=
  fold_left (fun t r => timer_tick r.1 r.2 t) readings t.

(** ** CountdownTimer *)
Definition safeTime (t : Z) : Z := Z.max 0 t.
Definition hours (t : Z) : Z := safeTime t / 3600000.
Definition minutes (t : Z) : Z := (safeTime t mod 3600000) / 60000.
Definition seconds (t : Z) : Z := (safeTime t mod 60000) / 1000.
Definition milliseconds (t : Z) : Z := safeTime t mod 1000.

Definition isUrgent (status : AuctionPhase) (t : Z) : bool :=
  bool_decide (status = active) && (0 <? safeTime t) && (safeTime t <=? 20000).

Definition countdown_label (status : AuctionPhase) : string :=
  match status with waiting => "Starts In:" | active => "Ends In:" | ended => "Auction Ended" end.

Definition countdown_text (t : Z) : string :=
  pad_start 2 (string_of_Z (hours t)) +:+ ":" +:+ pad_start 2 (string_of_Z (minutes t)) +:+ ":" +:+
  pad_start 2 (string_of_Z (seconds t)) +:+ "." +:+ pad_start 3 (string_of_Z (milliseconds t)).

Definition countdown_aria (t : Z) : string :=
  string_of_Z (hours t) +:+ " hours " +:+ string_of_Z (minutes t) +:+ " minutes " +:+
  string_of_Z (seconds t) +:+ " seconds remaining".

(** ** useServerTimeSync: the effect dispatches a skew of zero at once *)
Definition sync_time (s : AuctionState) : AuctionState * bool := (setTimeSkew 0 s, false).

(** ** useConcurrencyGuard

    The tabs that have an auction's channel open; a message goes to every other
    channel of the same name. *)
Inductive guard_message := PING (instanceId : string) | PONG (instanceId : string).

Record Tab := mkTab { tab_auction : string; tab_instance : string; hasConflict : bool }.

Definition channelName (auctionId : string) : string := "auction-guard-" +:+ auctionId.
#[local] Arguments channelName : simpl never.

(** [handleMessage]: the tab after it and what it posts. *)
Definition handleMessage (m : guard_message) (t : Tab) : Tab * option guard_message :=
  match m with
  | PING i =>
      if bool_decide (i = tab_instance t) then (t, None)
      else (mkTab (tab_auction t) (tab_instance t) true, Some (PONG (tab_instance t)))
  | PONG i =>
      if bool_decide (i = tab_instance t) then (t, None)
      else (mkTab (tab_auction t) (tab_instance t) true, None)
  end.

(** Messages on their way: the receiver's index and the message. *)
Record Browser := mkTabs { tabs : list Tab; mail : list (nat * guard_message) }.

(** [channel.postMessage] of the tab at index [i]. *)
Definition post (i : nat) (m : guard_message) (l : list Tab) : list (nat * guard_message) :=
  match l !! i with
  | None => []
  | Some me =>
      omap (fun j => match l !! j with
        | Some t => if negb (j =? i)%nat && String.eqb (channelName (tab_auction t)) (channelName (tab_auction me))
                    then Some (j, m) else None
        | None => None
        end) (seq 0 (length l))
  end.

(** A tab opens the live page: it announces itself. *)
Definition open_tab (auctionId instanceId : string) (w : Browser) : Browser :=
  let l := tabs w ++ [mkTab auctionId instanceId false] in
  mkTabs l (mail w ++ (if bool_decide (auctionId = EmptyString) then []
                       else post (length (tabs w)) (PING instanceId) l)).

(** One message of the mail, at any position, is delivered. *)
Inductive delivers : Browser -> Browser -> Prop :=
| deliver l mail1 i m mail2 t t' out :
    l !! i = Some t -> handleMessage m t = (t', out) ->
    delivers (mkTabs l (mail1 ++ (i, m) :: mail2))
      (mkTabs (<[i := t']> l)
        (mail1 ++ mail2 ++ match out with Some o => post i o (<[i := t']> l) | None => [] end)).

(** ** Lemmas *)

Lemma truthy_time_some t x : truthy_time t = Some x <-> t = Some x /\ x <> 0.
Proof. destruct t as [[| |]|]; simpl; split; try (intros [[=] ?]); try intros [= <-]; try done; congruence. Qed.

(** The hook is in step: its interval runs unless the auction has ended, and the
    stored phase is the phase at some instant. *)
Record in_step (st fin skew : Z) (p : Z) (t : Timer) : Prop := {
  is_start : startTime (t_store t) = Some st;
  is_end : endTime (t_store t) = Some fin;
  is_skew : timeSkew (t_store t) = skew;
  is_job : t_job t = start_worker (t_store t);
  is_status : auctionStatus (t_store t) = status_at p st fin
}.

Lemma start_worker_job s fin :
  endTime s = Some fin -> fin <> 0 ->
  start_worker s = if bool_decide (auctionStatus s = ended) then None
                   else Some (mkJob (startTime s) (endTime s) (timeSkew s) (auctionStatus s)).
Proof. intros He Hf. unfold start_worker. rewrite He. by destruct fin. Qed.

Lemma update_known now s st fin :
  startTime s = Some st -> endTime s = Some fin -> st <> 0 -> fin <> 0 ->
  updateAuctionStatus now s = set_status (status_at (now + timeSkew s) st fin) s.
Proof.
  intros Hs He H1 H2. unfold updateAuctionStatus. rewrite Hs, He. by destruct st, fin.
Qed.

Lemma deps_same_status s st : deps_changed s (set_status st s) = negb (bool_decide (auctionStatus s = st)).
Proof.
  unfold deps_changed. f_equal. apply bool_decide_ext. simpl. tauto.
Qed.

(** What a tick computes while the auction waits or runs. *)
Lemma tick_waiting st fin skew now : st <> 0 ->
  worker_tick (mkJob (Some st) (Some fin) skew waiting) now =
  (Z.max 0 (st - (now + skew)), st <=? now + skew).
Proof. intros H. unfold worker_tick. simpl. destruct st; try done; f_equal; tests. Qed.

Lemma tick_active st fin skew now : fin <> 0 ->
  worker_tick (mkJob (Some st) (Some fin) skew active) now =
  (Z.max 0 (fin - (now + skew)), fin <=? now + skew).
Proof. intros H. unfold worker_tick. simpl. destruct (truthy_time (Some st)), fin; try done; f_equal; tests. Qed.

(** One tick of a hook that is in step; the page's clock does not read the end
    instant itself when it handles the message. *)
Lemma tick_in_step st fin skew p now now' t :
  st <> 0 -> fin <> 0 -> st <= fin -> in_step st fin skew p t ->
  p <= now + skew -> now <= now' -> now' + skew <> fin ->
  exists q, now + skew <= q <= now' + skew /\ in_step st fin skew q (timer_tick now now' t).
Proof.
  intros H1 H2 Hle [Is Ie Ik Ij Ia] Hp Hn Hne.
  assert (Hup : timeSkew (t_store t) = skew) by done.
  pose proof (update_known now' (t_store t) st fin Is Ie H1 H2) as U. rewrite Ik in U.
  assert (Hquiet : forall r, auctionStatus (t_store t) = status_at (now + skew) st fin ->
    in_step st fin skew (now + skew) (mkTimer (t_store t) r (t_job t))) by (by split).
  assert (Hmove : forall r, auctionStatus (t_store t) <> status_at (now' + skew) st fin ->
    in_step st fin skew (now' + skew)
      (mkTimer (updateAuctionStatus now' (t_store t)) r
        (if deps_changed (t_store t) (updateAuctionStatus now' (t_store t))
         then start_worker (updateAuctionStatus now' (t_store t)) else None))).
  { intros r Hch. rewrite U, deps_same_status. rewrite bool_decide_eq_false_2 by done. by split. }
  unfold timer_tick. rewrite Ij, (start_worker_job _ fin Ie H2), Is, Ie, Ik, Ia.
  destruct (status_at p st fin) eqn:Es; unfold status_at in Es; rewrite ?Ij.
  - rewrite bool_decide_eq_false_2, tick_waiting by done.
    destruct (st <=? now + skew) eqn:E; bool_facts.
    + exists (now' + skew). split; [lia|]. apply Hmove. rewrite Ia. unfold status_at. tests.
    + exists (now + skew). split; [lia|].
      rewrite Ij, (start_worker_job _ fin Ie H2), Ia, bool_decide_eq_false_2, Is, Ie, Ik in Hquiet by done.
      apply Hquiet. rewrite ?Ia. unfold status_at. tests.
  - rewrite bool_decide_eq_false_2, tick_active by done.
    destruct (fin <=? now + skew) eqn:E; bool_facts.
    + exists (now' + skew). split; [lia|]. apply Hmove. rewrite Ia. unfold status_at. tests.
    + exists (now + skew). split; [lia|].
      rewrite Ij, (start_worker_job _ fin Ie H2), Ia, bool_decide_eq_false_2, Is, Ie, Ik in Hquiet by done.
      apply Hquiet. rewrite ?Ia. unfold status_at. tests.
  - rewrite bool_decide_eq_true_2 by done. exists (now + skew). split; [lia|].
    split; try done. rewrite Ia. unfold status_at. tests.
Qed.

(** Readings of a clock that does not go back and whose page-side readings are
    never the end instant. *)
Fixpoint clock_ok (fin skew p : Z) (readings : list (Z * Z)) : Prop :=
  match readings with
  | [] => True
  | (now, now') :: rest =>
      p <= now + skew /\ now <= now' /\ now' + skew <> fin /\ clock_ok fin skew (now' + skew) rest
  end.

Lemma clock_ok_weaken fin skew p q readings : p <= q -> clock_ok fin skew q readings -> clock_ok fin skew p readings.
Proof. destruct readings as [|[a b] r]; simpl; [done|]. intros ? (? & ? & ? & ?). repeat split; try done. lia. Qed.

Lemma run_in_step st fin skew readings now now' : st <> 0 -> fin <> 0 -> st <= fin ->
  forall p t, in_step st fin skew p t -> clock_ok fin skew p (readings ++ [(now, now')]) ->
  exists q, now + skew <= q <= now' + skew /\ in_step st fin skew q (run_timer (readings ++ [(now, now')]) t).
Proof.
  intros H1 H2 Hle. induction readings as [|[a b] rest IH]; intros p t Ht Hc; destruct Hc as (C1 & C2 & C3 & C4).
  - by apply (tick_in_step st fin skew p).
  - destruct (tick_in_step st fin skew p a b t H1 H2 Hle Ht C1 C2 C3) as (q & Hq & Hs).
    apply (IH q _ Hs). by apply (clock_ok_weaken _ _ q (b + skew)); [lia|].
Qed.

Lemma pos_mod_split t k j : 0 < k -> 0 < j -> t mod (k * j) = (t mod (k * j)) / j * j + t mod j.
Proof.
  intros Hk Hj. pose proof (Z.div_mod (t mod (k * j)) j ltac:(lia)) as D.
  rewrite Z.mod_mod_divide in D by (by exists k). lia.
Qed.

(** ** Properties *)

(** C16: the page follows the clock.  From a phase that is right for some instant, on
    any non-decreasing readings of which the page's own never falls exactly on the
    end (there [timer_stuck_at_end] applies): after every tick the shown phase is the
    phase at an instant between the worker's reading and the page's handling of its
    message, so no phase comes early or late by more than the way of a message; the
    interval runs exactly while the auction is not shown as ended; and a tick past
    the end leaves it ended. *)
Theorem timer_follows_clock st fin skew p readings now now' s :
  st <> 0 -> fin <> 0 -> st <= fin ->
  startTime s = Some st -> endTime s = Some fin -> timeSkew s = skew ->
  auctionStatus s = status_at p st fin -> clock_ok fin skew p (readings ++ [(now, now')]) ->
  let t := run_timer (readings ++ [(now, now')]) (mount_timer s) in
  (exists q, now + skew <= q <= now' + skew /\ auctionStatus (t_store t) = status_at q st fin) /\
  (is_Some (t_job t) <-> auctionStatus (t_store t) <> ended) /\
  (fin < now + skew -> auctionStatus (t_store t) = ended /\ t_job t = None).
Proof.
  intros H1 H2 Hle Hs He Hk Ha Hc t.
  destruct (run_in_step st fin skew readings now now' H1 H2 Hle p (mount_timer s)) as (q & Hq & [_ Ie _ Ij Iq]);
    [by split|done|]. fold t in Ie, Ij, Iq.
  rewrite (start_worker_job _ fin Ie H2) in Ij. split; [by exists q|]. split.
  - rewrite Ij. case_bool_decide; split; try done.
  - intros Hf. assert (E : auctionStatus (t_store t) = ended) by (rewrite Iq; unfold status_at; tests).
    split; [done|]. by rewrite Ij, bool_decide_eq_true_2.
Qed.

(** when the page handles the last message exactly at the end instant, the
    phase stays active ([now > endTime] is false) and the interval has been
    cleared: the page shows a running auction with no time left for ever. *)
Theorem timer_stuck_at_end st fin skew now readings s :
  st <> 0 -> fin <> 0 -> st <= fin ->
  startTime s = Some st -> endTime s = Some fin -> timeSkew s = skew ->
  auctionStatus s = active -> now + skew = fin ->
  let t := run_timer ((now, now) :: readings) (mount_timer s) in
  auctionStatus (t_store t) = active /\ timeLeft t = 0 /\ t_job t = None.
Proof.
  intros H1 H2 Hle Hs He Hk Ha Hn t.
  assert (E : timer_tick now now (mount_timer s) = mkTimer s 0 None).
  { unfold timer_tick, mount_timer. simpl.
    rewrite (start_worker_job s fin He H2), Ha, bool_decide_eq_false_2, Hs, He, Hk, tick_active by done.
    destruct (fin <=? now + skew) eqn:E; bool_facts; [|lia].
    rewrite (update_known now s st fin Hs He H1 H2), Hk, deps_same_status.
    assert (Hst : status_at (now + skew) st fin = auctionStatus s) by (rewrite Ha; unfold status_at; tests).
    rewrite Hst, bool_decide_eq_true_2 by done. simpl. f_equal; [by destruct s|lia]. }
  unfold t. simpl. rewrite E.
  assert (R : forall l, run_timer l (mkTimer s 0 None) = mkTimer s 0 None)
    by (induction l as [|r l IH]; simpl; [done|by rewrite <-IH at 2]).
  unfold run_timer in R. by rewrite R.
Qed.

(** the countdown shows the remaining time exactly: its four parts add up to
    the time that is left and each is in its range. *)
Theorem countdown_decomposes t :
  hours t * 3600000 + minutes t * 60000 + seconds t * 1000 + milliseconds t = Z.max 0 t /\
  0 <= hours t /\ 0 <= minutes t < 60 /\ 0 <= seconds t < 60 /\ 0 <= milliseconds t < 1000.
Proof.
  unfold hours, minutes, seconds, milliseconds, safeTime. set (x := Z.max 0 t).
  assert (0 <= x) by lia.
  pose proof (Z.div_mod x 3600000 ltac:(lia)) as D1.
  pose proof (pos_mod_split x 60 60000 ltac:(lia) ltac:(lia)) as D2. change (60 * 60000) with 3600000 in D2.
  pose proof (pos_mod_split x 60 1000 ltac:(lia) ltac:(lia)) as D3. change (60 * 1000) with 60000 in D3.
  pose proof (Z.mod_pos_bound x 3600000 ltac:(lia)). pose proof (Z.mod_pos_bound x 60000 ltac:(lia)).
  pose proof (Z.mod_pos_bound x 1000 ltac:(lia)).
  split; [lia|]. split; [apply Z.div_pos; lia|].
  repeat split; try (apply Z.div_pos; lia); try (apply Z.div_lt_upper_bound; lia); lia.
Qed.

(** a second tab on the same auction: in whichever order the channel delivers
    the messages, once none is left both tabs know of the conflict. *)
Theorem second_tab_is_detected a i j w :
  a <> EmptyString -> i <> j ->
  rtc delivers (open_tab a j (open_tab a i (mkTabs [] []))) w -> mail w = [] ->
  map hasConflict (tabs w) = [true; true].
Proof.
  intros Ha Hij Hr Hm.
  assert (E : open_tab a j (open_tab a i (mkTabs [] [])) =
    mkTabs [mkTab a i false; mkTab a j false] [(0%nat, PING j)]).
  { unfold open_tab. simpl. rewrite !bool_decide_eq_false_2 by done. unfold post. simpl.
    by rewrite String.eqb_refl. }
  rewrite E in Hr. clear E.
  apply rtc_inv in Hr as [<-|(w1 & H1 & Hr)]; [done|].
  assert (E1 : w1 = mkTabs [mkTab a i true; mkTab a j false] [(1%nat, PONG i)]).
  { inversion H1 as [l m1 k m m2 t t' out Hl Hh El Em]; subst. clear H1.
    destruct m1 as [|x [|y m1]]; simplify_eq/=.
    rewrite bool_decide_eq_false_2 in Hh by congruence. simplify_eq/=.
    unfold post. simpl. by rewrite String.eqb_refl. }
  subst w1. apply rtc_inv in Hr as [<-|(w2 & H2 & Hr)]; [done|].
  assert (E2 : w2 = mkTabs [mkTab a i true; mkTab a j true] []).
  { inversion H2 as [l m1 k m m2 t t' out Hl Hh El Em]; subst. clear H2.
    destruct m1 as [|x [|y m1]]; simplify_eq/=.
    rewrite bool_decide_eq_false_2 in Hh by congruence. by simplify_eq/=. }
  subst w2. apply rtc_inv in Hr as [<-|(w3 & H3 & _)]; [done|].
  inversion H3 as [l m1 k m m2 t t' out Hl Hh El Em]. by destruct m1.
Qed.

(** ** Witnesses: an auction from 100 to 1000 *)
Definition timed_state (ph : AuctionPhase) : AuctionState :=
  mkState (Some "a1") [] None None REVERSE (of_Z 5) true 0 (Some 100) (Some 1000) ph true.

Lemma timer_follows_clock_witness :
  let t := run_timer ([(90, 91); (190, 195); (990, 995)] ++ [(1090, 1091)]) (mount_timer (timed_state waiting)) in
  auctionStatus (t_store t) = ended /\ t_job t = None.
Proof.
  apply (timer_follows_clock 100 1000 0 50 [(90, 91); (190, 195); (990, 995)] 1090 1091 (timed_state waiting));
    try done; try lia.
Defined.

Lemma timer_stuck_at_end_witness :
  let t := run_timer [(1000, 1000); (1100, 1100); (5000, 5000)] (mount_timer (timed_state active)) in
  auctionStatus (t_store t) = active /\ timeLeft t = 0.
Proof.
  destruct (timer_stuck_at_end 100 1000 0 1000 [(1100, 1100); (5000, 5000)] (timed_state active))
    as (H1 & H2 & _); try done; try lia.
Defined.

Lemma second_tab_is_detected_witness :
  exists w, rtc delivers (open_tab "a" "j" (open_tab "a" "i" (mkTabs [] []))) w /\
    map hasConflict (tabs w) = [true; true].
Proof.
  set (w := mkTabs [mkTab "a" "i" true; mkTab "a" "j" true] []).
  assert (H : rtc delivers (open_tab "a" "j" (open_tab "a" "i" (mkTabs [] []))) w).
  { eapply rtc_l; [apply (deliver [mkTab "a" "i" false; mkTab "a" "j" false] [] 0 (PING "j") []
      _ _ _ eq_refl eq_refl)|].
    eapply rtc_l; [apply (deliver [mkTab "a" "i" true; mkTab "a" "j" false] [] 1 (PONG "i") []
      _ _ _ eq_refl eq_refl)|]. apply rtc_refl. }
  exists w. split; [exact H|].
  by apply (second_tab_is_detected "a" "i" "j" w).
Defined.
