(* ===== verification/LiveRoom.v ===== *)
(** * The live room ([app/shipment/[id]/page.tsx] and the panels it composes)

    The page that bidders see during an auction: the countdown, the leaderboard,
    the console and the audit ledger on the page, the auction's details with its
    media and map in one dialog, the discussion in another.  The panels' logic is
    in [LiveViews], [LiveClock] and [BiddingConsole]; here are their rendering,
    the details and the discussion, and the page as one machine.  Animations
    end at once. *)

From Stdlib Require Import Ascii.
From S2P Require Import Prelude JSNum JSRound JSText ApiTypes AuctionSlice SocketContext BiddingConsole.
From S2P Require Import LiveViews LiveClock Markup Report.
#[local] Open Scope Z_scope.

(** ** The details of an auction ([AuctionDetailsView.tsx]) *)

Inductive details_tab := DetailsTab | PhotosTab | MapTab.

#[export] Instance details_tab_eq_dec : EqDecision details_tab.
Proof. solve_decision. Defined.

Record Media := mkMedia { md_url : string; md_video : bool }.

Definition media_url_is_video (url : string) : bool :=
  has_extension ["mp4"; "webm"; "ogg"; "mov"] url || includes "/video/upload/" url.

Definition media_of (auction : option Auction.t) : list Media :=
  map (fun url => mkMedia url (media_url_is_video url))
    (match auction with Some a => default [] (Auction.media_urls a) | None => [] end).

(** The view's state, with the state of the gallery and of the map while they are
    mounted.  The gallery's state is one of its media, or nothing. *)
Record Details := mkDetails {
  dv_activeTab : details_tab;
  dv_gallery : option (option Media);
  dv_map : option MapState
}.

Inductive details_event :=
| SelectTab (t : details_tab)
| SelectMedia (m : Media)
| RouteFound (r : option Route).

(** What is mounted after a render; [useState(media[0])] is read once. *)
Definition details_render (auction : option Auction.t) (d : Details) : Details :=
  mkDetails (dv_activeTab d)
    (match dv_activeTab d, media_of auction with
     | PhotosTab, m :: _ => Some (default (Some m) (dv_gallery d))
     | _, _ => None
     end)
    (match dv_activeTab d with MapTab => Some (default map0 (dv_map d)) | _ => None end).

Definition mount_details (auction : option Auction.t) (initialTab : details_tab) : Details :=
  details_render auction (mkDetails initialTab None None).

Definition details_step (auction : option Auction.t) (e : details_event) (d : Details) : Details :=
  details_render auction
    match e with
    | SelectTab t => mkDetails t (dv_gallery d) (dv_map d)
    | SelectMedia m => mkDetails (dv_activeTab d) ((fun _ => Some m) <$> dv_gallery d) (dv_map d)
    | RouteFound r => mkDetails (dv_activeTab d) (dv_gallery d) (route_answer r <$> dv_map d)
    end.

(** ** The gallery ([MediaGallery.tsx]) *)

Definition media_node (alt : string) (m : Media) : node details_event :=
  if md_video m then El "video" [Attr "src" (md_url m)] []
  else El "img" [Attr "src" (md_url m); Attr "alt" alt] [].

Definition gallery_view (media : list Media) (activeMedia : option Media) : list (node details_event) :=
  match activeMedia with
  | None => []
  | Some m =>
      [tag "div" [
        tag "div" [media_node "Shipment item" m];
        tag "div" (imap (fun i x => El "button" [On "click" (SelectMedia x)]
                     [media_node ("Thumbnail " +:+ string_of_Z (Z.of_nat i)) x]) media)]]
  end.

Section DetailsView.
(** The browser's number and date formatting. *)
Context (locale : num -> string) (local_date : string -> string).

Definition tab_button (t : details_tab) (label : string) : node details_event := button (SelectTab t) false label.

Definition quantity_text (auction : option Auction.t) : string :=
  match auction with
  | Some a =>
      match Auction.quantity a with
      | Some q => if truthy_num q then num_to_string q +:+ " " +:+ or_ostr (Auction.quantity_unit a) "" else "Not specified"
      | None => "Not specified"
      end
  | None => "Not specified"
  end.

Definition text_of (f : Auction.t -> option string) (auction : option Auction.t) (d : string) : string :=
  or_ostr (match auction with Some a => f a | None => None end) d.

Definition details_panel (auction : option Auction.t) : node details_event :=
  tag "div" [
    txt "span" "Category"; txt "span" (text_of Auction.item_category auction "General");
    txt "span" "Direction";
    txt "span" (match auction with
                | Some a => match Auction.auction_type a with
                            | FORWARD => "Forward · bids increase" | REVERSE => "Reverse · bids decrease" end
                | None => "Reverse · bids decrease"
                end);
    txt "h4" "Description";
    txt "p" (text_of (fun a => Some (Auction.description a)) auction "No description provided.");
    tag "ul" [
      txt "li" ("Condition: " +:+ text_of Auction.item_condition auction "Not specified");
      txt "li" ("Quantity: " +:+ quantity_text auction);
      txt "li" ("Starting price: " +:+
        match auction with
        | Some a => match Auction.starting_price a with Some p => "$" +:+ locale p | None => "Not specified" end
        | None => "Not specified"
        end);
      txt "li" ("Origin: " +:+ text_of Auction.origin_address auction "N/A");
      txt "li" ("Destination: " +:+ text_of Auction.dest_address auction "N/A");
      txt "li" ("Pickup Date: " +:+
        match auction with
        | Some a => match Auction.pickup_date a with
                    | Some d => if truthy_str (Some d) then local_date d else "N/A" | None => "N/A" end
        | None => "N/A"
        end)]].

Definition coordinate_of (f : Auction.t -> option num) (auction : option Auction.t) (d : string) : num :=
  or_number (match auction with Some a => f a | None => None end) d.

Definition address_of (f : Auction.t -> option string) (auction : option Auction.t) : option string :=
  match auction with Some a => if truthy_str (f a) then f a else None | None => None end.

Definition AuctionDetailsView (isLoaded : bool) (auction : option Auction.t) (d : Details) : node details_event :=
  tag "div" [
    tag "div" [txt "h3" "Auction Details";
      tab_button DetailsTab "Details";
      tab_button PhotosTab ("Media (" +:+ string_of_Z (Z.of_nat (length (media_of auction))) +:+ ")");
      tab_button MapTab "Map"];
    tag "div" (
      when (bool_decide (dv_activeTab d = DetailsTab)) [details_panel auction] ++
      when (bool_decide (dv_activeTab d = PhotosTab))
        (match dv_gallery d with
         | Some m => gallery_view (media_of auction) m
         | None => [txt "div" "No images or videos were added."]
         end) ++
      when (bool_decide (dv_activeTab d = MapTab))
        [map_view isLoaded (coordinate_of Auction.origin_lat auction "34.05")
           (coordinate_of Auction.origin_lng auction "-118.24")
           (coordinate_of Auction.dest_lat auction "51.50") (coordinate_of Auction.dest_lng auction "-0.12")
           (address_of Auction.origin_address auction) (address_of Auction.dest_address auction)
           (default map0 (dv_map d))])].
End DetailsView.

(** ** The discussion ([AuctionQnA.tsx]) *)

#[warnings="-register-all"]
Inductive Question := mkQuestion {
  q_id : Z;
  q_user : string;
  q_isSeller : bool;
  q_text : string;
  q_timestamp : string;
  q_replies : option (list Question)
}.

Record QnA := mkQnA { threads : list Question; newQuestion : string }.

Definition canned : list Question :=
  [mkQuestion 1 "Carrier_Omega" false "Are there any special tarping requirements for this load?" "2 hours ago"
     (Some [mkQuestion 2 "Global Freight Co." true
              "Yes, full lumber tarps are required to prevent moisture damage." "1 hour ago" None]);
   mkQuestion 3 "Carrier_Zeta" false "Is there a loading dock available or do we need a forklift on-site?"
     "30 mins ago" None].

Definition qna0 : QnA := mkQnA canned EmptyString.

Definition blank (s : string) : bool := String.eqb (trim s) EmptyString.

Definition asked (date_now : Z) (text : string) : Question :=
  mkQuestion date_now "You" false text "Just now" None.

Inductive qna_event := TypeQuestion (s : string) | Ask.

Definition handleSubmit (date_now : Z) (q : QnA) : QnA :=
  if blank (newQuestion q) then q else mkQnA (threads q ++ [asked date_now (newQuestion q)]) EmptyString.

Definition qna_step (date_now : Z) (e : qna_event) (q : QnA) : QnA :=
  match e with TypeQuestion s => mkQnA (threads q) s | Ask => handleSubmit date_now q end.

Definition post_view {A} (q : Question) : node A :=
  tag "div" [
    tag "span" ([Txt (q_user q)] ++ when (q_isSeller q) [Txt "(Seller)"]); txt "span" (q_timestamp q);
    txt "p" (q_text q)].

Definition AuctionQnA (q : QnA) : node qna_event :=
  tag "div" [
    txt "h3" ("Pre-Auction Discussion (" +:+ string_of_Z (Z.of_nat (length (threads q))) +:+ ")");
    tag "div" (map (fun t => tag "div" (post_view t :: map post_view (default [] (q_replies t)))) (threads q));
    tag "form" (
      map (fun title => El "button" [Attr "type" "button"; Attr "title" title] [])
        ["Bold"; "Italic"; "Link"; "Bullet List"; "Image"] ++
      [El "textarea" [Attr "value" (newQuestion q); Input "change" TypeQuestion] [];
       button Ask (blank (newQuestion q)) EmptyString])].

(** ** The panels of the page *)

(** *** The countdown ([CountdownTimer.tsx]) *)
Definition CountdownTimer {A} (status : AuctionPhase) (timeLeft : Z) : node A :=
  tag "div" [
    txt "h3" "Auction countdown";
    txt "span" (countdown_label status);
    El "div" [Attr "aria-live" "off"; Attr "aria-label" (countdown_aria timeLeft)]
      [Txt (countdown_text timeLeft)]].

(** *** The leaderboard ([Leaderboard.tsx]) *)
Definition board_node {A} (r : board_row) : node A :=
  match r with
  | BoardRow rank name amount => tag "tr" [txt "td" (string_of_Z rank); txt "td" name; txt "td" amount]
  | NoCompetitors => tag "tr" [txt "td" "No active competitors yet."]
  end.

Definition Leaderboard {A} (locale2 : num -> string) (s : AuctionState) : node A :=
  tag "div" [
    txt "h3" "Leaderboard";
    tag "table" [
      tag "thead" [tag "tr" (map (txt "th") ["RANK"; "Bidder"; "Best bid"])];
      tag "tbody" (map board_node (leaderboard locale2 s))]].

(** *** The ledger ([AuditLedger.tsx]); every row is in view. *)
Definition AuditLedger {A} (locale : num -> string) (format : Z -> string -> string) (s : AuctionState) : node A :=
  let '(rows, none) := audit_ledger locale format (seq 0 (length (bids s))) s in
  tag "div" (txt "h3" "Virtualized Stream Audit Ledger" ::
    map (fun r => tag "div" [txt "span" r.1.1; txt "span" r.1.2; txt "span" r.2]) rows ++
    match none with Some t => [txt "div" t] | None => [] end).

(** *** The console ([BiddingConsole.tsx]) *)
Inductive console_event :=
| Adjust (direction : Z)
| TypeAmount (s : string)
| SubmitBid
| DismissToast.

Definition console_step (b : BiddingConsole.Browser) (s : AuctionState) (e : console_event) (c : Console) :
    Console * list console_effect :=
  match e with
  | Adjust d => (adjust d s c, [])
  | TypeAmount t => (mkConsole t (toast c), [])
  | SubmitBid => submit b s c
  | DismissToast => (mkConsole (bidAmount c) None, [])
  end.

Definition by_type {A} (s : AuctionState) (reverse forward : A) : A :=
  match auctionType s with REVERSE => reverse | FORWARD => forward end.

Definition toast_kind (t : toast_type) : string :=
  match t with ToastError => "error" | ToastSuccess => "success" | ToastInfo => "info" end.

(** The form is submitted by its button, or from its input; both are disabled
    together. *)
Definition bid_form (s : AuctionState) (c : Console) : node console_event :=
  let d := negb (canBid s) in
  tag "form" [
    txt "label" "Your bid (USD)";
    El "button" [On "click" (Adjust (-1)); Disabled d;
      Attr "aria-label" ("Reduce bid by " +:+ num_to_string (minimumBidStep s))] [];
    El "input" [Attr "type" "number"; Attr "min" "0.01"; Attr "step" "0.01"; Attr "value" (bidAmount c);
      Input "change" TypeAmount; Disabled d;
      Attr "placeholder" (match nextValid s with Some n => to_fixed2 n | None => "Enter amount" end)] [];
    El "button" [On "click" (Adjust 1); Disabled d;
      Attr "aria-label" ("Increase bid by " +:+ num_to_string (minimumBidStep s))] [];
    button SubmitBid d (button_label s);
    El "div" [Attr "aria-live" "polite"] (match status_line s with Some t => [Txt t] | None => [] end)].

Definition BiddingConsole (locale2 : num -> string) (s : AuctionState) (c : Console) : node console_event :=
  tag "section" (
    match toast c with
    | Some (m, t) => when (truthy_str (Some m))
        [El "Toast" [Attr "type" (toast_kind t)] [txt "p" m; El "button" [On "click" DismissToast] []]]
    | None => []
    end ++ [
    tag "header" [
      txt "h2" "Place a bid";
      txt "p" (by_type s "Lower bids lead" "Higher bids lead" +:+ " · minimum step $" +:+ to_fixed2 (minimumBidStep s));
      txt "div" (state_label s)];
    tag "div" ([
      txt "p" ("Current " +:+ by_type s "lowest" "highest" +:+ " bid");
      txt "p" (match currentPrice s with Some p => "$" +:+ locale2 p | None => "Open" end)] ++
      match nextValid s with
      | Some n => [tag "p" [Txt "Next valid bid: "; txt "strong" (by_type s "≤" "≥" +:+ " $" +:+ to_fixed2 n)]]
      | None => []
      end);
    bid_form s c]).

(** *** The dialog of the end ([WinnerModal.tsx]) *)
Definition WinnerModal (locale2 : num -> string) (s : AuctionState) (m : Modal) : list (node modal_event) :=
  match winner_modal locale2 s m with
  | None => []
  | Some v =>
      [tag "div" ([txt "h2" "Auction Ended"; txt "h3" "We have a Winner!"] ++
        match v with
        | Winner name amount =>
            [txt "p" "Winning Bidder"; txt "p" name; txt "p" "Winning Amount"; txt "p" amount]
        | NoBids => [txt "p" "No bids were placed."]
        end ++ [button Acknowledge false "Acknowledge"])]
  end.

(** ** The page *)

Record Room := mkRoom {
  rm_slice : AuctionState;
  rm_console : Console;
  rm_modal : Modal;
  rm_auctions : option (list Auction.t);
  detailsModalOpen : bool;
  detailsTab : details_tab;
  qnaModalOpen : bool;
  rm_details : option Details;
  rm_qna : option QnA
}.

Inductive room_event :=
| OpenDetails (t : details_tab)
| CloseDetails
| OpenQnA
| CloseQnA
| OnDetails (e : details_event)
| OnQnA (e : qna_event)
| OnConsole (e : console_event)
| OnModal (e : modal_event)
| AuctionsLoaded (data : list Auction.t)
| OnSlice (a : action).

(** What the browser answers while an event is handled. *)
Record Env := mkEnv { env_now : Z; env_fresh : string; env_browser : BiddingConsole.Browser }.

Section Page.
Context (id : string).

Definition rm_auction (r : Room) : option Auction.t := find_auction id (rm_auctions r).

(** After each event the dialogs that are open are mounted, the others are gone. *)
Definition room_render (r : Room) : Room :=
  let a := rm_auction r in
  mkRoom (rm_slice r) (rm_console r) (rm_modal r) (rm_auctions r) (detailsModalOpen r) (detailsTab r)
    (qnaModalOpen r)
    (if detailsModalOpen r
     then Some (match rm_details r with
                | Some d => details_render a d
                | None => mount_details a (detailsTab r)
                end)
     else None)
    (if qnaModalOpen r then Some (default qna0 (rm_qna r)) else None).

Definition set_slice (s : AuctionState) (c : Console) (m : Modal) (r : Room) : Room :=
  mkRoom s c m (rm_auctions r) (detailsModalOpen r) (detailsTab r) (qnaModalOpen r) (rm_details r) (rm_qna r).

Definition set_dialogs (details : bool) (t : details_tab) (qna : bool) (r : Room) : Room :=
  mkRoom (rm_slice r) (rm_console r) (rm_modal r) (rm_auctions r) details t qna (rm_details r) (rm_qna r).

Definition set_children (d : option Details) (q : option QnA) (r : Room) : Room :=
  mkRoom (rm_slice r) (rm_console r) (rm_modal r) (rm_auctions r) (detailsModalOpen r) (detailsTab r)
    (qnaModalOpen r) d q.

Definition set_auctions (l : list Auction.t) (r : Room) : Room :=
  mkRoom (rm_slice r) (rm_console r) (rm_modal r) (Some l) (detailsModalOpen r) (detailsTab r)
    (qnaModalOpen r) (rm_details r) (rm_qna r).

(** A dispatch; the modal's effect runs when the status has changed. *)
Definition dispatch (env : Env) (a : action) (r : Room) : Room :=
  let s := rm_slice r in
  let s' := reducer (env_now env) (env_fresh env) s a in
  set_slice s' (rm_console r)
    (if bool_decide (auctionStatus s' = auctionStatus s) then rm_modal r
     else modal_step s' StatusEffect (rm_modal r)) r.

Definition perform (env : Env) (r : Room) (e : console_effect) : Room :=
  match e with Store a => dispatch env a r | EmitBid _ _ => r end.

(** The handler of an event: the page after it, and the messages that leave it. *)
Definition room_handle (env : Env) (e : room_event) (r : Room) : Room * list console_effect :=
  match e with
  | OpenDetails t => (set_dialogs true t (qnaModalOpen r) r, [])
  | CloseDetails => (set_dialogs false (detailsTab r) (qnaModalOpen r) r, [])
  | OpenQnA => (set_dialogs (detailsModalOpen r) (detailsTab r) true r, [])
  | CloseQnA => (set_dialogs (detailsModalOpen r) (detailsTab r) false r, [])
  | OnDetails e => (set_children (details_step (rm_auction r) e <$> rm_details r) (rm_qna r) r, [])
  | OnQnA e => (set_children (rm_details r) (qna_step (env_now env) e <$> rm_qna r) r, [])
  | OnConsole e =>
      let '(c, effects) := console_step (env_browser env) (rm_slice r) e (rm_console r) in
      (fold_left (perform env) effects (set_slice (rm_slice r) c (rm_modal r) r), effects)
  | OnModal e => (set_slice (rm_slice r) (rm_console r) (modal_step (rm_slice r) e (rm_modal r)) r, [])
  | AuctionsLoaded l => (set_auctions l r, [])
  | OnSlice a => (dispatch env a r, [])
  end.

Definition room_step (env : Env) (e : room_event) (r : Room) : Room * list console_effect :=
  let '(r', out) := room_handle env e r in (room_render r', out).

Fixpoint room_run (es : list (Env * room_event)) (r : Room) : Room * list console_effect :=
  match es with
  | [] => (r, [])
  | (env, e) :: rest =>
      let '(r1, o1) := room_step env e r in
      let '(r2, o2) := room_run rest r1 in (r2, o1 ++ o2)
  end.

(** The page as it is mounted: the clock's effect has set the skew to zero. *)
Definition room0 (s : AuctionState) : Room :=
  mkRoom (setTimeSkew 0 s) console0 (modal_step s StatusEffect modal0) None false DetailsTab false None None.

Section RoomView.
Context (locale locale2 : num -> string) (local_date : string -> string) (format : Z -> string -> string)
  (isLoaded : bool) (timeLeft : Z).

Definition details_menu : node room_event :=
  tag "div" [
    button (OpenDetails DetailsTab) false "View Auction Details";
    tag "div" [
      button (OpenDetails DetailsTab) false "Text Details";
      button (OpenDetails PhotosTab) false "Item Media";
      button (OpenDetails MapTab) false "Live Route Map"]].

Definition room_header (r : Room) : node room_event :=
  tag "div" [
    tag "div" [
      El "a" [Attr "href" "/"] [];
      txt "h2" (match rm_auction r with
                | Some a => match Auction.auction_type a with FORWARD => "Forward" | REVERSE => "Reverse" end
                | None => "Reverse"
                end +:+ " Auction: #" +:+ id);
      txt "p" (text_of (fun a => Some (Auction.title a)) (rm_auction r) "Loading...")];
    tag "div" [
      button OpenQnA false "Pre-Auction Discussion";
      details_menu;
      El "button" [] [Txt "Share"]]].

Definition panels (r : Room) : node room_event :=
  tag "div" [
    tag "div" [CountdownTimer (auctionStatus (rm_slice r)) timeLeft; Leaderboard locale2 (rm_slice r)];
    tag "div" [map_node OnConsole (BiddingConsole locale2 (rm_slice r) (rm_console r));
               AuditLedger locale2 format (rm_slice r)]].

Definition room_view (r : Room) : node room_event :=
  tag "div" (
    map (map_node OnModal) (WinnerModal locale2 (rm_slice r) (rm_modal r)) ++ [
    El "Sidebar" [] [];
    tag "main" [room_header r; panels r]] ++
    match rm_details r with
    | Some d =>
        [tag "div" [txt "h3" "Auction Information & Media"; button CloseDetails false EmptyString;
          map_node OnDetails (AuctionDetailsView locale local_date isLoaded (rm_auction r) d)]]
    | None => []
    end ++
    match rm_qna r with
    | Some q => [tag "div" [txt "h3" "Pre-Auction Discussion"; button CloseQnA false EmptyString;
                   map_node OnQnA (AuctionQnA q)]]
    | None => []
    end).
End RoomView.
End Page.

(** ** Lemmas *)
Section Facts.
Context (id : string).

(** What bidding depends on. *)
Definition core (r : Room) : AuctionState * Console := (rm_slice r, rm_console r).

(** The events of the dialogs, and of the query behind them. *)
Definition aside (e : room_event) : bool :=
  match e with OnConsole _ | OnSlice _ => false | _ => true end.

Lemma core_dispatch env a r : core (dispatch env a r) = (reducer (env_now env) (env_fresh env) (rm_slice r) a, rm_console r).
Proof. done. Qed.

Lemma core_perform env es r r' : core r = core r' -> core (fold_left (perform env) es r) = core (fold_left (perform env) es r').
Proof.
  revert r r'; induction es as [|e es IH]; intros r r' E; [done|]. simpl. apply IH.
  destruct e; simpl; [|done]. rewrite !core_dispatch. injection E as -> ->. done.
Qed.

Lemma aside_step env e r : aside e = true -> core (room_step id env e r).1 = core r /\ (room_step id env e r).2 = [].
Proof. by destruct e. Qed.

Lemma core_render r : core (room_render id r) = core r.
Proof. done. Qed.

Lemma core_step env e r r' : core r = core r' ->
  core (room_step id env e r).1 = core (room_step id env e r').1 /\ (room_step id env e r).2 = (room_step id env e r').2.
Proof.
  intros E. assert (Es : rm_slice r = rm_slice r') by (by injection E).
  assert (Ec : rm_console r = rm_console r') by (by injection E).
  unfold room_step. destruct e; cbn [room_handle]; rewrite ?core_render; try (by split); cbn [fst snd];
    rewrite ?core_render, ?Es, ?Ec.
  - destruct (console_step (env_browser env) (rm_slice r') e (rm_console r')) as [c out].
    cbn [fst snd]. rewrite !core_render. split; [by apply core_perform|done].
  - split; [|done]. unfold core; simpl. by rewrite Es, Ec.
Qed.

Lemma room_run_cons env e es r :
  room_run id ((env, e) :: es) r =
  ((room_run id es (room_step id env e r).1).1, (room_step id env e r).2 ++ (room_run id es (room_step id env e r).1).2).
Proof. simpl. destruct (room_step id env e r) as [r1 o1]. simpl. by destruct (room_run id es r1). Qed.

Lemma aside_run es r r' : core r = core r' ->
  core (room_run id es r).1 = core (room_run id (js_filter (fun x => negb (aside x.2)) es) r').1 /\
  (room_run id es r).2 = (room_run id (js_filter (fun x => negb (aside x.2)) es) r').2.
Proof.
  revert r r'; induction es as [|[env e] es IH]; intros r r' E; [done|].
  rewrite room_run_cons. unfold js_filter. cbn [List.filter]. cbn [snd]. destruct (aside e) eqn:Ea; cbn [negb].
  - destruct (aside_step env e r Ea) as [E1 ->]. apply IH. by rewrite E1.
  - rewrite room_run_cons. destruct (core_step env e r r' E) as [E1 ->]. cbn [fst snd].
    destruct (IH _ _ E1) as [H1 H2]. unfold js_filter in *. by rewrite H1, H2.
Qed.

Lemma room_run_app es1 es2 r :
  (room_run id (es1 ++ es2) r).1 = (room_run id es2 (room_run id es1 r).1).1.
Proof.
  revert r; induction es1 as [|[env e] es1 IH]; intros r; [done|]. rewrite <-app_comm_cons, !room_run_cons.
  cbn [fst]. apply IH.
Qed.

(** What is asked in one opening of the discussion, given what is typed so far. *)
Fixpoint posts (typed : string) (es : list (Env * room_event)) : list Question :=
  match es with
  | [] => []
  | (env, OnQnA (TypeQuestion s)) :: rest => posts s rest
  | (env, OnQnA Ask) :: rest =>
      if blank typed then posts typed rest else asked (env_now env) typed :: posts EmptyString rest
  | _ :: rest => posts typed rest
  end.

Definition closes (e : room_event) : bool := match e with CloseQnA => true | _ => false end.

Lemma dialogs_kept env es r :
  qnaModalOpen (fold_left (perform env) es r) = qnaModalOpen r /\ rm_qna (fold_left (perform env) es r) = rm_qna r.
Proof.
  revert r; induction es as [|e es IH]; intros r; [done|]. simpl. destruct (IH (perform env r e)) as [-> ->].
  by destruct e.
Qed.

Lemma discussion_run es r q :
  Forall (fun x => closes x.2 = false) es -> qnaModalOpen r = true -> rm_qna r = Some q ->
  exists q', rm_qna (room_run id es r).1 = Some q' /\ threads q' = threads q ++ posts (newQuestion q) es.
Proof.
  revert r q; induction es as [|[env e] es IH]; intros r q Hc Ho Hq.
  - exists q. split; [done|]. by rewrite app_nil_r.
  - inversion Hc as [|? ? He Hc']; subst. rewrite room_run_cons. cbn [fst].
    assert (Hr : qnaModalOpen (room_step id env e r).1 = true /\
      rm_qna (room_step id env e r).1 =
        Some (match e with OnQnA e => qna_step (env_now env) e q | _ => q end)).
    { destruct e; try done; unfold room_step; simpl; rewrite ?Ho, ?Hq; try done.
      destruct (console_step (env_browser env) (rm_slice r) e (rm_console r)) as [c out]. simpl.
      destruct (dialogs_kept env out (set_slice (rm_slice r) c (rm_modal r) r)) as [-> ->]. simpl.
      by rewrite Ho, Hq. }
    destruct Hr as [Ho' Hq']. destruct (IH _ _ Hc' Ho' Hq') as (q' & H1 & H2). exists q'. split; [done|].
    rewrite H2. destruct e as [t| | | |e|[s|]|e|e|l|a]; try done. simpl. unfold handleSubmit.
    destruct (blank (newQuestion q)); [done|]. simpl. by rewrite <-app_assoc.
Qed.

(** *** The gallery *)

(** The dialog is mounted while it is open; the gallery while its tab is chosen and
    there is something to show, and it shows one of the auction's files. *)
Definition gallery_ok (media : list Media) (d : Details) : Prop :=
  match dv_gallery d with
  | None => dv_activeTab d <> PhotosTab \/ media = []
  | Some g => dv_activeTab d = PhotosTab /\ exists m, g = Some m /\ m ∈ media
  end.

Definition room_ok (r : Room) : Prop :=
  match rm_details r with
  | None => detailsModalOpen r = false
  | Some d => detailsModalOpen r = true /\ gallery_ok (media_of (rm_auction id r)) d
  end.

(** What can happen: a click on a thumbnail that is shown, a reload of the list
    that finds the auction with the files it had. *)
Definition room_can (e : room_event) (r : Room) : Prop :=
  match e with
  | OnDetails (SelectMedia m) => m ∈ media_of (rm_auction id r)
  | AuctionsLoaded l =>
      rm_details r = None \/ (exists d, rm_details r = Some d /\ dv_gallery d = None) \/
      media_of (find_auction id (Some l)) = media_of (rm_auction id r)
  | _ => True
  end.

Lemma render_ok auction d :
  (forall g, dv_gallery d = Some g -> exists m, g = Some m /\ m ∈ media_of auction) ->
  gallery_ok (media_of auction) (details_render auction d).
Proof.
  intros H. unfold gallery_ok, details_render. simpl.
  destruct (dv_activeTab d), (media_of auction) as [|m l]; simpl; auto.
  split; [done|]. destruct (dv_gallery d) as [g|]; simpl; [by apply H|]. exists m. split; [done|left].
Qed.

Lemma room_render_ok r :
  (forall d g, rm_details r = Some d -> dv_gallery d = Some g ->
   exists m, g = Some m /\ m ∈ media_of (rm_auction id r)) -> room_ok (room_render id r).
Proof.
  intros H. unfold room_ok, room_render. simpl. destruct (detailsModalOpen r); [|done]. split; [done|].
  change (rm_auction id _) with (rm_auction id r).
  destruct (rm_details r) as [d|]; apply render_ok; [by eauto|]. done.
Qed.

Lemma details_kept env es r :
  rm_details (fold_left (perform env) es r) = rm_details r /\
  rm_auction id (fold_left (perform env) es r) = rm_auction id r.
Proof.
  revert r; induction es as [|e es IH]; intros r; [done|]. simpl. destruct (IH (perform env r e)) as [-> ->].
  by destruct e.
Qed.

Lemma gallery_shown r d g : room_ok r -> rm_details r = Some d -> dv_gallery d = Some g ->
  exists m, g = Some m /\ m ∈ media_of (rm_auction id r).
Proof.
  unfold room_ok, gallery_ok. intros H Hd Hg. rewrite Hd, Hg in H. by destruct H as (_ & _ & H).
Qed.

(** What the panels offer. *)
Lemma console_offers locale2 s c :
  offered (BiddingConsole locale2 s c) =
  match toast c with Some (m, _) => when (truthy_str (Some m)) [DismissToast] | None => [] end ++
  when (canBid s) [Adjust (-1); Adjust 1; SubmitBid].
Proof.
  unfold BiddingConsole, bid_form. rewrite offered_tag, flat_map_app. f_equal.
  - destruct (toast c) as [[m t]|]; [|done]. by destruct (truthy_str (Some m)).
  - simpl. destruct (nextValid s), (canBid s), (status_line s); reflexivity.
Qed.

Lemma quiet_panels {A} locale locale2 format s timeLeft :
  offered (CountdownTimer (A := A) (auctionStatus s) timeLeft) = [] /\
  offered (Leaderboard (A := A) locale2 s) = [] /\ offered (AuditLedger (A := A) locale format s) = [].
Proof.
  split; [done|]. split.
  - unfold Leaderboard. simpl. rewrite !app_nil_r. by apply offered_none; intros [].
  - unfold AuditLedger. destruct (audit_ledger _ _ _ _) as [rows none]. simpl. rewrite flat_map_app.
    rewrite offered_none by done. by destruct none.
Qed.

Lemma panels_offer locale2 format timeLeft r :
  offered (panels locale2 format timeLeft r) =
  map OnConsole (offered (BiddingConsole locale2 (rm_slice r) (rm_console r))).
Proof.
  destruct (quiet_panels (A := room_event) locale2 locale2 format (rm_slice r) timeLeft) as (Q1 & Q2 & Q3).
  unfold panels, tag. cbn [offered flat_map is_disabled existsb own_events omap list_omap app].
  by rewrite Q1, Q2, Q3, offered_map_node, !app_nil_r.
Qed.

(** A part of the page that is another component's offers only its events. *)
Lemma other_panel {A} (f : A -> room_event) (n : node A) :
  (forall a, f a <> OnConsole SubmitBid) -> OnConsole SubmitBid ∉ offered (map_node f n).
Proof.
  intros Hf. rewrite offered_map_node. intros (a & Ha & _)%list_elem_of_fmap. by apply (Hf a).
Qed.

Lemma dialog_offers {A} title close (f : A -> room_event) (n : node A) :
  (forall a, f a <> OnConsole SubmitBid) -> close <> OnConsole SubmitBid ->
  OnConsole SubmitBid ∉ flat_map offered [tag "div" [txt "h3" title; button close false EmptyString; map_node f n]].
Proof.
  intros Hf Hc. cbn [flat_map]. rewrite app_nil_r, offered_tag. cbn [flat_map].
  rewrite app_nil_r, !elem_of_app. intros [H|[H|H]];
    [by apply not_elem_of_nil in H|by apply offered_button in H as [_ ?]|by apply other_panel in H].
Qed.

(** ** Properties *)

(** the discussion and the details change nothing outside themselves: without
    their events a visit of the room ends with the same auction state and the
    same console, and the same bids have left it.  While the discussion is open
    it lists the two built-in threads and then what was asked, in order; closing
    it loses all of it: it opens again with the built-in threads. *)
Theorem questions_reach_nobody es r :
  (let bidding := js_filter (fun x => negb (aside x.2)) es in
   core (room_run id es r).1 = core (room_run id bidding r).1 /\
   (room_run id es r).2 = (room_run id bidding r).2) /\
  (Forall (fun x => closes x.2 = false) es -> qnaModalOpen r = true -> rm_qna r = Some qna0 ->
   exists q, rm_qna (room_run id es r).1 = Some q /\ threads q = canned ++ posts EmptyString es) /\
  (forall env env', rm_qna (room_run id (es ++ [(env, CloseQnA); (env', OpenQnA)]) r).1 = Some qna0).
Proof.
  split; [by apply aside_run|]. split.
  - intros Hc Ho Hq. by apply (discussion_run es r qna0).
  - intros env env'. by rewrite room_run_app.
Qed.

(** while the page is used, the details dialog is mounted exactly while it is
    open, and its gallery always shows one of the auction's own files. *)
Theorem gallery_shows_own_file env e r :
  room_ok r -> room_can e r -> room_ok (room_step id env e r).1.
Proof.
  intros Hr Hc. pose proof (fun d g => gallery_shown r d g Hr) as Hg. unfold room_step.
  destruct e as [t| | | |e|e|e|e|l|a]; cbn [room_handle fst snd]; try (apply room_render_ok; exact Hg).
  - apply room_render_ok. simpl. change (rm_auction id _) with (rm_auction id r).
    destruct (rm_details r) as [d|]; [|done]. simpl. intros d' g [= <-].
    assert (Hs : forall g, dv_gallery (details_step (rm_auction id r) e d) = Some g ->
      exists m, g = Some m /\ m ∈ media_of (rm_auction id r)); [|by apply Hs].
    intros g'. assert (Hok : gallery_ok (media_of (rm_auction id r)) (details_step (rm_auction id r) e d)).
    { apply render_ok. intros x Hx. destruct e as [t|m|route]; simpl in Hx; [by eapply Hg| |by eapply Hg].
      destruct (dv_gallery d); [|done]. simpl in Hx. injection Hx as <-. by exists m. }
    unfold gallery_ok in Hok. intros E. rewrite E in Hok. by destruct Hok as [_ ?].
  - destruct (console_step (env_browser env) (rm_slice r) e (rm_console r)) as [c out]. cbn [fst].
    apply room_render_ok.
    destruct (details_kept env out (set_slice (rm_slice r) c (rm_modal r) r)) as [-> ->]. exact Hg.
  - apply room_render_ok. simpl. unfold rm_auction at 1. simpl. simpl in Hc.
    destruct Hc as [Hc|[(d & Hd & Hn)|Hc]].
    + by rewrite Hc.
    + rewrite Hd. intros d' g [= <-]. by rewrite Hn.
    + rewrite Hc. exact Hg.
Qed.

(** the page offers to send a bid exactly when the slice says that the auction
    is active, the socket is connected and the user takes part. *)
Theorem room_offers_bid_iff locale locale2 local_date format isLoaded timeLeft r :
  OnConsole SubmitBid ∈ offered (room_view id locale locale2 local_date format isLoaded timeLeft r) <->
  canBid (rm_slice r) = true.
Proof.
  unfold room_view. rewrite offered_tag, !flat_map_app, !elem_of_app.
  assert (Hp : offered (tag "main" [room_header id r; panels locale2 format timeLeft r]) =
    offered (room_header id r) ++ map OnConsole (offered (BiddingConsole locale2 (rm_slice r) (rm_console r)))).
  { rewrite offered_tag. cbn [flat_map]. by rewrite panels_offer, app_nil_r. }
  cbn [flat_map]. rewrite Hp, console_offers, map_app, !elem_of_app. split.
  - intros [H|[H|[H|H]]].
    + unfold WinnerModal in H. destruct (winner_modal _ _ _); [|by apply not_elem_of_nil in H].
      cbn [map flat_map] in H. rewrite app_nil_r in H. by apply other_panel in H.
    + destruct H as [H|[[H|[H|H]]|H]]; [..|by apply not_elem_of_nil in H].
      * by apply not_elem_of_nil in H.
      * change (offered (room_header id r)) with [OpenQnA; OpenDetails DetailsTab; OpenDetails DetailsTab;
          OpenDetails PhotosTab; OpenDetails MapTab] in H.
        rewrite !elem_of_cons, elem_of_nil in H. by intuition.
      * destruct (toast _) as [[m t]|]; [|by apply not_elem_of_nil in H].
        destruct (truthy_str (Some m)); [|by apply not_elem_of_nil in H].
        by apply list_elem_of_singleton in H.
      * destruct (canBid _); [done|]. by apply not_elem_of_nil in H.
    + destruct (rm_details r); [|by apply not_elem_of_nil in H]. by apply dialog_offers in H.
    + destruct (rm_qna r); [|by apply not_elem_of_nil in H]. by apply dialog_offers in H.
  - intros Hc. right. left. right. left. right. right. rewrite Hc. cbn [when map]. rewrite !elem_of_cons. tauto.
Qed.
End Facts.

(** ** Witnesses *)
Definition sample_env : Env :=
  mkEnv 5 "f" (BiddingConsole.mkBrowser "c1" 5 6 (Some "u1") (Some "Ann")).
Definition room_slice : AuctionState :=
  mkState (Some "a1") [] (Some (of_Z 120)) (Some (of_Z 120)) REVERSE (of_Z 5) true 0 (Some 1) (Some 1000) active true.
Definition visit : list (Env * room_event) :=
  [(sample_env, OnQnA (TypeQuestion "Is it insured?")); (sample_env, OnConsole (TypeAmount "110"));
   (sample_env, OnQnA Ask); (sample_env, OnConsole SubmitBid)].

Lemma questions_reach_nobody_witness :
  let r := (room_step "a1" sample_env OpenQnA (room0 room_slice)).1 in
  (exists q, rm_qna (room_run "a1" visit r).1 = Some q /\ threads q = canned ++ [asked 5 "Is it insured?"]) /\
  length (room_run "a1" visit r).2 = 2%nat /\
  rm_qna (room_run "a1" (visit ++ [(sample_env, CloseQnA); (sample_env, OpenQnA)]) r).1 = Some qna0.
Proof.
  set (r := (room_step "a1" sample_env OpenQnA (room0 room_slice)).1).
  destruct (questions_reach_nobody "a1" visit r) as ((_ & H1) & H2 & H3).
  split; [apply H2; [by repeat constructor|reflexivity|reflexivity]|]. split; [|by apply H3].
  rewrite H1. vm_compute. reflexivity.
Defined.

Lemma gallery_shows_own_file_witness :
  room_ok "a1" (room_step "a1" sample_env (OpenDetails PhotosTab) (room0 room_slice)).1.
Proof. apply gallery_shows_own_file; [reflexivity|exact I]. Defined.
