(* ===== verification/Pages.v ===== *)
(** * Small pages and the frame's leftovers

    The root layout's session, the theme switch, the sparkline, the notification
    list, the seller's badge, the store that joins the two slices
    ([store/store.ts]), the template components ([packages/ui]), and the pages that only put a component into the
    frame, with the administrator's guard where they have one. *)

From S2P Require Import Prelude JSNum JSText ApiTypes SocketContext Markup Shell.
From Stdlib Require Import Ascii.
From S2P Require AuctionSlice.
#[local] Open Scope Z_scope.

(** ** The root layout ([app/layout.tsx])

    The server renders the page for a request with its cookies.  The answer of
    [/api/auth/me] is [None] when the request fails or is refused, otherwise the
    [userId] of its body. *)
Definition server_user_id (cookie : option string) (me : string -> option (option string)) : string :=
  match cookie with
  | Some token =>
      if truthy_str (Some token)
      then match me token with Some userId => or_ostr userId EmptyString | None => EmptyString end
      else EmptyString
  | None => EmptyString
  end.

(** The providers, outermost first ([app/providers.tsx]). *)
Definition Providers {A} (serverUserId : string) (children : node A) : node A :=
  tag "QueryClientProvider" [
    tag "Provider" [
      El "ThemeProvider" [Attr "defaultTheme" "light"] [
        tag "AuthProvider" [
          El "SocketProvider" [Attr "serverUserId" serverUserId] [
            tag "AuthGuard" [children]]]]];
    tag "ReactQueryDevtools" []].

Definition RootLayout {A} (cookie : option string) (me : string -> option (option string)) (children : node A) :
    node A :=
  El "html" [Attr "lang" "en"] [
    tag "body" [Providers (server_user_id cookie me) (tag "AppShell" [children])]].

(** ** The theme switch ([ThemeToggle.tsx]) *)
Record ThemeSwitch := mkTheme { th_theme : option string; th_mounted : bool }.

Inductive theme_event := Mounted | Toggle.

Definition is_dark (t : ThemeSwitch) : bool := bool_decide (th_theme t = Some "dark").

Definition theme_step (e : theme_event) (t : ThemeSwitch) : ThemeSwitch :=
  match e with
  | Mounted => mkTheme (th_theme t) true
  | Toggle => mkTheme (Some (if is_dark t then "light" else "dark")) (th_mounted t)
  end.

Definition ThemeToggle (t : ThemeSwitch) : node theme_event :=
  if th_mounted t
  then El "button" [On "click" Toggle; Attr "aria-label" "Toggle Theme"] [tag (if is_dark t then "Moon" else "Sun") []]
  else El "button" [] [tag "div" []].

(** ** The sparkline ([TrendChart.tsx]) *)
Section Trend.
(** d3: the value of a linear scale, and the smooth path through points. *)
Context (scale : num * num -> num * num -> num -> num) (smooth_line : list (num * num) -> option string).

Definition trend_points (data : list num) : list (num * num) :=
  let x := scale (nzero, of_Z (Z.of_nat (length data) - 1)) (nzero, of_Z 100) in
  let y := scale (nmul (js_min data) (Number "0.9"), nmul (js_max data) (Number "1.1")) (of_Z 40, nzero) in
  imap (fun i d => (x (of_Z (Z.of_nat i)), y d)) data.

(** The effect on the data: an empty path leaves the last one. *)
Definition trend_effect (data : list num) (pathData : string) : string :=
  match smooth_line (trend_points data) with
  | Some path => or_str path pathData
  | None => pathData
  end.

Definition TrendChart {A} (color pathData : string) : node A :=
  tag "div" [
    El "svg" [Attr "viewBox" "0 0 100 40"]
      (when (truthy_str (Some pathData)) [El "path" [Attr "d" pathData; Attr "stroke" color] []])].
End Trend.

(** ** Notifications ([app/notifications/page.tsx]) *)
Inductive notification_type := alert | success | Info | system.

#[export] Instance notification_type_eq_dec : EqDecision notification_type.
Proof. solve_decision. Defined.

Record Notification := mkNotification {
  n_id : string;
  n_type : notification_type;
  n_title : string;
  n_desc : string;
  n_time : string;
  n_read : bool
}.

Definition notification_row {A} (n : Notification) : node A :=
  tag "div" ([txt "h4" (n_title n); txt "span" (n_time n); txt "p" (n_desc n)] ++
    when (bool_decide (n_type n = alert)) [link "/shipment/1" "Re-enter Auction"]).

Definition notifications_view {A} (notifs : list Notification) : node A :=
  tag "main" [
    txt "h1" "Notifications";
    txt "p" "Stay updated on your bids and marketplace activity.";
    El "button" [] [Txt "Mark all as read"];
    tag "div" (match notifs with
               | [] => [txt "p" "You have no new notifications."]
               | _ => map notification_row notifs
               end)].

(** The page's list is the empty list. *)
Definition NotificationsPage {A} : node A := tag "div" [tag "Sidebar" []; notifications_view []].

(** ** Pages that frame one component *)

(** What [AdminGuard] renders. *)
Definition admin_guard_view {A} (v : admin_view) (children : node A) : node A :=
  match v with
  | Checking => txt "div" "Checking administrator access…"
  | AdminRequired =>
      tag "div" [txt "h1" "Admin access required";
        txt "p" "Only platform administrators can create auctions."; link "/dashboard" "Return to dashboard"]
  | AdminChildren => children
  end.

Definition framed {A} (texts : list (node A)) (content : node A) : node A :=
  tag "div" [tag "Sidebar" []; tag "main" [tag "div" texts; content]].

Definition DashboardPage {A} : node A := framed [] (tag "Dashboard" []).

Definition ProfilePage {A} : node A :=
  framed [txt "h1" "Account Settings"; txt "p" "Manage your personal and business profile details."]
    (tag "UserProfile" []).

Section Guarded.
Context {A : Type} (isLoading : bool) (role : option UserRole).

Definition guarded (content : node A) : node A := admin_guard_view (AdminGuard isLoading role) content.

Definition NewAuctionPage (form : node A) : node A :=
  guarded (framed [
    txt "div" "New market event";
    txt "h1" "Create an auction for anything";
    txt "p" "Choose bid direction independently from the item or service. Logistics details are optional for both auction types."]
    form).

Definition NewForwardAuctionPage (form : node A) : node A :=
  guarded (framed [
    txt "h1" "Create Forward Auction";
    txt "p" "List abandoned freight or physical products to sell to the highest bidder."]
    (tag "div" [
      txt "h3" "Public Liquidation";
      txt "p" "Forward auctions are open to the general public. Buyers will bid UP starting from your minimum reserve price. This is not for logistics loads, but for selling physical products.";
      form])).

Definition NewShipmentPage (form : node A) : node A :=
  guarded (framed [
    txt "h1" "Post New Shipment";
    txt "p" "Create a new reverse auction and invite carriers to bid."]
    form).
End Guarded.

(** ** The store ([store/store.ts])

    The root state has the two slices, and every action goes to both reducers; a
    dispatch to the auction's slice carries the clock and the random text it reads. *)
Record RootState := mkRoot { ui : UiState; auction : AuctionSlice.AuctionState }.

Inductive root_action := Ui (a : ui_action) | AuctionAt (now : Z) (fresh : string) (a : AuctionSlice.action).

Definition store_dispatch (s : RootState) (a : root_action) : RootState :=
  match a with
  | Ui a => mkRoot (ui_reducer (ui s) a) (auction s)
  | AuctionAt now fresh a => mkRoot (ui s) (AuctionSlice.reducer now fresh (auction s) a)
  end.

(** ** The template package ([packages/ui]) *)
Definition Button (children : list (node string)) (appName : string) : node string :=
  El "button" [On "click" ("Hello from your " +:+ appName +:+ " app!")] children.

(** The address ends with a quotation mark, which the template has. *)
Definition Card {A} (title href : string) (children : list (node A)) : node A :=
  El "a" [Attr "href" (href +:+ "?utm_source=create-turbo&utm_medium=basic&utm_campaign=create-turbo" +:+ String "034"%char EmptyString)]
    [tag "h2" [Txt title; txt "span" "->"]; tag "p" children].

Definition Code {A} (children : list (node A)) : node A := tag "code" children.

(** ** The badge and the placeholder *)
Definition SellerProfileBadge {A} : node A :=
  tag "div" (txt "div" "GF" :: txt "h3" "Global Freight Co." :: txt "p" "Established 2018" ::
    txt "span" "4.9" :: txt "p" "124 Reviews" :: txt "p" "Total Auctions" :: txt "p" "342" ::
    txt "p" "Response Rate" :: [txt "p" "98%"]).

Definition AuctionLoading {A} : node A :=
  El "div" [Attr "role" "status"; Attr "aria-label" "Loading auction"] [txt "span" "Loading auction details…"].

(** ** Properties *)

(** the slices are independent: after any history of dispatches each has the state
    that its own actions give it, in their order. *)
Theorem store_is_product l s :
  fold_left store_dispatch l s =
    mkRoot (fold_left ui_reducer (omap (fun a => match a with Ui a => Some a | _ => None end) l) (ui s))
      (fold_left (fun s a => AuctionSlice.reducer a.1.1 a.1.2 s a.2)
        (omap (fun a => match a with AuctionAt now fresh a => Some (now, fresh, a) | _ => None end) l) (auction s)).
Proof. revert s. induction l as [|[a|now fresh a] l IH]; intros s; [by destruct s| |]; simpl; by rewrite IH. Qed.

(** the switch goes back and forth between the two themes once it was used. *)
Theorem toggle_twice t : is_dark t = true \/ th_theme t = Some "light" ->
  theme_step Toggle (theme_step Toggle t) = t.
Proof.
  destruct t as [theme m]. unfold theme_step, is_dark. simpl.
  intros [->%bool_decide_eq_true|[= ->]]; reflexivity.
Qed.

(** the three pages that create auctions offer, to everyone but a confirmed
    administrator, nothing of their form. *)
Theorem creation_pages_are_guarded {A} isLoading role (form : node A) page :
  page = NewAuctionPage isLoading role form \/ page = NewForwardAuctionPage isLoading role form \/
  page = NewShipmentPage isLoading role form ->
  (offered page = if negb isLoading && bool_decide (role = Some ADMIN) then offered form else []).
Proof.
  assert (F : forall texts content, offered (framed (A := A) texts content) = flat_map offered texts ++ offered content)
    by (intros; unfold framed, tag; simpl; by rewrite !app_nil_r).
  intros [->|[->| ->]];
    unfold NewAuctionPage, NewForwardAuctionPage, NewShipmentPage, guarded, AdminGuard;
    destruct isLoading; try done; destruct (bool_decide _); try done; cbn [admin_guard_view negb andb];
    rewrite F; simpl; by rewrite ?app_nil_r.
Qed.
